(* ===== verification/_CoqProject ===== *)
-Q . S2P
Prelude.v
GoStd.v
Address.v
GoEncoding.v
GoJson.v
JsonLayout.v
Sql.v
SqlText.v
SqlTable.v
Schema.v
TableLoader.v
Preflight.v
Cdc.v
Config.v
Transform.v
Batcher.v
Sink.v
Checkpoint.v
CheckpointTable.v
Runner.v
DeadLetters.v
Delivery.v
Destination.v
Convergence.v
Snapshot.v
LiveScan.v
Binlog.v
Http.v
Elasticsearch.v
ElasticsearchAdmin.v
Generate.v
Supervisor.v
Tasks.v
Telemetry.v
ClickHouse.v
Wiring.v
Startup.v
Tail.v
Commands.v
Diagnose.v
Replicate.v
Pipelines.v
Main.v
Endpoints.v
Sample.v
Witnesses.v
BinlogWitnesses.v
ScanWitnesses.v
LiveWitnesses.v
AdminWitnesses.v
StoreWitnesses.v
LetterWitnesses.v
StartupWitnesses.v
CommandWitnesses.v
PipelineWitnesses.v
