(* ===== verification/Prelude.v ===== *)
(** * changeflow: a verification development

    changeflow reads the binary log of a MySQL server and keeps destinations
    (Elasticsearch indices, ClickHouse tables) equal to its tables. This library
    models the Go program under [src/] and proves what makes it correct; where
    the program falls short, the theorem says how.

    ** The program and its files

    A source produces change events: the binlog reader ([source/binlog]) or, for
    the rows that exist already, the table scan ([source/snapshot]). The
    supervisor ([supervisor]) routes each event to the streams of its table. A
    stream's pipeline ([pipeline]) turns an event into documents, batches them,
    writes batches to a sink ([sink]), records what the sink refused in a dead
    letter queue and only then saves its position in the checkpoint store
    ([checkpoint]). Every write carries a version, and destinations keep the
    highest, so reading something twice changes nothing.

    - [Prelude]: results, the state-and-error monad [eff], machine integers,
      lists, tactics. [GoStd], [GoEncoding], [GoJson], [JsonLayout], [Sql]: the
      parts of Go's standard library the program uses, over byte strings (strings,
      strconv, sort, UTF-8, hex, base64, SHA-256, JSON in both directions, ranging
      over a map, scanning the rows of a query). [Address]: what the program makes
      of a source's address ([mysql.go], [build.go]).
    - [Schema] ([internal/schema]): columns, keys, column selection, the type
      mapping, ENUM and SET labels, the cache of definitions. [TableLoader]
      ([schema/store.go], [DBLoader]): the queries that read a definition.
      [Generate] ([schema/generate.go]): the mapping and the table a stream's
      destination is created with.
    - [Preflight] ([internal/preflight]): the checks of the source.
    - [Cdc] ([internal/cdc/event.go]): row values, events and documents.
    - [Config] ([internal/config]): the file's records, environment references,
      defaults, validation, sizes, the memory estimate.
    - [Transform], [Batcher], [Runner] ([internal/pipeline]): compiling a mapping
      to a plan and applying it, batching, and the loop that writes first and
      records afterwards.
    - [Sink] ([internal/sink/sink.go]), [Http] (requests, timers, back-off),
      [Elasticsearch] ([sink/elasticsearch/bulk.go]), [ElasticsearchAdmin]
      ([validate.go], [alias.go], [bulkload.go]), [ClickHouse]
      ([sink/clickhouse/insert.go]): encoding, retries, splitting, isolation, and
      the administration of an index.
    - [Checkpoint] ([checkpoint.go], [memory.go], [seq.go]): the record, the store
      interface with its laws, the in-memory store, and the allocator of
      versions. [CheckpointTable] ([mysql.go]): the store kept in a MySQL table,
      which refines that interface, and its advisory locks.
    - [DeadLetters] ([sink/dlq]): the files of refused documents.
    - [Snapshot] ([source/snapshot/scanner.go]) and [Binlog]
      ([source/binlog/streamer.go]): the two readers.
    - [Supervisor] ([supervisor/router.go], [snapshot.go], [build.go]): the
      router, the position all streams start from, the state machine of the
      initial scan, and how a stream is built from its configuration. [Tasks]
      ([group.go], [stream.go], [health.go]): tasks that stop together, and
      readiness. [Telemetry] ([internal/telemetry], [health.go]): the metrics, the
      observer that feeds them, the endpoints. [Wiring]: the scan's promotion and an index's acceptance over
      the Elasticsearch administration. [Startup] ([supervisor.go], [build.go]):
      a run from its checks to the release of its locks. [Replicate] ([run.go],
      [supervisor.go], [stream.go]): the run as a whole, with its connections, its
      scans and the reader its streams share. [Pipelines] ([stream.go],
      [snapshot.go], the goroutines of the readers): the reader, the router, the
      queues, the pipelines and the group of tasks as one machine of steps taken
      in any order, and the same for a scan and its pipeline.
    - [Tail] ([internal/tail]): events printed as lines and captured as files.
    - [Commands], [Diagnose] ([cmd/changeflow]): the subcommands; [Commands] has
      [status.go], [resnapshot.go], [schema.go] and [validate.go], [Diagnose] has
      [diagnose.go] and the report of [mysql.go]. [Main] ([root.go]): the flags
      each declares, the subcommand a command line runs, the exit status.
    - [Destination], [Delivery], [Convergence], [LiveScan], [Endpoints]:
      specifications and the theorems that join the components.
    - [Sample], [Witnesses], [BinlogWitnesses], [ScanWitnesses], [LiveWitnesses],
      [AdminWitnesses], [StoreWitnesses], [LetterWitnesses], [StartupWitnesses],
      [CommandWitnesses], [PipelineWitnesses]: concrete instances of every interface and each theorem
      applied to them.

    ** How the state corresponds

    A Go struct is a record and its method a function that returns the new
    record. What lies outside (database, HTTP, file system, timers, clocks,
    channels, the stores behind an interface) is a type [W] of worlds with a
    class of operations: a function of type [eff W E A] takes the world, may
    fail, and keeps the world it reached when it does. Laws that a theorem needs
    of such an interface are a class of their own ([StoreLaws], [LockLaws],
    [FileLaws], [TimerLaws], [BackfillLaws], [GtidLaws], [ReaderLaws],
    [QueueLaws], [MapOrder]) or a record ([serves]), each with an instance in the
    witness files. Third-party code (decimals, time zones, YAML, GTID sets, the
    replication client) is a class of functions. Errors are constructors, without
    their wording; an index out of range is an error of its own, and theorems say
    where it cannot happen. A [uint64] or [int64] is a [Z] wrapped after each
    operation that can leave its range. Strings are byte strings.

    ** What is shown

    - Delivery: for any sink, store, queue, observer and clock, a position is
      saved only when all before it was delivered or recorded as refused; a run
      that ends well delivered everything once and in order; an outside that
      works makes it end ([Delivery]).
    - Convergence: the documents of a stream of events leave the image of the
      table in a destination that orders by version, and so does a run that
      crashed anywhere and resumed from any recorded position ([Convergence]); a
      scan of a table that changes while it is read, followed by the changes
      since before it, leaves exactly the table ([LiveScan]).
    - Reading: an event's position resumes at its own transaction ([Binlog]); a
      scan sends every row once in key order and resumes after its cursor
      ([Snapshot]); every stream gets exactly the events of its table, and the
      shared start skips none ([Supervisor]); the reader the
      streams share covers what each of them still needs ([Replicate]).
    - Running: however the goroutines of a run interleave, positions are saved only
      behind what was delivered, queues stay within their buffers, nothing is sent
      on a closed channel, the run neither deadlocks nor goes on for ever, and it
      does not end unasked without reporting a failure; a scan counts as done only
      when every row was delivered ([Pipelines]).
    - Positions: versions grow strictly across restarts ([Checkpoint]); the MySQL
      store keeps the laws of the store's interface, and what it saves is what it
      loads ([CheckpointTable]).
    - Dead letters: recording only adds to the file whatever fails, and what was
      recorded is what is read ([DeadLetters]).
    - Starting: a run streams only from a source that passed its checks, with
      every stream locked, compiled and its destination found fit, and frees its
      locks whatever fails ([Startup]); the checks pass for exactly the sources
      that can be read from ([Preflight]); a definition is the one the server
      declares ([TableLoader]); the first failure of a group is the one reported
      ([Tasks]).
    - Sinks: each document of a batch is accounted for through retries, splits
      and isolation; requests are read back as the documents they were made of;
      writing ends ([Elasticsearch], [ClickHouse]); a bulk load restores what it
      changed, a finished scan moves the alias, an accepted index holds the
      column's integers ([ElasticsearchAdmin], [Wiring]).
    - Generating: the mapping generated for a stream is one the validation of its
      index accepts ([Generate]).
    - Transforming: keys are injective, values are exact, strings are read back,
      applying a plan never panics, its effect is an upsert or a removal
      ([Transform]); mapped types hold every value of a column ([Schema]).
    - Commands: [status] prints the state of every stream and changes nothing; a
      new scan is asked for under the stream's lock and clears its scan alone
      ([Commands]); [tail] prints only from a source that passed its checks
      ([Diagnose]), and what it captures is the stream it saw ([Tail]).
    - Configuration: what is accepted can be built ([Config], [Supervisor]).
    - Where it falls short: versions of a second stream that the destination
      drops; DDL identifiers that never enter a position; definitions left stale
      by DDL on two tables; cursors of binary keys that skip rows; generated keys
      that panic; a key change that stops ClickHouse and an empty key that stops
      Elasticsearch; a rescan whose position is forgotten; a cursor saved before
      its row; a saved checkpoint that takes the watermark back; two streams
      whose names the server takes for one; a broken line that swallows the next
      dead letter; a failure hidden by a shutdown; grants recognised by a word; a
      lock held by a connection nothing keeps alive; refreshing left off when a
      scan is killed; a gauge that an alert watches and nothing sets; a new scan
      announced for a stream that will not scan.

    ** Fuel and bounds

    Elasticsearch's splitting runs on the length of the batch, which halving
    never exhausts ([Write_terminates]); ClickHouse's isolation has the source's
    own limit of 12 levels, enough for 2048 rows ([ch_Write_narrows]). The scan's
    loop takes a number of chunks, and one more than there are rows is enough
    ([scan_sends_the_rest]). The JSON reader's fuel is twice the text's length,
    the expansion of references runs on the length of the text, and reading an
    answer or a file on the number of its rows or lines. The machines of
    [Pipelines] need no fuel: a run is a list of steps, whose number is bounded
    ([streaming_ends], [scan_ends]). Float arithmetic of the
    scan's pacing is the 53-bit arithmetic of [SpecFloat].

    ** What is not modelled

    Log lines; what Cobra makes of a command line, and the help texts;
    compression; the texts and buckets of metrics. Goroutines appear as the
    interleavings of [Pipelines], in which a call of a pipeline's runner is one
    step, and memory is not shared but through channels and the group: the locks
    of [streamState], [group] and [Snapshotter] are taken to make their sections
    atomic. A whole run ([Replicate]) and the initial scan ([Supervisor]) take what
    the goroutines do as an argument of the type [Pipelines] describes. A scanned
    text compares in the server as the value it was printed from ([textual_keys]
    states it). The PHP SDK is a client in another language.

    Planned next, in this order: the machines of [Pipelines] as instances of the
    arguments of [Replicate] and [Supervisor], with the checkpoint rows of all
    streams in one store, and the totals of a run's metrics against what it
    delivered. *)

From Stdlib Require Export ZArith Lia.
From stdpp Require Export base tactics numbers strings gmap list.

(** ** Results *)

(** The outcome of a Go function that returns a value and an [error]. *)
Inductive res (E A : Type) : Type :=
  | Ok (a : A)
  | Err (e : E).
Arguments Ok {E A} a.
Arguments Err {E A} e.

#[export] Instance res_ret E : MRet (res E) := fun A a => Ok a.
#[export] Instance res_bind E : MBind (res E) := fun A B f m =>
  match m with Ok a => f a | Err e => Err e end.

Definition is_ok {E A} (r : res E A) : bool :=
  match r with Ok _ => true | Err _ => false end.

(** [Go]'s [if err != nil { return wrap(err) }]. *)
Definition map_err {E E' A} (f : E -> E') (r : res E A) : res E' A :=
  match r with Ok a => Ok a | Err e => Err (f e) end.

(** ** State and error

    A Go function over a mutable world that may fail: the world it leaves
    behind is kept on failure too, since an error does not undo effects. *)
Definition eff (W E A : Type) : Type := W -> W * res E A.

#[export] Instance eff_ret W E : MRet (eff W E) := fun A a w => (w, Ok a).
#[export] Instance eff_bind W E : MBind (eff W E) := fun A B f m w =>
  match m w with
  | (w', Ok a) => f a w'
  | (w', Err e) => (w', Err e)
  end.

Definition eff_fail {W E A} (e : E) : eff W E A := fun w => (w, Err e).
Definition eff_lift {W E A} (r : res E A) : eff W E A := fun w => (w, r).
Definition eff_map_err {W E E' A} (f : E -> E') (m : eff W E A) : eff W E' A :=
  fun w => let '(w', r) := m w in (w', map_err f r).

Lemma eff_bind_ok {W E A B} (m : eff W E A) (k : A -> eff W E B) w w' a :
  m w = (w', Ok a) -> (m ≫= k) w = k a w'.
Proof. unfold mbind, eff_bind. by intros ->. Qed.

Lemma eff_bind_err {W E A B} (m : eff W E A) (k : A -> eff W E B) w w' e :
  m w = (w', Err e) -> (m ≫= k) w = (w', Err e).
Proof. unfold mbind, eff_bind. by intros ->. Qed.

Lemma eff_bind_inv {W E A B} (m : eff W E A) (k : A -> eff W E B) w w'' b :
  (m ≫= k) w = (w'', Ok b) ->
  exists a w', m w = (w', Ok a) /\ k a w' = (w'', Ok b).
Proof.
  unfold mbind, eff_bind. destruct (m w) as [w' [a|e]]; [eauto | congruence].
Qed.

Lemma eff_bind_cases {W E A B} (m : eff W E A) (k : A -> eff W E B) w w'' r :
  (m ≫= k) w = (w'', r) ->
  exists w' x, m w = (w', x) /\
    match x with Ok a => k a w' = (w'', r) | Err e => w'' = w' /\ r = Err e end.
Proof.
  unfold mbind, eff_bind. destruct (m w) as [w' [a|e]]; intros H; eexists _, _; split; [done..|]. by simplify_eq.
Qed.

Lemma res_bind_ok {E A B} (m : res E A) (k : A -> res E B) b :
  m ≫= k = Ok b -> exists a, m = Ok a /\ k a = Ok b.
Proof. destruct m as [a|e]; simpl; [eauto | discriminate]. Qed.

(** ** Machine integers

    A [uint64] is a [Z] in [0 .. 2^64), an [int64] one in [-2^63 .. 2^63);
    every arithmetic operation of the source that can leave the range is
    followed by the wrap. *)
Definition u64 (z : Z) : Z := z mod 2 ^ 64.
Definition i64 (z : Z) : Z := (z + 2 ^ 63) mod 2 ^ 64 - 2 ^ 63.

Definition i32 (z : Z) : Z := (z + 2 ^ 31) mod 2 ^ 32 - 2 ^ 31.

Definition u64_range (z : Z) : Prop := (0 <= z < 2 ^ 64)%Z.
Definition i64_range (z : Z) : Prop := (- 2 ^ 63 <= z < 2 ^ 63)%Z.

Lemma u64_small z : u64_range z -> u64 z = z.
Proof. unfold u64, u64_range. intros. by apply Z.mod_small. Qed.

Lemma u64_in_range z : u64_range (u64 z).
Proof. unfold u64, u64_range. by apply Z.mod_pos_bound. Qed.

Lemma u64_add_l a b : u64 (u64 a + b) = u64 (a + b).
Proof. apply Zplus_mod_idemp_l. Qed.

Lemma u64_add_r a b : u64 (a + u64 b) = u64 (a + b).
Proof. apply Zplus_mod_idemp_r. Qed.

Lemma u64_mul_l a b : u64 (u64 a * b) = u64 (a * b).
Proof. apply Zmult_mod_idemp_l. Qed.

Lemma i64_small z : i64_range z -> i64 z = z.
Proof. unfold i64, i64_range. intros. rewrite Z.mod_small; lia. Qed.

Lemma i64_in_range z : i64_range (i64 z).
Proof.
  unfold i64, i64_range.
  pose proof (Z.mod_pos_bound (z + 2 ^ 63) (2 ^ 64) eq_refl). lia.
Qed.

(** ** Instants

    A [time.Time] is the number of nanoseconds since the Unix epoch; the zero
    value of the type is midnight on 1 January of year 1. *)
Definition zero_time : Z := (-62135596800 * 10 ^ 9)%Z.
Definition is_zero_time (t : Z) : bool := (t =? zero_time)%Z.
Definition unix_milli (t : Z) : Z := (t / 10 ^ 6)%Z.

(** ** Lists *)

Definition zlen {A} (l : list A) : Z := Z.of_nat (length l).

Lemma zlen_nonneg {A} (l : list A) : (0 <= zlen l)%Z.
Proof. unfold zlen. lia. Qed.

Lemma zlen_app {A} (l k : list A) : zlen (l ++ k) = (zlen l + zlen k)%Z.
Proof. unfold zlen. rewrite length_app. lia. Qed.

Lemma zlen_cons {A} (x : A) l : zlen (x :: l) = (1 + zlen l)%Z.
Proof. unfold zlen. simpl. lia. Qed.

Lemma zlen_ne {A} (l : list A) : l <> [] -> (1 <= zlen l)%Z.
Proof. destruct l; [done|]. intros _. rewrite zlen_cons. pose proof (zlen_nonneg l). lia. Qed.

(** Both halves of a slice cut in the middle are shorter than the slice. *)
Lemma halves_shorter {A} (l : list A) :
  1 < length l ->
  length (take (length l `div` 2) l) < length l /\
  length (drop (length l `div` 2) l) < length l.
Proof.
  intros H. rewrite length_take, length_drop.
  assert (length l `div` 2 < length l) by (apply Nat.div_lt; lia).
  assert (0 < length l `div` 2) by (apply Nat.div_str_pos; lia).
  lia.
Qed.

Lemma zlen_halves {A} (l : list A) n : (zlen (take n l) + zlen (drop n l) = zlen l)%Z.
Proof. by rewrite <- zlen_app, take_drop. Qed.

Fixpoint zsum (l : list Z) : Z :=
  match l with [] => 0 | x :: l => x + zsum l end%Z.

Lemma zsum_app l k : (zsum (l ++ k) = zsum l + zsum k)%Z.
Proof. induction l; simpl; lia. Qed.

Lemma zsum_nonneg l : Forall (fun x => 0 <= x)%Z l -> (0 <= zsum l)%Z.
Proof. induction 1; simpl; lia. Qed.

(** Run a fallible step over a list, stopping at the first error. *)
Fixpoint res_map {E A B} (f : A -> res E B) (l : list A) : res E (list B) :=
  match l with
  | [] => Ok []
  | x :: l => y ← f x; ys ← res_map f l; Ok (y :: ys)
  end.

Lemma res_map_ok {E A B} (f : A -> res E B) l ys :
  res_map f l = Ok ys <-> Forall2 (fun x y => f x = Ok y) l ys.
Proof.
  revert ys. induction l as [|x l IH]; intros ys; simpl.
  - split; [intros [= <-]; constructor | inversion 1; done].
  - split.
    + intros (y & Hy & (ys' & Hys & [= <-])%res_bind_ok)%res_bind_ok.
      constructor; [done | by apply IH].
    + inversion 1 as [|? y ? ys' Hy Hys]; subst. rewrite Hy. simpl.
      apply IH in Hys. by rewrite Hys.
Qed.

Lemma res_map_length {E A B} (f : A -> res E B) l ys :
  res_map f l = Ok ys -> length ys = length l.
Proof. intros H%res_map_ok. symmetry. by eapply Forall2_length. Qed.

Lemma filter_iff_in {A} (P Q : A -> Prop) `{!forall x, Decision (P x), !forall x, Decision (Q x)} (l : list A) :
  (forall x, x ∈ l -> P x <-> Q x) -> filter P l = filter Q l.
Proof.
  induction l as [|x l IH]; intros Hl; [done|]. rewrite !filter_cons, IH by (intros; apply Hl; by right).
  pose proof (Hl x ltac:(by left)). by repeat case_decide; naive_solver.
Qed.

Lemma filter_all {A} (P : A -> Prop) `{!forall x, Decision (P x)} (l : list A) :
  (forall x, x ∈ l -> P x) -> filter P l = l.
Proof.
  induction l as [|x l IH]; intros Hl; [done|]. rewrite filter_cons_True by (apply Hl; by left).
  rewrite IH; [done|]. intros; apply Hl; by right.
Qed.

(** ** Tactics *)

(** Destruct every scrutinee of a [match] or [if] in the goal or in the named
    hypothesis, keeping the equation. *)
Ltac case_all :=
  repeat match goal with
  | |- context [match ?x with _ => _ end] => destruct x eqn:?; simplify_eq/=
  end.

Ltac case_all_in H :=
  repeat match type of H with
  | context [match ?x with _ => _ end] => destruct x eqn:?; simplify_eq/=
  end.

(** Turn boolean comparisons of the context and the goal into propositions. *)
Ltac bool_to_prop :=
  repeat match goal with
  | H : (_ <? _)%Z = true |- _ => apply Z.ltb_lt in H
  | H : (_ <? _)%Z = false |- _ => apply Z.ltb_ge in H
  | H : (_ <=? _)%Z = true |- _ => apply Z.leb_le in H
  | H : (_ <=? _)%Z = false |- _ => apply Z.leb_gt in H
  | H : (_ =? _)%Z = true |- _ => apply Z.eqb_eq in H
  | H : (_ =? _)%Z = false |- _ => apply Z.eqb_neq in H
  | H : (_ && _)%bool = true |- _ => apply andb_true_iff in H; destruct H
  | H : (_ || _)%bool = false |- _ => apply orb_false_iff in H; destruct H
  | H : negb _ = true |- _ => apply negb_true_iff in H
  | H : negb _ = false |- _ => apply negb_false_iff in H
  | H : bool_decide _ = true |- _ => apply bool_decide_eq_true in H
  | H : bool_decide _ = false |- _ => apply bool_decide_eq_false in H
  end.

Ltac solve_bool := bool_to_prop; simplify_eq/=; try lia; try done.

Create HintDb changeflow.
#[export] Hint Resolve u64_in_range i64_in_range zlen_nonneg : changeflow.
#[export] Hint Rewrite @zlen_app @zlen_cons zsum_app : changeflow.
