(* ===== verification/GoStd.v ===== *)
(** * The parts of the Go standard library the program computes with

    Byte strings ([strings]), decimal text ([strconv]), hexadecimal and
    base64 ([encoding/hex], [encoding/base64]), UTF-8 ([unicode/utf8]),
    JSON strings ([encoding/json]) and SHA-256 ([crypto/sha256]), as
    executable functions on [string], Coq's sequences of bytes, which is what
    both a Go [string] and a Go [[]byte] are. Identifiers compared without
    regard to case are taken to be ASCII: only [A]-[Z] are lowered. *)

From Stdlib Require Import Ascii.
From Stdlib Require DecimalString DecimalN DecimalPos.
From S2P Require Import Prelude.

(** ** Bytes and strings *)

#[global] Arguments String.append : simpl nomatch.

(** Every byte, by its eight bits. *)
Ltac all_bytes c := destruct c as [[] [] [] [] [] [] [] []].

Definition byte_val (c : ascii) : Z := Z.of_N (N_of_ascii c).
Definition byte_of_Z (z : Z) : ascii := ascii_of_N (Z.to_N z).
Definition str1 (c : ascii) : string := String c "".
Definition slen (s : string) : Z := Z.of_nat (String.length s).

Lemma byte_val_range c : (0 <= byte_val c < 256)%Z.
Proof.
  unfold byte_val. pose proof (N_ascii_bounded c). lia.
Qed.

Lemma byte_of_val c : byte_of_Z (byte_val c) = c.
Proof.
  unfold byte_of_Z, byte_val. rewrite N2Z.id. apply ascii_N_embedding.
Qed.

Lemma byte_val_of z : (0 <= z < 256)%Z -> byte_val (byte_of_Z z) = z.
Proof.
  intros. unfold byte_of_Z, byte_val. rewrite N_ascii_embedding; lia.
Qed.

Lemma byte_val_inj c d : byte_val c = byte_val d -> c = d.
Proof. intros H. by rewrite <- (byte_of_val c), <- (byte_of_val d), H. Qed.

Lemma app_nil_l_str s : "" +:+ s = s.
Proof. done. Qed.
Lemma app_cons_str c s t : String c s +:+ t = String c (s +:+ t).
Proof. done. Qed.
Lemma app_nil_r_str s : s +:+ "" = s.
Proof. induction s as [|c s IH]; [done|]. by rewrite app_cons_str, IH. Qed.
Lemma app_assoc_str s t u : (s +:+ t) +:+ u = s +:+ (t +:+ u).
Proof. induction s as [|c s IH]; [done|]. by rewrite !app_cons_str, IH. Qed.
Lemma slen_app s t : slen (s +:+ t) = (slen s + slen t)%Z.
Proof.
  unfold slen. induction s as [|c s IH]; [done|].
  rewrite app_cons_str. simpl String.length. lia.
Qed.
Lemma slen_nonneg s : (0 <= slen s)%Z.
Proof. unfold slen. lia. Qed.
Lemma slen_zero s : slen s = 0%Z <-> s = "".
Proof. unfold slen. destruct s; cbn -[Z.of_nat]; split; intros; [done..|lia|done]. Qed.
#[export] Hint Resolve slen_nonneg byte_val_range : changeflow.

Fixpoint str_forall (P : ascii -> bool) (s : string) : bool :=
  match s with "" => true | String c s => P c && str_forall P s end.

Lemma str_forall_app P s t : str_forall P (s +:+ t) = str_forall P s && str_forall P t.
Proof. induction s as [|c s IH]; [done|]. rewrite app_cons_str. simpl. by rewrite IH, andb_assoc. Qed.

Fixpoint str_map (f : ascii -> ascii) (s : string) : string :=
  match s with "" => "" | String c s => String (f c) (str_map f s) end.

(** [for i := 0; i < len(s); i++ { b.WriteString(f(s[i])) }]. *)
Fixpoint str_concat_map (f : ascii -> string) (s : string) : string :=
  match s with "" => "" | String c s => f c +:+ str_concat_map f s end.

Lemma str_concat_map_app f s t :
  str_concat_map f (s +:+ t) = str_concat_map f s +:+ str_concat_map f t.
Proof.
  induction s as [|c s IH]; [done|]. rewrite app_cons_str. simpl. by rewrite IH, app_assoc_str.
Qed.

Lemma str_forall_concat_map P f s :
  (forall c, str_forall P (f c) = true) -> str_forall P (str_concat_map f s) = true.
Proof. intros H. induction s as [|c s IH]; simpl; [done|]. by rewrite str_forall_app, H, IH. Qed.

(** ** Package [strings] *)

Definition lower_byte (c : ascii) : ascii :=
  let b := byte_val c in
  if ((65 <=? b) && (b <=? 90))%Z then byte_of_Z (b + 32) else c.
Definition upper_byte (c : ascii) : ascii :=
  let b := byte_val c in
  if ((97 <=? b) && (b <=? 122))%Z then byte_of_Z (b - 32) else c.

Definition ToLower : string -> string := str_map lower_byte.
Definition ToUpper : string -> string := str_map upper_byte.
Definition EqualFold (s t : string) : bool := bool_decide (ToLower s = ToLower t).
Definition HasPrefix (s p : string) : bool := String.prefix p s.

Fixpoint TrimPrefix (s p : string) : string :=
  match p, s with
  | "", _ => s
  | String a p', String b s' => if ascii_dec a b then
      (if HasPrefix s' p' then TrimPrefix s' p' else s) else s
  | _, "" => s
  end.

Definition str_rev (s : string) : string := String.rev s.
Definition HasSuffix (s p : string) : bool := HasPrefix (str_rev s) (str_rev p).
Definition TrimSuffix (s p : string) : string :=
  if HasSuffix s p then str_rev (TrimPrefix (str_rev s) (str_rev p)) else s.

Fixpoint Contains (s p : string) : bool :=
  HasPrefix s p || match s with "" => false | String _ s' => Contains s' p end.

(** [strings.Cut]: around the first separator byte, or not found. *)
Fixpoint CutByte (sep : ascii) (s : string) : option (string * string) :=
  match s with
  | "" => None
  | String c s' =>
      if ascii_dec c sep then Some ("", s')
      else match CutByte sep s' with
           | Some (a, b) => Some (String c a, b)
           | None => None
           end
  end.

(** [strings.Split] on a one-byte separator. *)
Fixpoint SplitByte (sep : ascii) (s : string) : list string :=
  match s with
  | "" => [""]
  | String c s' =>
      match SplitByte sep s' with
      | p :: ps => if ascii_dec c sep then "" :: p :: ps else String c p :: ps
      | [] => [String c ""]
      end
  end.

Definition Join (l : list string) (sep : string) : string := String.concat sep l.

Definition is_space (c : ascii) : bool :=
  let b := byte_val c in ((b =? 32) || ((9 <=? b) && (b <=? 13)))%Z.

Fixpoint TrimLeftBy (P : ascii -> bool) (s : string) : string :=
  match s with String c s' => if P c then TrimLeftBy P s' else s | "" => "" end.
Definition TrimRightBy (P : ascii -> bool) (s : string) : string :=
  str_rev (TrimLeftBy P (str_rev s)).
Definition TrimBy (P : ascii -> bool) (s : string) : string :=
  TrimRightBy P (TrimLeftBy P s).
(** [strings.TrimSpace] on ASCII text. *)
Definition TrimSpace : string -> string := TrimBy is_space.

Definition ReplaceByte (c : ascii) (by_ : string) : string -> string :=
  str_concat_map (fun d => if ascii_dec d c then by_ else str1 d).

(** [TrimPrefix] removes the prefix it finds. *)
Lemma HasPrefix_app p s : HasPrefix (p +:+ s) p = true.
Proof.
  unfold HasPrefix. induction p as [|c p IH]; [by destruct s|].
  simpl. by destruct (ascii_dec c c).
Qed.

Lemma TrimPrefix_app p s : TrimPrefix (p +:+ s) p = s.
Proof.
  induction p as [|a p IH]; [by destruct s|].
  simpl. destruct (ascii_dec a a); [|done]. by rewrite HasPrefix_app.
Qed.

Fixpoint drop_str (n : nat) (s : string) : string :=
  match n, s with
  | 0%nat, _ => s
  | S n, String _ s => drop_str n s
  | S _, "" => ""
  end.

Lemma drop_str_app p s : drop_str (String.length p) (p +:+ s) = s.
Proof. by induction p as [|c p IH]; [destruct s|]. Qed.

Lemma str_map_app f s t : str_map f (s +:+ t) = str_map f s +:+ str_map f t.
Proof. induction s as [|c s IH]; [done|]. simpl. by rewrite IH. Qed.

Lemma ToLower_idem s : ToLower (ToLower s) = ToLower s.
Proof. unfold ToLower. induction s as [|c s IH]; [done|]. cbn. rewrite IH. f_equal. by all_bytes c. Qed.

Lemma rev_app_spec s t : String.rev_app s t = str_rev s +:+ t.
Proof.
  unfold str_rev, String.rev. revert t. induction s as [|c s IH]; intros t; [done|].
  simpl. rewrite IH, (IH (String c "")), app_assoc_str. done.
Qed.

Lemma str_rev_cons c s : str_rev (String c s) = str_rev s +:+ str1 c.
Proof. apply (rev_app_spec s (str1 c)). Qed.

Lemma str_rev_app s t : str_rev (s +:+ t) = str_rev t +:+ str_rev s.
Proof.
  induction s as [|c s IH]; simpl; [by rewrite app_nil_r_str|].
  by rewrite !str_rev_cons, IH, app_assoc_str.
Qed.

Lemma str_rev_involutive s : str_rev (str_rev s) = s.
Proof. induction s as [|c s IH]; [done|]. by rewrite str_rev_cons, str_rev_app, IH. Qed.

(** Splitting what was joined gives the parts back, when no part holds the
    separator. *)
Definition free_of (c : ascii) (s : string) : bool :=
  str_forall (fun d => negb (bool_decide (d = c))) s.

Lemma SplitByte_app_sep c s t :
  free_of c s = true -> SplitByte c (s +:+ String c t) = s :: SplitByte c t.
Proof.
  unfold free_of. induction s as [|d s IH]; intros H; simpl.
  - destruct (ascii_dec c c); [|done].
    destruct (SplitByte c t) eqn:E; [|done].
    destruct t as [|x t]; simpl in E; [done|]. by case_all_in E.
  - simpl in *. apply andb_true_iff in H as [Hd H].
    rewrite IH by done. apply negb_true_iff, bool_decide_eq_false in Hd.
    by destruct (ascii_dec d c).
Qed.

Lemma SplitByte_free c s : free_of c s = true -> SplitByte c s = [s].
Proof.
  unfold free_of. induction s as [|d s IH]; intros H; simpl in *; [done|].
  apply andb_true_iff in H as [Hd H]. rewrite IH by done.
  apply negb_true_iff, bool_decide_eq_false in Hd. by destruct (ascii_dec d c).
Qed.

Lemma SplitByte_Join c l :
  l <> [] -> Forall (fun s => free_of c s = true) l ->
  SplitByte c (Join l (str1 c)) = l.
Proof.
  intros Hne H. induction H as [|s l Hs Hl IH]; [done|].
  destruct l as [|t l]; simpl.
  - by apply SplitByte_free.
  - unfold Join in *. rewrite SplitByte_app_sep by done.
    f_equal. by apply IH.
Qed.

Lemma SplitByte_ne c s : SplitByte c s <> [].
Proof. induction s as [|d s IH]; simpl; [done|]. destruct (SplitByte c s); [done|]. by case_match. Qed.

Lemma free_app c s t : free_of c (s +:+ t) = free_of c s && free_of c t.
Proof. apply str_forall_app. Qed.

(** A separator cuts a text whatever stands before it. *)
Lemma SplitByte_app c s t : SplitByte c (s +:+ String c t) = SplitByte c s ++ SplitByte c t.
Proof.
  induction s as [|d s IH]; cbn.
  - pose proof (SplitByte_ne c t) as Hne. destruct (SplitByte c t); [done|].
    by destruct (ascii_dec c c).
  - rewrite IH. destruct (SplitByte c s) as [|x l] eqn:E; [by destruct (SplitByte_ne c s)|].
    cbn. by destruct (ascii_dec d c).
Qed.

(** What follows a text without a separator in it goes to its last part. *)
Lemma SplitByte_last c s t :
  free_of c t = true ->
  exists front last, SplitByte c s = front ++ [last] /\ SplitByte c (s +:+ t) = front ++ [last +:+ t].
Proof.
  intros Ht. induction s as [|d s (front & last & H1 & H2)].
  { exists [], "". split; [done|]. by apply SplitByte_free. }
  cbn. rewrite H1, H2. destruct front as [|x front]; cbn; destruct (ascii_dec d c).
  - by exists [""], last.
  - by exists [], (String d last).
  - by exists ("" :: x :: front), last.
  - by exists (String d x :: front), last.
Qed.

Lemma TrimSpace_kept c m p e :
  String c m = p +:+ str1 e -> is_space c = false -> is_space e = false ->
  TrimSpace (String c m) = String c m.
Proof.
  intros Heq Hc He. unfold TrimSpace, TrimBy. simpl TrimLeftBy. rewrite Hc, Heq.
  unfold TrimRightBy. rewrite str_rev_app. change (str_rev (str1 e)) with (str1 e).
  change (str1 e +:+ str_rev p) with (String e (str_rev p)). simpl TrimLeftBy.
  rewrite He, str_rev_cons. by rewrite str_rev_involutive.
Qed.

(** ** Package [strconv] *)

Definition FormatUint (z : Z) : string :=
  DecimalString.NilEmpty.string_of_uint (N.to_uint (Z.to_N z)).
Definition FormatInt (z : Z) : string :=
  if (z <? 0)%Z then String "-" (FormatUint (- z)) else FormatUint z.

(** [strconv.ParseUint(s, 10, bits)]. *)
Definition ParseUint (s : string) (bits : Z) : option Z :=
  match s with
  | "" => None
  | _ => match DecimalString.NilEmpty.uint_of_string s with
         | Some d => let n := Z.of_N (N.of_uint d) in
                     if (n <? 2 ^ bits)%Z then Some n else None
         | None => None
         end
  end.

(** [strconv.ParseInt(s, 10, 64)]: an optional sign, digits, the range of an
    [int64]. *)
Definition ParseInt (s : string) : option Z :=
  match s with
  | String "-" s' =>
      n ← ParseUint s' 64; if (n <=? 2 ^ 63)%Z then Some (- n)%Z else None
  | String "+" s' =>
      n ← ParseUint s' 64; if (n <? 2 ^ 63)%Z then Some n else None
  | _ => n ← ParseUint s 64; if (n <? 2 ^ 63)%Z then Some n else None
  end.

Lemma FormatUint_ne z : FormatUint z <> "".
Proof.
  unfold FormatUint. pose proof (DecimalN.Unsigned.of_to (Z.to_N z)) as H.
  destruct (N.to_uint (Z.to_N z)) eqn:E; simpl; try discriminate.
  destruct (Z.to_N z); simpl in E; [discriminate|].
  exfalso. by eapply Stdlib.Numbers.DecimalPos.Unsigned.to_uint_nonnil.
Qed.

Lemma ParseUint_Format z bits :
  (0 <= z < 2 ^ bits)%Z -> ParseUint (FormatUint z) bits = Some z.
Proof.
  intros Hz. unfold ParseUint. pose proof (FormatUint_ne z).
  destruct (FormatUint z) eqn:E; [done|]. rewrite <- E.
  unfold FormatUint. rewrite DecimalString.NilEmpty.usu, DecimalN.Unsigned.of_to, Z2N.id by lia.
  by rewrite (proj2 (Z.ltb_lt _ _)) by lia.
Qed.

Lemma FormatUint_inj x y :
  (0 <= x)%Z -> (0 <= y)%Z -> FormatUint x = FormatUint y -> x = y.
Proof.
  intros Hx Hy H. unfold FormatUint in H.
  apply (f_equal DecimalString.NilEmpty.uint_of_string) in H. rewrite !DecimalString.NilEmpty.usu in H.
  injection H as H. apply (f_equal N.of_uint) in H.
  rewrite !DecimalN.Unsigned.of_to in H. lia.
Qed.

Definition is_digit (c : ascii) : bool :=
  let b := byte_val c in ((48 <=? b) && (b <=? 57))%Z.

Lemma uint_digits d : str_forall is_digit (DecimalString.NilEmpty.string_of_uint d) = true.
Proof. by induction d. Qed.

Lemma FormatUint_digits z : str_forall is_digit (FormatUint z) = true.
Proof. apply uint_digits. Qed.

Lemma FormatInt_nonneg n : (0 <= n)%Z -> FormatInt n = FormatUint n.
Proof. intros H1. unfold FormatInt. by rewrite (proj2 (Z.ltb_ge _ _)). Qed.

Lemma ParseInt_Format z : i64_range z -> ParseInt (FormatInt z) = Some z.
Proof.
  unfold i64_range, FormatInt. intros Hz. destruct (Z.ltb_spec z 0).
  - simpl. rewrite ParseUint_Format by lia. simpl.
    rewrite (proj2 (Z.leb_le _ _)) by lia. f_equal. lia.
  - assert (HP : ParseUint (FormatUint z) 64 = Some z) by (apply ParseUint_Format; lia).
    pose proof (FormatUint_digits z) as Hd. unfold ParseInt.
    destruct (FormatUint z) as [|c s]; [by rewrite HP in *|].
    simpl in Hd. apply andb_true_iff in Hd as [Hc _].
    rewrite HP. simpl. rewrite (proj2 (Z.ltb_lt _ _)) by lia.
    clear -Hc. destruct c as [[] [] [] [] [] [] [] []]; done.
Qed.

(** ** Ranging over a map

    [for k, v := range m] visits every entry once, in an order the language
    leaves open. *)
Class MapOrder := {
  map_range : forall {A}, gmap string A -> list (string * A);
  map_range_perm : forall A (m : gmap string A), map_range m ≡ₚ map_to_list m
}.

(** The entry a loop that ends with its first turn sees. *)
Definition map_first `{MapOrder} {A} (m : gmap string A) : option (string * A) := head (map_range m).

Section Ranging.
Context `{MapOrder} {A : Type}.
Implicit Types m : gmap string A.

Lemma map_range_in m k x : (k, x) ∈ map_range m <-> m !! k = Some x.
Proof. rewrite (map_range_perm A m). apply elem_of_map_to_list. Qed.

Lemma map_first_in m k x : map_first m = Some (k, x) -> m !! k = Some x.
Proof. intros Hk%head_Some_elem_of. by apply map_range_in. Qed.

Lemma map_first_none m : map_first m = None -> m = ∅.
Proof.
  intros Hn%head_None. pose proof (map_range_perm A m) as Hp. rewrite Hn in Hp.
  apply Permutation_nil_l in Hp. by apply map_to_list_empty_iff.
Qed.

End Ranging.

(** ** Package [sort] *)

Fixpoint insert_sorted (x : string) (l : list string) : list string :=
  match l with
  | [] => [x]
  | y :: l' => if String.leb x y then x :: l else y :: insert_sorted x l'
  end.

(** [sort.Strings]. *)
Definition sort_Strings (l : list string) : list string := foldr insert_sorted [] l.

Lemma insert_sorted_perm x l : insert_sorted x l ≡ₚ x :: l.
Proof.
  induction l as [|y l IH]; simpl; [done|]. case_match; [done|]. rewrite IH. apply Permutation_swap.
Qed.

Lemma sort_Strings_perm l : sort_Strings l ≡ₚ l.
Proof. induction l as [|x l IH]; simpl; [done|]. by rewrite insert_sorted_perm, IH. Qed.
