(* ===== verification/Address.v ===== *)
(** * The address of a source

    What the two entries of the program make of a data source name: the command
    line's [splitHostPort] ([cmd/changeflow/mysql.go]) and the supervisor's
    [addressOf], [usernameOf] and [passwordOf] ([internal/supervisor/build.go]),
    over [net.SplitHostPort]. *)

From Stdlib Require Import Ascii.
From S2P Require Import Prelude GoStd.

(** ** [net.SplitHostPort] *)

(** Around the last separator. *)
Definition cut_last (sep : ascii) (s : string) : option (string * string) :=
  match CutByte sep (str_rev s) with
  | Some (after, before) => Some (str_rev before, str_rev after)
  | None => None
  end.

(** Brackets stand around the host and nowhere else, and only a host in brackets
    has colons in it. *)
Definition SplitHostPort (hostport : string) : option (string * string) :=
  match cut_last ":" hostport with
  | None => None
  | Some (before, port) =>
    match hostport with
    | String "[" rest =>
      match CutByte "]" rest with
      | None => None
      | Some (host, after) =>
        if bool_decide (after = ":" +:+ port) && free_of "[" rest && free_of "]" after then Some (host, port) else None
      end
    | _ =>
      if free_of ":" before && free_of "[" hostport && free_of "]" hostport then Some (before, port) else None
    end
  end.

Example split_addresses :
  map SplitHostPort ["db.internal:3307"; "db.internal"; "[::1]:3306"; "[2001:db8::1]"; "a:1:2"; "::1"; "[::1]x:1"; "[a]b]:1"; ":80"; ""] =
  [Some ("db.internal", "3307"); None; Some ("::1", "3306"); None; None; None; None; None; Some ("", "80"); None].
Proof. vm_compute. reflexivity. Qed.

(** ** The driver *)

(** [driver.ParseDSN], by the fields that are read. *)
Record DsnConfig := mkDsnConfig { dsn_User : string; dsn_Passwd : string; dsn_Net : string; dsn_Addr : string }.
Class DsnLib := { driver_ParseDSN : string -> res string DsnConfig }.

Inductive address_error :=
  | EAddrMissing
  | EAddrDsn (cause : string)
  | EAddrNet (net : string)
  | EAddrPort (addr : string)
  | EAddrPortZero (addr : string).

Definition default_port : Z := 3306.

(** [splitHostPort]: an address that cannot be split is all host. *)
Definition splitHostPort (addr : string) : res address_error (string * Z) :=
  if bool_decide (addr = "") then Err EAddrMissing
  else match SplitHostPort addr with
  | None => Ok (TrimSuffix (TrimPrefix addr "[") "]", default_port)
  | Some (host, portStr) =>
    match ParseUint portStr 16 with
    | None => Err (EAddrPort addr)
    | Some port => if (port =? 0)%Z then Err (EAddrPortZero addr) else Ok (host, port)
    end
  end.

Definition is_bracket (c : ascii) : bool := bool_decide (c = "["%char) || bool_decide (c = "]"%char).

Section Supervisor.
Context `{!DsnLib}.

Definition addressOf (dsn : string) : res address_error (string * Z) :=
  match driver_ParseDSN dsn with
  | Err e => Err (EAddrDsn e)
  | Ok cfg =>
    if negb (bool_decide (dsn_Net cfg = "tcp")) then Err (EAddrNet (dsn_Net cfg))
    else match SplitHostPort (dsn_Addr cfg) with
    | None => Ok (TrimBy is_bracket (dsn_Addr cfg), default_port)
    | Some (host, portStr) =>
      match ParseUint portStr 16 with
      | None => Err (EAddrPort (dsn_Addr cfg))
      | Some port => Ok (host, port)
      end
    end
  end.

Definition usernameOf (dsn : string) : string := match driver_ParseDSN dsn with Ok cfg => dsn_User cfg | Err _ => "" end.
Definition passwordOf (dsn : string) : string := match driver_ParseDSN dsn with Ok cfg => dsn_Passwd cfg | Err _ => "" end.

End Supervisor.

Example addresses :
  map splitHostPort ["db.internal:3307"; "db.internal"; "[::1]:3306"; "[2001:db8::1]"; ""; "host:mysql"; "host:0"; "db:1:2"] =
  [Ok ("db.internal", 3307); Ok ("db.internal", 3306); Ok ("::1", 3306); Ok ("2001:db8::1", 3306);
   Err EAddrMissing; Err (EAddrPort "host:mysql"); Err (EAddrPortZero "host:0"); Ok ("db:1:2", 3306)]%Z.
Proof. vm_compute. reflexivity. Qed.

(** ** What an address is read as *)

Definition is_bare (host : string) : bool := free_of ":" host && free_of "[" host && free_of "]" host.
Definition is_numeric (host : string) : bool := free_of "[" host && free_of "]" host.

Lemma CutByte_app c s t : free_of c s = true -> CutByte c (s +:+ String c t) = Some (s, t).
Proof.
  unfold free_of. induction s as [|d s IH]; intros Hs; cbn in *; [by destruct (ascii_dec c c)|].
  apply andb_true_iff in Hs as [Hd Hs]. apply negb_true_iff, bool_decide_eq_false in Hd.
  destruct (ascii_dec d c); [done|]. by rewrite IH.
Qed.

Lemma free_rev c s : free_of c (str_rev s) = free_of c s.
Proof.
  induction s as [|d s IH]; [done|]. rewrite str_rev_cons, free_app, IH. unfold free_of. cbn.
  by rewrite andb_true_r, andb_comm.
Qed.

Lemma cut_last_app c s t : free_of c t = true -> cut_last c (s +:+ String c t) = Some (s, t).
Proof.
  intros Ht. unfold cut_last. change (String c t) with (str1 c +:+ t).
  rewrite !str_rev_app. change (str_rev (str1 c)) with (str1 c).
  rewrite app_assoc_str. change (str1 c +:+ str_rev s) with (String c (str_rev s)).
  rewrite CutByte_app by by rewrite free_rev. by rewrite !str_rev_involutive.
Qed.

(** [net.JoinHostPort]: brackets for a host that has a colon. *)
Definition JoinHostPort (host port : string) : string :=
  if free_of ":" host then host +:+ ":" +:+ port else "[" +:+ host +:+ "]:" +:+ port.

Lemma free_not_head c s : free_of c (String c s) = false.
Proof. unfold free_of. cbn. by rewrite bool_decide_eq_true_2. Qed.

Lemma split_no_bracket c s :
  c <> "["%char -> SplitHostPort (String c s) =
    match cut_last ":" (String c s) with
    | None => None
    | Some (before, port) =>
      if free_of ":" before && free_of "[" (String c s) && free_of "]" (String c s) then Some (before, port) else None
    end.
Proof. unfold SplitHostPort. intros Hc. destruct (cut_last _ _) as [[before port]|]; [|done]. all_bytes c; done. Qed.

Lemma SplitHostPort_join host port :
  is_numeric host = true -> str_forall is_digit port = true -> SplitHostPort (JoinHostPort host port) = Some (host, port).
Proof.
  unfold is_numeric. intros [Ho Hc]%andb_true_iff Hp.
  assert (free_of ":" port = true /\ free_of "[" port = true /\ free_of "]" port = true) as (P1 & P2 & P3).
  { assert (forall c s, is_digit c = false -> str_forall is_digit s = true -> free_of c s = true) as Hfree; [|by auto].
    intros c s Hc' Hs. unfold free_of. induction s as [|d s IH]; [done|]. cbn in *. apply andb_true_iff in Hs as [Hd Hs].
    rewrite IH, andb_true_r by done. apply negb_true_iff, bool_decide_eq_false. intros ->. by rewrite Hc' in Hd. }
  unfold JoinHostPort. destruct (free_of ":" host) eqn:Hcolon.
  - assert (cut_last ":" (host +:+ String ":" port) = Some (host, port)) as Hcut by by apply cut_last_app.
    change (":" +:+ port) with (String ":" port).
    assert (free_of "[" (host +:+ String ":" port) = true /\ free_of "]" (host +:+ String ":" port) = true) as [F1 F2].
    { rewrite !free_app, Ho, Hc. by split. }
    destruct host as [|c host].
    + unfold SplitHostPort. cbn [String.append] in *. rewrite Hcut. by rewrite F1, F2.
    + cbn [String.append] in *. rewrite split_no_bracket, Hcut, Hcolon, F1, F2; [done|].
      intros ->. by rewrite free_not_head in Ho.
  - change ("[" +:+ host +:+ "]:" +:+ port) with (String "[" (host +:+ String "]" (String ":" port))).
    assert (cut_last ":" (String "[" (host +:+ String "]" (String ":" port))) = Some (String "[" host +:+ "]", port)) as Hcut.
    { assert (String "[" (host +:+ String "]" (String ":" port)) = (String "[" host +:+ "]") +:+ String ":" port) as ->
        by (rewrite !app_cons_str, app_assoc_str; done).
      by apply cut_last_app. }
    unfold SplitHostPort. rewrite Hcut, CutByte_app by done. rewrite bool_decide_eq_true_2 by done.
    rewrite free_app, Ho. unfold free_of in *. cbn. by rewrite P2, P3.
Qed.

(** An address made of a host and a port is read as both by the two entries of the
    program; one that cannot be split, as the host at the default port. *)
Theorem address_of_join `{!DsnLib} dsn cfg host port :
  driver_ParseDSN dsn = Ok cfg -> dsn_Net cfg = "tcp" -> is_numeric host = true -> (0 < port < 2 ^ 16)%Z ->
  dsn_Addr cfg = JoinHostPort host (FormatUint port) ->
  addressOf dsn = Ok (host, port) /\ splitHostPort (dsn_Addr cfg) = Ok (host, port).
Proof.
  intros Hd Hn Hh Hp Ha. unfold addressOf, splitHostPort. rewrite Hd, Hn. cbn [negb].
  rewrite (bool_decide_eq_true_2 ("tcp" = "tcp")) by done. cbn [negb].
  rewrite Ha, SplitHostPort_join, ParseUint_Format by (done || lia || apply FormatUint_digits).
  split; [done|]. rewrite bool_decide_eq_false_2.
  - by rewrite (proj2 (Z.eqb_neq _ _)) by lia.
  - unfold JoinHostPort. by destruct (free_of ":" host), host.
Qed.

(** What the supervisor connects to, the command line does too, except for a port
    of zero, which only the command line refuses. *)
Theorem addresses_agree `{!DsnLib} dsn cfg host port :
  driver_ParseDSN dsn = Ok cfg -> is_Some (SplitHostPort (dsn_Addr cfg)) -> addressOf dsn = Ok (host, port) ->
  splitHostPort (dsn_Addr cfg) = if (port =? 0)%Z then Err (EAddrPortZero (dsn_Addr cfg)) else Ok (host, port).
Proof.
  intros Hd [[h p] Hs] Ha. unfold addressOf in Ha. rewrite Hd, Hs in Ha. unfold splitHostPort.
  rewrite bool_decide_eq_false_2 by (intros He; by rewrite He in Hs). rewrite Hs.
  destruct (negb _); [done|]. destruct (ParseUint p 16); [|done]. by injection Ha as -> ->.
Qed.

Example malformed_addresses :
  map splitHostPort ["db:1:2"; "[::1"] = [Ok ("db:1:2", 3306); Ok ("::1", 3306)]%Z.
Proof. vm_compute. reflexivity. Qed.
