(* ===== verification/GoEncoding.v ===== *)
(** * Encoders of the Go standard library

    [unicode/utf8] (splitting a byte string into runes, as [utf8.ValidString]
    and [encoding/json] walk it), [encoding/hex], [encoding/base64], the string
    case of [json.Marshal] and [crypto/sha256]. *)

From Stdlib Require Import Ascii.
From S2P Require Import Prelude GoStd.

(** ** Package [unicode/utf8] *)

Definition in_bytes (lo hi : Z) (c : ascii) : bool :=
  ((lo <=? byte_val c) && (byte_val c <=? hi))%Z.
Definition cont (c : ascii) : bool := in_bytes 128 191 c.
Definition low6 (c : ascii) : Z := Z.land (byte_val c) 63.

(** The rune of a well-formed sequence of one to four bytes. *)
Definition rune1 (a : ascii) : option Z :=
  if (byte_val a <? 128)%Z then Some (byte_val a) else None.
Definition rune2 (a b : ascii) : option Z :=
  if in_bytes 194 223 a && cont b
  then Some (Z.land (byte_val a) 31 * 64 + low6 b)%Z else None.
Definition rune3 (a b c : ascii) : option Z :=
  let second :=
    if (byte_val a =? 224)%Z then in_bytes 160 191 b
    else if (byte_val a =? 237)%Z then in_bytes 128 159 b
    else cont b in
  if in_bytes 224 239 a && second && cont c
  then Some (Z.land (byte_val a) 15 * 4096 + low6 b * 64 + low6 c)%Z else None.
Definition rune4 (a b c d : ascii) : option Z :=
  let second :=
    if (byte_val a =? 240)%Z then in_bytes 144 191 b
    else if (byte_val a =? 244)%Z then in_bytes 128 143 b
    else cont b in
  if in_bytes 240 244 a && second && cont c && cont d
  then Some (Z.land (byte_val a) 7 * 262144 + low6 b * 4096 + low6 c * 64 + low6 d)%Z
  else None.

(** A byte string cut into its runes; a byte that starts no well-formed
    sequence stands alone with no rune, as [utf8.DecodeRune] reports it. *)
Fixpoint runes (s : string) : list (option Z * string) :=
  match s with
  | "" => []
  | String a s1 =>
    match rune1 a with
    | Some r => (Some r, String a "") :: runes s1
    | None =>
      match s1 with
      | "" => [(None, String a "")]
      | String b s2 =>
        match rune2 a b with
        | Some r => (Some r, String a (String b "")) :: runes s2
        | None =>
          match s2 with
          | "" => (None, String a "") :: runes s1
          | String c s3 =>
            match rune3 a b c with
            | Some r => (Some r, String a (String b (String c ""))) :: runes s3
            | None =>
              match s3 with
              | "" => (None, String a "") :: runes s1
              | String d s4 =>
                match rune4 a b c d with
                | Some r => (Some r, String a (String b (String c (String d "")))) :: runes s4
                | None => (None, String a "") :: runes s1
                end
              end
            end
          end
        end
      end
    end
  end.

Definition ValidString (s : string) : bool :=
  forallb (fun p => bool_decide (is_Some p.1)) (runes s).

(** [b.WriteRune(r)] for a rune below 0x800. *)
Definition WriteRune (r : Z) : string :=
  if (r <? 128)%Z then str1 (byte_of_Z r)
  else String (byte_of_Z (192 + r / 64)) (str1 (byte_of_Z (128 + r mod 64))).

(** ** Packages [encoding/hex] and [encoding/base64] *)

Definition hex_lower (n : Z) : ascii :=
  if (n <? 10)%Z then byte_of_Z (48 + n) else byte_of_Z (87 + n).
Definition hex_upper (n : Z) : ascii :=
  if (n <? 10)%Z then byte_of_Z (48 + n) else byte_of_Z (55 + n).

Definition hex_EncodeToString : string -> string :=
  str_concat_map (fun c =>
    String (hex_lower (Z.shiftr (byte_val c) 4)) (str1 (hex_lower (Z.land (byte_val c) 15)))).

Definition base64_digit (n : Z) : ascii :=
  if (n <? 26)%Z then byte_of_Z (65 + n)
  else if (n <? 52)%Z then byte_of_Z (71 + n)
  else if (n <? 62)%Z then byte_of_Z (n - 4)
  else if (n =? 62)%Z then "+"%char else "/"%char.

(** [base64.StdEncoding.EncodeToString]. *)
Fixpoint base64_EncodeToString (s : string) : string :=
  match s with
  | "" => ""
  | String a "" =>
      let n := (byte_val a * 65536)%Z in
      String (base64_digit (Z.land (Z.shiftr n 18) 63))
        (String (base64_digit (Z.land (Z.shiftr n 12) 63)) "==")
  | String a (String b "") =>
      let n := (byte_val a * 65536 + byte_val b * 256)%Z in
      String (base64_digit (Z.land (Z.shiftr n 18) 63))
        (String (base64_digit (Z.land (Z.shiftr n 12) 63))
          (String (base64_digit (Z.land (Z.shiftr n 6) 63)) "="))
  | String a (String b (String c s')) =>
      let n := (byte_val a * 65536 + byte_val b * 256 + byte_val c)%Z in
      String (base64_digit (Z.land (Z.shiftr n 18) 63))
        (String (base64_digit (Z.land (Z.shiftr n 12) 63))
          (String (base64_digit (Z.land (Z.shiftr n 6) 63))
            (String (base64_digit (Z.land n 63)) (base64_EncodeToString s'))))
  end.

Example base64_foobar : base64_EncodeToString "foobar" = "Zm9vYmFy".
Proof. reflexivity. Qed.
Example base64_f : base64_EncodeToString "fo" = "Zm8=".
Proof. reflexivity. Qed.

(** ** Package [encoding/json]: strings *)

Definition quote_char : ascii := ascii_of_nat 34.
Definition backslash : ascii := ascii_of_nat 92.
Definition newline : ascii := ascii_of_nat 10.

Definition u00 (b : Z) : string :=
  String backslash ("u00" +:+ String (hex_lower (Z.shiftr b 4)) (str1 (hex_lower (Z.land b 15)))).

(** One rune inside the string [json.Marshal] writes, with its HTML escaping. *)
Definition marshal_rune (p : option Z * string) : string :=
  match p with
  | (None, _) => String backslash "ufffd"
  | (Some r, raw) =>
      if (r =? 34)%Z then String backslash (str1 quote_char)
      else if (r =? 92)%Z then String backslash (str1 backslash)
      else if (r =? 8)%Z then String backslash "b"
      else if (r =? 12)%Z then String backslash "f"
      else if (r =? 10)%Z then String backslash "n"
      else if (r =? 13)%Z then String backslash "r"
      else if (r =? 9)%Z then String backslash "t"
      else if ((r <? 32) || (r =? 60) || (r =? 62) || (r =? 38))%Z then u00 r
      else if (r =? 8232)%Z then String backslash "u2028"
      else if (r =? 8233)%Z then String backslash "u2029"
      else raw
  end.

(** [json.Marshal] of a string. *)
Definition json_MarshalString (s : string) : string :=
  String quote_char (String.concat "" (map marshal_rune (runes s)) +:+ str1 quote_char).

(** *** The JSON string grammar

    A reference reader of one JSON string (RFC 8259, section 7), for the
    escapes that stand for a byte below 0x80: what an encoder promises is that
    this reader gives its argument back. *)
Definition hex_digit_val (c : ascii) : option Z :=
  let b := byte_val c in
  if ((48 <=? b) && (b <=? 57))%Z then Some (b - 48)%Z
  else if ((97 <=? b) && (b <=? 102))%Z then Some (b - 87)%Z
  else if ((65 <=? b) && (b <=? 70))%Z then Some (b - 55)%Z
  else None.

Definition simple_escape (c : ascii) : option ascii :=
  let b := byte_val c in
  if ((b =? 34) || (b =? 92) || (b =? 47))%Z then Some c
  else if (b =? 110)%Z then Some (byte_of_Z 10)
  else if (b =? 114)%Z then Some (byte_of_Z 13)
  else if (b =? 116)%Z then Some (byte_of_Z 9)
  else if (b =? 98)%Z then Some (byte_of_Z 8)
  else if (b =? 102)%Z then Some (byte_of_Z 12)
  else None.

(** The characters of a string up to the closing quote, and what follows it. *)
Fixpoint read_json_chars (s : string) : option (string * string) :=
  match s with
  | "" => None
  | String c s1 =>
    if (byte_val c =? 34)%Z then Some ("", s1)
    else if (byte_val c <? 32)%Z then None
    else if (byte_val c =? 92)%Z then
      match s1 with
      | "" => None
      | String e s2 =>
        if (byte_val e =? 117)%Z then
          match s2 with
          | String z1 (String z2 (String h (String l s3))) =>
            match hex_digit_val z1, hex_digit_val z2, hex_digit_val h, hex_digit_val l with
            | Some 0%Z, Some 0%Z, Some hv, Some lv =>
                if (hv <? 8)%Z then
                  '(t, rest) ← read_json_chars s3;
                  Some (String (byte_of_Z (hv * 16 + lv)) t, rest)
                else None
            | _, _, _, _ => None
            end
          | _ => None
          end
        else
          d ← simple_escape e;
          '(t, rest) ← read_json_chars s2; Some (String d t, rest)
      end
    else '(t, rest) ← read_json_chars s1; Some (String c t, rest)
  end.

Definition read_json_string (s : string) : option (string * string) :=
  match s with
  | String c s1 => if (byte_val c =? 34)%Z then read_json_chars s1 else None
  | "" => None
  end.

(** ** Package [crypto/sha256] *)

Module Sha256.

Definition w32 (z : Z) : Z := z mod 2 ^ 32.
Definition rotr (x n : Z) : Z :=
  Z.lor (Z.shiftr x n) (w32 (Z.shiftl x (32 - n))).
Definition not32 (x : Z) : Z := Z.lxor x (2 ^ 32 - 1).

(** The constants of FIPS 180-4, from their definition: the fractional bits of
    the cube roots of the first 64 primes, and of the square roots of the first
    eight. *)
Definition is_prime (n : Z) : bool :=
  forallb (fun d => negb (n mod Z.of_nat d =? 0)%Z) (seq 2 (Z.to_nat (n - 2))).
Definition primes : list Z := filter (fun n => Is_true (is_prime n)) (map Z.of_nat (seq 2 310)).

(** The integer cube root, one bit of the root at a time from bit [n]. *)
Fixpoint cbrt (n : nat) (root z : Z) : Z :=
  match n with
  | 0%nat => root
  | S n =>
      let next := (root + 2 ^ Z.of_nat n)%Z in
      cbrt n (if (next * next * next <=? z)%Z then next else root) z
  end.

Definition K : list Z :=
  Eval vm_compute in map (fun p => w32 (cbrt 36 0 (p * 2 ^ 96))) primes.

Definition H0 : list Z :=
  Eval vm_compute in map (fun p => w32 (Z.sqrt (p * 2 ^ 64))) (take 8 primes).

Definition be_bytes (n : nat) (z : Z) : list Z :=
  map (fun i => Z.land (Z.shiftr z (8 * Z.of_nat (n - 1 - i))) 255) (seq 0 n).

Definition pad (m : list Z) : list Z :=
  m ++ [128]%Z ++ replicate (Z.to_nat ((55 - zlen m) mod 64)) 0%Z ++ be_bytes 8 (8 * zlen m).

Fixpoint words (n : nat) (m : list Z) : list Z :=
  match n, m with
  | S n, a :: b :: c :: d :: m =>
      (a * 16777216 + b * 65536 + c * 256 + d)%Z :: words n m
  | _, _ => []
  end.

(** The message schedule, most recent word first. *)
Fixpoint schedule (n : nat) (w : list Z) : list Z :=
  match n with
  | 0%nat => w
  | S n =>
      let at_ i := nth i w 0%Z in
      let s0 := Z.lxor (Z.lxor (rotr (at_ 14%nat) 7) (rotr (at_ 14%nat) 18)) (Z.shiftr (at_ 14%nat) 3) in
      let s1 := Z.lxor (Z.lxor (rotr (at_ 1%nat) 17) (rotr (at_ 1%nat) 19)) (Z.shiftr (at_ 1%nat) 10) in
      schedule n (w32 (at_ 15%nat + s0 + at_ 6%nat + s1) :: w)
  end.

Definition round (s : list Z) (kw : Z * Z) : list Z :=
  match s with
  | [a; b; c; d; e; f; g; h] =>
      let S1 := Z.lxor (Z.lxor (rotr e 6) (rotr e 11)) (rotr e 25) in
      let ch := Z.lxor (Z.land e f) (Z.land (not32 e) g) in
      let t1 := w32 (h + S1 + ch + kw.1 + kw.2) in
      let S0 := Z.lxor (Z.lxor (rotr a 2) (rotr a 13)) (rotr a 22) in
      let maj := Z.lxor (Z.lxor (Z.land a b) (Z.land a c)) (Z.land b c) in
      [w32 (t1 + w32 (S0 + maj)); a; b; c; w32 (d + t1); e; f; g]
  | _ => s
  end.

Definition block (h : list Z) (m : list Z) : list Z :=
  let w := reverse (schedule 48 (reverse (words 16 m))) in
  zip_with (fun x y => w32 (x + y)) h (foldl round h (zip K w)).

Fixpoint blocks (n : nat) (h m : list Z) : list Z :=
  match n with
  | 0%nat => h
  | S n => blocks n (block h (take 64 m)) (drop 64 m)
  end.

(** [sha256.Sum256]. *)
Definition Sum256 (s : string) : string :=
  let m := pad (map byte_val (String.list_ascii_of_string s)) in
  String.string_of_list_ascii
    (map byte_of_Z (concat (map (be_bytes 4) (blocks (length m `div` 64) H0 m)))).

Example sum_abc : hex_EncodeToString (Sum256 "abc") =
  "ba7816bf8f01cfea414140de5dae2223b00361a396177a9cb410ff61f20015ad".
Proof. vm_compute. reflexivity. Qed.

End Sha256.

(** ** Lemmas *)

(** An encoder of single bytes that the JSON reader undoes. *)
Definition reads_back (f : ascii -> string) : Prop := forall c rest,
  read_json_chars (f c +:+ rest) = ('(t, r) ← read_json_chars rest; Some (String c t, r)).

Lemma read_json_concat_map f s rest :
  reads_back f ->
  read_json_string (String quote_char (str_concat_map f s +:+ str1 quote_char) +:+ rest)
  = Some (s, rest).
Proof.
  intros Hf. change (read_json_chars ((str_concat_map f s +:+ str1 quote_char) +:+ rest) = Some (s, rest)).
  induction s as [|c s IH]; [done|].
  simpl. rewrite !app_assoc_str in *. by rewrite Hf, IH.
Qed.

(** A rune written for a byte is read back as that rune. *)
Lemma runes_WriteRune c s :
  runes (WriteRune (byte_val c) +:+ s) = (Some (byte_val c), WriteRune (byte_val c)) :: runes s.
Proof. all_bytes c; reflexivity. Qed.

Lemma runes_latin1 s :
  runes (str_concat_map (fun c => WriteRune (byte_val c)) s)
  = map (fun c => (Some (byte_val c), WriteRune (byte_val c))) (String.list_ascii_of_string s).
Proof. induction s as [|c s IH]; [done|]. simpl. by rewrite runes_WriteRune, IH. Qed.

(** ** Lengths *)

Lemma slen_concat_map_const f n s :
  (forall c, slen (f c) = n) -> slen (str_concat_map f s) = (n * slen s)%Z.
Proof.
  intros Hf. induction s as [|c s IH]; simpl; [unfold slen; simpl; lia|].
  rewrite slen_app, Hf, IH. unfold slen. simpl String.length. lia.
Qed.

Lemma hex_slen s : slen (hex_EncodeToString s) = (2 * slen s)%Z.
Proof. apply slen_concat_map_const. done. Qed.

Lemma slen_of_list l : slen (String.string_of_list_ascii l) = zlen l.
Proof. unfold slen, zlen. f_equal. induction l as [|c l IH]; simpl; [done|]. by rewrite IH. Qed.

Module Sha256Facts.
Import Sha256.

Lemma round_length s kw : length (round s kw) = length s.
Proof. by do 9 (destruct s as [|? s]; [done|]). Qed.

Lemma rounds_length kws s : length (foldl round s kws) = length s.
Proof. revert s. induction kws as [|kw kws IH]; intros s; simpl; [done|]. by rewrite IH, round_length. Qed.

Lemma block_length h m : length (block h m) = length h.
Proof. unfold block. rewrite length_zip_with, rounds_length. lia. Qed.

Lemma blocks_length n h m : length (blocks n h m) = length h.
Proof. revert h m. induction n as [|n IH]; intros h m; simpl; [done|]. by rewrite IH, block_length. Qed.

Lemma concat_be_length l : zlen (concat (map (be_bytes 4) l)) = (4 * zlen l)%Z.
Proof.
  induction l as [|x l IH]; [done|].
  change (concat (map (be_bytes 4) (x :: l))) with (be_bytes 4 x ++ concat (map (be_bytes 4) l)).
  rewrite zlen_app, zlen_cons, IH. change (zlen (be_bytes 4 x)) with 4%Z. lia.
Qed.

(** A digest is 32 bytes. *)
Lemma Sum256_slen s : slen (Sum256 s) = 32%Z.
Proof.
  unfold Sum256. rewrite slen_of_list. unfold zlen. rewrite length_map.
  change (zlen (concat (map (be_bytes 4)
    (blocks (length (pad (map byte_val (String.list_ascii_of_string s))) `div` 64) H0
       (pad (map byte_val (String.list_ascii_of_string s)))))) = 32%Z).
  rewrite concat_be_length. unfold zlen. by rewrite blocks_length.
Qed.

End Sha256Facts.
