(* ===== verification/GoJson.v ===== *)
(** * Package [encoding/json]: reading

    A JSON reader as [json.Unmarshal] reads its input (RFC 8259, invalid UTF-8
    and unpaired surrogates replaced by U+FFFD, nothing but white space after
    the value), the decoding of values into the Go types the program reads
    into, and the round trip of the strings [json.Marshal] writes. The nesting
    limit of 10000 levels is not modelled. *)

From Stdlib Require Import Ascii.
From Stdlib Require DecimalN DecimalFacts.
From S2P Require Import Prelude GoStd GoEncoding.

Inductive json :=
  | JNull
  | JBool (b : bool)
  | JNum (text : string)
  | JStr (s : string)
  | JArr (l : list json)
  | JObj (members : list (string * json)).

(** ** Strings *)

(** [utf8.AppendRune] of any rune; what is no rune is written as U+FFFD. *)
Definition AppendRune (r : Z) : string :=
  if (r <? 128)%Z then str1 (byte_of_Z r)
  else if (r <? 2048)%Z then
    String (byte_of_Z (192 + r / 64)) (str1 (byte_of_Z (128 + r mod 64)))
  else if ((55296 <=? r) && (r <? 57344) || (1114111 <? r))%Z then
    String (byte_of_Z 239) (String (byte_of_Z 191) (str1 (byte_of_Z 189)))
  else if (r <? 65536)%Z then
    String (byte_of_Z (224 + r / 4096))
      (String (byte_of_Z (128 + r / 64 mod 64)) (str1 (byte_of_Z (128 + r mod 64))))
  else
    String (byte_of_Z (240 + r / 262144)) (String (byte_of_Z (128 + r / 4096 mod 64))
      (String (byte_of_Z (128 + r / 64 mod 64)) (str1 (byte_of_Z (128 + r mod 64))))).
Definition RuneError : Z := 65533.

(** The four digits of a [\uXXXX] escape, and what follows them. *)
Definition read_u4 (s : string) : option (Z * string) :=
  match s with
  | String a (String b (String c (String d rest))) =>
      x ← hex_digit_val a; y ← hex_digit_val b; z ← hex_digit_val c; t ← hex_digit_val d;
      Some (x * 4096 + y * 256 + z * 16 + t, rest)%Z
  | _ => None
  end.

Definition is_high (r : Z) : bool := ((55296 <=? r) && (r <? 56320))%Z.
Definition is_low (r : Z) : bool := ((56320 <=? r) && (r <? 57344))%Z.

(** The body of a string after its opening quote: its text, and what follows
    the closing quote. A high surrogate is joined to the low one escaped right
    after it. *)
Fixpoint unquote (s : string) : option (string * string) :=
  let lit t rest := ('(u, r) ← rest; Some (t +:+ u, r)) in
  match s with
  | "" => None
  | String a s1 =>
    if (byte_val a =? 34)%Z then Some ("", s1)
    else if (byte_val a <? 32)%Z then None
    else if (byte_val a =? 92)%Z then
      match s1 with
      | "" => None
      | String e s2 =>
        if (byte_val e =? 117)%Z then
          match s2 with
          | String h1 (String h2 (String h3 (String h4 s3))) =>
            match hex_digit_val h1, hex_digit_val h2, hex_digit_val h3, hex_digit_val h4 with
            | Some x, Some y, Some z, Some t =>
              let r := (x * 4096 + y * 256 + z * 16 + t)%Z in
              if is_high r then
                match s3 with
                | String b1 (String u1 (String g1 (String g2 (String g3 (String g4 s4))))) =>
                  match read_u4 (String g1 (String g2 (String g3 (str1 g4)))) with
                  | Some (lo, _) =>
                    if (byte_val b1 =? 92)%Z && (byte_val u1 =? 117)%Z && is_low lo
                    then lit (AppendRune ((r - 55296) * 1024 + (lo - 56320) + 65536))%Z (unquote s4)
                    else lit (AppendRune RuneError) (unquote s3)
                  | None => lit (AppendRune RuneError) (unquote s3)
                  end
                | _ => lit (AppendRune RuneError) (unquote s3)
                end
              else lit (AppendRune r) (unquote s3)
            | _, _, _, _ => None
            end
          | _ => None
          end
        else
          match simple_escape e with
          | Some d => lit (str1 d) (unquote s2)
          | None => None
          end
      end
    else
      match rune1 a with
      | Some _ => lit (str1 a) (unquote s1)
      | None =>
        match s1 with
        | "" => None
        | String b s2 =>
          match rune2 a b with
          | Some _ => lit (String a (str1 b)) (unquote s2)
          | None =>
            match s2 with
            | "" => lit (AppendRune RuneError) (unquote s1)
            | String c s3 =>
              match rune3 a b c with
              | Some _ => lit (String a (String b (str1 c))) (unquote s3)
              | None =>
                match s3 with
                | "" => lit (AppendRune RuneError) (unquote s1)
                | String d s4 =>
                  match rune4 a b c d with
                  | Some _ => lit (String a (String b (String c (str1 d)))) (unquote s4)
                  | None => lit (AppendRune RuneError) (unquote s1)
                  end
                end
              end
            end
          end
        end
      end
  end.

(** ** Values *)

Definition is_ws (c : ascii) : bool :=
  let b := byte_val c in ((b =? 32) || (b =? 9) || (b =? 10) || (b =? 13))%Z.
Definition skip_ws : string -> string := TrimLeftBy is_ws.

Fixpoint span (P : ascii -> bool) (s : string) : string * string :=
  match s with
  | String c s' => if P c then let '(a, b) := span P s' in (String c a, b) else ("", s)
  | "" => ("", "")
  end.

(** The digits of a number part, at least one. *)
Definition digits1 (s : string) : option (string * string) :=
  match span is_digit s with ("", _) => None | p => Some p end.

Definition read_number (s : string) : option (string * string) :=
  let '(sign, s) := match s with String "-" s => ("-", s) | _ => ("", s) end in
  '(int, s) ← match s with
              | String "0" s => Some ("0", s)
              | _ => digits1 s
              end;
  '(frac, s) ← match s with
               | String "." s => '(d, s) ← digits1 s; Some ("." +:+ d, s)
               | _ => Some ("", s)
               end;
  let exponent e s :=
    let '(sg, s) := match s with String "+" s => ("+", s) | String "-" s => ("-", s) | _ => ("", s) end in
    '(d, s) ← digits1 s; Some (str1 e +:+ sg +:+ d, s) in
  '(exp, s) ← match s with
              | String "e" s => exponent "e"%char s
              | String "E" s => exponent "E"%char s
              | _ => Some ("", s)
              end;
  Some (sign +:+ int +:+ frac +:+ exp, s).

(** A value, and the elements or members that remain of an array or object
    whose opening bracket has been read. The fuel bounds the values read. *)
Fixpoint read_value (n : nat) (s : string) : option (json * string) :=
  match n with
  | 0%nat => None
  | S n =>
    match skip_ws s with
    | "" => None
    | String c s1 =>
      if (byte_val c =? 34)%Z then '(t, r) ← unquote s1; Some (JStr t, r)
      else if (byte_val c =? 91)%Z then
        match skip_ws s1 with
        | String "]" r => Some (JArr [], r)
        | s2 => '(l, r) ← read_elements n s2; Some (JArr l, r)
        end
      else if (byte_val c =? 123)%Z then
        match skip_ws s1 with
        | String "}" r => Some (JObj [], r)
        | s2 => '(l, r) ← read_members n s2; Some (JObj l, r)
        end
      else if HasPrefix (String c s1) "null" then Some (JNull, TrimPrefix (String c s1) "null")
      else if HasPrefix (String c s1) "true" then Some (JBool true, TrimPrefix (String c s1) "true")
      else if HasPrefix (String c s1) "false" then Some (JBool false, TrimPrefix (String c s1) "false")
      else '(t, r) ← read_number (String c s1); Some (JNum t, r)
    end
  end
with read_elements (n : nat) (s : string) : option (list json * string) :=
  match n with
  | 0%nat => None
  | S n =>
    '(v, r) ← read_value n s;
    match skip_ws r with
    | String "," r => '(l, r) ← read_elements n r; Some (v :: l, r)
    | String "]" r => Some ([v], r)
    | _ => None
    end
  end
with read_members (n : nat) (s : string) : option (list (string * json) * string) :=
  match n with
  | 0%nat => None
  | S n =>
    match skip_ws s with
    | String c s1 =>
      if (byte_val c =? 34)%Z then
        '(k, r) ← unquote s1;
        match skip_ws r with
        | String ":" r =>
          '(v, r) ← read_value n r;
          match skip_ws r with
          | String "," r => '(l, r) ← read_members n r; Some ((k, v) :: l, r)
          | String "}" r => Some ([(k, v)], r)
          | _ => None
          end
        | _ => None
        end
      else None
    | "" => None
    end
  end.

(** A whole input: one value and white space. *)
Definition json_Parse (s : string) : option json :=
  '(v, r) ← read_value (2 * String.length s + 2) s;
  if bool_decide (skip_ws r = "") then Some v else None.

Definition dq : string := str1 quote_char.

Example parse_example :
  json_Parse (" [1, -2.5e3, {" +:+ dq +:+ "a" +:+ dq +:+ ": null}, true ] ")
  = Some (JArr [JNum "1"; JNum "-2.5e3"; JObj [("a", JNull)]; JBool true]).
Proof. vm_compute. reflexivity. Qed.

Example parse_surrogates :
  json_Parse (dq +:+ String backslash "ud83d" +:+ String backslash "ude00" +:+ dq)
  = Some (JStr (AppendRune 128512)).
Proof. vm_compute. reflexivity. Qed.

(** ** Decoding into Go types

    [None] is an [UnmarshalTypeError]; [null] leaves the zero value. *)
Definition as_string (v : json) : option string :=
  match v with JStr s => Some s | JNull => Some "" | _ => None end.
Definition as_bool (v : json) : option bool :=
  match v with JBool b => Some b | JNull => Some false | _ => None end.
Definition as_int (v : json) : option Z :=
  match v with JNum t => ParseInt t | JNull => Some 0%Z | _ => None end.
Definition as_list (v : json) : option (list json) :=
  match v with JArr l => Some l | JNull => Some [] | _ => None end.
Definition as_members (v : json) : option (list (string * json)) :=
  match v with JObj l => Some l | JNull => Some [] | _ => None end.

(** A scalar field of a struct: every member whose name matches without regard
    to case is decoded into it, the last one staying; [null] changes nothing. *)
Definition scalar_field {A} (zero : A) (dec : json -> option A) (name : string)
    (members : list (string * json)) : option A :=
  foldl (fun acc kv =>
    x ← acc;
    if EqualFold kv.1 name then (match kv.2 with JNull => Some x | v => dec v end) else Some x)
    (Some zero) members.

(** A slice field: [null] makes it [nil] again. *)
Definition list_field (name : string) (members : list (string * json)) : option (list json) :=
  foldl (fun acc kv =>
    x ← acc; if EqualFold kv.1 name then as_list kv.2 else Some x) (Some []) members.

(** A field that is itself a struct: the members of all its occurrences. *)
Definition struct_field (name : string) (members : list (string * json))
  : option (list (string * json)) :=
  foldl (fun acc kv =>
    x ← acc;
    if EqualFold kv.1 name then (y ← as_members kv.2; Some (x ++ y)) else Some x)
    (Some []) members.

(** A [map[string]T]. *)
Definition as_map {A} (dec : json -> option A) (v : json) : option (gmap string A) :=
  members ← as_members v;
  kvs ← mapM (fun kv => x ← dec kv.2; Some (kv.1, x)) members;
  Some (foldl (fun m kv => <[kv.1 := kv.2]> m) ∅ kvs).

(** *** [json.RawMessage]: the text of a value as it stands *)

Definition read_raw (s : string) : option (string * string) :=
  let s := skip_ws s in
  '(_, r) ← read_value (2 * String.length s + 2) s;
  Some (String.substring 0 (String.length s - String.length r) s, r).

(** The members of an object whose opening brace has been read. *)
Fixpoint read_raw_members (n : nat) (s : string) : option (list (string * string)) :=
  match n, skip_ws s with
  | S n, String c s =>
    '(k, r) ← (if (byte_val c =? 34)%Z then unquote s else None);
    match skip_ws r with
    | String ":" r =>
      '(v, r) ← read_raw r;
      match skip_ws r with
      | String "," r => l ← read_raw_members n r; Some ((k, v) :: l)
      | String "}" _ => Some [(k, v)]
      | _ => None
      end
    | _ => None
    end
  | _, _ => None
  end.

(** A valid value's members, as [as_members] has them but with their texts. *)
Definition raw_members (raw : string) : option (list (string * string)) :=
  match json_Parse raw, skip_ws raw with
  | Some JNull, _ | Some (JObj []), _ => Some []
  | Some (JObj _), String _ s => read_raw_members (String.length s) s
  | _, _ => None
  end.

(** A field that is itself a struct, and a [json.RawMessage] field. *)
Definition raw_struct_field (name : string) (members : list (string * string))
  : option (list (string * string)) :=
  foldl (fun acc kv =>
    x ← acc;
    if EqualFold kv.1 name then (y ← raw_members kv.2; Some (x ++ y)) else Some x)
    (Some []) members.
Definition raw_field (name : string) (members : list (string * string)) : string :=
  foldl (fun x kv => if EqualFold kv.1 name then kv.2 else x) "" members.
Definition raw_map {A} (dec : string -> option A) (raw : string) : option (gmap string A) :=
  members ← raw_members raw;
  kvs ← mapM (fun kv => x ← dec kv.2; Some (kv.1, x)) members;
  Some (foldl (fun m kv => <[kv.1 := kv.2]> m) ∅ kvs).

Definition as_string_list (v : json) : option (list string) :=
  l ← as_list v; mapM as_string l.

(** [json.Unmarshal] into a [[]string], and [json.Marshal] of one. *)
Definition json_UnmarshalStrings (s : string) : option (list string) :=
  v ← json_Parse s; as_string_list v.
Definition json_MarshalStrings (l : list string) : string :=
  "[" +:+ Join (map json_MarshalString l) "," +:+ "]".

(** ** What [json.Marshal] writes is read back *)

Section RoundTrip.

Lemma low6_cont c : cont c = true -> (0 <= low6 c < 64)%Z /\ byte_val c = (128 + low6 c)%Z.
Proof. all_bytes c; (done || (intros _; vm_compute; repeat split; congruence)). Qed.

Lemma lead2 a : in_bytes 194 223 a = true ->
  (2 <= Z.land (byte_val a) 31 < 32)%Z.
Proof. all_bytes a; (done || (intros _; vm_compute; repeat split; congruence)). Qed.

Lemma lead3 a : in_bytes 224 239 a = true ->
  (0 <= Z.land (byte_val a) 15 < 16)%Z /\ byte_val a = (224 + Z.land (byte_val a) 15)%Z.
Proof. all_bytes a; (done || (intros _; vm_compute; repeat split; congruence)). Qed.

Lemma in_bytes_spec lo hi c : in_bytes lo hi c = true <-> (lo <= byte_val c <= hi)%Z.
Proof. unfold in_bytes. rewrite andb_true_iff, !Z.leb_le. done. Qed.

(** A rune of [runes], by the number of its bytes. *)
Inductive rune_bytes : Z -> string -> Prop :=
  | OneByte a r : rune1 a = Some r -> rune_bytes r (str1 a)
  | TwoBytes a b r : rune1 a = None -> rune2 a b = Some r -> rune_bytes r (String a (str1 b))
  | ThreeBytes a b c r : rune1 a = None -> rune2 a b = None -> rune3 a b c = Some r ->
      rune_bytes r (String a (String b (str1 c)))
  | FourBytes a b c d r : rune1 a = None -> rune2 a b = None -> rune3 a b c = None ->
      rune4 a b c d = Some r -> rune_bytes r (String a (String b (String c (str1 d)))).

Lemma runes_bytes s r raw : (Some r, raw) ∈ runes s -> rune_bytes r raw.
Proof.
  remember (String.length s) as n eqn:Hn. revert s Hn.
  induction n as [n IH] using lt_wf_ind. intros [|a s1] ->; simpl; [by intros ?%not_elem_of_nil|].
  assert (forall t, String.length t <= String.length s1 -> (Some r, raw) ∈ runes t -> rune_bytes r raw) as IH'.
  { intros t Ht. eapply (IH (String.length t)); [simpl; lia|done]. }
  clear IH. destruct (rune1 a) as [r1|] eqn:H1.
  { intros [[= -> ->]|Hin]%elem_of_cons; [by constructor | by eapply IH'; [|exact Hin]]. }
  destruct s1 as [|b s2]; [by intros ?%list_elem_of_singleton|].
  destruct (rune2 a b) as [r2|] eqn:H2.
  { intros [[= -> ->]|Hin]%elem_of_cons; [by constructor | eapply IH'; [|exact Hin]; simpl; lia]. }
  destruct s2 as [|c s3].
  { intros [?|Hin]%elem_of_cons; [done | eapply IH'; [|exact Hin]; simpl; lia]. }
  destruct (rune3 a b c) as [r3|] eqn:H3.
  { intros [[= -> ->]|Hin]%elem_of_cons; [by constructor | eapply IH'; [|exact Hin]; simpl; lia]. }
  destruct s3 as [|d s4].
  { intros [?|Hin]%elem_of_cons; [done | eapply IH'; [|exact Hin]; simpl; lia]. }
  destruct (rune4 a b c d) as [r4|] eqn:H4.
  { intros [[= -> ->]|Hin]%elem_of_cons; [by constructor | eapply IH'; [|exact Hin]; simpl; lia]. }
  intros [?|Hin]%elem_of_cons; [done | eapply IH'; [|exact Hin]; simpl; lia].
Qed.

Lemma runes_concat s : String.concat "" (map snd (runes s)) = s.
Proof.
  assert (forall x l, String.concat "" (x :: l) = x +:+ String.concat "" l) as Hc.
  { intros x [|y l]; [simpl; by rewrite app_nil_r_str | done]. }
  remember (String.length s) as n eqn:Hn. revert s Hn.
  induction n as [n IH] using lt_wf_ind. intros [|a s1] ->; [done|].
  assert (forall t, String.length t <= String.length s1 -> String.concat "" (map snd (runes t)) = t) as IH'.
  { intros t Ht. eapply (IH (String.length t)); [simpl; lia|done]. }
  clear IH. simpl. destruct (rune1 a); [cbn [map snd]; rewrite Hc, IH' by lia; done|].
  destruct s1 as [|b s2]; [done|].
  destruct (rune2 a b); [cbn [map snd]; rewrite Hc, IH' by (simpl; lia); done|].
  destruct s2 as [|c s3]; [cbn [map snd]; rewrite Hc, IH' by lia; done|].
  destruct (rune3 a b c); [cbn [map snd]; rewrite Hc, IH' by (simpl; lia); done|].
  destruct s3 as [|d s4]; [cbn [map snd]; rewrite Hc, IH' by lia; done|].
  destruct (rune4 a b c d); [cbn [map snd]; rewrite Hc, IH' by (simpl; lia); done|].
  cbn [map snd]. rewrite Hc, IH' by lia. done.
Qed.

Lemma marshal_plain r raw :
  (128 <= r)%Z -> r <> 8232%Z -> r <> 8233%Z -> marshal_rune (Some r, raw) = raw.
Proof. intros ???. unfold marshal_rune. repeat (case_match; [bool_to_prop; lia|]). done. Qed.

(** A lead byte of a longer sequence is no delimiter and no single rune. *)
Lemma lead_plain a : (194 <= byte_val a)%Z ->
  (byte_val a =? 34)%Z = false /\ (byte_val a <? 32)%Z = false /\ (byte_val a =? 92)%Z = false.
Proof. intros. split_and!; [apply Z.eqb_neq | apply Z.ltb_ge | apply Z.eqb_neq]; lia. Qed.

Lemma unquote_lead a rest : (194 <= byte_val a)%Z -> rune1 a = None ->
  unquote (String a rest) =
    match rest with
    | "" => None
    | String b s2 =>
      match rune2 a b with
      | Some _ => ('(u, r) ← unquote s2; Some (String a (str1 b) +:+ u, r))
      | None =>
        match s2 with
        | "" => ('(u, r) ← unquote rest; Some (AppendRune RuneError +:+ u, r))
        | String c s3 =>
          match rune3 a b c with
          | Some _ => ('(u, r) ← unquote s3; Some (String a (String b (str1 c)) +:+ u, r))
          | None =>
            match s3 with
            | "" => ('(u, r) ← unquote rest; Some (AppendRune RuneError +:+ u, r))
            | String d s4 =>
              match rune4 a b c d with
              | Some _ => ('(u, r) ← unquote s4; Some (String a (String b (String c (str1 d))) +:+ u, r))
              | None => ('(u, r) ← unquote rest; Some (AppendRune RuneError +:+ u, r))
              end
            end
          end
        end
      end
    end.
Proof.
  intros Ha H1. destruct (lead_plain a Ha) as (E1 & E2 & E3). simpl.
  rewrite E1, E2, E3, H1. done.
Qed.

Lemma rune1_plain a rest : forall r, rune1 a = Some r ->
  unquote (marshal_rune (Some r, str1 a) +:+ rest) = ('(u, t) ← unquote rest; Some (str1 a +:+ u, t)).
Proof. all_bytes a; intros r Hr; (discriminate || (injection Hr as <-; reflexivity)). Qed.

Lemma rune2_spec a b r : rune2 a b = Some r -> (194 <= byte_val a)%Z /\ (128 <= r < 2048)%Z.
Proof.
  unfold rune2. case_match eqn:E; [|done]. apply andb_true_iff in E as [Ha Hb]. intros [= <-].
  pose proof (lead2 a Ha). pose proof (low6_cont b Hb) as [? _]. apply in_bytes_spec in Ha. lia.
Qed.

Lemma rune3_spec a b c r : rune3 a b c = Some r ->
  (224 <= byte_val a)%Z /\ (128 <= r)%Z /\
  r = ((byte_val a - 224) * 4096 + (byte_val b - 128) * 64 + (byte_val c - 128))%Z /\
  (128 <= byte_val b < 192)%Z /\ (128 <= byte_val c < 192)%Z.
Proof.
  unfold rune3. case_match eqn:E; [|done]. apply andb_true_iff in E as [E Hc].
  apply andb_true_iff in E as [Ha Hb]. intros [= <-].
  assert (cont b = true /\ (byte_val a = 224 -> 160 <= byte_val b)%Z) as [Hb' Hlow].
  { unfold cont. rewrite in_bytes_spec. repeat case_match; bool_to_prop; apply in_bytes_spec in Hb; lia. }
  pose proof (lead3 a Ha) as [? ?]. pose proof (low6_cont b Hb') as [? ?]. pose proof (low6_cont c Hc) as [? ?].
  apply in_bytes_spec in Ha. lia.
Qed.

Lemma rune4_spec a b c d r : rune4 a b c d = Some r -> (240 <= byte_val a)%Z /\ (65536 <= r)%Z.
Proof.
  unfold rune4. case_match eqn:E; [|done]. apply andb_true_iff in E as [E Hd].
  apply andb_true_iff in E as [E Hc]. apply andb_true_iff in E as [Ha Hb]. intros [= <-].
  assert (cont b = true /\ (byte_val a = 240 -> 144 <= byte_val b)%Z) as [Hb' Hlow].
  { unfold cont. rewrite in_bytes_spec. repeat case_match; bool_to_prop; apply in_bytes_spec in Hb; lia. }
  assert (byte_val a = 240 + Z.land (byte_val a) 7)%Z as H4.
  { clear -Ha. all_bytes a; (done || reflexivity). }
  pose proof (low6_cont b Hb') as [? ?]. pose proof (low6_cont c Hc) as [? ?].
  pose proof (low6_cont d Hd) as [? ?]. apply in_bytes_spec in Ha. lia.
Qed.

Lemma byte_is a n : (0 <= n < 256)%Z -> byte_val a = n -> a = byte_of_Z n.
Proof. intros Hn Ha. apply byte_val_inj. by rewrite byte_val_of. Qed.

(** Reading what is written for one rune. *)
Lemma unquote_rune r raw rest :
  rune_bytes r raw ->
  unquote (marshal_rune (Some r, raw) +:+ rest) = ('(u, t) ← unquote rest; Some (raw +:+ u, t)).
Proof.
  intros [a r' H1|a b r' H1 H2|a b c r' H1 H2 H3|a b c d r' H1 H2 H3 H4].
  - by apply rune1_plain.
  - pose proof (rune2_spec _ _ _ H2) as [Ha Hr]. rewrite marshal_plain by lia. cbn [String.append str1].
    rewrite (unquote_lead a) by (lia || done). by rewrite H2.
  - pose proof (rune3_spec _ _ _ _ H3) as (Ha & Hr & Heq & Hb & Hc).
    destruct (decide (r' = 8232 \/ r' = 8233)%Z) as [Hsep|Hne].
    + assert (byte_val a = 226 /\ byte_val b = 128)%Z as [Ea Eb] by lia.
      apply byte_is in Ea; [|lia]. apply byte_is in Eb; [|lia].
      destruct Hsep; subst r'; assert (byte_val c = 168 \/ byte_val c = 169)%Z as Ec by lia;
        (destruct Ec as [Ec|Ec]; [|]); (rewrite Ea, Eb, Ec in *; try lia);
        apply byte_is in Ec; [|lia|..]; subst; try reflexivity; lia.
    + rewrite marshal_plain by lia. cbn [String.append str1].
      rewrite (unquote_lead a) by (lia || done). by rewrite H2, H3.
  - pose proof (rune4_spec _ _ _ _ _ H4) as [Ha Hr]. rewrite marshal_plain by lia. cbn [String.append str1].
    rewrite (unquote_lead a) by (lia || done). by rewrite H2, H3, H4.
Qed.

Lemma concat_cons x l : String.concat "" (x :: l) = x +:+ String.concat "" l.
Proof. destruct l; [simpl; by rewrite app_nil_r_str | done]. Qed.

Lemma ValidString_runes s :
  ValidString s = true ->
  Forall (fun p : option Z * string => exists r, p.1 = Some r /\ rune_bytes r p.2) (runes s).
Proof.
  intros Hv. apply Forall_forall. intros [o raw] Hin. unfold ValidString in Hv. rewrite forallb_forall in Hv.
  specialize (Hv _ (proj1 (list_elem_of_In _ _) Hin)). apply bool_decide_eq_true in Hv as [r Hr].
  simpl in *. subst o. exists r. split; [done|]. by eapply runes_bytes.
Qed.

(** A valid string comes back from its JSON text, which is read up to its
    closing quote. *)
Lemma unquote_marshal s rest :
  ValidString s = true ->
  unquote (String.concat "" (map marshal_rune (runes s)) +:+ String quote_char rest) = Some (s, rest).
Proof.
  intros Hv. pose proof (ValidString_runes s Hv) as Hall.
  rewrite <- (runes_concat s) at 2. clear Hv. induction Hall as [|[o raw] l (r & Ho & Hr) _ IH]; [done|].
  simpl in Ho, Hr. subst o. cbn [map snd]. rewrite !concat_cons, app_assoc_str, unquote_rune by done.
  by rewrite IH.
Qed.

Lemma read_string_value n s rest :
  ValidString s = true ->
  read_value (S n) (json_MarshalString s +:+ rest) = Some (JStr s, rest).
Proof.
  intros Hv. unfold json_MarshalString. cbn [String.append]. 
  change (('(t, r) ← unquote ((String.concat "" (map marshal_rune (runes s)) +:+ str1 quote_char) +:+ rest);
           Some (JStr t, r)) = Some (JStr s, rest)).
  rewrite app_assoc_str. cbn [String.append str1]. by rewrite unquote_marshal.
Qed.

Lemma read_elements_S n s :
  read_elements (S n) s =
    ('(v, r) ← read_value n s;
     match skip_ws r with
     | String "," r => '(l, r) ← read_elements n r; Some (v :: l, r)
     | String "]" r => Some ([v], r)
     | _ => None
     end).
Proof. done. Qed.

Lemma read_strings n l rest :
  l <> [] -> Forall (fun s => ValidString s = true) l -> 2 * length l <= n ->
  read_elements n (Join (map json_MarshalString l) "," +:+ String "]" rest) = Some (map JStr l, rest).
Proof.
  intros Hne Hl. revert n. induction Hl as [|s l Hs Hl IH]; intros n Hn; [done|].
  destruct n as [|[|n]]; [simpl in Hn; lia..|]. rewrite read_elements_S. destruct l as [|s' l].
  - change (Join (map json_MarshalString [s]) ",") with (json_MarshalString s).
    by rewrite read_string_value.
  - change (Join (map json_MarshalString (s :: s' :: l)) ",")
      with (json_MarshalString s +:+ String "," (Join (map json_MarshalString (s' :: l)) ",")).
    rewrite app_assoc_str, app_cons_str, read_string_value by done.
    set (more := Join (map json_MarshalString (s' :: l)) "," +:+ String "]" rest).
    change (('(l, r) ← read_elements (S n) more; Some (JStr s :: l, r))
            = Some (map JStr (s :: s' :: l), rest)).
    subst more. rewrite IH; [done|done|]. simpl in *. lia.
Qed.

Lemma Join_marshal_length l :
  l <> [] -> 2 * length l <= String.length (Join (map json_MarshalString l) ",").
Proof.
  intros Hne. induction l as [|s l IH]; [done|].
  assert (2 <= String.length (json_MarshalString s)) as H2.
  { unfold json_MarshalString. cbn [String.length].
    pose proof (slen_app (String.concat "" (map marshal_rune (runes s))) (str1 quote_char)) as H.
    unfold slen in H. change (String.length (str1 quote_char)) with 1 in H. lia. }
  destruct l as [|s' l]; [simpl in *; lia|].
  change (Join (map json_MarshalString (s :: s' :: l)) ",")
    with (json_MarshalString s +:+ String "," (Join (map json_MarshalString (s' :: l)) ",")).
  specialize (IH ltac:(done)). set (J := Join (map json_MarshalString (s' :: l)) ",") in *.
  pose proof (slen_app (json_MarshalString s) (String "," J)) as E. unfold slen in E.
  cbn [length String.length] in *. lia.
Qed.

Lemma as_string_JStr l : mapM as_string (map JStr l) = Some l.
Proof. induction l as [|s l IH]; [done|]. simpl in *. by rewrite IH. Qed.

(** A list of valid strings comes back from its JSON text. *)
Lemma json_strings_roundtrip l :
  Forall (fun s => ValidString s = true) l ->
  json_UnmarshalStrings (json_MarshalStrings l) = Some l.
Proof.
  intros Hl. destruct l as [|s l]; [done|]. unfold json_UnmarshalStrings, json_MarshalStrings, json_Parse.
  set (ls := s :: l) in *. set (body := Join (map json_MarshalString ls) ",").
  assert (2 * length ls <= String.length body) as Hlen by (by apply Join_marshal_length).
  set (n := String.length ("[" +:+ body +:+ "]")).
  assert (2 * length ls + 1 <= 2 * n + 1) as Hn.
  { subst n. pose proof (slen_app "[" (body +:+ "]")). pose proof (slen_app body "]").
    unfold slen in *. simpl String.length in *. lia. }
  assert (read_value (2 * n + 2) ("[" +:+ body +:+ "]") = Some (JArr (map JStr ls), "")) as ->.
  { replace (2 * n + 2) with (S (2 * n + 1)) by lia.
    assert (exists b, body = String quote_char b) as [b Hb].
    { subst body ls. destruct l; [by eexists|]. simpl. by eexists. }
    assert (forall m, read_value (S m) ("[" +:+ body +:+ "]") =
       ('(l, r) ← read_elements m (body +:+ "]"); Some (JArr l, r))) as -> by (intros m; by rewrite Hb).
    subst body. rewrite read_strings; [done|done|done|lia]. }
  transitivity (mapM as_string (map JStr ls)); [done | apply as_string_JStr].
Qed.

(** *** Objects with plain names *)

Definition plain_byte (c : ascii) : bool :=
  let b := byte_val c in
  ((32 <=? b) && (b <? 128) && negb (b =? 34) && negb (b =? 92))%Z.

Lemma unquote_concat_map f P s rest :
  (forall c r, P c = true -> unquote (f c +:+ r) = ('(u, t) ← unquote r; Some (str1 c +:+ u, t))) ->
  str_forall P s = true ->
  unquote (str_concat_map f s +:+ String quote_char rest) = Some (s, rest).
Proof.
  intros Hf. induction s as [|c s IH]; intros Hs; [done|]. simpl in Hs. apply andb_true_iff in Hs as [Hc Hs].
  simpl str_concat_map. rewrite app_assoc_str, Hf by done. by rewrite IH.
Qed.

Lemma str_concat_map_str1 s : str_concat_map str1 s = s.
Proof. induction s as [|c s IH]; [done|]. simpl. by rewrite IH. Qed.

Lemma unquote_plain k rest :
  str_forall plain_byte k = true -> unquote (k +:+ String quote_char rest) = Some (k, rest).
Proof.
  intros Hk. rewrite <- (str_concat_map_str1 k) at 1. apply (unquote_concat_map _ plain_byte); [|done].
  intros c r. all_bytes c; (discriminate || (intros _; reflexivity)).
Qed.

(** What follows the value of a member. *)
Definition after_member (n : nat) (k : string) (vr : json * string) : option (list (string * json) * string) :=
  match skip_ws vr.2 with
  | String "," r => '(l, r) ← read_members n r; Some ((k, vr.1) :: l, r)
  | String "}" r => Some ([(k, vr.1)], r)
  | _ => None
  end.

(** A member as a program writes it, without white space. *)
Definition member_text (k rest : string) : string :=
  String quote_char (k +:+ String quote_char (String ":" rest)).

Lemma read_member n k rest :
  str_forall plain_byte k = true ->
  read_members (S n) (member_text k rest) = (vr ← read_value n rest; after_member n k vr).
Proof.
  intros Hk. unfold member_text.
  change (('(k0, r) ← unquote (k +:+ String quote_char (String ":" rest));
        match skip_ws r with
        | String ":" r =>
          '(v, r) ← read_value n r;
          match skip_ws r with
          | String "," r => '(l, r) ← read_members n r; Some ((k0, v) :: l, r)
          | String "}" r => Some ([(k0, v)], r)
          | _ => None
          end
        | _ => None
        end) = (vr ← read_value n rest; after_member n k vr)).
  rewrite unquote_plain by done. cbn -[read_value read_members skip_ws].
  change (skip_ws (String ":" rest)) with (String ":" rest). cbn -[read_value read_members skip_ws].
  by destruct (read_value n rest) as [[v r]|].
Qed.

Lemma read_member_more n k text v more :
  str_forall plain_byte k = true ->
  read_value n (text +:+ String "," more) = Some (v, String "," more) ->
  read_members (S n) (member_text k (text +:+ String "," more)) =
    ('(l, r) ← read_members n more; Some ((k, v) :: l, r)).
Proof. intros Hk Hv. rewrite read_member, Hv by done. done. Qed.

Lemma read_member_last n k text v more :
  str_forall plain_byte k = true ->
  read_value n (text +:+ String "}" more) = Some (v, String "}" more) ->
  read_members (S n) (member_text k (text +:+ String "}" more)) = Some ([(k, v)], more).
Proof. intros Hk Hv. rewrite read_member, Hv by done. done. Qed.

Lemma read_object n k rest :
  read_value (S n) (String "{" (member_text k rest)) =
    ('(l, r) ← read_members n (member_text k rest); Some (JObj l, r)).
Proof. done. Qed.

(** *** Numbers *)

Lemma FormatUint_leading z s : FormatUint z = String "0" s -> s = "".
Proof.
  unfold FormatUint. intros H. set (d := N.to_uint (Z.to_N z)) in *.
  assert (Decimal.unorm d = d) as Hn.
  { subst d. rewrite <- (DecimalN.Unsigned.to_of (N.to_uint (Z.to_N z))).
    by rewrite DecimalN.Unsigned.of_to. }
  clearbody d. destruct d as [|d| | | | | | | | |]; try discriminate.
  unfold Decimal.unorm in Hn. cbn [Decimal.nzhead] in Hn.
  destruct (Decimal.nzhead d) eqn:E; try discriminate.
  - injection Hn as <-. by injection H as <-.
  - exfalso. by eapply DecimalFacts.nzhead_nonzero.
Qed.

Lemma span_all P s c rest :
  str_forall P s = true -> P c = false -> span P (s +:+ String c rest) = (s, String c rest).
Proof.
  intros Hs Hc. induction s as [|a s IH]; simpl in *; [by rewrite Hc|].
  apply andb_true_iff in Hs as [Ha Hs]. by rewrite Ha, IH.
Qed.

Lemma read_value_uint n z c rest :
  (c = ","%char \/ c = "}"%char) ->
  read_value (S n) (FormatUint z +:+ String c rest) = Some (JNum (FormatUint z), String c rest).
Proof.
  intros Hc. pose proof (FormatUint_digits z) as Hd. pose proof (FormatUint_ne z) as Hne.
  pose proof (FormatUint_leading z) as Hlead. set (t := FormatUint z) in *. clearbody t.
  destruct t as [|a t]; [done|]. simpl in Hd. apply andb_true_iff in Hd as [Ha Hd].
  assert (digits1 (String a t +:+ String c rest) = Some (String a t, String c rest)) as Hdig.
  { unfold digits1. rewrite span_all; [done| |by destruct Hc as [-> | ->]]. simpl. by rewrite Ha. }
  assert (read_number (String a t +:+ String c rest) = Some (String a t, String c rest)) as Hnum.
  { destruct (decide (a = "0"%char)) as [->|Ha0].
    - rewrite (Hlead t eq_refl). by destruct Hc as [-> | ->].
    - rewrite app_cons_str in *. clear Hlead Hne. unfold read_number.
      revert Hdig. all_bytes a; try discriminate; try (by destruct Ha0); intros Hdig;
        rewrite Hdig; destruct Hc as [-> | ->]; cbn -[String.append]; by rewrite app_nil_r_str. }
  rewrite app_cons_str in *. clear Hdig Hlead Hne.
  assert (read_value (S n) (String a (t +:+ String c rest)) =
    ('(t, r) ← read_number (String a (t +:+ String c rest)); Some (JNum t, r))) as ->.
  { all_bytes a; try discriminate; reflexivity. }
  by rewrite Hnum.
Qed.

(** *** Objects of named values *)

(** A text read as a value, whatever follows it in an object. *)
Definition reads (text : string) (v : json) : Prop :=
  forall n c rest, c = ","%char \/ c = "}"%char -> read_value (S n) (text +:+ String c rest) = Some (v, String c rest).

Lemma reads_string s : ValidString s = true -> reads (json_MarshalString s) (JStr s).
Proof. intros Hs n c rest _. by apply read_string_value. Qed.
Lemma reads_uint z : reads (FormatUint z) (JNum (FormatUint z)).
Proof. intros n c rest Hc. by apply read_value_uint. Qed.
Lemma reads_true : reads "true" (JBool true).
Proof. by intros n c rest [-> | ->]. Qed.

(** The members of an object, up to and with its closing brace. *)
Fixpoint fields_text (fields : list (string * string)) (rest : string) : string :=
  match fields with
  | [] => String "}" rest
  | [(k, t)] => member_text k (t +:+ String "}" rest)
  | (k, t) :: fields => member_text k (t +:+ String "," (fields_text fields rest))
  end.

Definition field_reads (kt : string * string) (kv : string * json) : Prop :=
  kt.1 = kv.1 /\ str_forall plain_byte kt.1 = true /\ reads kt.2 kv.2.

Lemma read_fields fields values n rest :
  Forall2 field_reads fields values -> fields <> [] -> length fields < n ->
  read_members n (fields_text fields rest) = Some (values, rest).
Proof.
  intros Hall. revert n. induction Hall as [|[k t] [k' v] fields values (Hk & Hp & Hr) Hall IH]; intros n Hne Hn; [done|].
  cbn in Hk, Hp, Hr, Hn. subst k'. destruct n as [|[|n]]; [lia|lia|].
  destruct fields as [|[k2 t2] fields].
  - inversion Hall; subst. cbn [fields_text]. apply read_member_last; [done|]. apply Hr. by right.
  - change (fields_text ((k, t) :: (k2, t2) :: fields) rest)
      with (member_text k (t +:+ String "," (fields_text ((k2, t2) :: fields) rest))).
    rewrite (read_member_more _ _ _ v); [|done|apply Hr; by left]. rewrite IH; [done|done|cbn in *; lia].
Qed.

Lemma fields_text_length fields rest : 2 * length fields <= String.length (fields_text fields rest).
Proof.
  induction fields as [|[k t] fields IH]; [cbn; lia|].
  assert (forall a b, String.length (a +:+ b) = String.length a + String.length b) as Happ.
  { intros a b. induction a as [|c a IHa]; [done|]. cbn. by rewrite IHa. }
  destruct fields as [|kt fields].
  - cbn [fields_text length]. unfold member_text. repeat (cbn [String.length] || rewrite Happ). lia.
  - change (fields_text ((k, t) :: kt :: fields) rest)
      with (member_text k (t +:+ String "," (fields_text (kt :: fields) rest))).
    unfold member_text. repeat (cbn [String.length] || rewrite Happ). cbn [length] in *. lia.
Qed.

Lemma json_Parse_fields fields values :
  Forall2 field_reads fields values -> fields <> [] ->
  json_Parse (String "{" (fields_text fields "")) = Some (JObj values).
Proof.
  intros Hall Hne. unfold json_Parse. pose proof (fields_text_length fields "") as Hlen.
  set (t := fields_text fields "") in *. cbn [String.length].
  assert (exists u, t = String quote_char u) as [u Hu].
  { subst t. destruct fields as [|[k x] [|]]; [done| |]; by eexists. }
  replace (2 * S (String.length t) + 2) with (S (2 * String.length t + 3)) by lia.
  assert (forall m, read_value (S m) (String "{" t) = ('(l, r) ← read_members m t; Some (JObj l, r))) as -> by (intros m; by rewrite Hu).
  subst t. destruct fields; [done|]. rewrite (read_fields _ values); [done|done|done|cbn [length] in *; lia].
Qed.

(** The members of such an object with the texts of their values. *)
Lemma substring_app t u : String.substring 0 (String.length (t +:+ u) - String.length u) (t +:+ u) = t.
Proof.
  assert (String.length (t +:+ u) - String.length u = String.length t) as ->.
  { pose proof (slen_app t u). unfold slen in *. lia. }
  induction t as [|c t IH]; [by destruct u|]. cbn. by rewrite IH.
Qed.

Definition starts_solid (t : string) : bool := match t with String c _ => negb (is_ws c) | "" => false end.

Lemma read_raw_value t v c rest :
  reads t v -> starts_solid t = true -> c = ","%char \/ c = "}"%char ->
  read_raw (t +:+ String c rest) = Some (t, String c rest).
Proof.
  intros Hr Hs Hc. unfold read_raw.
  assert (skip_ws (t +:+ String c rest) = t +:+ String c rest) as ->.
  { destruct t as [|a t]; [done|]. cbn in *. apply negb_true_iff in Hs. unfold skip_ws. cbn. by rewrite Hs. }
  replace (2 * String.length (t +:+ String c rest) + 2) with (S (2 * String.length (t +:+ String c rest) + 1)) by lia.
  rewrite Hr by done. cbn [mbind option_bind]. by rewrite substring_app.
Qed.

Lemma read_raw_member n k t c more :
  str_forall plain_byte k = true -> read_raw (t +:+ String c more) = Some (t, String c more) ->
  (c = ","%char \/ c = "}"%char) ->
  read_raw_members (S n) (member_text k (t +:+ String c more)) =
    if bool_decide (c = "}"%char) then Some [(k, t)] else (l ← read_raw_members n more; Some ((k, t) :: l)).
Proof.
  intros Hk Hr Hc. unfold member_text. cbn [read_raw_members].
  change (skip_ws (String quote_char (k +:+ String quote_char (String ":" (t +:+ String c more)))))
    with (String quote_char (k +:+ String quote_char (String ":" (t +:+ String c more)))).
  cbn [mbind option_bind]. change (byte_val quote_char =? 34)%Z with true. cbv iota.
  rewrite unquote_plain by done. cbn [mbind option_bind].
  change (skip_ws (String ":" (t +:+ String c more))) with (String ":" (t +:+ String c more)). cbv iota.
  rewrite Hr. cbn [mbind option_bind]. by destruct Hc as [-> | ->].
Qed.

Lemma read_raw_fields fields values n rest :
  Forall2 field_reads fields values -> Forall (fun kt => starts_solid kt.2 = true) fields ->
  fields <> [] -> length fields <= n ->
  read_raw_members n (fields_text fields rest) = Some fields.
Proof.
  intros Hall. revert n. induction Hall as [|[k t] [k' v] fields values (Hk & Hp & Hr) Hall IH]; intros n Hs Hne Hn; [done|].
  cbn in Hk, Hp, Hr, Hn. subst k'. destruct n as [|n]; [lia|]. inversion_clear Hs as [|? ? Ht Hs']. cbn in Ht.
  destruct fields as [|[k2 t2] fields].
  - cbn [fields_text]. rewrite read_raw_member; [done|done|eapply read_raw_value; eauto|by right].
  - change (fields_text ((k, t) :: (k2, t2) :: fields) rest)
      with (member_text k (t +:+ String "," (fields_text ((k2, t2) :: fields) rest))).
    rewrite read_raw_member; [|done|eapply read_raw_value; eauto|by left].
    rewrite IH; [done|done|done|cbn in *; lia].
Qed.

Lemma raw_members_fields fields values :
  Forall2 field_reads fields values -> Forall (fun kt => starts_solid kt.2 = true) fields -> fields <> [] ->
  raw_members (String "{" (fields_text fields "")) = Some fields.
Proof.
  intros Hall Hs Hne. unfold raw_members. rewrite (json_Parse_fields _ values) by done.
  change (skip_ws (String "{" (fields_text fields ""))) with (String "{" (fields_text fields "")).
  pose proof (fields_text_length fields "") as Hlen. destruct Hall as [|? ? fs vs Hf Hall]; [done|]. cbv iota.
  eapply read_raw_fields; [by constructor|done|done|cbn [length] in *; lia].
Qed.

(** *** No line breaks *)

Lemma marshal_rune_free r raw : rune_bytes r raw -> free_of newline (marshal_rune (Some r, raw)) = true.
Proof.
  assert (forall c, (128 <= byte_val c)%Z -> bool_decide (c = newline) = false) as Hhigh.
  { intros c Hc. apply bool_decide_eq_false_2. intros ->. done. }
  assert (forall c, cont c = true -> (128 <= byte_val c)%Z) as Hcont.
  { intros c Hc%in_bytes_spec. lia. }
  intros [a r' H1|a b r' H1 H2|a b c r' H1 H2 H3|a b c d r' H1 H2 H3 H4].
  - revert r' H1. all_bytes a; intros r' Hr'; (discriminate || (injection Hr' as <-; reflexivity)).
  - pose proof (rune2_spec _ _ _ H2) as [Ha Hr]. rewrite marshal_plain by lia.
    unfold rune2 in H2. case_match eqn:E; [|done]. apply andb_true_iff in E as [_ Hb].
    unfold free_of. simpl. by rewrite !Hhigh by (auto; lia).
  - pose proof (rune3_spec _ _ _ _ H3) as (Ha & Hr & _ & Hb & Hc).
    destruct (decide (r' = 8232%Z)) as [->|H5]; [done|]. destruct (decide (r' = 8233%Z)) as [->|H6]; [done|].
    rewrite marshal_plain by lia. unfold free_of. simpl. by rewrite !Hhigh by lia.
  - pose proof (rune4_spec _ _ _ _ _ H4) as [Ha Hr]. rewrite marshal_plain by lia.
    unfold rune4 in H4. case_match eqn:E; [|done]. apply andb_true_iff in E as [E Hd].
    apply andb_true_iff in E as [E Hc]. apply andb_true_iff in E as [_ Hb].
    assert (128 <= byte_val b)%Z by (repeat case_match; apply in_bytes_spec in Hb; lia).
    unfold free_of. simpl. by rewrite !Hhigh by (auto; lia).
Qed.

Lemma json_MarshalString_free s : ValidString s = true -> free_of newline (json_MarshalString s) = true.
Proof.
  intros Hv. unfold json_MarshalString.
  change (free_of newline (String.concat "" (map marshal_rune (runes s)) +:+ str1 quote_char) = true).
  rewrite free_app, andb_true_r.
  pose proof (ValidString_runes s Hv) as Hall. clear Hv.
  induction Hall as [|[o raw] l (r & Ho & Hr) _ IH]; [done|]. simpl in Ho, Hr. subst o.
  cbn [map]. rewrite concat_cons, free_app, IH, marshal_rune_free by done. done.
Qed.

Lemma digits_without c s : is_digit c = false -> str_forall is_digit s = true -> free_of c s = true.
Proof.
  intros Hc. unfold free_of. induction s as [|d s IH]; [done|]. cbn. intros [Hd Hs]%andb_true_iff.
  rewrite IH, andb_true_r by done. apply negb_true_iff, bool_decide_eq_false. by intros ->; rewrite Hc in Hd.
Qed.

Lemma digits_free s : str_forall is_digit s = true -> free_of newline s = true.
Proof. by apply digits_without. Qed.

End RoundTrip.
