(* ===== verification/JsonLayout.v ===== *)
(** * Reading JSON that was laid out by hand

    What the reader of [GoJson] makes of a text written with white space between
    its parts: values, objects and their members, whatever follows them. The
    fuel each needs is bounded by the length of its text. *)

From Stdlib Require Import Ascii.
From S2P Require Import Prelude GoStd GoEncoding GoJson.

Definition white (w : string) : Prop := str_forall is_ws w = true.

(** What may follow a value. *)
Definition delim (c : ascii) : bool :=
  is_ws c || bool_decide (c = ","%char) || bool_decide (c = "}"%char) || bool_decide (c = "]"%char).
Definition ends (rest : string) : bool := match rest with "" => true | String c _ => delim c end.

Definition Reads (t : string) (v : json) : Prop :=
  forall m rest, String.length t < m -> ends rest = true -> read_value m (t +:+ rest) = Some (v, rest).
Definition ReadsMembers (t : string) (kvs : list (string * json)) : Prop :=
  forall m rest, String.length t < m -> read_members m (t +:+ String "}" rest) = Some (kvs, rest).

Lemma length_append s t : String.length (s +:+ t) = String.length s + String.length t.
Proof. induction s as [|c s IH]; [done|]. cbn. by rewrite IH. Qed.

(** ** White space *)

Lemma skip_blank w s : white w -> skip_ws (w +:+ s) = skip_ws s.
Proof.
  unfold white, skip_ws. induction w as [|c w IH]; [done|]. cbn. intros [Hc Hw]%andb_true_iff.
  by rewrite Hc, IH.
Qed.

Lemma skip_solid c s : is_ws c = false -> skip_ws (String c s) = String c s.
Proof. intros Hc. unfold skip_ws. cbn. by rewrite Hc. Qed.

Lemma skip_idem s : skip_ws (skip_ws s) = skip_ws s.
Proof.
  unfold skip_ws. induction s as [|c s IH]; [done|]. cbn. destruct (is_ws c) eqn:Hc; [done|].
  cbn. by rewrite Hc.
Qed.

Lemma read_value_skip m s t : skip_ws s = skip_ws t -> read_value m s = read_value m t.
Proof. intros Hs. destruct m as [|m]; [done|]. cbn [read_value]. by rewrite Hs. Qed.

Lemma read_members_skip m s t : skip_ws s = skip_ws t -> read_members m s = read_members m t.
Proof. intros Hs. destruct m as [|m]; [done|]. cbn [read_members]. by rewrite Hs. Qed.

Lemma ends_blank w rest : white w -> ends rest = true -> ends (w +:+ rest) = true.
Proof.
  unfold white. destruct w as [|c w]; [done|]. cbn. intros [Hc _]%andb_true_iff _.
  unfold delim. by rewrite Hc.
Qed.

Lemma Reads_blank w t v : white w -> Reads t v -> Reads (w +:+ t) v.
Proof.
  intros Hw Ht m rest Hm He. rewrite length_append in Hm. rewrite app_assoc_str.
  rewrite (read_value_skip m _ (t +:+ rest)) by by apply skip_blank. apply Ht; [lia|done].
Qed.

Lemma ReadsMembers_blank w t kvs : white w -> ReadsMembers t kvs -> ReadsMembers (w +:+ t) kvs.
Proof.
  intros Hw Ht m rest Hm. rewrite length_append in Hm. rewrite app_assoc_str.
  rewrite (read_members_skip m _ (t +:+ String "}" rest)) by by apply skip_blank. apply Ht. lia.
Qed.

(** ** Values *)

Lemma Reads_string s : ValidString s = true -> Reads (json_MarshalString s) (JStr s).
Proof. intros Hs [|m] rest Hm _; [lia|]. by apply read_string_value. Qed.

Lemma Reads_false : Reads "false" (JBool false).
Proof. intros [|m] rest Hm _; [lia|]. by destruct rest. Qed.

(** *** Numbers *)

Definition number_end (rest : string) : bool :=
  match rest with
  | "" => true
  | String c _ => negb (is_digit c || bool_decide (c = "."%char) || bool_decide (c = "e"%char)
                        || bool_decide (c = "E"%char))
  end.

Lemma ends_number rest : ends rest = true -> number_end rest = true.
Proof. destruct rest as [|c rest]; [done|]. intros He. cbn in *. revert He. all_bytes c; intros He; (discriminate He || reflexivity). Qed.

(** A number that is over after its integer part. *)
Lemma number_stops sign int rest :
  number_end rest = true ->
  ('(frac, s) ← match rest with
                | String "." s => '(d, s) ← digits1 s; Some ("." +:+ d, s)
                | _ => Some ("", rest)
                end;
   let exponent e s :=
     let '(sg, s) := match s with String "+" s => ("+", s) | String "-" s => ("-", s) | _ => ("", s) end in
     '(d, s) ← digits1 s; Some (str1 e +:+ sg +:+ d, s) in
   '(exp, s) ← match s with
               | String "e" s => exponent "e"%char s
               | String "E" s => exponent "E"%char s
               | _ => Some ("", s)
               end;
   Some (sign +:+ int +:+ frac +:+ exp, s)) = Some (sign +:+ int, rest).
Proof.
  intros Hrest. assert (forall t : string, t +:+ "" +:+ "" = t) as Hnil by (intros t; apply app_nil_r_str).
  destruct rest as [|c rest]; [|revert Hrest; cbn; all_bytes c; intros Hrest; try discriminate Hrest];
    cbn -[String.append]; by rewrite Hnil.
Qed.

Lemma read_number_uint z rest :
  number_end rest = true -> read_number (FormatUint z +:+ rest) = Some (FormatUint z, rest).
Proof.
  intros Hrest. pose proof (FormatUint_digits z) as Hd. pose proof (FormatUint_ne z) as Hne.
  pose proof (FormatUint_leading z) as Hlead. set (t := FormatUint z) in *. clearbody t.
  destruct t as [|a t]; [done|]. 
  assert (digits1 (String a t +:+ rest) = Some (String a t, rest)) as Hdig.
  { unfold digits1. destruct rest as [|c rest].
    - rewrite app_nil_r_str. clear -Hd. assert (span is_digit (String a t) = (String a t, "")) as ->; [|done].
      induction (String a t) as [|b u IH]; [done|]. cbn in *. apply andb_true_iff in Hd as [Hb Hu]. by rewrite Hb, IH.
    - rewrite span_all; [done|done|]. cbn in Hrest. apply negb_true_iff in Hrest.
      by destruct (is_digit c). }
  simpl in Hd. apply andb_true_iff in Hd as [Ha Hd].
  destruct (decide (a = "0"%char)) as [->|Ha0].
  - rewrite (Hlead t eq_refl). apply (number_stops "" "0" rest Hrest).
  - rewrite app_cons_str in *. clear Hlead Hne. unfold read_number.
    revert Hdig. all_bytes a; try discriminate; try (by destruct Ha0); intros Hdig; rewrite Hdig;
      apply (number_stops "" _ rest Hrest).
Qed.

Lemma Reads_uint z : Reads (FormatUint z) (JNum (FormatUint z)).
Proof.
  intros [|m] rest Hm He; [lia|]. pose proof (read_number_uint z rest (ends_number _ He)) as Hnum.
  pose proof (FormatUint_digits z) as Hd. pose proof (FormatUint_ne z) as Hne.
  set (t := FormatUint z) in *. clearbody t. destruct t as [|a t]; [done|]. simpl in Hd.
  apply andb_true_iff in Hd as [Ha _]. rewrite app_cons_str in *.
  assert (read_value (S m) (String a (t +:+ rest)) =
    ('(t, r) ← read_number (String a (t +:+ rest)); Some (JNum t, r))) as ->.
  { clear Hnum Hm. all_bytes a; try discriminate; reflexivity. }
  by rewrite Hnum.
Qed.

(** ** Members and objects *)

(** A member, its value and what stands between them. *)
Definition member (k w t w' : string) : string := json_MarshalString k +:+ w +:+ ":" +:+ t +:+ w'.

Lemma read_member_laid n k w t w' v more :
  ValidString k = true -> white w -> white w' -> Reads t v -> String.length t < n -> ends more = true ->
  read_members (S n) (member k w t w' +:+ more) = after_member n k (v, w' +:+ more).
Proof.
  intros Hk Hw Hw' Ht Hn Hmore. unfold member, json_MarshalString.
  rewrite !app_assoc_str, !app_cons_str, !app_assoc_str.
  change (('(k0, r) ← unquote (String.concat "" (map marshal_rune (runes k)) +:+ str1 quote_char +:+
             w +:+ ":" +:+ t +:+ w' +:+ more);
        match skip_ws r with
        | String ":" r =>
          '(v, r) ← read_value n r;
          match skip_ws r with
          | String "," r => '(l, r) ← read_members n r; Some ((k0, v) :: l, r)
          | String "}" r => Some ([(k0, v)], r)
          | _ => None
          end
        | _ => None
        end) = after_member n k (v, w' +:+ more)).
  cbn [str1 String.append]. rewrite unquote_marshal by done.
  cbn -[read_value read_members skip_ws String.append]. rewrite skip_blank by done.
  change (":" +:+ t +:+ w' +:+ more) with (String ":" (t +:+ w' +:+ more)). rewrite skip_solid by done.
  rewrite Ht; [done|done|by apply ends_blank].
Qed.

Lemma ReadsMembers_one k w t w' v :
  ValidString k = true -> white w -> white w' -> Reads t v -> ReadsMembers (member k w t w') [(k, v)].
Proof.
  intros Hk Hw Hw' Ht [|m] rest Hm; [lia|]. unfold member in Hm. rewrite !length_append in Hm.
  cbn [String.length] in Hm.
  rewrite (read_member_laid _ _ _ _ _ v) by (done || lia). unfold after_member. cbn [fst snd].
  by rewrite skip_blank.
Qed.

Lemma ReadsMembers_cons k w t w' v more kvs :
  ValidString k = true -> white w -> white w' -> Reads t v -> ReadsMembers more kvs ->
  ReadsMembers (member k w t w' +:+ String "," more) ((k, v) :: kvs).
Proof.
  intros Hk Hw Hw' Ht Hmore [|m] rest Hm; [lia|]. rewrite length_append in Hm. unfold member in Hm.
  rewrite !length_append in Hm. cbn [String.length] in Hm.
  rewrite app_assoc_str, app_cons_str, (read_member_laid _ _ _ _ _ v) by (done || lia).
  unfold after_member. cbn [fst snd]. rewrite skip_blank by done. rewrite skip_solid by done.
  rewrite Hmore; [done|lia].
Qed.

(** A member with white space before it and before its value, as templates
    have them. *)
Definition placed (w k t w' : string) : string := w +:+ member k "" (" " +:+ t) w'.

Lemma placed_one w k t w' v :
  ValidString k = true -> white w -> white w' -> Reads t v -> ReadsMembers (placed w k t w') [(k, v)].
Proof. intros Hk Hw Hw' Ht. apply ReadsMembers_blank; [done|]. by apply ReadsMembers_one, Reads_blank. Qed.

Lemma placed_cons w k t w' v more kvs :
  ValidString k = true -> white w -> white w' -> Reads t v -> ReadsMembers more kvs ->
  ReadsMembers (placed w k t w' +:+ "," +:+ more) ((k, v) :: kvs).
Proof.
  intros Hk Hw Hw' Ht Hmore. unfold placed. rewrite app_assoc_str. apply ReadsMembers_blank; [done|].
  by apply ReadsMembers_cons; [..|apply Reads_blank|].
Qed.

Lemma Reads_object t kvs : ReadsMembers t kvs -> Reads ("{" +:+ t +:+ "}") (JObj kvs).
Proof.
  intros Ht [|m] rest Hm _; [lia|]. rewrite !length_append in Hm. cbn [String.length] in Hm.
  change ("{" +:+ t +:+ "}") with (String "{" (t +:+ "}")). rewrite app_cons_str, app_assoc_str.
  change ("}" +:+ rest) with (String "}" rest).
  specialize (Ht m rest ltac:(lia)). cbn [read_value]. rewrite skip_solid by done. cbn -[read_members skip_ws].
  rewrite (read_members_skip m _ (skip_ws (t +:+ String "}" rest))) in Ht by by rewrite skip_idem.
  destruct (skip_ws (t +:+ String "}" rest)) as [|c s] eqn:Hs.
  - destruct m as [|m]; cbn in Ht; discriminate.
  - assert (c = quote_char) as ->; [|transitivity ('(l, r) ← read_members m (String quote_char s); Some (JObj l, r)); [done|by rewrite Ht]].
    destruct m as [|m]; [cbn in Ht; discriminate|].
    assert (skip_ws (String c s) = String c s) as Hcs by (rewrite <- Hs; apply skip_idem).
    cbn [read_members] in Ht. rewrite Hcs in Ht.
    destruct (byte_val c =? 34)%Z eqn:Hc; [|discriminate]. apply Z.eqb_eq in Hc.
    apply byte_val_inj. done.
Qed.

(** A whole input: one value, and white space after it. *)
Lemma Reads_Parse t w v : Reads t v -> white w -> json_Parse (t +:+ w) = Some v.
Proof.
  intros Ht Hw. unfold json_Parse. rewrite Ht.
  - cbn. rewrite <- (app_nil_r_str w), skip_blank by done. done.
  - rewrite length_append. lia.
  - rewrite <- (app_nil_r_str w). by apply ends_blank.
Qed.
