(* ===== verification/Sql.v ===== *)
(** * [database/sql] over the MySQL driver

    The values of rows and arguments, the operations the program uses of a
    database, and what [Scan] accepts for the destinations it scans into. *)

From S2P Require Import Prelude GoStd.

(** ** The server and the driver *)

(** A value of a row, or an argument: an empty [[]byte] is an empty text. *)
Inductive sql_value :=
  | SNull
  | SInt (z : Z)
  | SText (s : string)
  | STime (t : Z).

Inductive sql_error :=
  | SqlServer (number : Z) (text : string)
  | SqlDriver (text : string).

(** [database/sql] over the MySQL driver: a statement, a query for one row, which
    there may not be, and a query for rows. *)
Class SqlOps (W : Type) := {
  sql_Exec : string -> list sql_value -> eff W sql_error ();
  sql_QueryRow : string -> list sql_value -> eff W sql_error (option (list sql_value));
  sql_Query : string -> list sql_value -> eff W sql_error (list (list sql_value))
}.

(** ** Reading a row *)

(** Integers are scanned through their texts, and texts as the integers they
    spell. *)
Definition scan_uint64 (v : sql_value) : option Z :=
  match v with
  | SInt z => if ((0 <=? z) && (z <? 2 ^ 64))%Z then Some z else None
  | SText s => ParseUint s 64
  | _ => None
  end.
Definition scan_int64 (v : sql_value) : option Z :=
  match v with
  | SInt z => if ((- 2 ^ 63 <=? z) && (z <? 2 ^ 63))%Z then Some z else None
  | SText s => ParseInt s
  | _ => None
  end.
Definition scan_string (v : sql_value) : option string :=
  match v with SText s => Some s | SInt z => Some (FormatInt z) | _ => None end.
Definition scan_bytes (v : sql_value) : option string :=
  match v with SNull => Some "" | SText s => Some s | SInt z => Some (FormatInt z) | STime _ => None end.
Definition scan_bool (v : sql_value) : option bool :=
  match v with SInt 0 => Some false | SInt 1 => Some true | _ => None end.
