(* ===== verification/SqlText.v ===== *)
(** * The statements a server reads and what they do

    The part of MySQL's language the program's statements are written in: the
    tokens of a text, the statement they spell, and what a SELECT answers from
    the rows of a table. What the components assume of the server is stated for
    every statement of this language and not for the texts the program sends:
    that those spell the statements they should is proved where they are built.
    A text of any other form spells nothing, and then nothing is assumed. *)

From Stdlib Require Import Ascii Sorted.
From stdpp Require Import sorting.
From S2P Require Import Prelude GoStd.

(** ** Tokens *)

(** A word with the dots within it, a name in backticks, a text in quotes, or
    one other character. *)
Inductive token :=
  | TWord (w : string)
  | TQuoted (s : string)
  | TText (s : string)
  | TSym (c : ascii).

#[export] Instance token_eq_dec : EqDecision token.
Proof. solve_decision. Defined.

Definition backtick : ascii := "`"%char.
Definition apostrophe : ascii := "'"%char.

(** A letter, a digit, an underscore or a dollar sign. *)
Definition name_byte (c : ascii) : bool :=
  let b := byte_val c in
  ((b =? 95) || (b =? 36) || (97 <=? b) && (b <=? 122) || (65 <=? b) && (b <=? 90) || (48 <=? b) && (b <=? 57))%Z.
Definition word_byte (c : ascii) : bool := name_byte c || Ascii.eqb c "."%char.

Inductive lex_mode :=
  | Between
  | InWord (w : string)
  | InQuoted (s : string)
  | QuotedEnd (s : string)
  | InText (s : string)
  | TextEnd (s : string)
  | Broken.

Definition lex_state : Type := list token * lex_mode.

Definition lex_start (ts : list token) (c : ascii) : lex_state :=
  if is_space c then (ts, Between)
  else if name_byte c then (ts, InWord (str1 c))
  else if Ascii.eqb c backtick then (ts, InQuoted "")
  else if Ascii.eqb c apostrophe then (ts, InText "")
  else (ts ++ [TSym c], Between).

(** A delimiter written twice stands for itself; a text with a backslash is not
    read. *)
Definition lex_step (st : lex_state) (c : ascii) : lex_state :=
  let '(ts, m) := st in
  match m with
  | Between => lex_start ts c
  | InWord w => if word_byte c then (ts, InWord (w +:+ str1 c)) else lex_start (ts ++ [TWord w]) c
  | InQuoted s => if Ascii.eqb c backtick then (ts, QuotedEnd s) else (ts, InQuoted (s +:+ str1 c))
  | QuotedEnd s => if Ascii.eqb c backtick then (ts, InQuoted (s +:+ str1 c)) else lex_start (ts ++ [TQuoted s]) c
  | InText s =>
      if Ascii.eqb c apostrophe then (ts, TextEnd s)
      else if Ascii.eqb c "\"%char then (ts, Broken) else (ts, InText (s +:+ str1 c))
  | TextEnd s => if Ascii.eqb c apostrophe then (ts, InText (s +:+ str1 c)) else lex_start (ts ++ [TText s]) c
  | Broken => (ts, Broken)
  end.

Fixpoint lex_run (st : lex_state) (s : string) : lex_state :=
  match s with "" => st | String c s => lex_run (lex_step st c) s end.

Definition lex_end (st : lex_state) : option (list token) :=
  match st.2 with
  | Between => Some st.1
  | InWord w => Some (st.1 ++ [TWord w])
  | QuotedEnd s => Some (st.1 ++ [TQuoted s])
  | TextEnd s => Some (st.1 ++ [TText s])
  | InQuoted _ | InText _ | Broken => None
  end.

Definition tokens (text : string) : option (list token) := lex_end (lex_run ([], Between) text).

Lemma lex_run_app st s t : lex_run st (s +:+ t) = lex_run (lex_run st s) t.
Proof. revert st. induction s as [|c s IH]; intros st; [done|]. apply IH. Qed.

(** The tokens before do not matter to those that follow. *)
Lemma lex_start_more ts us c : lex_start (ts ++ us) c = (ts ++ (lex_start us c).1, (lex_start us c).2).
Proof. unfold lex_start. repeat case_match; try done. by rewrite <- (assoc_L (++)). Qed.

Lemma lex_step_more ts us m c : lex_step (ts ++ us, m) c = (ts ++ (lex_step (us, m) c).1, (lex_step (us, m) c).2).
Proof.
  destruct m; cbn [lex_step]; repeat case_match; try done; rewrite <- ?(assoc_L (++)); apply lex_start_more.
Qed.

Lemma lex_run_more ts us m s : lex_run (ts ++ us, m) s = (ts ++ (lex_run (us, m) s).1, (lex_run (us, m) s).2).
Proof.
  revert us m. induction s as [|c s IH]; intros us m; [done|]. cbn [lex_run]. rewrite lex_step_more.
  destruct (lex_step (us, m) c) as [us' m']. apply IH.
Qed.

Lemma lex_run_from ts m s : lex_run (ts, m) s = (ts ++ (lex_run ([], m) s).1, (lex_run ([], m) s).2).
Proof. rewrite <- (app_nil_r ts) at 1. apply lex_run_more. Qed.

(** A word, which may have dots but does not begin with one. *)
Definition is_word (w : string) : bool :=
  match w with "" => false | String c w => name_byte c && str_forall word_byte w end.

Lemma lex_word_more ts p w : str_forall word_byte w = true -> lex_run (ts, InWord p) w = (ts, InWord (p +:+ w)).
Proof.
  revert p. induction w as [|c w IH]; intros p; cbn [str_forall lex_run]; [by rewrite app_nil_r_str|].
  intros [Hc Hw]%andb_true_iff. cbn [lex_step]. rewrite Hc, IH, app_assoc_str by done. done.
Qed.

Lemma name_byte_start ts c : name_byte c = true -> lex_start ts c = (ts, InWord (str1 c)).
Proof. intros Hc. unfold lex_start. rewrite Hc. destruct (is_space c) eqn:Hs; [|done]. exfalso. revert Hc Hs. by all_bytes c. Qed.

Lemma lex_word ts w : is_word w = true -> lex_run (ts, Between) w = (ts, InWord w).
Proof.
  destruct w as [|c w]; [done|]. intros [Hc Hw]%andb_true_iff. cbn [lex_run lex_step].
  rewrite name_byte_start by done. by apply lex_word_more.
Qed.

(** A word between two texts, the second of which does not go on with it. *)
Lemma tokens_around a w b ts us :
  is_word w = true -> lex_run ([], Between) a = (ts, Between) ->
  match b with "" => True | String c _ => word_byte c = false end -> tokens b = Some us ->
  tokens (a +:+ w +:+ b) = Some (ts ++ TWord w :: us).
Proof.
  intros Hw Ha Hc Hb. unfold tokens in *. rewrite lex_run_app, Ha, lex_run_app, lex_word by done.
  destruct b as [|c b]; [by injection Hb as <-|]. cbn [lex_run lex_step]. rewrite Hc.
  change (lex_run (lex_start (ts ++ [TWord w]) c) b) with (lex_run (ts ++ [TWord w], Between) (String c b)).
  rewrite lex_run_from. destruct (lex_run ([], Between) (String c b)) as [vs m]. unfold lex_end in *. cbn [fst snd] in *.
  destruct m; try done; injection Hb as <-; by rewrite <- !(assoc_L (++)).
Qed.

(** ** Names in backticks *)

Definition quoted_name (name : string) : string :=
  str1 backtick +:+ ReplaceByte backtick (String backtick (str1 backtick)) name +:+ str1 backtick.

Lemma lex_quoted_inner ts p s :
  lex_run (ts, InQuoted p) (ReplaceByte backtick (String backtick (str1 backtick)) s) = (ts, InQuoted (p +:+ s)).
Proof.
  unfold ReplaceByte. revert p. induction s as [|c s IH]; intros p; cbn [str_concat_map]; [by rewrite app_nil_r_str|].
  rewrite lex_run_app. destruct (ascii_dec c backtick) as [->|Hc].
  - change (lex_run (ts, InQuoted p) (String backtick (str1 backtick))) with (ts, InQuoted (p +:+ str1 backtick)).
    by rewrite IH, app_assoc_str.
  - cbn [lex_run str1 lex_step]. rewrite (proj2 (Ascii.eqb_neq _ _)) by done. by rewrite IH, app_assoc_str.
Qed.

Lemma lex_quoted ts s : lex_run (ts, Between) (quoted_name s) = (ts, QuotedEnd s).
Proof.
  unfold quoted_name. rewrite lex_run_app.
  change (lex_run (ts, Between) (str1 backtick)) with (ts, InQuoted "").
  by rewrite lex_run_app, lex_quoted_inner.
Qed.

(** Lists of tokens associated to the right. *)
Ltac app_right := repeat (rewrite <- !(assoc_L (++)); cbn [app]).

(** The tokens of a list with commas. *)
Definition comma : token := TSym ","%char.
Fixpoint listed (l : list token) : list token :=
  match l with [] => [] | [t] => [t] | t :: l => t :: comma :: listed l end.

Lemma lex_names ts names c rest :
  names <> [] -> Ascii.eqb c backtick = false ->
  lex_run (ts, Between) (Join (map quoted_name names) ", " +:+ String c rest) =
  lex_run (lex_start (ts ++ listed (map TQuoted names)) c) rest.
Proof.
  intros Hne Hc. revert ts. induction names as [|n names IH]; intros ts; [done|].
  destruct names as [|n' names].
  - change (Join (map quoted_name [n]) ", ") with (quoted_name n).
    rewrite lex_run_app, lex_quoted. cbn [lex_run lex_step]. by rewrite Hc.
  - change (Join (map quoted_name (n :: n' :: names)) ", ")
      with (quoted_name n +:+ ", " +:+ Join (map quoted_name (n' :: names)) ", ").
    rewrite !app_assoc_str, lex_run_app, lex_quoted, lex_run_app.
    change (lex_run (ts, QuotedEnd n) ", ") with ((ts ++ [TQuoted n]) ++ [comma], Between).
    rewrite IH by done. cbn [map listed]. by rewrite <- !(assoc_L (++)).
Qed.

Definition placeholder : token := TSym "?"%char.

Lemma lex_placeholders ts {A} (l : list A) :
  lex_run (ts, Between) (Join (map (fun _ => "?") l) ", ") = (ts ++ listed (map (fun _ => placeholder) l), Between).
Proof.
  revert ts. induction l as [|x l IH]; intros ts; [by rewrite app_nil_r|]. destruct l as [|y l]; [done|].
  change (Join (map (fun _ => "?") (x :: y :: l)) ", ") with ("?" +:+ ", " +:+ Join (map (fun _ => "?") (y :: l)) ", ").
  rewrite !lex_run_app. change (lex_run (lex_run (ts, Between) "?") ", ") with ((ts ++ [placeholder]) ++ [comma], Between).
  rewrite IH. cbn [map listed]. by rewrite <- !(assoc_L (++)).
Qed.

(** ** Statements *)

Inductive table_name :=
  | Qualified (schema table : string)
  | Plain (name : string).

#[export] Instance table_name_eq_dec : EqDecision table_name.
Proof. solve_decision. Defined.

(** A column, or [COALESCE(column,'')]. *)
Inductive expr := ECol (c : string) | ECoalesce (c : string).

Definition expr_column (e : expr) : string := match e with ECol c | ECoalesce c => c end.

Inductive relop := OpEq | OpGt | OpGe | OpLt | OpLe.

(** Columns compared with as many placeholders. *)
Record condition := mkCondition { cond_columns : list string; cond_op : relop }.

Record select := mkSelect {
  sel_exprs : list expr;
  sel_from : table_name;
  sel_where : option condition;
  sel_order : list string;
  sel_limit : bool
}.

(** [INSERT INTO t (c, ...) VALUES (?, ...) ON DUPLICATE KEY UPDATE c = VALUES(c'), ...] *)
Record insert := mkInsert {
  ins_into : table_name;
  ins_columns : list string;
  ins_update : list (string * string)
}.

(** [UPDATE t SET c = ?, ... WHERE ...] *)
Record update := mkUpdate {
  upd_table : table_name;
  upd_set : list string;
  upd_where : option condition
}.

Inductive statement := Select (q : select) | Insert (i : insert) | Update (u : update).

(** ** Reading a statement *)

Definition parser (A : Type) : Type := list token -> option (A * list token).

Definition expect (t : token) : parser () := fun ts =>
  match ts with t' :: ts => if bool_decide (t = t') then Some ((), ts) else None | [] => None end.
Definition symbol (c : ascii) : parser () := expect (TSym c).
Definition keyword (w : string) : parser () := expect (TWord w).

Definition column : parser string := fun ts =>
  match ts with TWord w :: ts | TQuoted w :: ts => Some (w, ts) | _ => None end.

Fixpoint comma_list_of {A} (item : parser A) (fuel : nat) : parser (list A) := fun ts =>
  match fuel with
  | 0 => None
  | S fuel =>
    '(x, ts) ← item ts;
    match ts with
    | TSym ","%char :: ts => '(xs, ts) ← comma_list_of item fuel ts; Some (x :: xs, ts)
    | _ => Some ([x], ts)
    end
  end.
Definition comma_list_p {A} (item : parser A) : parser (list A) := fun ts => comma_list_of item (length ts) ts.

Definition parens {A} (p : parser A) : parser A := fun ts =>
  '(_, ts) ← symbol "(" ts; '(x, ts) ← p ts; '(_, ts) ← symbol ")" ts; Some (x, ts).

Definition expression : parser expr := fun ts =>
  match ts with
  | TWord "COALESCE" :: TSym "("%char :: ts =>
      '(c, ts) ← column ts; '(_, ts) ← symbol "," ts; '(_, ts) ← expect (TText "") ts;
      '(_, ts) ← symbol ")" ts; Some (ECoalesce c, ts)
  | _ => '(c, ts) ← column ts; Some (ECol c, ts)
  end.

Definition table_ref : parser table_name := fun ts =>
  match ts with
  | TQuoted s :: TSym "."%char :: TQuoted t :: ts => Some (Qualified s t, ts)
  | TWord w :: ts => Some (Plain w, ts)
  | _ => None
  end.

Definition operator : parser relop := fun ts =>
  match ts with
  | TSym "="%char :: ts => Some (OpEq, ts)
  | TSym ">"%char :: TSym "="%char :: ts => Some (OpGe, ts)
  | TSym ">"%char :: ts => Some (OpGt, ts)
  | TSym "<"%char :: TSym "="%char :: ts => Some (OpLe, ts)
  | TSym "<"%char :: ts => Some (OpLt, ts)
  | _ => None
  end.

Definition comparison_p : parser condition := fun ts =>
  match ts with
  | TSym "("%char :: _ =>
      '(cols, ts) ← parens (comma_list_p column) ts; '(op, ts) ← operator ts;
      '(marks, ts) ← parens (comma_list_p (symbol "?")) ts;
      if bool_decide (length marks = length cols) then Some (mkCondition cols op, ts) else None
  | _ => '(c, ts) ← column ts; '(op, ts) ← operator ts; '(_, ts) ← symbol "?" ts; Some (mkCondition [c] op, ts)
  end.

Definition where_clause : parser (option condition) := fun ts =>
  match ts with
  | TWord "WHERE" :: ts => '(c, ts) ← comparison_p ts; Some (Some c, ts)
  | _ => Some (None, ts)
  end.

Definition order_clause : parser (list string) := fun ts =>
  match ts with
  | TWord "ORDER" :: TWord "BY" :: ts => comma_list_p column ts
  | _ => Some ([], ts)
  end.

Definition limit_clause : parser bool := fun ts =>
  match ts with
  | TWord "LIMIT" :: TSym "?"%char :: ts => Some (true, ts)
  | _ => Some (false, ts)
  end.

Definition select_p : parser statement := fun ts =>
  '(es, ts) ← comma_list_p expression ts; '(_, ts) ← keyword "FROM" ts; '(t, ts) ← table_ref ts;
  '(c, ts) ← where_clause ts; '(o, ts) ← order_clause ts; '(l, ts) ← limit_clause ts;
  Some (Select (mkSelect es t c o l), ts).

(** [c = VALUES(c')]. *)
Definition assignment : parser (string * string) := fun ts =>
  '(c, ts) ← column ts; '(_, ts) ← symbol "=" ts; '(_, ts) ← keyword "VALUES" ts;
  '(c', ts) ← parens column ts; Some ((c, c'), ts).

Definition insert_p : parser statement := fun ts =>
  '(_, ts) ← keyword "INTO" ts; '(t, ts) ← table_ref ts; '(cols, ts) ← parens (comma_list_p column) ts;
  '(_, ts) ← keyword "VALUES" ts; '(marks, ts) ← parens (comma_list_p (symbol "?")) ts;
  '(_, ts) ← keyword "ON" ts; '(_, ts) ← keyword "DUPLICATE" ts; '(_, ts) ← keyword "KEY" ts;
  '(_, ts) ← keyword "UPDATE" ts; '(assigned, ts) ← comma_list_p assignment ts;
  if bool_decide (length marks = length cols) then Some (Insert (mkInsert t cols assigned), ts) else None.

Definition set_p : parser string := fun ts =>
  '(c, ts) ← column ts; '(_, ts) ← symbol "=" ts; '(_, ts) ← symbol "?" ts; Some (c, ts).

Definition update_p : parser statement := fun ts =>
  '(t, ts) ← table_ref ts; '(_, ts) ← keyword "SET" ts; '(cols, ts) ← comma_list_p set_p ts;
  '(c, ts) ← where_clause ts; Some (Update (mkUpdate t cols c), ts).

Definition statement_p : parser statement := fun ts =>
  match ts with
  | TWord "SELECT" :: ts => select_p ts
  | TWord "INSERT" :: ts => insert_p ts
  | TWord "UPDATE" :: ts => update_p ts
  | _ => None
  end.

(** The statement a text spells, with nothing left over. *)
Definition spelled (text : string) : option statement :=
  ts ← tokens text;
  match statement_p ts with Some (q, []) => Some q | _ => None end.

(** ** Reading lists *)

(** The first token does not go on with a list. *)
Definition list_ends (rest : list token) : Prop := match rest with t :: _ => t <> comma | [] => True end.

Lemma comma_list_stop {A} (rest : list token) (l : list A) (k : list token -> option (list A * list token)) :
  list_ends rest ->
  match rest with TSym ","%char :: ts => k ts | _ => Some (l, rest) end = Some (l, rest).
Proof.
  intros Hend. destruct rest as [|[w|s|s|c] rest]; try done.
  destruct (Ascii.eqb_spec c ","%char) as [->|Hne]; [by destruct Hend|].
  destruct c as [[] [] [] [] [] [] [] []]; try done.
Qed.

Lemma comma_list_of_listed {A B} (item : parser A) (t : B -> token) (x : B -> A) l rest fuel :
  (forall b r, item (t b :: r) = Some (x b, r)) -> l <> [] -> list_ends rest -> length l <= fuel ->
  comma_list_of item fuel (listed (map t l) ++ rest) = Some (map x l, rest).
Proof.
  intros Hitem Hne Hend. revert fuel. induction l as [|b l IH]; intros fuel Hf; [done|].
  destruct fuel as [|fuel]; [cbn in Hf; lia|]. destruct l as [|b' l].
  - cbn [map listed app comma_list_of]. rewrite Hitem. cbn [mbind option_bind]. by apply comma_list_stop.
  - change (listed (map t (b :: b' :: l)) ++ rest) with (t b :: comma :: (listed (map t (b' :: l)) ++ rest)).
    cbn [comma_list_of]. rewrite Hitem. cbn [mbind option_bind comma].
    rewrite IH; [done|done|]. cbn in *. lia.
Qed.

Lemma expect_reads t ts : expect t (t :: ts) = Some ((), ts).
Proof. unfold expect. by rewrite bool_decide_eq_true_2. Qed.

Lemma parens_reads {A} (p : parser A) ts x rest :
  p ts = Some (x, TSym ")" :: rest) -> parens p (TSym "(" :: ts) = Some (x, rest).
Proof.
  intros Hp. unfold parens, symbol. rewrite expect_reads. cbn [mbind option_bind]. rewrite Hp.
  cbn [mbind option_bind]. by rewrite expect_reads.
Qed.

Lemma listed_length l : length l <= length (listed l).
Proof. induction l as [|t l IH]; [done|]. destruct l; cbn in *; lia. Qed.

Lemma comma_list_listed {A B} (item : parser A) (t : B -> token) (x : B -> A) l rest :
  (forall b r, item (t b :: r) = Some (x b, r)) -> l <> [] -> list_ends rest ->
  comma_list_p item (listed (map t l) ++ rest) = Some (map x l, rest).
Proof.
  intros Hitem Hne Hend. unfold comma_list_p. apply comma_list_of_listed; [done..|].
  rewrite length_app. pose proof (listed_length (map t l)) as H. rewrite length_map in H. lia.
Qed.

(** ** What a SELECT answers *)

Section Rows.
(** The values of a server's rows, and the order it compares the values of a
    column in; the columns compared hold no NULL. *)
Context {V : Type} (order : string -> V -> V -> comparison) (coalesced : V -> V).

(** A row, by the names of its columns. *)
Definition trow : Type := string -> V.

Definition eval_expr (r : trow) (e : expr) : V :=
  match e with ECol c => r c | ECoalesce c => coalesced (r c) end.

(** Rows compare by their first columns that differ. *)
Fixpoint compare_values (cols : list string) (k c : list V) : comparison :=
  match cols, k, c with
  | col :: cols, x :: k, y :: c => match order col x y with Eq => compare_values cols k c | o => o end
  | _, _, _ => Eq
  end.

Definition holds (op : relop) (c : comparison) : bool :=
  match op, c with
  | OpEq, Eq | OpGt, Gt | OpGe, (Gt | Eq) | OpLt, Lt | OpLe, (Lt | Eq) => true
  | _, _ => false
  end.

Definition satisfies (cond : option condition) (bound : list V) (r : trow) : bool :=
  match cond with
  | None => true
  | Some c => holds (cond_op c) (compare_values (cond_columns c) (map r (cond_columns c)) bound)
  end.

Definition arity (cond : option condition) : nat :=
  match cond with None => 0 | Some c => length (cond_columns c) end.

(** Not after each other in the order of the columns. *)
Definition in_order (cols : list string) (a b : trow) : Prop :=
  compare_values cols (map a cols) (map b cols) <> Gt.

(** What a server may answer to a query: the rows that satisfy its condition, in
    any order that respects its ORDER BY, up to its limit. *)
Definition answers (q : select) (bound : list V) (limit : option nat) (T : list trow) (out : list (list V)) : Prop :=
  exists rows, rows ≡ₚ List.filter (satisfies (sel_where q) bound) T /\
    StronglySorted (in_order (sel_order q)) rows /\
    out = map (fun r => map (eval_expr r) (sel_exprs q)) (match limit with Some n => take n rows | None => rows end).

(** The names a query mentions, the arguments it takes. *)
Definition mentions (q : select) : list string :=
  map expr_column (sel_exprs q) ++ match sel_where q with Some c => cond_columns c | None => [] end ++ sel_order q.

(** *** An order of its own *)

(** When the rows of a table are listed in a strict order that a query asks for,
    there is one answer. *)
Lemma answers_unique (T : list trow) (after : trow -> trow -> bool) q bound limit out :
  (forall i j a b, T !! i = Some a -> T !! j = Some b -> after b a = bool_decide (i < j)) ->
  (forall a b, a ∈ T -> b ∈ T ->
     (after a b = true <-> compare_values (sel_order q) (map a (sel_order q)) (map b (sel_order q)) = Gt)) ->
  answers q bound limit T out ->
  out = map (fun r => map (eval_expr r) (sel_exprs q))
    (match limit with
     | Some n => take n (List.filter (satisfies (sel_where q) bound) T)
     | None => List.filter (satisfies (sel_where q) bound) T
     end).
Proof.
  intros Hafter Horder (rows & Hperm & Hsorted & ->).
  assert (rows = List.filter (satisfies (sel_where q) bound) T) as ->; [|done].
  set (l := List.filter _ T) in *.
  assert (forall a, a ∈ l -> a ∈ T) as Hin.
  { intros a Ha. apply list_elem_of_In, filter_In in Ha as [Ha _]. by apply list_elem_of_In. }
  apply (StronglySorted_unique_strong (in_order (sel_order q))); [|done| |done].
  - intros a b Ha Hb Hab Hba. rewrite Hperm in Ha.
    apply Hin in Ha. apply Hin in Hb. apply list_elem_of_lookup in Ha as [i Hi]. apply list_elem_of_lookup in Hb as [j Hj].
    pose proof (Hafter _ _ _ _ Hi Hj) as H1. pose proof (Hafter _ _ _ _ Hj Hi) as H2.
    assert (after a b = false) as E1 by (apply not_true_iff_false; intros E%Horder; [done|by eapply list_elem_of_lookup_2..]).
    assert (after b a = false) as E2 by (apply not_true_iff_false; intros E%Horder; [done|by eapply list_elem_of_lookup_2..]).
    rewrite E2 in H1. rewrite E1 in H2. symmetry in H1, H2. apply bool_decide_eq_false in H1. apply bool_decide_eq_false in H2.
    assert (i = j) as -> by lia. congruence.
  - subst l. assert (StronglySorted (in_order (sel_order q)) T) as HT.
    { clear Hperm Hsorted Hin. induction T as [|a T IH]; [constructor|]. constructor.
      - apply IH; [|intros b c Hb Hc; apply Horder; by apply elem_of_cons; right].
        intros i j b c Hi Hj. rewrite (Hafter (S i) (S j) b c Hi Hj). apply bool_decide_ext. lia.
      - apply Forall_forall. intros b Hb. pose proof Hb as [j Hj]%list_elem_of_lookup. intros E.
        apply Horder in E; [|by left|by right]. pose proof (Hafter (S j) 0 b a Hj eq_refl) as Hx. rewrite E in Hx.
        symmetry in Hx. apply bool_decide_eq_true in Hx. lia. }
    clear -HT. induction HT as [|a T HT IH Ha]; [constructor|]. cbn [List.filter]. case_match; [|done].
    constructor; [done|]. rewrite Forall_forall in *. intros b Hb. apply Ha.
    apply list_elem_of_In, filter_In in Hb as [Hb _]. by apply list_elem_of_In.
Qed.

(** *** A server that answers *)

#[local] Instance in_order_dec cols a b : Decision (in_order cols a b).
Proof. unfold in_order. destruct (compare_values _ _ _); [left|left|right]; congruence. Defined.

Definition answer (q : select) (bound : list V) (limit : option nat) (T : list trow) : list (list V) :=
  let rows := merge_sort (in_order (sel_order q)) (List.filter (satisfies (sel_where q) bound) T) in
  map (fun r => map (eval_expr r) (sel_exprs q)) (match limit with Some n => take n rows | None => rows end).

(** An order by ranks. *)
Context (rank_of : string -> V -> Z).
Hypothesis ranked : forall c x y, order c x y = Z.compare (rank_of c x) (rank_of c y).

Lemma compare_antisym cols k c : compare_values cols c k = CompOpp (compare_values cols k c).
Proof.
  revert k c. induction cols as [|col cols IH]; intros [|x k] [|y c]; cbn; try done.
  rewrite !ranked, Z.compare_antisym. destruct (Z.compare _ _); cbn; auto.
Qed.

Lemma compare_trans cols a b c :
  length a = length cols -> length b = length cols -> length c = length cols ->
  compare_values cols a b <> Gt -> compare_values cols b c <> Gt -> compare_values cols a c <> Gt.
Proof.
  revert a b c. induction cols as [|col cols IH]; intros [|x a] [|y b] [|z c]; cbn; try done.
  intros [= Ha] [= Hb] [= Hc]. rewrite !ranked.
  destruct (Z.compare_spec (rank_of col x) (rank_of col y)), (Z.compare_spec (rank_of col y) (rank_of col z)),
    (Z.compare_spec (rank_of col x) (rank_of col z)); try done; try lia. by eapply IH.
Qed.

Lemma answer_answers q bound limit T : answers q bound limit T (answer q bound limit T).
Proof.
  unfold answers, answer. set (rows := merge_sort _ _). exists rows.
  split; [apply merge_sort_Permutation|]. split; [|done].
  apply Sorted_StronglySorted.
  - intros a b c. unfold in_order. apply compare_trans; by rewrite length_map.
  - assert (Total (in_order (sel_order q))) as Htotal.
    { intros a b. unfold in_order. rewrite (compare_antisym _ (map a _)).
      destruct (compare_values _ _ _); [by left|by left|by right]. }
    exact (Sorted_merge_sort (in_order (sel_order q)) _).
Qed.

End Rows.
