(* ===== verification/SqlTable.v ===== *)
(** * A table kept by a server

    What a server promises of a table with declared columns and a primary key:
    what any SELECT of [SqlText] finds in it and what any INSERT ... ON DUPLICATE
    KEY UPDATE and any UPDATE leave. Texts compare by the server's collation, so
    several keys may be one row's. *)

From S2P Require Import Prelude GoStd Sql SqlText.

#[export] Instance sql_value_eq_dec : EqDecision sql_value.
Proof. solve_decision. Defined.

(** ** Columns and rows *)

(** Texts that are never NULL, texts that may be, numbers, and the time of the
    last change, which the server keeps itself. *)
Inductive coltype := CText | CNullText | CNumber | CStamp.

Record table_schema := mkTable {
  tb_name : string;
  tb_columns : list (string * coltype);
  tb_key : string
}.

(** A row by the names of its columns. *)
Abbreviation row := (gmap string sql_value).

Definition has_type (ty : coltype) (v : sql_value) : bool :=
  match ty, v with
  | CText, SText _ | CNullText, (SText _ | SNull) | CNumber, SInt _ => true
  | CStamp, _ => true
  | _, _ => false
  end.

Definition column_value (r : row) (c : string) : sql_value := default SNull (r !! c).

Definition typed (sch : table_schema) (r : row) : bool :=
  forallb (fun ct => has_type ct.2 (column_value r ct.1)) (tb_columns sch).

Definition coalesce_text (v : sql_value) : sql_value := match v with SNull => SText "" | _ => v end.

(** ** What statements do *)

(** The row an INSERT brings, and what ON DUPLICATE KEY UPDATE makes of the row
    that is there: each column assigned gets what the new row has in the column
    named. *)
Definition new_row (i : insert) (args : list sql_value) : row := list_to_map (zip (ins_columns i) args).
Definition reassigned (i : insert) (new old : row) : row :=
  foldl (fun r a => <[a.1 := column_value new a.2]> r) old (ins_update i).

(** The stamp columns of a row that a statement wrote. *)
Definition stamped (sch : table_schema) (t : sql_value) (r : row) : row :=
  foldl (fun r ct => match ct.2 with CStamp => <[ct.1 := t]> r | _ => r end) r (tb_columns sch).

Definition inserted (sch : table_schema) (key : string -> string) (t : sql_value) (i : insert) (args : list sql_value)
    (rows : gmap string row) : gmap string row :=
  let new := new_row i args in
  match new !! tb_key sch with
  | Some (SText name) =>
      <[key name := stamped sch t (match rows !! key name with Some old => reassigned i new old | None => new end)]> rows
  | _ => rows
  end.

Definition set_columns (cols : list string) (args : list sql_value) (r : row) : row :=
  foldl (fun r ca => <[ca.1 := ca.2]> r) r (zip cols args).

(** The rows that satisfy the condition get the new values; [t] has the times. *)
Definition updated (sch : table_schema) (order : string -> sql_value -> sql_value -> comparison) (t : string -> sql_value)
    (u : update) (args : list sql_value) (rows : gmap string row) : gmap string row :=
  let sets := take (length (upd_set u)) args in
  let bound := drop (length (upd_set u)) args in
  map_imap (fun k r => Some (if satisfies order (upd_where u) bound (column_value r)
    then stamped sch (t k) (set_columns (upd_set u) sets r) else r)) rows.

(** ** Statements a server carries out *)

Definition names (sch : table_schema) : list string := map fst (tb_columns sch).
Definition known (sch : table_schema) (cols : list string) : Prop := Forall (fun c => c ∈ names sch) cols.

(** A condition, and an order, on columns that are never NULL. *)
Definition compared (sch : table_schema) (cond : option condition) (args : list sql_value) : Prop :=
  match cond with
  | None => args = []
  | Some c => Forall2 (fun col v => exists ty, (col, ty) ∈ tb_columns sch /\ (ty = CText \/ ty = CNumber) /\ has_type ty v = true)
      (cond_columns c) args
  end.
Definition sortable (sch : table_schema) (cols : list string) : Prop :=
  Forall (fun col => (col, CText) ∈ tb_columns sch \/ (col, CNumber) ∈ tb_columns sch) cols.

(** A query of the table, with its arguments. *)
Definition queries (sch : table_schema) (q : select) (args : list sql_value) : Prop :=
  sel_from q = Plain (tb_name sch) /\ known sch (mentions q) /\ compared sch (sel_where q) args /\
  sortable sch (sel_order q) /\ sel_limit q = false.

(** An INSERT that gives every column a value of its type, but those the server
    keeps, and does not touch the key of a row that is there. *)
Definition inserts (sch : table_schema) (i : insert) (args : list sql_value) : Prop :=
  ins_into i = Plain (tb_name sch) /\ NoDup (ins_columns i) /\ known sch (ins_columns i) /\
  length args = length (ins_columns i) /\
  Forall (fun ct => ct.2 = CStamp \/ ct.1 ∈ ins_columns i) (tb_columns sch) /\
  typed sch (new_row i args) = true /\
  Forall (fun a => a.1 ∈ names sch /\ a.2 ∈ ins_columns i /\ a.1 <> tb_key sch /\
    forall ty, (a.1, ty) ∈ tb_columns sch -> has_type ty (column_value (new_row i args) a.2) = true) (ins_update i).

Definition updates (sch : table_schema) (u : update) (args : list sql_value) : Prop :=
  upd_table u = Plain (tb_name sch) /\ known sch (upd_set u) /\ (tb_key sch ∉ upd_set u) /\
  compared sch (upd_where u) (drop (length (upd_set u)) args) /\
  Forall (fun ca => forall ty, (ca.1, ty) ∈ tb_columns sch -> has_type ty ca.2 = true) (zip (upd_set u) args).

(** ** The server *)

(** Rows by key, in strict mode: what is stored is stored whole or refused. A
    failed statement was carried out or not; a query changes nothing. The stamps
    are [good] ones. *)
Class KeptTable (W : Type) `{!SqlOps W} (sch : table_schema) (good : sql_value -> Prop) (key : string -> string) := {
  rows : W -> gmap string row;
  column_order : string -> sql_value -> sql_value -> comparison;
  order_key : forall a b, column_order (tb_key sch) (SText a) (SText b) = Eq <-> key a = key b;
  rows_keyed : forall w k r, rows w !! k = Some r ->
    exists name, r !! tb_key sch = Some (SText name) /\ k = key name;
  rows_typed : forall w k r, rows w !! k = Some r -> typed sch r = true;
  query_frame : forall text q args w, spelled text = Some (Select q) -> rows (sql_QueryRow text args w).1 = rows w;
  query_ok : forall text q args w w' answer,
    spelled text = Some (Select q) -> queries sch q args -> sql_QueryRow text args w = (w', Ok answer) ->
    exists out, answers column_order coalesce_text q args None
        (map (fun kr => column_value kr.2) (map_to_list (rows w))) out /\ answer = head out;
  insert_done : forall text i args w w' r,
    spelled text = Some (Insert i) -> inserts sch i args -> sql_Exec text args w = (w', r) ->
    (r <> Ok () /\ rows w' = rows w) \/ exists t, good t /\ rows w' = inserted sch key t i args (rows w);
  update_done : forall text u args w w' r,
    spelled text = Some (Update u) -> updates sch u args -> sql_Exec text args w = (w', r) ->
    (r <> Ok () /\ rows w' = rows w) \/ exists t : string -> sql_value, (forall k, good (t k)) /\ rows w' = updated sch column_order t u args (rows w)
}.

(** ** Finding a row by its key *)

Section Found.
Context {W : Type} `{!SqlOps W} (sch : table_schema) (good : sql_value -> Prop) (key : string -> string).
Context `{!KeptTable W sch good key}.

Definition by_key (cond : option condition) : Prop := cond = Some (mkCondition [tb_key sch] OpEq).

(** A condition on the key holds of one row. *)
Lemma satisfies_key w k r name :
  rows w !! k = Some r ->
  satisfies column_order (Some (mkCondition [tb_key sch] OpEq)) [SText name] (column_value r) = bool_decide (k = key name).
Proof.
  intros Hr. destruct (rows_keyed _ _ _ Hr) as (n & Hn & ->).
  assert (column_value r (tb_key sch) = SText n) as Hv by (unfold column_value; by rewrite Hn).
  unfold satisfies. cbn [cond_op cond_columns map compare_values]. rewrite Hv.
  destruct (column_order (tb_key sch) (SText n) (SText name)) eqn:E; cbn [holds].
  - apply order_key in E. by rewrite bool_decide_eq_true_2.
  - rewrite bool_decide_eq_false_2; [done|]. intros E'%order_key. congruence.
  - rewrite bool_decide_eq_false_2; [done|]. intros E'%order_key. congruence.
Qed.

Lemma filter_by_key w name :
  List.filter (satisfies column_order (Some (mkCondition [tb_key sch] OpEq)) [SText name])
    (map (fun kr => column_value kr.2) (map_to_list (rows w))) =
  match rows w !! key name with Some r => [column_value r] | None => [] end.
Proof.
  assert (forall l : list (string * row), NoDup (map fst l) -> (forall kr, kr ∈ l -> rows w !! kr.1 = Some kr.2) ->
    List.filter (satisfies column_order (Some (mkCondition [tb_key sch] OpEq)) [SText name]) (map (fun kr => column_value kr.2) l) =
    match (list_to_map l : gmap string row) !! key name with Some r => [column_value r] | None => [] end) as Hl.
  { induction l as [|[k r] l IH]; intros Hnd Hin; [done|]. cbn [map fst snd] in *. apply NoDup_cons in Hnd as [Hk Hnd].
    cbn [List.filter]. rewrite (satisfies_key w k) by (apply (Hin (k, r)); by left).
    rewrite IH; [|done|intros kr Hkr; apply Hin; by right]. change ((list_to_map ((k, r) :: l) : gmap string row) !! key name) with (<[k := r]> (list_to_map l : gmap string row) !! key name).
    case_bool_decide as Heq.
    - rewrite <- Heq, lookup_insert_eq. assert ((list_to_map l : gmap string row) !! k = None) as ->; [|done].
      by apply not_elem_of_list_to_map_1.
    - by rewrite lookup_insert_ne. }
  rewrite Hl, list_to_map_to_list; [done|apply NoDup_fst_map_to_list|]. intros [k r]. apply elem_of_map_to_list.
Qed.

(** What a query for the row of a key answers. *)
Lemma key_query text q name w w' answer :
  spelled text = Some (Select q) -> queries sch q [SText name] -> by_key (sel_where q) ->
  sql_QueryRow text [SText name] w = (w', Ok answer) ->
  answer = (fun r => map (eval_expr coalesce_text (column_value r)) (sel_exprs q)) <$> rows w !! key name.
Proof.
  intros Ht Hq Hw Hans. destruct (query_ok _ _ _ _ _ _ Ht Hq Hans) as (out & (l & Hperm & _ & ->) & ->).
  rewrite Hw, filter_by_key in Hperm. destruct (rows w !! key name) as [r|].
  - apply Permutation_singleton_r in Hperm as ->. done.
  - apply Permutation_nil_r in Hperm as ->. done.
Qed.

(** What an update of the row of a key leaves. *)
Lemma key_updated w t u args name :
  by_key (upd_where u) -> drop (length (upd_set u)) args = [SText name] ->
  updated sch column_order t u args (rows w) =
  alter (fun r => stamped sch (t (key name)) (set_columns (upd_set u) (take (length (upd_set u)) args) r)) (key name) (rows w).
Proof.
  intros Hw Hargs. unfold updated. rewrite Hargs. apply map_eq. intros k. rewrite map_lookup_imap.
  destruct (decide (key name = k)) as [<-|Hne].
  - rewrite lookup_alter_eq. destruct (rows w !! key name) as [r|] eqn:Hr; [|done]. cbn. rewrite Hw, (satisfies_key w (key name)) by done.
    by rewrite bool_decide_eq_true_2.
  - rewrite lookup_alter_ne by done. destruct (rows w !! k) as [r|] eqn:Hr; [|done]. cbn. rewrite Hw, (satisfies_key w k) by done.
    by rewrite bool_decide_eq_false_2.
Qed.

End Found.
