(* ===== verification/Schema.v ===== *)
(** * Table definitions ([internal/schema])

    Columns and tables ([schema.go]), the mapping of MySQL types to the
    destinations' types ([typemap.go]), the fields a stream writes
    ([generate.go]), and the reading of ENUM and SET members and the cache of
    definitions ([store.go]). The loader's queries are in [TableLoader], the
    text of mappings and tables in [Generate]. *)

From Stdlib Require Import Ascii.
From S2P Require Import Prelude GoStd.

(** ** schema.go *)

Record Column := mkColumn {
  col_Name : string;
  col_Position : nat;
  col_DataType : string;
  col_ColumnType : string;
  col_Unsigned : bool;
  col_Nullable : bool;
  col_Generated : bool;
  col_CharacterSet : string;
  col_Collation : string;
  col_NumericPrecision : Z;
  col_NumericScale : Z;
  col_DateTimePrecision : Z;
  col_EnumValues : list string;
  col_SetValues : list string
}.

(** The [byName] index of the source is a cache of [index] below. *)
Record TableMeta := mkTableMeta {
  tm_Schema : string;
  tm_Table : string;
  tm_Columns : list Column;
  tm_PrimaryKey : list string
}.

#[export] Instance Column_eq_dec : EqDecision Column.
Proof. solve_decision. Defined.
#[export] Instance TableMeta_eq_dec : EqDecision TableMeta.
Proof. solve_decision. Defined.

Inductive schema_error :=
  | ENoPrimaryKey (table : string)
  | EKeyNotPresent (table name : string)
  | EKeyUnknown (table name : string)
  | EKeyTwice (table name : string)
  | EKeyGenerated (table name : string)
  | EKeyNullable (table name : string)
  | EIncludeAndExclude (table : string)
  | EIncludeUnknown (table name : string)
  | EKeyNotIncluded (table name : string)
  | EExcludeUnknown (table name : string)
  | EExcludeKey (table name : string)
  | ENoColumns (table : string)
  | EGeneratedColumn (column : string)
  | EEnumLabels (column : string)
  | ESetLabels (column : string)
  | ESpatialType (column datatype : string)
  | EUnrecognisedType (column datatype : string)
  | EReservedName (column name : string)
  | ETableRequired
  | EKeyRequired (table : string).

#[export] Instance schema_error_eq_dec : EqDecision schema_error.
Proof. solve_decision. Defined.

(** [(t *TableMeta) Name]. *)
Definition TableMeta_Name (t : TableMeta) : string :=
  tm_Schema t +:+ "." +:+ tm_Table t.

(** [index]: a later column of the same lowered name replaces an earlier one. *)
Fixpoint index_from (i : nat) (cols : list Column) (m : gmap string nat) : gmap string nat :=
  match cols with
  | [] => m
  | c :: cols => index_from (S i) cols (<[ToLower (col_Name c) := i]> m)
  end.
Definition index (t : TableMeta) : gmap string nat := index_from 0 (tm_Columns t) ∅.

(** [(t *TableMeta) Column]. *)
Definition TableMeta_Column (t : TableMeta) (name : string) : option Column :=
  i ← index t !! ToLower name; tm_Columns t !! i.

Definition ColumnNames (t : TableMeta) : list string := map col_Name (tm_Columns t).

Definition PrimaryKeyPositions (t : TableMeta) : res schema_error (list nat) :=
  if bool_decide (tm_PrimaryKey t = []) then Err (ENoPrimaryKey (TableMeta_Name t))
  else res_map (fun name =>
    match TableMeta_Column t name with
    | None => Err (EKeyNotPresent (TableMeta_Name t) name)
    | Some c => Ok (col_Position c)
    end) (tm_PrimaryKey t).

Fixpoint check_key (t : TableMeta) (seen : gset string) (configured : list string)
  : res schema_error () :=
  match configured with
  | [] => Ok ()
  | name :: rest =>
    match TableMeta_Column t name with
    | None => Err (EKeyUnknown (TableMeta_Name t) name)
    | Some c =>
      if bool_decide (ToLower name ∈ seen) then Err (EKeyTwice (TableMeta_Name t) name)
      else if col_Generated c then Err (EKeyGenerated (TableMeta_Name t) name)
      else if col_Nullable c then Err (EKeyNullable (TableMeta_Name t) name)
      else check_key t ({[ToLower name]} ∪ seen) rest
    end
  end.

Definition ResolveKey (t : TableMeta) (configured : list string)
  : res schema_error (list string) :=
  match configured with
  | [] =>
    match tm_PrimaryKey t with
    | [] => Err (ENoPrimaryKey (TableMeta_Name t))
    | pk => Ok pk
    end
  | _ => _ ← check_key t ∅ configured; Ok configured
  end.

Definition lower_set (l : list string) : gset string := list_to_set (map ToLower l).

Fixpoint check_included (t : TableMeta) (include : list string) : res schema_error () :=
  match include with
  | [] => Ok ()
  | name :: rest =>
    match TableMeta_Column t name with
    | None => Err (EIncludeUnknown (TableMeta_Name t) name)
    | Some _ => check_included t rest
    end
  end.

Fixpoint check_key_included (t : TableMeta) (wanted : gset string) (key : list string)
  : res schema_error () :=
  match key with
  | [] => Ok ()
  | k :: rest =>
    if bool_decide (ToLower k ∈ wanted) then check_key_included t wanted rest
    else Err (EKeyNotIncluded (TableMeta_Name t) k)
  end.

Fixpoint check_excluded (t : TableMeta) (inKey : gset string) (exclude : list string)
  : res schema_error () :=
  match exclude with
  | [] => Ok ()
  | name :: rest =>
    match TableMeta_Column t name with
    | None => Err (EExcludeUnknown (TableMeta_Name t) name)
    | Some _ =>
      if bool_decide (ToLower name ∈ inKey) then Err (EExcludeKey (TableMeta_Name t) name)
      else check_excluded t inKey rest
    end
  end.

Definition SelectColumns (t : TableMeta) (include exclude key : list string)
  : res schema_error (list Column) :=
  chosen ←
    match include, exclude with
    | _ :: _, _ :: _ => Err (EIncludeAndExclude (TableMeta_Name t))
    | _ :: _, [] =>
        _ ← check_included t include;
        _ ← check_key_included t (lower_set include) key;
        Ok (filter (fun c => ToLower (col_Name c) ∈ lower_set include) (tm_Columns t))
    | [], _ :: _ =>
        _ ← check_excluded t (lower_set key) exclude;
        Ok (filter (fun c => (ToLower (col_Name c) ∉ lower_set exclude) /\ col_Generated c = false)
              (tm_Columns t))
    | [], [] => Ok (filter (fun c => col_Generated c = false) (tm_Columns t))
    end;
  match chosen with
  | [] => Err (ENoColumns (TableMeta_Name t))
  | _ => Ok chosen
  end.

(** ** typemap.go *)

Inductive Kind :=
  | KindInvalid | KindBool | KindInt | KindUint | KindFloat | KindDecimal
  | KindString | KindBytes | KindJSON | KindDate | KindDateTime | KindTimestamp
  | KindTime | KindYear | KindEnum | KindSet | KindBit.

#[export] Instance Kind_eq_dec : EqDecision Kind.
Proof. solve_decision. Defined.

Record Mapped := mkMapped {
  mapped_Kind : Kind;
  mapped_Elasticsearch : string;
  mapped_ClickHouse : string
}.

Definition one_of (s : string) (l : list string) : bool := bool_decide (s ∈ l).

Definition intTypes (c : Column) (signedES signedCH unsignedES unsignedCH : string)
  : res schema_error (Kind * string * string) :=
  if col_Unsigned c then Ok (KindUint, unsignedES, unsignedCH)
  else Ok (KindInt, signedES, signedCH).

Definition mapType (c : Column) : res schema_error (Kind * string * string) :=
  let ty := ToLower (col_DataType c) in
  if one_of ty ["tinyint"] then
    if negb (col_Unsigned c) && HasPrefix (ToLower (col_ColumnType c)) "tinyint(1)"
    then Ok (KindBool, "boolean", "Bool")
    else intTypes c "byte" "Int8" "short" "UInt8"
  else if one_of ty ["smallint"] then intTypes c "short" "Int16" "integer" "UInt16"
  else if one_of ty ["mediumint"] then intTypes c "integer" "Int32" "long" "UInt32"
  else if one_of ty ["int"; "integer"] then intTypes c "integer" "Int32" "long" "UInt32"
  else if one_of ty ["bigint"] then intTypes c "long" "Int64" "unsigned_long" "UInt64"
  else if one_of ty ["decimal"; "numeric"] then
    let '(precision, scale) :=
      if (col_NumericPrecision c <=? 0)%Z then (10, 0)%Z
      else (col_NumericPrecision c, col_NumericScale c) in
    Ok (KindDecimal, "keyword",
        "Decimal(" +:+ FormatInt precision +:+ ", " +:+ FormatInt scale +:+ ")")
  else if one_of ty ["float"] then Ok (KindFloat, "float", "Float32")
  else if one_of ty ["double"; "double precision"; "real"] then Ok (KindFloat, "double", "Float64")
  else if one_of ty ["char"; "varchar"] then Ok (KindString, "keyword", "String")
  else if one_of ty ["tinytext"; "text"; "mediumtext"; "longtext"] then Ok (KindString, "text", "String")
  else if one_of ty ["binary"; "varbinary"; "tinyblob"; "blob"; "mediumblob"; "longblob"]
  then Ok (KindBytes, "binary", "String")
  else if one_of ty ["json"] then Ok (KindJSON, "object", "String")
  else if one_of ty ["date"] then Ok (KindDate, "date", "Date32")
  else if one_of ty ["datetime"] then
    Ok (KindDateTime, "date", "DateTime64(" +:+ FormatInt (col_DateTimePrecision c) +:+ ")")
  else if one_of ty ["timestamp"] then
    Ok (KindTimestamp, "date", "DateTime64(" +:+ FormatInt (col_DateTimePrecision c) +:+ ", 'UTC')")
  else if one_of ty ["time"] then Ok (KindTime, "long", "Int64")
  else if one_of ty ["year"] then Ok (KindYear, "short", "UInt16")
  else if one_of ty ["enum"] then
    match col_EnumValues c with
    | [] => Err (EEnumLabels (col_Name c))
    | _ => Ok (KindEnum, "keyword", "LowCardinality(String)")
    end
  else if one_of ty ["set"] then
    match col_SetValues c with
    | [] => Err (ESetLabels (col_Name c))
    | _ => Ok (KindSet, "keyword", "Array(String)")
    end
  else if one_of ty ["bit"] then Ok (KindBit, "long", "UInt64")
  else if one_of ty ["geometry"; "point"; "linestring"; "polygon"; "multipoint";
                     "multilinestring"; "multipolygon"; "geometrycollection"; "geomcollection"]
  then Err (ESpatialType (col_Name c) (col_DataType c))
  else Err (EUnrecognisedType (col_Name c) (col_DataType c)).

(** [Map]: [Nullable] goes inside [LowCardinality], which is where ClickHouse
    requires it. *)
Definition Map (c : Column) : res schema_error Mapped :=
  if col_Generated c then Err (EGeneratedColumn (col_Name c))
  else
    '(kind, es, ch) ← mapType c;
    let lowCardinality := HasPrefix ch "LowCardinality(" in
    let ch := if lowCardinality then TrimSuffix (TrimPrefix ch "LowCardinality(") ")" else ch in
    let ch := if col_Nullable c then "Nullable(" +:+ ch +:+ ")" else ch in
    let ch := if lowCardinality then "LowCardinality(" +:+ ch +:+ ")" else ch in
    Ok (mkMapped kind es ch).

Definition Supported (c : Column) : bool := is_ok (Map c).

(** ** generate.go *)

Definition VersionColumn : string := "_version".
Definition DeletedColumn : string := "_is_deleted".

Record destinationField := mkDestinationField {
  df_column : Column;
  df_name : string;
  df_mapped : Mapped
}.

(** The name a column is written under: a rename to nothing is no rename. *)
Definition destination_name (rename : gmap string string) (c : Column) : string :=
  match rename !! col_Name c with
  | Some renamed => if bool_decide (renamed = "") then col_Name c else renamed
  | None => col_Name c
  end.

Definition resolveFields (meta : TableMeta) (include exclude key : list string)
    (rename : gmap string string) : res schema_error (list destinationField) :=
  selected ← SelectColumns meta include exclude key;
  fields ← res_map (fun c =>
    mapped ← Map c;
    let name := destination_name rename c in
    if bool_decide (name = VersionColumn) || bool_decide (name = DeletedColumn)
    then Err (EReservedName (col_Name c) name)
    else Ok (mkDestinationField c name mapped)) selected;
  match fields with
  | [] => Err (ENoColumns (TableMeta_Name meta))
  | _ => Ok fields
  end.

Definition ExpectedElasticsearchFields (meta : TableMeta) (include exclude key : list string)
    (rename : gmap string string) : res schema_error (gmap string string) :=
  fields ← resolveFields meta include exclude key rename;
  Ok (foldl (fun m f => <[df_name f := mapped_Elasticsearch (df_mapped f)]> m) ∅ fields).

(** ** store.go: the members of an ENUM or SET *)

Definition single_quote : ascii := "'"%char.

(** The automaton of [parseMemberList] over the text between the parentheses. *)
Fixpoint member_list (body : string) (current : string) (inQuote : bool) : list string :=
  match body with
  | "" => []
  | String ch rest =>
    if ascii_dec ch single_quote then
      if inQuote then
        match rest with
        | String ch2 rest2 =>
            if ascii_dec ch2 single_quote
            then member_list rest2 (current +:+ str1 single_quote) true
            else current :: member_list rest "" false
        | "" => current :: member_list rest "" false
        end
      else member_list rest current true
    else if inQuote then member_list rest (current +:+ str1 ch) true
    else member_list rest current false
  end.

(** What follows the first occurrence of [p], matched on lowered text. *)
Fixpoint after_first_fold (s p : string) : option string :=
  if HasPrefix (ToLower s) p then Some (drop_str (String.length p) s)
  else (match s with "" => None | String _ s' => after_first_fold s' p end).

(** What precedes the last occurrence of a byte, or the whole text. *)
Definition before_last (c : ascii) (s : string) : string :=
  match CutByte c (str_rev s) with
  | Some (_, b) => str_rev b
  | None => s
  end.

Definition parseMemberList (columnType keyword : string) : list string :=
  match after_first_fold columnType (keyword +:+ "(") with
  | None => []
  | Some body => member_list (before_last ")"%char body) "" false
  end.

(** ** store.go: the cache of definitions *)

Definition cacheKey (schemaName table : string) : string :=
  ToLower schemaName +:+ "." +:+ ToLower table.

Section Store.
(** The loader queries [information_schema] of the source: an interface of
    the store, over the world [W]; [TableLoader] has its implementation. *)
Context {W E : Type} (Load : string -> string -> eff W E TableMeta).

(** [(s *Store) Table]: the second look at the cache, under the lock, keeps a
    definition another goroutine published while this one was loading. *)
Definition publish (key : string) (meta : TableMeta) (cache : gmap string TableMeta)
  : gmap string TableMeta * TableMeta :=
  match cache !! key with
  | Some existing => (cache, existing)
  | None => (<[key := meta]> cache, meta)
  end.

Definition Table (schemaName table : string)
  : eff (gmap string TableMeta * W) E TableMeta := fun '(cache, w) =>
  let key := cacheKey schemaName table in
  match cache !! key with
  | Some meta => ((cache, w), Ok meta)
  | None =>
    match Load schemaName table w with
    | (w', Err e) => ((cache, w'), Err e)
    | (w', Ok meta) => let '(cache', m) := publish key meta cache in ((cache', w'), Ok m)
    end
  end.

End Store.

Definition Invalidate (schemaName table : string) (cache : gmap string TableMeta)
  : gmap string TableMeta := delete (cacheKey schemaName table) cache.
Definition InvalidateAll (_ : gmap string TableMeta) : gmap string TableMeta := ∅.

(** ** Columns and keys: lemmas *)

Lemma index_from_lookup i cols m name j :
  index_from i cols m !! name = Some j ->
  m !! name = Some j \/ exists c, i <= j /\ cols !! (j - i) = Some c /\ ToLower (col_Name c) = name.
Proof.
  revert i m. induction cols as [|c cols IH]; intros i m H; simpl in *; [by left|].
  destruct (IH _ _ H) as [Hm|(c' & Hj & Hc & Hn)].
  - destruct (decide (ToLower (col_Name c) = name)) as [<-|Hne].
    + rewrite lookup_insert_eq in Hm. injection Hm as <-. right. exists c.
      by rewrite Nat.sub_diag.
    + rewrite lookup_insert_ne in Hm by done. by left.
  - right. exists c'. split; [lia|]. split; [|done].
    replace (j - i) with (S (j - S i)) by lia. done.
Qed.

Lemma TableMeta_Column_spec t name c :
  TableMeta_Column t name = Some c ->
  c ∈ tm_Columns t /\ ToLower (col_Name c) = ToLower name.
Proof.
  unfold TableMeta_Column. intros (j & Hj & Hc)%bind_Some.
  apply index_from_lookup in Hj as [Hj|(c' & _ & Hc' & Hn)].
  - by rewrite lookup_empty in Hj.
  - rewrite Nat.sub_0_r in Hc'. simplify_eq. split; [|done].
    by eapply list_elem_of_lookup_2.
Qed.

Lemma elem_of_lower_set name l :
  ToLower name ∈ lower_set l <-> exists n, n ∈ l /\ ToLower n = ToLower name.
Proof.
  unfold lower_set. rewrite elem_of_list_to_set, list_elem_of_fmap.
  split; intros (n & ? & ?); exists n; auto.
Qed.

Lemma check_key_ok t seen l :
  check_key t seen l = Ok () ->
  Forall (fun name => (ToLower name ∉ seen) /\
    exists c, TableMeta_Column t name = Some c /\ col_Generated c = false /\ col_Nullable c = false) l
  /\ NoDup (map ToLower l).
Proof.
  revert seen. induction l as [|name l IH]; intros seen H; simpl in *; [by split; constructor|].
  case_all_in H. bool_to_prop. apply IH in H as [Hf Hnd]. split.
  - constructor; [split; eauto|].
    eapply Forall_impl; [exact Hf|]. intros n [[_ Hn]%not_elem_of_union ?]. done.
  - constructor; [|done]. intros (n & Heq & Hin)%list_elem_of_fmap.
    rewrite Forall_forall in Hf. destruct (Hf n Hin) as [[Hn _]%not_elem_of_union _]. by rewrite Heq, elem_of_singleton in Hn.
Qed.

Lemma check_key_included_ok t wanted key :
  check_key_included t wanted key = Ok () -> Forall (fun k => ToLower k ∈ wanted) key.
Proof.
  induction key as [|k key IH]; intros H; simpl in *; [constructor|].
  case_all_in H. bool_to_prop. constructor; auto.
Qed.

Lemma check_excluded_ok t inKey exclude :
  check_excluded t inKey exclude = Ok () ->
  Forall (fun n => ToLower n ∉ inKey) exclude.
Proof.
  induction exclude as [|k key IH]; intros H; simpl in *; [constructor|].
  case_all_in H. bool_to_prop. constructor; auto.
Qed.

(** ** Properties of keys and column selection *)

(** An accepted configured key is the configuration itself: distinct existing columns, none
    generated and none nullable, so that it can identify a row. *)
Theorem ResolveKey_configured t configured key :
  configured <> [] -> ResolveKey t configured = Ok key ->
  key = configured /\ NoDup (map ToLower key) /\
  Forall (fun name => exists c, TableMeta_Column t name = Some c /\
            col_Generated c = false /\ col_Nullable c = false) key.
Proof.
  intros Hne H. destruct configured as [|k l]; [done|]. unfold ResolveKey in H.
  apply res_bind_ok in H as ([] & [Hf Hnd]%check_key_ok & [= <-]).
  split; [done|]. split; [done|]. eapply Forall_impl; [exact Hf|]. by intros ? [_ ?].
Qed.

Lemma SelectColumns_spec t include exclude key chosen :
  SelectColumns t include exclude key = Ok chosen ->
  chosen <> [] /\ chosen `sublist_of` tm_Columns t /\
  (forall c, c ∈ chosen ->
     (include <> [] -> ToLower (col_Name c) ∈ lower_set include) /\
     (include = [] -> col_Generated c = false) /\
     ToLower (col_Name c) ∉ lower_set exclude) /\
  (forall k c, k ∈ key -> TableMeta_Column t k = Some c -> col_Generated c = false -> c ∈ chosen).
Proof.
  unfold SelectColumns. intros (cs & Hcs & H)%res_bind_ok.
  destruct cs as [|c0 cs0] eqn:Ecs; [done|]. rewrite <- Ecs in *. injection H as <-.
  split; [congruence|]. clear Ecs.
  destruct include as [|i include], exclude as [|e exclude]; lazy beta iota in Hcs; try done.
  - injection Hcs as <-. split; [apply sublist_filter|]. split.
    + intros c [Hg _]%list_elem_of_filter. done.
    + intros k c _ [Hc _]%TableMeta_Column_spec Hg. by apply list_elem_of_filter.
  - apply res_bind_ok in Hcs as ([] & Hex%check_excluded_ok & [= <-]).
    split; [apply sublist_filter|]. split.
    + by intros c [[Hn Hg] _]%list_elem_of_filter.
    + intros k c Hk [Hc Hn]%TableMeta_Column_spec Hg.
      apply list_elem_of_filter. split; [|done]. split; [|done].
      rewrite Hn, elem_of_lower_set. intros (n & Hin & Heq).
      rewrite Forall_forall in Hex. apply (Hex n Hin). rewrite Heq.
      apply elem_of_lower_set. eauto.
  - apply res_bind_ok in Hcs as ([] & _ & Hcs).
    apply res_bind_ok in Hcs as ([] & Hk%check_key_included_ok & [= <-]).
    split; [apply sublist_filter|]. split.
    + intros c [Hn _]%list_elem_of_filter. done.
    + intros k c Hin [Hc Hn]%TableMeta_Column_spec _. apply list_elem_of_filter.
      split; [|done]. rewrite Hn. rewrite Forall_forall in Hk. by apply Hk.
Qed.

(** ** The members of an ENUM or SET *)

(** How MySQL writes a column type with members: each label in single quotes,
    a quote inside it doubled. *)
Definition quote_label (l : string) : string :=
  str1 single_quote +:+ ReplaceByte single_quote "''" l +:+ str1 single_quote.
Definition render_members (keyword : string) (labels : list string) : string :=
  keyword +:+ "(" +:+ Join (map quote_label labels) "," +:+ ")".

Lemma member_list_label l cur rest :
  match rest with String c _ => c <> single_quote | "" => True end ->
  member_list (ReplaceByte single_quote "''" l +:+ String single_quote rest) cur true
  = (cur +:+ l) :: member_list rest "" false.
Proof.
  intros Hrest. revert cur. induction l as [|c l IH]; intros cur.
  - cbn. rewrite app_nil_r_str. destruct rest as [|d rest]; [done|].
    by destruct (ascii_dec d single_quote).
  - unfold ReplaceByte in *. simpl. destruct (ascii_dec c single_quote) as [->|Hne]; simpl.
    + rewrite IH, app_assoc_str. done.
    + destruct (ascii_dec c single_quote); [done|]. by rewrite IH, app_assoc_str.
Qed.

Lemma member_list_quoted l rest :
  match rest with String c _ => c <> single_quote | "" => True end ->
  member_list (quote_label l +:+ rest) "" false = l :: member_list rest "" false.
Proof.
  intros H. unfold quote_label. rewrite !app_assoc_str.
  change (member_list (ReplaceByte single_quote "''" l +:+ String single_quote rest) "" true
          = l :: member_list rest "" false).
  by rewrite member_list_label.
Qed.

Lemma member_list_join labels :
  member_list (Join (map quote_label labels) ",") "" false = labels.
Proof.
  induction labels as [|l labels IH]; [done|]. destruct labels as [|l2 labels].
  - change (member_list (quote_label l) "" false = [l]).
    rewrite <- (app_nil_r_str (quote_label l)). by rewrite member_list_quoted.
  - change (Join (map quote_label (l :: l2 :: labels)) ",")
      with (quote_label l +:+ String "," (Join (map quote_label (l2 :: labels)) ",")).
    rewrite member_list_quoted by done. f_equal. exact IH.
Qed.

Lemma before_last_app c s : before_last c (s +:+ str1 c) = s.
Proof.
  unfold before_last. rewrite str_rev_app. simpl.
  destruct (ascii_dec c c); [|done]. apply str_rev_involutive.
Qed.

Lemma after_first_fold_prefix s p :
  HasPrefix (ToLower s) p = true -> after_first_fold s p = Some (drop_str (String.length p) s).
Proof. intros H. destruct s; cbn [after_first_fold]; by rewrite H. Qed.

(** Reading the members MySQL rendered gives the labels back, whatever bytes
    they hold: quotes, commas and parentheses included. *)
Theorem parseMemberList_render keyword labels :
  ToLower keyword = keyword -> parseMemberList (render_members keyword labels) keyword = labels.
Proof.
  intros Hk. unfold parseMemberList, render_members.
  rewrite <- (app_assoc_str keyword).
  set (body := Join _ _ +:+ ")").
  assert (after_first_fold ((keyword +:+ "(") +:+ body) (keyword +:+ "(") = Some body) as ->.
  { assert (HasPrefix (ToLower ((keyword +:+ "(") +:+ body)) (keyword +:+ "(") = true) as HP.
    { unfold ToLower. rewrite !str_map_app. fold ToLower. rewrite Hk. apply HasPrefix_app. }
    by rewrite (after_first_fold_prefix _ _ HP), drop_str_app. }
  unfold body. rewrite (before_last_app ")"). apply member_list_join.
Qed.

(** ** Integer types keep every value

    The ranges of the integer types on the three sides, as their manuals give
    them. *)
Definition mysql_int_bits (ty : string) : option Z :=
  if one_of ty ["tinyint"] then Some 8%Z
  else if one_of ty ["smallint"] then Some 16%Z
  else if one_of ty ["mediumint"] then Some 24%Z
  else if one_of ty ["int"; "integer"] then Some 32%Z
  else if one_of ty ["bigint"] then Some 64%Z
  else None.

Definition mysql_range (c : Column) : option (Z * Z) :=
  bits ← mysql_int_bits (ToLower (col_DataType c));
  Some (if col_Unsigned c then (0, 2 ^ bits - 1)%Z
        else (- 2 ^ (bits - 1), 2 ^ (bits - 1) - 1)%Z).

Definition signed_range (bits : Z) : Z * Z := (- 2 ^ (bits - 1), 2 ^ (bits - 1) - 1)%Z.

Definition es_range (ty : string) : option (Z * Z) :=
  if one_of ty ["byte"] then Some (signed_range 8)
  else if one_of ty ["short"] then Some (signed_range 16)
  else if one_of ty ["integer"] then Some (signed_range 32)
  else if one_of ty ["long"] then Some (signed_range 64)
  else if one_of ty ["unsigned_long"] then Some (0, 2 ^ 64 - 1)%Z
  else None.

Definition ch_range (ty : string) : option (Z * Z) :=
  if one_of ty ["Int8"] then Some (signed_range 8)
  else if one_of ty ["Int16"] then Some (signed_range 16)
  else if one_of ty ["Int32"] then Some (signed_range 32)
  else if one_of ty ["Int64"] then Some (signed_range 64)
  else if one_of ty ["UInt8"] then Some (0, 2 ^ 8 - 1)%Z
  else if one_of ty ["UInt16"] then Some (0, 2 ^ 16 - 1)%Z
  else if one_of ty ["UInt32"] then Some (0, 2 ^ 32 - 1)%Z
  else if one_of ty ["UInt64"] then Some (0, 2 ^ 64 - 1)%Z
  else None.

Definition in_range (r : option (Z * Z)) (z : Z) : bool :=
  match r with Some (lo, hi) => (lo <=? z)%Z && (z <=? hi)%Z | None => false end.

Definition range_includes (outer inner : option (Z * Z)) : bool :=
  match outer, inner with
  | Some (lo, hi), Some (lo', hi') => (lo <=? lo')%Z && (hi' <=? hi)%Z
  | _, _ => false
  end.

Lemma range_includes_spec outer inner z :
  range_includes outer inner = true -> in_range inner z = true -> in_range outer z = true.
Proof.
  destruct outer as [[lo hi]|], inner as [[lo' hi']|]; simpl; try done.
  rewrite !andb_true_iff, !Z.leb_le. lia.
Qed.

Lemma mysql_int_types ty bits :
  mysql_int_bits ty = Some bits ->
  ty ∈ ["tinyint"; "smallint"; "mediumint"; "int"; "integer"; "bigint"].
Proof.
  unfold mysql_int_bits, one_of. intros H. case_all_in H; bool_to_prop;
    repeat match goal with Hl : ty ∈ _ :: _ |- _ => apply elem_of_cons in Hl as [->|Hl] end;
    try (by apply elem_of_nil in Heqb); set_solver.
Qed.

(** The type inside [Nullable(...)]. *)
Definition ch_base (ty : string) : string :=
  if HasPrefix ty "Nullable(" then TrimSuffix (TrimPrefix ty "Nullable(") ")" else ty.

Definition integer_types_fit (c : Column) : bool :=
  match Map c with
  | Ok m => bool_decide (mapped_Kind m = KindBool) ||
            range_includes (es_range (mapped_Elasticsearch m)) (mysql_range c) &&
            range_includes (ch_range (ch_base (mapped_ClickHouse m))) (mysql_range c)
  | Err _ => true
  end.

Lemma integer_types_fit_all c bits :
  mysql_int_bits (ToLower (col_DataType c)) = Some bits -> integer_types_fit c = true.
Proof.
  intros H%mysql_int_types. unfold integer_types_fit, Map, mapType, mysql_range, intTypes.
  destruct (col_Generated c); [done|].
  repeat match goal with Hl : _ ∈ _ :: _ |- _ => apply elem_of_cons in Hl as [->|Hl] end;
    [..|by apply elem_of_nil in H];
    destruct (col_Unsigned c), (col_Nullable c);
    try (destruct (HasPrefix (ToLower (col_ColumnType c)) "tinyint(1)"));
    vm_compute; reflexivity.
Qed.

Lemma integer_value_fits c m z :
  Map c = Ok m -> mapped_Kind m <> KindBool -> in_range (mysql_range c) z = true ->
  in_range (es_range (mapped_Elasticsearch m)) z = true /\
  in_range (ch_range (ch_base (mapped_ClickHouse m))) z = true.
Proof.
  intros Hm Hk Hz. unfold mysql_range in Hz.
  destruct (mysql_int_bits (ToLower (col_DataType c))) as [bits|] eqn:Hb; [|done].
  pose proof (integer_types_fit_all c bits Hb) as Hfit.
  unfold integer_types_fit in Hfit. rewrite Hm, bool_decide_eq_false_2 in Hfit by done.
  unfold mysql_range in Hfit. rewrite Hb in Hfit.
  apply andb_true_iff in Hfit as [? ?]. split; by eapply range_includes_spec.
Qed.

(** Every integer column that is not read as a boolean gets destination types
    that hold every value of its MySQL type, signed or unsigned: no value
    wraps and none is refused for its size. *)
Theorem Map_integer_ranges c m z :
  Map c = Ok m -> mapped_Kind m <> KindBool -> in_range (mysql_range c) z = true ->
  in_range (es_range (mapped_Elasticsearch m)) z = true /\
  in_range (ch_range (ch_base (mapped_ClickHouse m))) z = true.
Proof. apply integer_value_fits. Qed.

(** ** The fields a stream writes *)

Lemma resolveFields_spec meta include exclude key rename fs :
  resolveFields meta include exclude key rename = Ok fs ->
  exists selected, SelectColumns meta include exclude key = Ok selected /\
    Forall2 (fun c f => df_column f = c /\ df_name f = destination_name rename c /\
      Map c = Ok (df_mapped f) /\ df_name f <> VersionColumn /\ df_name f <> DeletedColumn) selected fs.
Proof.
  unfold resolveFields. intros (sel & Hsel & (fields & Hf%res_map_ok & Heq)%res_bind_ok)%res_bind_ok.
  assert (fields = fs) as <- by (destruct fields; [done | by injection Heq]). exists sel. split; [done|].
  eapply Forall2_impl; [exact Hf|]. intros c f (m & Hm & Hc)%res_bind_ok.
  destruct (_ || _) eqn:Hres in Hc; simplify_eq/=. apply orb_false_iff in Hres as [? ?]. by bool_to_prop.
Qed.

Lemma resolved_field meta include exclude key rename fields f :
  resolveFields meta include exclude key rename = Ok fields -> f ∈ fields ->
  df_column f ∈ tm_Columns meta /\ df_name f = destination_name rename (df_column f) /\
  Map (df_column f) = Ok (df_mapped f).
Proof.
  intros (sel & Hsel & Hall)%resolveFields_spec (i & Hi)%list_elem_of_lookup_1.
  destruct (Forall2_lookup_r _ _ _ _ _ Hall Hi) as (c & Hc & -> & Hn & Hm & _).
  split; [|done]. apply SelectColumns_spec in Hsel as (_ & Hsub & _).
  by eapply elem_of_sublist; [eapply list_elem_of_lookup_2|].
Qed.

Lemma resolved_mapped meta include exclude key rename fields f :
  resolveFields meta include exclude key rename = Ok fields -> f ∈ fields -> Map (df_column f) = Ok (df_mapped f).
Proof. intros Hf Hin. by edestruct resolved_field as (_ & _ & ?). Qed.

Lemma resolved_some meta include exclude key rename fields :
  resolveFields meta include exclude key rename = Ok fields -> fields <> [].
Proof. unfold resolveFields. intros (? & _ & (fs & _ & Hne)%res_bind_ok)%res_bind_ok ->. by destruct fs. Qed.
