(* ===== verification/TableLoader.v ===== *)
(** * Table definitions from [information_schema] ([internal/schema/store.go], [DBLoader])

    The two queries the loader asks and what it makes of their rows. [Catalog]
    states how the server answers them for a table as its definition declares
    it; what is loaded is then that definition: columns in their places, signs,
    members of ENUM and SET types, and the primary key in its order. *)

From Stdlib Require Import Ascii.
From S2P Require Import Prelude GoStd Sql Schema.

(** ** Loading *)

Definition columns_query : string := "
		SELECT column_name, ordinal_position, data_type, column_type,
		       is_nullable, COALESCE(character_set_name, ''), COALESCE(collation_name, ''),
		       COALESCE(numeric_precision, 0), COALESCE(numeric_scale, 0),
		       COALESCE(datetime_precision, 0), COALESCE(generation_expression, '')
		FROM information_schema.columns
		WHERE table_schema = ? AND table_name = ?
		ORDER BY ordinal_position".

Definition key_query : string := "
		SELECT column_name
		FROM information_schema.statistics
		WHERE table_schema = ? AND table_name = ? AND index_name = 'PRIMARY'
		ORDER BY seq_in_index".

Inductive load_error :=
  | EReadColumns (schema table : string) (e : sql_error)
  | EScanColumn (schema table : string)
  | ENoTable (schema table : string)
  | EReadKey (schema table : string) (e : sql_error)
  | EScanKey (schema table : string).

(** One row of the columns; the server counts ordinals from 1. *)
Definition scan_column (row : list sql_value) : option Column :=
  match row with
  | [name; ordinal; data_type; column_type; is_nullable; charset; collation; precision; scale; fraction; generation] =>
    name ← scan_string name; ordinal ← scan_int64 ordinal;
    data_type ← scan_string data_type; column_type ← scan_string column_type;
    is_nullable ← scan_string is_nullable; charset ← scan_string charset; collation ← scan_string collation;
    precision ← scan_int64 precision; scale ← scan_int64 scale; fraction ← scan_int64 fraction;
    generation ← scan_string generation;
    let kind := ToLower data_type in
    Some (mkColumn name (Z.to_nat (ordinal - 1)) data_type column_type
      (Contains (ToLower column_type) "unsigned") (EqualFold is_nullable "YES") (negb (bool_decide (generation = "")))
      charset collation precision scale fraction
      (if bool_decide (kind = "enum") then parseMemberList column_type "enum" else [])
      (if bool_decide (kind = "set") then parseMemberList column_type "set" else []))
  | _ => None
  end.

Definition scan_key_column (row : list sql_value) : option string :=
  match row with [name] => scan_string name | _ => None end.

Section Loader.
Context {W : Type} `{!SqlOps W}.

Definition loadPrimaryKey (schema table : string) : eff W load_error (list string) := fun w =>
  match sql_Query key_query [SText schema; SText table] w with
  | (w, Err e) => (w, Err (EReadKey schema table e))
  | (w, Ok rows) =>
      (w, match mapM scan_key_column rows with Some names => Ok names | None => Err (EScanKey schema table) end)
  end.

(** [DBLoader.Load]. *)
Definition Load (schema table : string) : eff W load_error TableMeta := fun w =>
  match sql_Query columns_query [SText schema; SText table] w with
  | (w, Err e) => (w, Err (EReadColumns schema table e))
  | (w, Ok rows) =>
    match mapM scan_column rows with
    | None => (w, Err (EScanColumn schema table))
    | Some [] => (w, Err (ENoTable schema table))
    | Some columns =>
      match loadPrimaryKey schema table w with
      | (w, Err e) => (w, Err e)
      | (w, Ok key) => (w, Ok (mkTableMeta schema table columns key))
      end
    end
  end.

End Loader.

(** ** What the server answers *)

(** A column as a table's definition declares it. *)
Inductive declared_type :=
  | DInteger (type : string) (unsigned : bool)
  | DEnum (labels : list string)
  | DSet (labels : list string)
  | DOther (data_type column_type : string).

Record declared := mkDeclared {
  de_name : string;
  de_type : declared_type;
  de_nullable : bool;
  de_generation : string;
  de_charset : string;
  de_collation : string;
  de_precision : Z;
  de_scale : Z;
  de_fraction : Z
}.

Definition integer_names : list string := ["tinyint"; "smallint"; "mediumint"; "int"; "bigint"].

Definition data_type_of (t : declared_type) : string :=
  match t with DInteger ty _ => ty | DEnum _ => "enum" | DSet _ => "set" | DOther ty _ => ty end.
Definition column_type_of (t : declared_type) : string :=
  match t with
  | DInteger ty unsigned => ty +:+ if unsigned then " unsigned" else ""
  | DEnum labels => render_members "enum" labels
  | DSet labels => render_members "set" labels
  | DOther _ ct => ct
  end.

Definition proper_type (t : declared_type) : Prop :=
  match t with
  | DInteger ty _ => ty ∈ integer_names
  | DOther ty _ => ToLower ty <> "enum" /\ ToLower ty <> "set" /\ ty ∉ integer_names
  | _ => True
  end.

Definition proper (d : declared) : Prop :=
  proper_type (de_type d) /\
  (0 <= de_precision d < 2 ^ 63)%Z /\ (0 <= de_scale d < 2 ^ 63)%Z /\ (0 <= de_fraction d < 2 ^ 63)%Z.

Definition column_row (i : nat) (d : declared) : list sql_value :=
  [SText (de_name d); SInt (Z.of_nat i + 1); SText (data_type_of (de_type d)); SText (column_type_of (de_type d));
   SText (if de_nullable d then "YES" else "NO"); SText (de_charset d); SText (de_collation d);
   SInt (de_precision d); SInt (de_scale d); SInt (de_fraction d); SText (de_generation d)].

Record definition := mkDefinition { dn_columns : list declared; dn_key : list string }.

(** The catalogue at a moment: the declared tables the user may see. A table has
    columns, and fewer than [2 ^ 63]. *)
Class Catalog (W : Type) `{!SqlOps W} := {
  declares : W -> string -> string -> option definition;
  columns_answer : forall schema table w w' rows,
    sql_Query columns_query [SText schema; SText table] w = (w', Ok rows) ->
    declares w' = declares w /\
    rows = match declares w schema table with Some d => imap column_row (dn_columns d) | None => [] end;
  key_answer : forall schema table w w' rows,
    sql_Query key_query [SText schema; SText table] w = (w', Ok rows) ->
    rows = match declares w schema table with Some d => map (fun name => [SText name]) (dn_key d) | None => [] end;
  declared_columns : forall w schema table d, declares w schema table = Some d ->
    dn_columns d <> [] /\ (zlen (dn_columns d) < 2 ^ 63 - 1)%Z /\ Forall proper (dn_columns d)
}.

(** ** What is loaded *)

(** A column as the rest of the program takes it, of one declared at a place. *)
Definition loaded_as (i : nat) (d : declared) (c : Column) : Prop :=
  col_Name c = de_name d /\ col_Position c = i /\ col_DataType c = data_type_of (de_type d) /\
  col_Nullable c = de_nullable d /\ col_Generated c = negb (bool_decide (de_generation d = "")) /\
  match de_type d with
  | DInteger _ unsigned => col_Unsigned c = unsigned /\ col_EnumValues c = [] /\ col_SetValues c = []
  | DEnum labels => col_EnumValues c = labels /\ col_SetValues c = []
  | DSet labels => col_SetValues c = labels /\ col_EnumValues c = []
  | DOther _ _ => col_EnumValues c = [] /\ col_SetValues c = []
  end.

Lemma integer_type_text ty unsigned :
  ty ∈ integer_names ->
  bool_decide (ToLower ty = "enum") = false /\ bool_decide (ToLower ty = "set") = false /\
  Contains (ToLower (column_type_of (DInteger ty unsigned))) "unsigned" = unsigned.
Proof.
  intros Hty. unfold integer_names in Hty. rewrite !elem_of_cons, elem_of_nil in Hty.
  destruct Hty as [->|[->|[->|[->|[->|[]]]]]]; by destruct unsigned.
Qed.

Lemma scan_column_row i d :
  proper d -> (Z.of_nat i + 1 < 2 ^ 63)%Z -> exists c, scan_column (column_row i d) = Some c /\ loaded_as i d c.
Proof.
  intros (Hty & Hp & Hs & Hf) Hi. unfold scan_column, column_row. cbn [scan_string].
  assert (forall z, (0 <= z < 2 ^ 63)%Z -> scan_int64 (SInt z) = Some z) as Hint.
  { intros z Hz. unfold scan_int64. rewrite (proj2 (Z.leb_le _ _)), (proj2 (Z.ltb_lt _ _)) by lia. done. }
  rewrite !Hint by lia. cbn [mbind option_bind]. eexists. split; [done|]. unfold loaded_as.
  cbn [col_Name col_Position col_DataType col_Nullable col_Generated col_Unsigned col_EnumValues col_SetValues].
  split; [done|]. split; [lia|]. split; [done|]. split; [by destruct (de_nullable d)|]. split; [done|].
  destruct (de_type d) as [ty unsigned|labels|labels|ty ct]; cbn [data_type_of].
  - destruct (integer_type_text ty unsigned Hty) as (-> & -> & ->). done.
  - split; [|done]. by apply parseMemberList_render.
  - split; [|done]. by apply parseMemberList_render.
  - destruct Hty as (H1 & H2 & _). by rewrite !bool_decide_eq_false_2.
Qed.

Lemma scan_rows_from i l :
  Forall proper l -> (Z.of_nat (i + length l) < 2 ^ 63)%Z ->
  exists columns, mapM scan_column (imap (fun j => column_row (i + j)) l) = Some columns /\
    length columns = length l /\ forall j d c, l !! j = Some d -> columns !! j = Some c -> loaded_as (i + j) d c.
Proof.
  intros Hall. revert i. induction Hall as [|d l Hd Hall IH]; intros i Hi; [by exists []|].
  cbn [length] in Hi. destruct (IH (S i)) as (columns & Hm & Hlen & Hcols); [lia|].
  destruct (scan_column_row i d Hd) as (c & Hc & Hl); [lia|]. exists (c :: columns).
  split; [|split; [cbn; by rewrite Hlen|]].
  - cbn [imap mapM]. rewrite Nat.add_0_r. cbn [mapM]. rewrite Hc. cbn [mbind option_bind].
    rewrite (imap_ext _ (fun j => column_row (S i + j))) by (intros; cbn; f_equal; lia). by rewrite Hm.
  - intros [|j] d' c'; cbn [lookup list_lookup].
    + intros [= <-] [= <-]. by rewrite Nat.add_0_r.
    + intros H1 H2. replace (i + S j) with (S i + j) by lia. by eapply Hcols.
Qed.

Lemma mapM_key names : mapM scan_key_column (map (fun name => [SText name]) names) = Some names.
Proof. induction names as [|n names IH]; [done|]. cbn [map mapM]. cbn. by rewrite IH. Qed.

Section Loaded.
Context {W : Type} `{!SqlOps W} `{!Catalog W}.

Lemma Load_spec schema table w w' meta :
  Load schema table w = (w', Ok meta) ->
  exists d, declares w schema table = Some d /\ tm_Schema meta = schema /\ tm_Table meta = table /\
    tm_PrimaryKey meta = dn_key d /\ length (tm_Columns meta) = length (dn_columns d) /\
    forall i x c, dn_columns d !! i = Some x -> tm_Columns meta !! i = Some c -> loaded_as i x c.
Proof.
  unfold Load, loadPrimaryKey. destruct (sql_Query columns_query _ w) as [w1 [rows|e]] eqn:Hq; [|done].
  destruct (columns_answer _ _ _ _ _ Hq) as [Hsame ->].
  destruct (declares w schema table) as [d|] eqn:Hd; [|done].
  destruct (declared_columns _ _ _ _ Hd) as (Hne & Hlen & Hall).
  destruct (scan_rows_from 0 (dn_columns d) Hall) as (columns & Hm & Hl & Hcols); [unfold zlen in Hlen; cbn; lia|].
  cbn [Nat.add] in Hm. change (imap (fun j => column_row j) (dn_columns d)) with (imap column_row (dn_columns d)) in Hm.
  rewrite Hm. destruct columns as [|c columns]; [by destruct (dn_columns d)|].
  destruct (sql_Query key_query _ w1) as [w2 [keys|e]] eqn:Hk; [|done].
  rewrite (key_answer _ _ _ _ _ Hk), Hsame, Hd, mapM_key. intros [= <- <-]. exists d. done.
Qed.

End Loaded.
