(* ===== verification/Preflight.v ===== *)
(** * The checks before a run ([internal/preflight/preflight.go], [checkSource] of [internal/supervisor/supervisor.go])

    What a source must be configured with: the checks of its variables and
    grants, how the facts are read, and the decision of the supervisor. Log
    lines are left out. *)

From Stdlib Require Import Ascii.
From S2P Require Import Prelude GoStd Sql.

(** ** Reports *)

Inductive Severity := Required | Advisory.
#[export] Instance Severity_eq_dec : EqDecision Severity.
Proof. solve_decision. Defined.

Definition Severity_String (s : Severity) : string := match s with Required => "required" | Advisory => "advisory" end.

(** One check; [ck_Name] and so on are the fields of the source. *)
Record Check_ := mkCheck {
  ck_Name : string;
  ck_Want : string;
  ck_Got : string;
  ck_OK : bool;
  ck_Severity : Severity;
  ck_Why : string
}.

Definition Report : Type := list Check_.

Definition failed (sev : Severity) (c : Check_) : Prop := ck_OK c = false /\ ck_Severity c = sev.
#[export] Instance failed_dec sev c : Decision (failed sev c).
Proof. unfold failed. apply _. Defined.

Definition report_filter (sev : Severity) (r : list Check_) : list Check_ := filter (failed sev) r.
Definition Failures : Report -> list Check_ := report_filter Required.
Definition Warnings : Report -> list Check_ := report_filter Advisory.
Definition report_OK (r : Report) : bool := bool_decide (zlen (Failures r) = 0%Z).

Fixpoint Get (name : string) (r : Report) : option string :=
  match r with
  | [] => None
  | c :: r => if bool_decide (ck_Name c = name) then Some (ck_Got c) else Get name r
  end.

(** ** The checks *)

Definition Vars : list string :=
  ["version"; "log_bin"; "binlog_format"; "binlog_row_image"; "binlog_row_metadata"; "gtid_mode";
   "enforce_gtid_consistency"; "server_id"; "binlog_expire_logs_seconds"; "log_replica_updates"; "binlog_row_value_options"].

(** *** Versions *)

Definition version_byte (c : ascii) : bool := bool_decide (c = "."%char) || is_digit c.

(** The text before the first byte that is neither a digit nor a dot. *)
Fixpoint version_text (s : string) : string :=
  match s with String c s => if version_byte c then String c (version_text s) else "" | "" => "" end.

Fixpoint leading_numbers (parts : list string) : list Z :=
  match parts with
  | [] => []
  | part :: parts => match ParseInt part with Some n => n :: leading_numbers parts | None => [] end
  end.

Definition parse_version (s : string) : list Z := leading_numbers (SplitByte "." (version_text s)).

Fixpoint reaches (g m : list Z) : bool :=
  match m, g with
  | [], _ => true
  | _ :: _, [] => false
  | y :: m, x :: g => if (x =? y)%Z then reaches g m else (y <? x)%Z
  end.

Definition atLeastVersion (got min : string) : bool :=
  match parse_version got with [] => false | g => reaches g (parse_version min) end.

(** *** One check each *)

Section Checks.
Variable vars : gmap string string.

Definition get (name : string) : option string := vars !! ToLower name.

Definition equals (name want : string) (sev : Severity) (why : string) : Check_ :=
  mkCheck name want (default "<unsupported>" (get name))
    (match get name with Some got => EqualFold (TrimSpace got) want | None => false end) sev why.

Definition minVersion : string := "8.0.1".

Definition server_why : string :=
  "MariaDB uses a different GTID format and does not implement binlog_row_metadata. MySQL below " +:+ minVersion +:+
  " has no row metadata either, so column names, signedness, and ENUM labels would be missing.".

Definition serverCheck : Check_ :=
  let check := fun got ok => mkCheck "server version" ("MySQL >= " +:+ minVersion) got ok Required server_why in
  match get "version" with
  | None => check "<unknown>" false
  | Some got =>
    if Contains (ToLower got) "mariadb" then check (got +:+ " (MariaDB)") false
    else check got (atLeastVersion got minVersion)
  end.

Definition partialJSONCheck : Check_ :=
  let why := "PARTIAL_JSON logs an UPDATE to a JSON column as a diff rather than the new value, which cannot be applied to a destination that holds only the current document. The result is a column carrying a description of a change instead of a document, with nothing reporting it." in
  match get "binlog_row_value_options" with
  | None => mkCheck "binlog_row_value_options" "empty" "<unsupported>" true Required why
  | Some got =>
    let trimmed := TrimSpace got in
    mkCheck "binlog_row_value_options" "empty" (if bool_decide (trimmed = "") then "empty" else trimmed)
      (bool_decide (trimmed = "")) Required why
  end.

Definition serverIDCheck : Check_ :=
  mkCheck "server_id" "non-zero" (default "<unsupported>" (get "server_id"))
    (match get "server_id" with
     | Some got => match ParseUint (TrimSpace got) 32 with Some id => negb (id =? 0)%Z | None => false end
     | None => false
     end)
    Required "A server with server_id=0 has binary logging effectively disabled and refuses replica connections.".

Definition minSeconds : Z := 24 * 60 * 60.

Definition retentionCheck : Check_ :=
  let why := "The binlog is not consumed for a stream while its snapshot runs, so retention shorter than a snapshot purges our start position before streaming begins - a loop that never converges. It also bounds how long changeflow can be down." in
  match get "binlog_expire_logs_seconds" with
  | None => mkCheck "binlog retention" ">= 24h" "<unknown>" false Advisory why
  | Some got =>
    let secs := ParseUint (TrimSpace got) 64 in
    mkCheck "binlog retention" ">= 24h"
      (match secs with Some 0%Z => "never expires" | _ => got +:+ "s" end)
      (match secs with Some n => (n =? 0)%Z || (minSeconds <=? n)%Z | None => false end) Advisory why
  end.

End Checks.

Definition granted_by (priv line : string) : bool :=
  let up := ToUpper line in
  HasPrefix (TrimSpace up) "GRANT" && (Contains up "ALL PRIVILEGES" || Contains up priv).

Definition grant_why (priv : string) : string :=
  if bool_decide (priv = "REPLICATION SLAVE") then "Required to open a binlog dump stream as a replica."
  else if bool_decide (priv = "REPLICATION CLIENT") then "Required to read the server's replication position and status."
  else if bool_decide (priv = "SELECT") then "Required to read table schemas and to snapshot existing rows."
  else "".

Definition grantCheck (priv : string) (grants : list string) : Check_ :=
  let found := existsb (granted_by priv) grants in
  mkCheck ("grant:" +:+ priv) "granted" (if found then "granted" else "missing") found Required (grant_why priv).

Definition privileges : list string := ["REPLICATION SLAVE"; "REPLICATION CLIENT"; "SELECT"].

Definition Evaluate (vars : gmap string string) (grants : list string) : Report :=
  [serverCheck vars;
   equals vars "log_bin" "ON" Required
     "Without a binary log there is nothing to replicate from.";
   equals vars "binlog_format" "ROW" Required
     "STATEMENT and MIXED log SQL text rather than row images, so there are no before/after values to apply to a sink.";
   equals vars "binlog_row_image" "FULL" Required
     "MINIMAL and NOBLOB omit unchanged columns, so an UPDATE would silently drop fields from the sink document, and a DELETE may not carry the key.";
   equals vars "binlog_row_metadata" "FULL" Required
     "Carries column names, signedness, and ENUM/SET labels in the binlog. Without it unsigned columns arrive negative and ENUMs arrive as integers - corruption that is invisible until someone compares values. Requires MySQL 8.0.1 or newer.";
   equals vars "gtid_mode" "ON" Required
     "GTID positions survive binlog rotation and master failover; file+position does not.";
   equals vars "enforce_gtid_consistency" "ON" Advisory
     "Without it, statements unsafe for GTID replication are allowed, which can produce a GTID set we cannot reason about.";
   partialJSONCheck vars; serverIDCheck vars; retentionCheck vars;
   equals vars "log_replica_updates" "ON" Advisory
     "Only matters when pointing changeflow at a read replica: without it the replica's own binlog omits writes replicated from its master, so we would miss them."]
  ++ map (fun priv => grantCheck priv grants) privileges.

(** ** Reading the facts *)

Section Reader.
Context {W : Type} `{!SqlOps W}.

Inductive preflight_error :=
  | EReadVars (e : sql_error)
  | EScanVar
  | EShowGrants (e : sql_error)
  | EScanGrant.

Definition scan_pair (row : list sql_value) : option (string * string) :=
  match row with [k; v] => k ← scan_string k; v ← scan_string v; Some (k, v) | _ => None end.
Definition scan_line (row : list sql_value) : option string := match row with [v] => scan_string v | _ => None end.

(** [DBReader.GlobalVars]: of the variables asked for, those the server has. *)
Definition GlobalVars (names : list string) : eff W preflight_error (gmap string string) := fun w =>
  let want := map ToLower names in
  match sql_Query "SHOW GLOBAL VARIABLES" [] w with
  | (w, Err e) => (w, Err (EReadVars e))
  | (w, Ok rows) =>
    match mapM scan_pair rows with
    | None => (w, Err EScanVar)
    | Some pairs =>
      (w, Ok (foldl (fun m kv =>
        let k := ToLower kv.1 in if bool_decide (k ∈ want) then <[k := kv.2]> m else m) ∅ pairs))
    end
  end.

(** [DBReader.Grants]. *)
Definition Grants : eff W preflight_error (list string) := fun w =>
  match sql_Query "SHOW GRANTS FOR CURRENT_USER()" [] w with
  | (w, Err e) => (w, Err (EShowGrants e))
  | (w, Ok rows) => (w, match mapM scan_line rows with Some lines => Ok lines | None => Err EScanGrant end)
  end.

(** [preflight.Run]. *)
Definition preflight_Run : eff W preflight_error Report :=
  vars ← GlobalVars Vars; grants ← Grants; mret (Evaluate vars grants).

(** ** The supervisor's decision *)

Inductive source_error :=
  | ECheckSource (e : preflight_error)
  | EFailedChecks (n : Z)
  | EOwnServerID (id : Z).

(** [checkSource]; the argument is [source.server_id]. *)
Definition checkSource (serverID : Z) : eff W source_error () := fun w =>
  match preflight_Run w with
  | (w, Err e) => (w, Err (ECheckSource e))
  | (w, Ok report) =>
    if negb (report_OK report) then (w, Err (EFailedChecks (zlen (Failures report))))
    else if bool_decide (Get "server_id" report = Some (FormatUint serverID)) then (w, Err (EOwnServerID serverID))
    else (w, Ok ())
  end.

End Reader.

(** ** What is accepted *)

Lemma report_OK_spec (r : list Check_) : report_OK r = true <-> Forall (fun c => ck_Severity c = Required -> ck_OK c = true) r.
Proof.
  unfold report_OK, Failures, report_filter, zlen. rewrite bool_decide_eq_true. induction r as [|c r IH].
  - split; [constructor|done].
  - rewrite filter_cons, Forall_cons. case_decide as Hf; unfold failed in Hf.
    + split; [cbn; lia|]. intros [Hc _]. destruct Hf as [Hno Hreq]. by rewrite Hc in Hno.
    + rewrite IH. split; [|by intros []]. intros HF. split; [|done]. intros Hreq. destruct (ck_OK c) eqn:E; [done|by destruct Hf].
Qed.

Definition setting (vars : gmap string string) (name want : string) : Prop :=
  exists v, vars !! name = Some v /\ EqualFold (TrimSpace v) want = true.

Definition granted (priv : string) (grants : list string) : Prop := exists line, line ∈ grants /\ granted_by priv line = true.

(** A source a stream can be read from. *)
Record suitable (vars : gmap string string) (grants : list string) : Prop := {
  su_version : exists v, vars !! "version" = Some v /\ Contains (ToLower v) "mariadb" = false /\ atLeastVersion v minVersion = true;
  su_log : setting vars "log_bin" "ON";
  su_format : setting vars "binlog_format" "ROW";
  su_image : setting vars "binlog_row_image" "FULL";
  su_metadata : setting vars "binlog_row_metadata" "FULL";
  su_gtid : setting vars "gtid_mode" "ON";
  su_json : forall v, vars !! "binlog_row_value_options" = Some v -> TrimSpace v = "";
  su_id : exists v id, vars !! "server_id" = Some v /\ ParseUint (TrimSpace v) 32 = Some id /\ id <> 0%Z;
  su_grants : forall priv, priv ∈ privileges -> granted priv grants
}.

Lemma equals_OK vars name want sev why :
  ToLower name = name -> ck_OK (equals vars name want sev why) = true <-> setting vars name want.
Proof.
  intros Hn. unfold equals, get, setting. cbn [ck_OK]. rewrite Hn. destruct (vars !! name) as [v|].
  - split; [by intros Hv; exists v|]. by intros (v' & [= ->] & Hv).
  - split; [done|]. by intros (v & ? & _).
Qed.

Lemma serverCheck_OK vars :
  ck_OK (serverCheck vars) = true <->
  exists v, vars !! "version" = Some v /\ Contains (ToLower v) "mariadb" = false /\ atLeastVersion v minVersion = true.
Proof.
  unfold serverCheck, get. change (ToLower "version") with "version". destruct (vars !! "version") as [v|].
  - destruct (Contains (ToLower v) "mariadb") eqn:Hm; cbn [ck_OK].
    + split; [done|]. intros (v' & [= ->] & Hv & _). by rewrite Hm in Hv.
    + split; [by intros Hv; exists v|]. by intros (v' & [= ->] & _ & Hv).
  - cbn. split; [done|]. by intros (v & ? & _).
Qed.

Lemma partialJSONCheck_OK vars :
  ck_OK (partialJSONCheck vars) = true <-> forall v, vars !! "binlog_row_value_options" = Some v -> TrimSpace v = "".
Proof.
  unfold partialJSONCheck, get. change (ToLower "binlog_row_value_options") with "binlog_row_value_options".
  destruct (vars !! "binlog_row_value_options") as [v|]; cbn [ck_OK].
  - rewrite bool_decide_eq_true. split; [by intros Hv v' [= <-]|]. intros Hv. by apply Hv.
  - by split.
Qed.

Lemma serverIDCheck_OK vars :
  ck_OK (serverIDCheck vars) = true <->
  exists v id, vars !! "server_id" = Some v /\ ParseUint (TrimSpace v) 32 = Some id /\ id <> 0%Z.
Proof.
  unfold serverIDCheck, get. cbn [ck_OK]. change (ToLower "server_id") with "server_id". destruct (vars !! "server_id") as [v|].
  - destruct (ParseUint (TrimSpace v) 32) as [id|] eqn:Hp.
    + rewrite negb_true_iff, Z.eqb_neq. split; [by intros; exists v, id|]. by intros (v' & id' & [= <-] & Hp' & Hid); simplify_eq.
    + split; [done|]. intros (v' & id' & [= <-] & Hp' & _). by rewrite Hp in Hp'.
  - split; [done|]. by intros (v & id & ? & _).
Qed.

Lemma grantCheck_OK priv grants : ck_OK (grantCheck priv grants) = true <-> granted priv grants.
Proof.
  unfold grantCheck, granted. cbn [ck_OK]. rewrite existsb_exists. by setoid_rewrite list_elem_of_In.
Qed.

Lemma Evaluate_suitable vars grants : report_OK (Evaluate vars grants) = true <-> suitable vars grants.
Proof.
  rewrite report_OK_spec. unfold Evaluate. rewrite Forall_app, !Forall_cons.
  assert (ck_Severity (serverCheck vars) = Required) as H1 by (unfold serverCheck; by repeat case_match).
  assert (ck_Severity (partialJSONCheck vars) = Required) as H2 by (unfold partialJSONCheck; by repeat case_match).
  assert (ck_Severity (retentionCheck vars) = Advisory) as H3 by (unfold retentionCheck; by repeat case_match).
  rewrite H1, H2, H3. cbn [ck_Severity equals serverIDCheck].
  rewrite !equals_OK by done. rewrite serverCheck_OK, partialJSONCheck_OK, serverIDCheck_OK, Forall_map.
  setoid_rewrite grantCheck_OK. split.
  - intros [(Hv & Hlog & Hfmt & Himg & Hmeta & Hgtid & _ & Hjson & Hid & _) Hgr]. constructor; eauto.
    intros priv Hin. rewrite Forall_forall in Hgr. by apply Hgr.
  - intros [Hv Hlog Hfmt Himg Hmeta Hgtid Hjson Hid Hgr]. split; [by repeat split|].
    apply Forall_forall. intros priv Hin _. by apply Hgr.
Qed.

(** *** Versions compare as versions *)

Definition version_of (a b c : Z) : string := FormatUint a +:+ "." +:+ FormatUint b +:+ "." +:+ FormatUint c.

(** What may follow the numbers of a version: nothing, or text that no number can
    begin with. *)
Definition version_suffix (s : string) : bool :=
  match s with "" => true | String c _ => negb (version_byte c) end.

Lemma version_text_app s t : str_forall version_byte s = true -> version_text (s +:+ t) = s +:+ version_text t.
Proof.
  induction s as [|c s IH]; [done|]. cbn. intros [Hc Hs]%andb_true_iff. change (String.append s t) with (s +:+ t) in *.
  by rewrite Hc, IH.
Qed.

Lemma version_text_suffix s : version_suffix s = true -> version_text s = "".
Proof. destruct s as [|c s]; [done|]. cbn. by destruct (version_byte c). Qed.

Lemma FormatUint_no_dot z : free_of "." (FormatUint z) = true.
Proof.
  pose proof (FormatUint_digits z) as Hd. unfold free_of. induction (FormatUint z) as [|c s IH]; [done|].
  cbn in *. apply andb_true_iff in Hd as [Hc Hs]. rewrite IH, andb_true_r by done. revert Hc. all_bytes c; done.
Qed.

Lemma parse_version_of a b c suffix :
  (0 <= a < 2 ^ 63)%Z -> (0 <= b < 2 ^ 63)%Z -> (0 <= c < 2 ^ 63)%Z -> version_suffix suffix = true ->
  parse_version (version_of a b c +:+ suffix) = [a; b; c].
Proof.
  intros Ha Hb Hc Hs. unfold parse_version.
  assert (forall z, str_forall version_byte (FormatUint z) = true) as Hdig.
  { intros z. pose proof (FormatUint_digits z) as Hd. induction (FormatUint z) as [|x s IH]; [done|].
    cbn in *. apply andb_true_iff in Hd as [Hx Hs']. unfold version_byte at 1. by rewrite Hx, orb_true_r, IH. }
  rewrite version_text_app, version_text_suffix, app_nil_r_str;
    [|done|unfold version_of; by rewrite !str_forall_app, !Hdig].
  unfold version_of. change ("." +:+ FormatUint b +:+ "." +:+ FormatUint c)
    with (String "." (FormatUint b +:+ String "." (FormatUint c))).
  rewrite !SplitByte_app_sep, SplitByte_free by apply FormatUint_no_dot.
  assert (forall z, (0 <= z < 2 ^ 63)%Z -> ParseInt (FormatUint z) = Some z) as Hpi.
  { intros z Hz. rewrite <- FormatInt_nonneg by lia. apply ParseInt_Format. unfold i64_range. lia. }
  cbn [leading_numbers]. by rewrite !Hpi.
Qed.

(** A server's version is compared number by number, never as text: release
    10 comes after release 9, and what follows the numbers, such as a vendor's
    suffix, does not count. *)
Theorem atLeastVersion_lex a b c suffix a' b' c' :
  (0 <= a < 2 ^ 63)%Z -> (0 <= b < 2 ^ 63)%Z -> (0 <= c < 2 ^ 63)%Z ->
  (0 <= a' < 2 ^ 63)%Z -> (0 <= b' < 2 ^ 63)%Z -> (0 <= c' < 2 ^ 63)%Z -> version_suffix suffix = true ->
  atLeastVersion (version_of a b c +:+ suffix) (version_of a' b' c') = true <->
  (a' < a \/ a = a' /\ (b' < b \/ b = b' /\ c' <= c))%Z.
Proof.
  intros Ha Hb Hc Ha' Hb' Hc' Hs. unfold atLeastVersion. rewrite parse_version_of by done.
  rewrite <- (app_nil_r_str (version_of a' b' c')), (parse_version_of a' b' c' "") by done. cbn [reaches].
  destruct (Z.eqb_spec a a'), (Z.eqb_spec b b'), (Z.eqb_spec c c'); rewrite ?Z.ltb_lt; lia.
Qed.

(** The grants are matched as words: all privileges on one database count as
    the replication privileges, which only exist for the whole server, so that a
    user who may not read the binary log passes the check. *)
Theorem database_grant_passes priv database user :
  ck_OK (grantCheck priv ["GRANT ALL PRIVILEGES ON `" +:+ database +:+ "`.* TO `" +:+ user +:+ "`@`%`"]) = true.
Proof.
  apply grantCheck_OK. eexists. split; [by left|]. unfold granted_by.
  assert (forall s t, ToUpper (s +:+ t) = ToUpper s +:+ ToUpper t) as Hup.
  { intros s t. unfold ToUpper. induction s as [|c s IH]; [done|]. cbn. by rewrite IH. }
  rewrite !Hup. set (p := ToUpper "GRANT ALL PRIVILEGES ON `" +:+ ToUpper database +:+ ToUpper "`.* TO `" +:+ ToUpper user +:+ "`@`%").
  change (ToUpper "`@`%`") with ("`@`%" +:+ str1 "`").
  assert (ToUpper "GRANT ALL PRIVILEGES ON `" +:+ ToUpper database +:+ ToUpper "`.* TO `" +:+ ToUpper user +:+ "`@`%" +:+ str1 "`"
          = p +:+ str1 "`") as -> by (subst p; by rewrite !app_assoc_str).
  assert (p +:+ str1 "`" = String "G" (drop_str 1 (p +:+ str1 "`"))) as Hg by done.
  assert (TrimSpace (p +:+ str1 "`") = p +:+ str1 "`") as ->.
  { rewrite Hg. by apply (TrimSpace_kept _ _ p "`"). }
  reflexivity.
Qed.


Section Checked.
Context {W : Type} `{!SqlOps W}.

Lemma Get_server_id vars grants : Get "server_id" (Evaluate vars grants) = Some (default "<unsupported>" (vars !! "server_id")).
Proof.
  assert (ck_Name (serverCheck vars) = "server version") as H1 by (unfold serverCheck; by repeat case_match).
  assert (ck_Name (partialJSONCheck vars) = "binlog_row_value_options") as H2 by (unfold partialJSONCheck; by repeat case_match).
  unfold Evaluate. cbn [app Get]. rewrite H1, H2. reflexivity.
Qed.

(** A run goes on past its checks only from a source that can be read from,
    whose server id is another than the one the run presents itself with. *)
Theorem checkSource_accepts serverID w w' :
  checkSource serverID w = (w', Ok ()) ->
  exists vars grants, preflight_Run w = (w', Ok (Evaluate vars grants)) /\ suitable vars grants /\
    vars !! "server_id" <> Some (FormatUint serverID).
Proof.
  unfold checkSource. destruct (preflight_Run w) as [w1 [report|e]] eqn:Hrun; [|done].
  pose proof Hrun as Hrun'. unfold preflight_Run in Hrun'.
  apply eff_bind_inv in Hrun' as (vars & w2 & _ & Hrun').
  apply eff_bind_inv in Hrun' as (grants & w3 & _ & [= <- <-]).
  destruct (report_OK (Evaluate vars grants)) eqn:Hok; [|done]. cbn [negb]. case_bool_decide as Hid; [done|].
  intros [= <-]. exists vars, grants. split; [done|]. split; [by apply Evaluate_suitable|].
  intros Hv. apply Hid. by rewrite Get_server_id, Hv.
Qed.
End Checked.
