(* ===== verification/Cdc.v ===== *)
(** * Change events and documents ([internal/cdc/event.go])

    The values a row holds, one observed change to one row, and one write to a
    destination. *)

From S2P Require Import Prelude GoStd Schema.

(** ** What the program calls and does not contain

    [decimal] is [shopspring/decimal]'s exact decimal. The texts of floats,
    and the parsing and formatting of instants with a time zone database, are
    calls into [strconv] and [time]; their results are arguments of every
    definition that uses them. *)
Class GoLib := {
  decimal : Type;
  decimal_eq_dec : EqDecision decimal;
  decimal_String : decimal -> string;
  decimal_Exponent : decimal -> Z;
  decimal_StringFixed : decimal -> Z -> string;
  (** [AppendFloat(x, 'g', -1, bits)] of the float with these IEEE bits. *)
  AppendFloat_g : Z -> Z -> string;
  (** [FormatFloat(x, 'f', -1, 64)]. *)
  FormatFloat_f : Z -> string;
  (** [fmt.Sprint] of a float of 32 or 64 bits, and of an instant. *)
  Sprint_float : Z -> Z -> string;
  Sprint_time : Z -> string;
  Location : Type;
  UTC : Location;
  (** [time.ParseInLocation(layout, value, zone)]. *)
  ParseInLocation : string -> string -> Location -> option Z;
  (** [t.UTC().Format(layout)]. *)
  FormatUTC : string -> Z -> string
}.
#[export] Existing Instance decimal_eq_dec.

(** ** Row values *)

(** Go's sized integer types, as they appear behind an [any]. *)
Inductive inttype := Int64 | Int32 | Int16 | Int8 | Int | Uint64 | Uint32 | Uint16 | Uint8 | Uint.

#[export] Instance inttype_eq_dec : EqDecision inttype.
Proof. solve_decision. Defined.

Definition int_range (t : inttype) : Z * Z :=
  match t with
  | Int64 | Int => (- 2 ^ 63, 2 ^ 63 - 1)
  | Int32 => (- 2 ^ 31, 2 ^ 31 - 1)
  | Int16 => (- 2 ^ 15, 2 ^ 15 - 1)
  | Int8 => (- 2 ^ 7, 2 ^ 7 - 1)
  | Uint64 | Uint => (0, 2 ^ 64 - 1)
  | Uint32 => (0, 2 ^ 32 - 1)
  | Uint16 => (0, 2 ^ 16 - 1)
  | Uint8 => (0, 2 ^ 8 - 1)
  end%Z.

Section Cdc.
Context `{GoLib}.

(** An [any]: the dynamic types the readers put in a row, and any other type
    with the text [fmt.Sprint] gives it. *)
Inductive value :=
  | VNil
  | VInt (t : inttype) (n : Z)
  | VFloat32 (bits : Z)
  | VFloat64 (bits : Z)
  | VString (s : string)
  | VBytes (s : string)
  | VDecimal (d : decimal)
  | VTime (t : Z)
  | VOther (text : string).

#[export] Instance value_eq_dec : EqDecision value.
Proof. solve_decision. Defined.

(** A [Row] is [nil] or a slice of values in ordinal order. *)
Definition Row : Type := option (list value).

Inductive Operation :=
  | OperationInsert | OperationUpdate | OperationDelete | OperationSnapshot.

#[export] Instance Operation_eq_dec : EqDecision Operation.
Proof. solve_decision. Defined.

Definition Operation_String (o : Operation) : string :=
  match o with
  | OperationInsert => "insert"
  | OperationUpdate => "update"
  | OperationDelete => "delete"
  | OperationSnapshot => "snapshot"
  end.

Definition IsUpsert (o : Operation) : bool :=
  bool_decide (o = OperationInsert) || bool_decide (o = OperationUpdate)
  || bool_decide (o = OperationSnapshot).

Record ChangeEvent := mkChangeEvent {
  ev_Meta : option TableMeta;
  ev_Operation : Operation;
  ev_Before : Row;
  ev_After : Row;
  ev_Timestamp : Z;
  ev_GTID : string;
  ev_TxID : Z;
  ev_Seq : Z;
  ev_Cursor : string;
  ev_RowsScanned : Z
}.

(** [(e *ChangeEvent) Values]. *)
Definition Values (e : ChangeEvent) : Row :=
  match ev_Operation e with OperationDelete => ev_Before e | _ => ev_After e end.

Record Doc := mkDoc {
  doc_Key : string;
  doc_Body : string;
  doc_Version : Z;
  doc_Deleted : bool
}.

#[export] Instance Doc_eq_dec : EqDecision Doc.
Proof. solve_decision. Defined.

(** [(d Doc) Size]. *)
Definition Size (d : Doc) : Z := (slen (doc_Key d) + slen (doc_Body d))%Z.

Lemma Size_nonneg d : (0 <= Size d)%Z.
Proof. unfold Size. pose proof (slen_nonneg (doc_Key d)). pose proof (slen_nonneg (doc_Body d)). lia. Qed.

Lemma IsUpsert_delete o : IsUpsert o = negb (bool_decide (o = OperationDelete)).
Proof. by destruct o. Qed.

End Cdc.

#[export] Hint Resolve Size_nonneg : changeflow.
