(* ===== verification/Config.v ===== *)
(** * Configuration ([internal/config])

    The configuration file's records, the expansion of environment references,
    the defaults, the validation, and the sizes and durations written in it.
    The YAML decoder, the location database and the parsing of Go durations are
    arguments. Problems are constructors; their wording is left out. *)

From Stdlib Require Import Ascii.
From S2P Require Import Prelude GoStd.

(** ** value.go: sizes *)

Definition byteUnits : list (string * Z) :=
  [("KIB", 2 ^ 10); ("MIB", 2 ^ 20); ("GIB", 2 ^ 30); ("TIB", 2 ^ 40);
   ("KB", 10 ^ 3); ("MB", 10 ^ 6); ("GB", 10 ^ 9); ("TB", 10 ^ 12); ("B", 1)]%Z.

Inductive size_error := ESizeEmpty | ESizeNoNumber | ESizeNotWhole | ESizeOverflow | ESizeForm.

(** The unit a text ends with, in the order of the table, and the rest. *)
Fixpoint cut_unit (units : list (string * Z)) (s : string) : string * Z :=
  match units with
  | [] => (s, 1%Z)
  | (suffix, factor) :: units =>
      if HasSuffix s suffix then (TrimSuffix s suffix, factor) else cut_unit units s
  end.

Definition ParseByteSize (raw : string) : res size_error Z :=
  let s := ToUpper (ReplaceByte " " "" (TrimSpace raw)) in
  if bool_decide (s = "") then Err ESizeEmpty
  else
    let '(number, factor) := cut_unit byteUnits s in
    if bool_decide (number = "") then Err ESizeNoNumber
    else match ParseUint number 64 with
    | None => Err ESizeNotWhole
    | Some n =>
        if negb (n =? 0)%Z && ((2 ^ 64 - 1) / n <? factor)%Z then Err ESizeOverflow
        else Ok (u64 (n * factor))
    end.

(** [UnmarshalYAML], from what the decoder makes of the node as a text and as a
    number. *)
Definition ByteSize_UnmarshalYAML (as_text : option string) (as_number : option Z) : res size_error Z :=
  match as_text with
  | None => match as_number with Some n => Ok n | None => Err ESizeForm end
  | Some raw => ParseByteSize raw
  end.

Definition stringUnits : list (string * Z) :=
  [("TiB", 2 ^ 40); ("GiB", 2 ^ 30); ("MiB", 2 ^ 20); ("KiB", 2 ^ 10)]%Z.

(** The largest binary unit that divides the size. *)
Fixpoint size_text (units : list (string * Z)) (n : Z) : string :=
  match units with
  | [] => FormatUint n +:+ "B"
  | (suffix, factor) :: units =>
      if (factor <=? n)%Z && (n mod factor =? 0)%Z then FormatUint (n / factor) +:+ suffix
      else size_text units n
  end.

(** [(b ByteSize) String]. *)
Definition ByteSize_String (b : Z) : string := size_text stringUnits b.

(** ** config.go: data *)

Record Source := mkSource {
  src_DSN : string;
  src_ServerID : Z;
  src_SnapshotDSN : string;
  src_TimeZone : string;
  src_HeartbeatPeriod : Z;
  src_ReadTimeout : Z;
  src_TLS : string
}.

Record CheckpointStore := mkCheckpointStore { cs_DSN : string; cs_Table : string }.

(** Of each pair of a raw and a resolved field, [cfg_] names the raw one. *)
Record Runtime := mkRuntime {
  rt_BufferSizeRaw : option Z;
  rt_ShutdownGrace : Z;
  rt_MetricsAddr : string;
  rt_AssumedRowBytes : Z;
  rt_BufferSize : Z
}.

Record SnapshotConfig := mkSnapshotConfig {
  sc_EnabledRaw : option bool;
  sc_ChunkSizeRaw : option Z;
  sc_MaxRateRowsPerSecRaw : option Z;
  sc_Enabled : bool;
  sc_ChunkSize : Z;
  sc_MaxRateRowsPerSec : Z
}.

Record Batch := mkBatch {
  ba_MaxRowsRaw : option Z;
  ba_MaxBytesRaw : option Z;
  ba_FlushInterval : Z;
  ba_MaxRows : Z;
  ba_MaxBytes : Z
}.

Record SinkConfig := mkSinkConfig {
  si_Type : string;
  si_WorkersRaw : option Z;
  si_Workers : Z;
  si_Addresses : list string;
  si_Index : string;
  si_Alias : string;
  si_DSN : string;
  si_Table : string
}.

Record Mapping := mkMapping {
  m_Key : list string;
  m_Include : list string;
  m_Exclude : list string;
  m_Rename : gmap string string;
  m_OnZeroDate : string
}.

Record Stream := mkStream {
  st_Name : string;
  st_Table : string;
  st_Snapshot : SnapshotConfig;
  st_Batch : Batch;
  st_Sink : SinkConfig;
  st_Mapping : Mapping
}.

Record Config := mkConfig {
  c_Source : Source;
  c_Checkpoint : CheckpointStore;
  c_Runtime : Runtime;
  c_Streams : gmap string Stream
}.

Definition MaxStreamNameLen : Z := 48.
Definition SinkElasticsearch : string := "elasticsearch".
Definition SinkClickHouse : string := "clickhouse".
Definition MetricsDisabled : string := "off".

(** [(s *Stream) Schema] and [TableName]: around the first dot. *)
Definition Stream_Schema (s : Stream) : string :=
  match CutByte "." (st_Table s) with Some (schema, _) => schema | None => "" end.
Definition Stream_TableName (s : Stream) : string :=
  match CutByte "." (st_Table s) with Some (_, table) => table | None => "" end.

Definition MetricsEnabled (r : Runtime) : bool :=
  negb (bool_decide (rt_MetricsAddr r = "")) && negb (bool_decide (rt_MetricsAddr r = MetricsDisabled)).

(** ** Environment references *)

Definition name_start (c : ascii) : bool :=
  let b := byte_val c in
  (((65 <=? b) && (b <=? 90)) || ((97 <=? b) && (b <=? 122)) || (b =? 95))%Z.
Definition name_byte (c : ascii) : bool :=
  name_start c || (let b := byte_val c in (48 <=? b) && (b <=? 57))%Z.

Fixpoint span_bytes (P : ascii -> bool) (s : string) : string * string :=
  match s with
  | "" => ("", "")
  | String c s' => if P c then let '(a, b) := span_bytes P s' in (String c a, b) else ("", s)
  end.

(** One match of [envRefPattern] at the start of a text: the name, the default
    if there is one, and what follows. *)
Definition match_ref (s : string) : option (string * option string * string) :=
  match s with
  | String "$" (String "{" s) =>
    match s with
    | String c _ =>
      if name_start c then
        let '(name, s) := span_bytes name_byte s in
        match s with
        | String "}" s => Some (name, None, s)
        | String ":" (String "-" s) =>
          match span_bytes (fun c => negb (bool_decide (c = "}"%char))) s with
          | (default, String "}" s) => Some (name, Some default, s)
          | _ => None
          end
        | _ => None
        end
      else None
    | "" => None
    end
  | _ => None
  end.

(** [expandEnv]: the text with every reference replaced, left to right, and the
    names that were missing; a reference always consumes bytes, so the length
    of the text is enough fuel. *)
Fixpoint expand (fuel : nat) (lookup : string -> option string) (s : string) : string * list string :=
  match fuel, s with
  | 0, _ | _, "" => ("", [])
  | S fuel, String c rest =>
    match match_ref s with
    | Some (name, default, after) =>
        let '(text, missing) := expand fuel lookup after in
        match lookup name, default with
        | Some v, _ => (v +:+ text, missing)
        | None, Some d => (d +:+ text, missing)
        | None, None => (text, name :: missing)
        end
    | None => let '(text, missing) := expand fuel lookup rest in (String c text, missing)
    end
  end.

Definition expandEnv (raw : string) (lookup : string -> option string) : string * list string :=
  expand (S (String.length raw)) lookup raw.

(** ** What the configuration needs of libraries *)

(** A decoded file; a stream without a body is nil. *)
Record Decoded := mkDecoded {
  d_Source : Source;
  d_Checkpoint : CheckpointStore;
  d_Runtime : Runtime;
  d_Streams : gmap string (option Stream)
}.

(** The YAML decoder with unknown fields refused, [time.LoadLocation],
    [time.ParseDuration], and whether [strconv.ParseFloat] accepts a text. *)
Class ConfigLib := {
  yaml_Decode : string -> option Decoded;
  known_location : string -> bool;
  time_ParseDuration : string -> option Z;
  is_float : string -> bool
}.

Inductive duration_error := EDurationEmpty | EDurationUnit | EDurationForm | EDurationNegative | EDurationText.

Definition ParseDuration `{ConfigLib} (raw : string) : res duration_error Z :=
  let s := TrimSpace raw in
  if bool_decide (s = "") then Err EDurationEmpty
  else if is_float s then Err EDurationUnit
  else match time_ParseDuration s with
  | None => Err EDurationForm
  | Some d => if (d <? 0)%Z then Err EDurationNegative else Ok d
  end.
Definition Duration_UnmarshalYAML `{ConfigLib} (as_text : option string) : res duration_error Z :=
  match as_text with Some raw => ParseDuration raw | None => Err EDurationText end.

(** ** Defaults *)

Definition intOr (raw : option Z) (def : Z) : Z := default def raw.
Definition setString (field def : string) : string := if bool_decide (field = "") then def else field.
Definition setDuration (field def : Z) : Z := if (field =? 0)%Z then def else field.

Definition second : Z := (10 ^ 9)%Z.
Definition millisecond : Z := (10 ^ 6)%Z.

Definition default_stream (s : Stream) : Stream :=
  let b := st_Batch s in
  let k := st_Sink s in
  let n := st_Snapshot s in
  let m := st_Mapping s in
  mkStream (st_Name s) (st_Table s)
    (mkSnapshotConfig (sc_EnabledRaw n) (sc_ChunkSizeRaw n) (sc_MaxRateRowsPerSecRaw n)
       (default true (sc_EnabledRaw n)) (intOr (sc_ChunkSizeRaw n) 5000)
       (intOr (sc_MaxRateRowsPerSecRaw n) 20000))
    (mkBatch (ba_MaxRowsRaw b) (ba_MaxBytesRaw b) (setDuration (ba_FlushInterval b) (500 * millisecond))
       (intOr (ba_MaxRowsRaw b) 1000) (default (Z.shiftl 5 20) (ba_MaxBytesRaw b)))
    (mkSinkConfig (si_Type k) (si_WorkersRaw k) (intOr (si_WorkersRaw k) 4) (si_Addresses k)
       (si_Index k) (si_Alias k) (si_DSN k) (si_Table k))
    (mkMapping (m_Key m) (m_Include m) (m_Exclude m) (m_Rename m) (setString (m_OnZeroDate m) "null")).

Definition applyDefaults (c : Config) : Config :=
  let s := c_Source c in
  let r := c_Runtime c in
  mkConfig
    (mkSource (src_DSN s) (src_ServerID s) (src_SnapshotDSN s) (setString (src_TimeZone s) "UTC")
       (setDuration (src_HeartbeatPeriod s) (5 * second)) (setDuration (src_ReadTimeout s) (90 * second))
       (setString (src_TLS s) "preferred"))
    (mkCheckpointStore (cs_DSN (c_Checkpoint c)) (setString (cs_Table (c_Checkpoint c)) "changeflow_checkpoints"))
    (mkRuntime (rt_BufferSizeRaw r) (setDuration (rt_ShutdownGrace r) (30 * second))
       (setString (rt_MetricsAddr r) "127.0.0.1:9187")
       (if (rt_AssumedRowBytes r =? 0)%Z then 2 ^ 10 else rt_AssumedRowBytes r)%Z
       (intOr (rt_BufferSizeRaw r) 8192))
    (default_stream <$> c_Streams c).

(** ** Validation *)

Inductive problem :=
  | PSourceDSN | PServerID | PTimeZone (zone : string) | PCheckpointDSN | PBufferSize (n : Z) | PNoStreams
  | PStreamNameEmpty | PStreamNameLong (name : string) | PStreamNamePattern (name : string)
  | PTable (stream table : string)
  | PMaxRows (stream : string) | PMaxBytes (stream : string) | PWorkers (stream : string)
  | PChunkSize (stream : string) | POnZeroDate (stream value : string)
  | PEsAddresses | PEsIndex | PEsDSN | PEsTable
  | PChDSN | PChTable | PChAddresses | PChIndex | PChAlias
  | PSinkMissing | PSinkUnknown (type : string)
  | PIncludeExclude | PRenameEmpty (from : string) | PRenameClash (to : string)
  | PRenameIncluded (from to : string).

(** [if cond { add(...) }]. *)
Definition add_if (cond : bool) (p : problem) : list problem := if cond then [p] else [].

Definition validate_sink (k : SinkConfig) : list problem :=
  if bool_decide (si_Type k = SinkElasticsearch) then
    add_if (bool_decide (si_Addresses k = [])) PEsAddresses
    ++ add_if (bool_decide (si_Index k = "")) PEsIndex
    ++ add_if (negb (bool_decide (si_DSN k = ""))) PEsDSN
    ++ add_if (negb (bool_decide (si_Table k = ""))) PEsTable
  else if bool_decide (si_Type k = SinkClickHouse) then
    add_if (bool_decide (si_DSN k = "")) PChDSN
    ++ add_if (bool_decide (si_Table k = "")) PChTable
    ++ add_if (negb (bool_decide (si_Addresses k = []))) PChAddresses
    ++ add_if (negb (bool_decide (si_Index k = ""))) PChIndex
    ++ add_if (negb (bool_decide (si_Alias k = ""))) PChAlias
  else if bool_decide (si_Type k = "") then [PSinkMissing]
  else [PSinkUnknown (si_Type k)].

Section Validate.
Context `{MapOrder} `{ConfigLib}.

(** The targets of the renames seen so far, and the problems with them. *)
Fixpoint rename_targets (renames : list (string * string)) (targets : gmap string string)
  : gmap string string * list problem :=
  match renames with
  | [] => (targets, [])
  | (from, to) :: renames =>
    if bool_decide (to = "") then
      let '(t, ps) := rename_targets renames targets in (t, PRenameEmpty from :: ps)
    else match targets !! to with
    | Some _ => let '(t, ps) := rename_targets renames targets in (t, PRenameClash to :: ps)
    | None => rename_targets renames (<[to := from]> targets)
    end
  end.

Definition validate_mapping (m : Mapping) : list problem :=
  let '(targets, problems) := rename_targets (map_range (m_Rename m)) ∅ in
  add_if (negb (bool_decide (m_Include m = [])) && negb (bool_decide (m_Exclude m = []))) PIncludeExclude
  ++ problems
  ++ concat (map (fun col =>
       match targets !! col with
       | Some from => add_if (negb (bool_decide (from = col))) (PRenameIncluded from col)
       | None => []
       end) (m_Include m)).

(** [^[a-zA-Z0-9_]+$] on a name that is not empty. *)
Definition validate_name (name : string) : list problem :=
  if bool_decide (name = "") then [PStreamNameEmpty]
  else if (MaxStreamNameLen <? slen name)%Z then [PStreamNameLong name]
  else if str_forall name_byte name then []
  else [PStreamNamePattern name].

Definition validate_stream (name : string) (s : Stream) : list problem :=
  validate_name name
  ++ add_if (bool_decide (Stream_Schema s = "") || bool_decide (Stream_TableName s = "")) (PTable name (st_Table s))
  ++ add_if (ba_MaxRows (st_Batch s) <? 1)%Z (PMaxRows name)
  ++ add_if (ba_MaxBytes (st_Batch s) =? 0)%Z (PMaxBytes name)
  ++ add_if (si_Workers (st_Sink s) <? 1)%Z (PWorkers name)
  ++ add_if (sc_ChunkSize (st_Snapshot s) <? 1)%Z (PChunkSize name)
  ++ validate_sink (st_Sink s)
  ++ validate_mapping (st_Mapping s)
  ++ add_if (negb (bool_decide (m_OnZeroDate (st_Mapping s) ∈ ["null"; "error"; "epoch"])))
       (POnZeroDate name (m_OnZeroDate (st_Mapping s))).

Definition StreamNames (c : Config) : list string := sort_Strings (map fst (map_range (c_Streams c))).

Definition Validate (c : Config) : list problem :=
  add_if (bool_decide (src_DSN (c_Source c) = "")) PSourceDSN
  ++ add_if (src_ServerID (c_Source c) =? 0)%Z PServerID
  ++ add_if (negb (known_location (src_TimeZone (c_Source c)))) (PTimeZone (src_TimeZone (c_Source c)))
  ++ add_if (bool_decide (cs_DSN (c_Checkpoint c) = "")) PCheckpointDSN
  ++ add_if (rt_BufferSize (c_Runtime c) <? 1)%Z (PBufferSize (rt_BufferSize (c_Runtime c)))
  ++ add_if (bool_decide (c_Streams c = ∅)) PNoStreams
  ++ concat (map (fun name =>
       match c_Streams c !! name with Some s => validate_stream name s | None => [] end) (StreamNames c)).

(** ** Parse *)

Inductive config_error :=
  | EUnsetVariables (names : list string)
  | EDecode
  | EStreamBody (name : string)
  | EProblems (problems : list problem).

Definition named (name : string) (s : Stream) : Stream :=
  mkStream name (st_Table s) (st_Snapshot s) (st_Batch s) (st_Sink s) (st_Mapping s).

(** The loop that names the streams: it stops at the first one without a
    body. *)
Fixpoint name_streams (streams : list (string * option Stream)) (acc : gmap string Stream)
  : res config_error (gmap string Stream) :=
  match streams with
  | [] => Ok acc
  | (name, None) :: _ => Err (EStreamBody name)
  | (name, Some s) :: streams => name_streams streams (<[name := named name s]> acc)
  end.

Definition Parse (raw : string) (lookup : string -> option string) : res config_error Config :=
  let '(expanded, missing) := expandEnv raw lookup in
  if negb (bool_decide (missing = [])) then
    Err (EUnsetVariables (remove_dups (sort_Strings missing)))
  else match yaml_Decode expanded with
  | None => Err EDecode
  | Some d =>
    streams ← name_streams (map_range (d_Streams d)) ∅;
    let cfg := applyDefaults (mkConfig (d_Source d) (d_Checkpoint d) (d_Runtime d) streams) in
    match Validate cfg with
    | [] => Ok cfg
    | problems => Err (EProblems problems)
    end
  end.

(** [(c *Config) Stream]. *)
Definition Config_Stream (c : Config) (name : string) : option Stream := c_Streams c !! name.

(** ** Memory *)

(** The conversions of the two [int]s wrap negative values. *)
Definition stream_memory (r : Runtime) (s : Stream) (total : Z) : Z :=
  let total := u64 (total + u64 (u64 (rt_BufferSize r) * rt_AssumedRowBytes r)) in
  u64 (total + u64 (u64 (si_Workers (st_Sink s)) * ba_MaxBytes (st_Batch s))).

Definition EstimatedMemory (c : Config) : Z :=
  foldl (fun total s => stream_memory (c_Runtime c) s.2 total) 0%Z (map_range (c_Streams c)).

(** Whether a limit accepts the configuration. *)
Definition CheckMemoryLimit (c : Config) (limit : Z) : bool :=
  if (limit <=? 0)%Z || (limit =? 2 ^ 63 - 1)%Z then true
  else (EstimatedMemory c <=? limit)%Z.

End Validate.

(** ** Sizes are read back *)

Lemma digits_upper d : str_forall is_digit d = true -> ToUpper d = d.
Proof.
  unfold ToUpper. induction d as [|c d IH]; [done|]. simpl. intros [Hc Hd]%andb_true_iff.
  rewrite IH by done. f_equal. unfold is_digit, upper_byte in *. bool_to_prop.
  rewrite (proj2 (Z.leb_gt _ _)) by lia. done.
Qed.

Lemma digits_unspaced d : str_forall is_digit d = true -> ReplaceByte " " "" d = d.
Proof.
  unfold ReplaceByte. induction d as [|c d IH]; [done|]. simpl. intros [Hc Hd]%andb_true_iff.
  rewrite IH by done. destruct (ascii_dec c " ") as [->|]; [done|]. done.
Qed.

Lemma digit_not_space c : is_digit c = true -> is_space c = false.
Proof. all_bytes c; vm_compute; congruence. Qed.

Lemma str_forall_rev P s : str_forall P s = true -> str_forall P (str_rev s) = true.
Proof.
  induction s as [|c s IH]; [done|]. simpl. intros [Hc Hs]%andb_true_iff.
  rewrite str_rev_cons, str_forall_app, IH by done. simpl. by rewrite Hc.
Qed.

Lemma HasSuffix_app d t u :
  HasSuffix (d +:+ t) u = HasPrefix (str_rev t +:+ str_rev d) (str_rev u).
Proof. unfold HasSuffix. by rewrite str_rev_app. Qed.

Lemma TrimSuffix_app d t : TrimSuffix (d +:+ t) t = d.
Proof.
  unfold TrimSuffix. rewrite HasSuffix_app, HasPrefix_app, str_rev_app, TrimPrefix_app.
  apply str_rev_involutive.
Qed.

(** The units [String] writes, and what [ParseByteSize] reads them as. *)
Definition written_units : list (string * string * Z) :=
  [("TiB", "TIB", 2 ^ 40); ("GiB", "GIB", 2 ^ 30); ("MiB", "MIB", 2 ^ 20); ("KiB", "KIB", 2 ^ 10); ("B", "B", 1)]%Z.

Lemma cut_unit_written d suffix upper factor :
  (suffix, upper, factor) ∈ written_units -> str_forall is_digit d = true -> d <> "" ->
  cut_unit byteUnits (d +:+ upper) = (d, factor).
Proof.
  intros Hin Hd Hne. apply str_forall_rev in Hd.
  assert (exists c r, str_rev d = String c r /\ is_digit c = true) as (c & r & Hr & Hc).
  { destruct (str_rev d) as [|c r] eqn:E.
    - apply (f_equal str_rev) in E. by rewrite str_rev_involutive in E.
    - simpl in Hd. apply andb_true_iff in Hd as [? _]. eauto. }
  assert (forall x, is_digit x = false -> x <> c) as Hx by (intros x ? ->; congruence).
  pose proof (Hx "I"%char eq_refl). pose proof (Hx "K"%char eq_refl). pose proof (Hx "M"%char eq_refl).
  pose proof (Hx "G"%char eq_refl). pose proof (Hx "T"%char eq_refl).
  unfold written_units in Hin. unfold byteUnits. cbn [cut_unit]. rewrite !HasSuffix_app, Hr.
  repeat (apply elem_of_cons in Hin as [[= -> -> ->]|Hin]; [cbn -[TrimSuffix ascii_dec]; repeat (destruct (ascii_dec _ _); try done);
    f_equal; apply (TrimSuffix_app d)|]).
  by apply not_elem_of_nil in Hin.
Qed.

Lemma ParseByteSize_written q suffix upper factor :
  (suffix, upper, factor) ∈ written_units -> (0 <= q)%Z -> u64_range (q * factor) ->
  ParseByteSize (FormatUint q +:+ suffix) = Ok (q * factor)%Z.
Proof.
  intros Hin Hq Hr. pose proof (FormatUint_digits q) as Hd. pose proof (FormatUint_ne q) as Hne.
  assert (1 <= factor /\ ToUpper (ReplaceByte " " "" suffix) = upper /\ exists p, suffix = p +:+ "B")%Z
    as (Hf & Hup & p & Hp).
  { unfold written_units in Hin.
    repeat (apply elem_of_cons in Hin as [[= -> -> ->]|Hin];
      [split_and!; [lia|done|]; first [by exists "Ti"|by exists "Gi"|by exists "Mi"|by exists "Ki"|by exists ""]|]).
    by apply not_elem_of_nil in Hin. }
  unfold ParseByteSize.
  assert (TrimSpace (FormatUint q +:+ suffix) = FormatUint q +:+ suffix) as ->.
  { destruct (FormatUint q) as [|c d]; [done|]. rewrite app_cons_str. simpl in Hd. apply andb_true_iff in Hd as [Hc _].
    apply (TrimSpace_kept _ _ (String c (d +:+ p)) "B"); [|by apply digit_not_space|done].
    by rewrite Hp, app_cons_str, app_assoc_str. }
  unfold ReplaceByte, ToUpper in *. rewrite str_concat_map_app, str_map_app, Hup.
  change (str_concat_map _ (FormatUint q)) with (ReplaceByte " " "" (FormatUint q)).
  rewrite digits_unspaced by done. change (str_map upper_byte (FormatUint q)) with (ToUpper (FormatUint q)).
  rewrite digits_upper, (cut_unit_written _ suffix upper factor) by done.
  rewrite !bool_decide_eq_false_2; [|done|by destruct (FormatUint q)].
  assert (q <= q * factor)%Z by nia. unfold u64_range in Hr.
  rewrite ParseUint_Format by lia. destruct (Z.eqb_spec q 0) as [->|Hq0]; [done|]. cbn [negb andb].
  rewrite (proj2 (Z.ltb_ge _ _)); [by rewrite u64_small|].
  apply Z.div_le_lower_bound; lia.
Qed.

Ltac in_units := unfold written_units; repeat (apply elem_of_cons; first [by left|right]).

Lemma ParseByteSize_divided n suffix upper factor :
  (suffix, upper, factor) ∈ written_units -> (0 < factor)%Z -> u64_range n -> (n mod factor = 0)%Z ->
  ParseByteSize (FormatUint (n / factor) +:+ suffix) = Ok n.
Proof.
  intros Hin Hf Hn Hm. assert (n / factor * factor = n)%Z as Heq by (pose proof (Z.div_mod n factor ltac:(lia)); lia).
  rewrite (ParseByteSize_written (n / factor) suffix upper factor Hin); [by rewrite Heq| |by rewrite Heq].
  destruct Hn. by apply Z.div_pos.
Qed.

(** A size is read back from the text it is printed as. *)
Theorem ByteSize_roundtrip n : u64_range n -> ParseByteSize (ByteSize_String n) = Ok n.
Proof.
  intros Hn. unfold ByteSize_String, stringUnits. cbn [size_text].
  assert (forall b factor x y, (b && (n mod factor =? 0)%Z = true -> ParseByteSize x = Ok n) ->
    ParseByteSize y = Ok n -> ParseByteSize (if b && (n mod factor =? 0)%Z then x else y) = Ok n) as Hif.
  { intros b factor x y Hx Hy. destruct (b && _); auto. }
  apply Hif; [intros [_ Hm%Z.eqb_eq]%andb_true_iff; by apply (ParseByteSize_divided n _ "TIB"); [in_units| | |]|].
  apply Hif; [intros [_ Hm%Z.eqb_eq]%andb_true_iff; by apply (ParseByteSize_divided n _ "GIB"); [in_units| | |]|].
  apply Hif; [intros [_ Hm%Z.eqb_eq]%andb_true_iff; by apply (ParseByteSize_divided n _ "MIB"); [in_units| | |]|].
  apply Hif; [intros [_ Hm%Z.eqb_eq]%andb_true_iff; by apply (ParseByteSize_divided n _ "KIB"); [in_units| | |]|].
  pose proof (ParseByteSize_divided n "B" "B" 1) as H1. rewrite Z.div_1_r in H1. apply H1; [in_units|done|done|apply Z.mod_1_r].
Qed.

(** ** What an accepted configuration guarantees *)

Section Accepted.
Context `{MapOrder} `{ConfigLib}.

Lemma name_streams_lookup l acc m k s :
  name_streams l acc = Ok m -> m !! k = Some s ->
  acc !! k = Some s \/ exists s0, (k, Some s0) ∈ l /\ s = named k s0.
Proof.
  revert acc. induction l as [|[n [s1|]] l IH]; intros acc Hm Hk; simpl in Hm; simplify_eq; [by left|].
  destruct (IH _ Hm Hk) as [Hacc|(s0 & Hin & ->)]; [|right; exists s0; split; [by right|done]].
  destruct (decide (n = k)) as [->|Hne].
  - rewrite lookup_insert_eq in Hacc. injection Hacc as <-. right. exists s1. split; [by left|done].
  - rewrite lookup_insert_ne in Hacc by done. by left.
Qed.

Lemma add_if_nil b p : add_if b p = [] -> b = false.
Proof. by destruct b. Qed.

Lemma concat_nil_in {A} (l : list (list A)) x : concat l = [] -> x ∈ l -> x = [].
Proof.
  induction l as [|y l IH]; [by intros _ ?%not_elem_of_nil|]. simpl.
  intros [-> Hl]%app_eq_nil [->|Hx]%elem_of_cons; auto.
Qed.

Lemma Validate_stream c name s :
  Validate c = [] -> c_Streams c !! name = Some s -> validate_stream name s = [].
Proof.
  unfold Validate. intros Hv Hs. repeat (apply app_eq_nil in Hv as [_ Hv]).
  eapply concat_nil_in; [exact Hv|]. apply list_elem_of_fmap. exists name. rewrite Hs. split; [done|].
  unfold StreamNames. rewrite (sort_Strings_perm _). apply list_elem_of_fmap. exists (name, s).
  split; [done|]. by apply map_range_in.
Qed.

(** A stream of an accepted configuration: the decoded stream with its name and
    the defaults, without a problem. *)
Lemma Parse_stream raw lookup c name s :
  Parse raw lookup = Ok c -> c_Streams c !! name = Some s ->
  validate_stream name s = [] /\
  exists d s0, yaml_Decode (expandEnv raw lookup).1 = Some d /\ d_Streams d !! name = Some (Some s0) /\
    s = default_stream (named name s0).
Proof.
  unfold Parse. destruct (expandEnv raw lookup) as [expanded missing]. case_match; [done|].
  destruct (yaml_Decode expanded) as [d|] eqn:Hd; [|done]. intros (streams & Hn & Hp)%res_bind_ok Hs.
  set (cfg := applyDefaults _) in *. destruct (Validate cfg) eqn:Hv; [|done]. injection Hp as <-.
  split; [by eapply Validate_stream|]. exists d. simpl in Hs. rewrite lookup_fmap in Hs.
  destruct (streams !! name) as [s1|] eqn:Hs1; [|done]. injection Hs as <-.
  destruct (name_streams_lookup _ _ _ _ _ Hn Hs1) as [Hnone|(s0 & Hin & ->)]; [by rewrite lookup_empty in Hnone|].
  exists s0. split; [done|]. split; [by apply map_range_in|done].
Qed.

Record accepted_stream (s : Stream) : Prop := {
  acc_name : st_Name s <> "" /\ (slen (st_Name s) <= MaxStreamNameLen)%Z /\ str_forall name_byte (st_Name s) = true;
  acc_table : Stream_Schema s <> "" /\ Stream_TableName s <> "";
  acc_rows : (1 <= ba_MaxRows (st_Batch s))%Z;
  acc_bytes : ba_MaxBytes (st_Batch s) <> 0%Z;
  acc_interval : ba_FlushInterval (st_Batch s) <> 0%Z;
  acc_chunk : (1 <= sc_ChunkSize (st_Snapshot s))%Z;
  acc_zero_date : m_OnZeroDate (st_Mapping s) ∈ ["null"; "error"; "epoch"];
  acc_sink : si_Type (st_Sink s) = SinkElasticsearch \/ si_Type (st_Sink s) = SinkClickHouse
}.

Lemma validate_stream_ok name s :
  validate_stream name (default_stream (named name s)) = [] -> accepted_stream (default_stream (named name s)).
Proof.
  set (t := default_stream (named name s)). unfold validate_stream.
  intros (Hn & (Ht & (Hr & (Hb & (_ & (Hc & (Hk & (_ & Hz)%app_eq_nil)%app_eq_nil)%app_eq_nil)%app_eq_nil)%app_eq_nil)%app_eq_nil)%app_eq_nil)%app_eq_nil.
  apply add_if_nil in Ht, Hr, Hb, Hc, Hz. apply orb_false_iff in Ht as [Hs1 Hs2]. bool_to_prop.
  split; try done; try lia.
  - change (st_Name t) with name. unfold validate_name in Hn. by repeat case_match; bool_to_prop.
  - unfold t. simpl. unfold setDuration, millisecond. case_match; bool_to_prop; lia.
  - unfold validate_sink in Hk. repeat case_match; bool_to_prop; try done; auto.
Qed.

Lemma Parse_accepted raw lookup c name s :
  Parse raw lookup = Ok c -> c_Streams c !! name = Some s -> accepted_stream s /\ st_Name s = name.
Proof.
  intros Hp Hs. destruct (Parse_stream _ _ _ _ _ Hp Hs) as (Hv & d & s0 & _ & _ & ->).
  split; [by apply validate_stream_ok|done].
Qed.

(** *** The memory bound *)

Definition stream_bound (r : Runtime) (s : Stream) : Z :=
  (rt_BufferSize r * rt_AssumedRowBytes r + si_Workers (st_Sink s) * ba_MaxBytes (st_Batch s))%Z.

Definition memory_bound (c : Config) : Z :=
  zsum (map (fun s => stream_bound (c_Runtime c) s.2) (map_range (c_Streams c))).

Lemma stream_memory_mod r s total :
  stream_memory r s total = u64 (total + stream_bound r s).
Proof.
  unfold stream_memory, stream_bound. rewrite !u64_mul_l, !u64_add_r, u64_add_l. f_equal. lia.
Qed.

Lemma memory_fold r (l : list (string * Stream)) total :
  foldl (fun t s => stream_memory r s.2 t) (u64 total) l
  = u64 (total + zsum (map (fun s => stream_bound r s.2) l)).
Proof.
  revert total. induction l as [|s l IH]; intros total; simpl; [by rewrite Z.add_0_r|].
  rewrite stream_memory_mod, u64_add_l, IH. f_equal. lia.
Qed.

(** The estimate is the sum of all queues and batches modulo 2^64, so the
    check against the memory limit accepts a configuration whose sum wraps. *)
Theorem EstimatedMemory_wraps c : EstimatedMemory c = u64 (memory_bound c).
Proof. unfold EstimatedMemory, memory_bound. apply (memory_fold (c_Runtime c) _ 0). Qed.

End Accepted.
