(* ===== verification/Transform.v ===== *)
(** * Rows to documents ([internal/pipeline/transform.go])

    Compiling a mapping into a plan, and applying the plan to one event: the
    key, the JSON body, and the one or two writes an event implies. An encoder
    returns the bytes the source appends to its buffer; an index out of range,
    which panics in Go, is the error [EIndexOutOfRange]. *)

From Stdlib Require Import Ascii.
From S2P Require Import Prelude GoStd GoEncoding Schema Cdc Config.

Inductive Dialect := DialectElasticsearch | DialectClickHouse.

#[export] Instance Dialect_eq_dec : EqDecision Dialect.
Proof. solve_decision. Defined.

Definition maxKeyBytes : Z := 512.
Definition zeroDateNull : string := "null".
Definition zeroDateEpoch : string := "epoch".
Definition zeroDateError : string := "error".

Inductive transform_error :=
  | ENoTable
  | EZeroDatePolicy (policy : string)
  | ESchema (e : schema_error)
  | ECharset (column charset : string)
  | EKeyColumn (name table : string)
  | EKeyNotWritten (table : string)
  | ENilEvent
  | ENoValues (table : string)
  | EStaleWidth (table : string) (got want : Z)
  | EKeyBeyondRow (name : string)
  | EKeyNull (name : string)
  | EFieldType (name expected : string)
  | EUnsignedNegative (name : string) (n : Z)
  | EEnumMember (name : string) (n labels : Z)
  | EInvalidUTF8 (name hex : string)
  | EZeroDate (name text : string)
  | EBadTime (name text : string)
  | EUnhandledKind (name : string) (kind : Kind)
  | EIndexOutOfRange (position : Z).

Record field := mkField {
  f_position : nat;
  f_name : string;
  f_kind : Kind;
  f_jsonKey : string;
  f_enumLabels : list string;
  f_setLabels : list string;
  f_needsCharsetConversion : bool;
  f_timePrecision : Z
}.

Section Transform.
Context `{GoLib}.

Record Plan := mkPlan {
  p_meta : TableMeta;
  p_dialect : Dialect;
  p_sourceZone : Location;
  p_zeroDate : string;
  p_fields : list field;
  p_keyPositions : list nat;
  p_keyNames : list string;
  p_keyFields : list field
}.

(** ** Compile *)

Definition charsetNeedsConversion (c : Column) : res transform_error bool :=
  let cs := ToLower (col_CharacterSet c) in
  if one_of cs [""; "utf8"; "utf8mb3"; "utf8mb4"; "ascii"; "binary"] then Ok false
  else if one_of cs ["latin1"] then Ok true
  else Err (ECharset (col_Name c) (col_CharacterSet c)).

Definition compile_field (rename : gmap string string) (c : Column)
  : res transform_error field :=
  mapped ← map_err ESchema (Map c);
  needsConversion ← charsetNeedsConversion c;
  let name := destination_name rename c in
  Ok (mkField (col_Position c) name (mapped_Kind mapped)
        (json_MarshalString name +:+ ":")
        (col_EnumValues c) (col_SetValues c) needsConversion (col_DateTimePrecision c)).

(** The key columns' positions, and the first written field at each. *)
Fixpoint compile_key (meta : TableMeta) (fields : list field) (key : list string)
  : res transform_error (list nat * list field) :=
  match key with
  | [] => Ok ([], [])
  | name :: rest =>
    match TableMeta_Column meta name with
    | None => Err (EKeyColumn name (TableMeta_Name meta))
    | Some c =>
      '(positions, kfields) ← compile_key meta fields rest;
      Ok (col_Position c :: positions,
          match list_find (fun f => f_position f = col_Position c) fields with
          | Some (_, f) => f :: kfields
          | None => kfields
          end)
    end
  end.

Definition Compile (meta : option TableMeta) (mapping : Mapping) (dialect : Dialect)
    (sourceZone : option Location) (zeroDate : string) : res transform_error Plan :=
  match meta with
  | None => Err ENoTable
  | Some meta =>
    let zone := match sourceZone with Some z => z | None => UTC end in
    zd ← (if one_of zeroDate [zeroDateNull; zeroDateEpoch; zeroDateError] then Ok zeroDate
          else if bool_decide (zeroDate = "") then Ok zeroDateNull
          else Err (EZeroDatePolicy zeroDate));
    key ← map_err ESchema (ResolveKey meta (m_Key mapping));
    selected ← map_err ESchema (SelectColumns meta (m_Include mapping) (m_Exclude mapping) key);
    fields ← res_map (compile_field (m_Rename mapping)) selected;
    '(positions, kfields) ← compile_key meta fields key;
    if bool_decide (dialect = DialectClickHouse) && negb (bool_decide (length kfields = length key))
    then Err (EKeyNotWritten (TableMeta_Name meta))
    else Ok (mkPlan meta dialect zone zd fields positions key kfields)
  end.

Definition Fields (p : Plan) : list string := map f_name (p_fields p).
Definition KeyNames (p : Plan) : list string := p_keyNames p.

(** ** Keys *)

(** The bytes a key part keeps; every other byte becomes [%XX]. *)
Definition unreserved (c : ascii) : bool :=
  let b := byte_val c in
  (((97 <=? b) && (b <=? 122)) || ((65 <=? b) && (b <=? 90)) || ((48 <=? b) && (b <=? 57))
   || (b =? 45) || (b =? 95) || (b =? 46) || (b =? 126))%Z.

Definition percent : ascii := "%"%char.

Definition escape_byte (c : ascii) : string :=
  if unreserved c then str1 c
  else String percent (String (hex_upper (Z.shiftr (byte_val c) 4))
         (str1 (hex_upper (Z.land (byte_val c) 15)))).

Definition escapeKeyPart : string -> string := str_concat_map escape_byte.

Definition Sprint (v : value) : string :=
  match v with
  | VNil => "<nil>"
  | VInt _ n => FormatInt n
  | VFloat32 b => Sprint_float 32 b
  | VFloat64 b => Sprint_float 64 b
  | VString s => s
  | VBytes s => "[" +:+ Join (map (fun c => FormatInt (byte_val c)) (String.list_ascii_of_string s)) " " +:+ "]"
  | VDecimal d => decimal_String d
  | VTime t => Sprint_time t
  | VOther text => text
  end.

Definition keyString (v : value) : string :=
  match v with
  | VString s => s
  | VBytes s => s
  | VInt Uint64 n => FormatUint n
  | VInt Int64 n => FormatInt n
  | VDecimal d => decimal_String d
  | _ => Sprint v
  end.

(** The escaped parts of a row's key, in key order. *)
Fixpoint key_parts (positions : list nat) (names : list string) (row : list value)
  : res transform_error (list string) :=
  match positions with
  | [] => Ok []
  | pos :: rest =>
    let name := hd "" names in
    match row !! pos with
    | None => Err (EKeyBeyondRow name)
    | Some VNil => Err (EKeyNull name)
    | Some v =>
      parts ← key_parts rest (tl names) row;
      Ok (escapeKeyPart (keyString v) :: parts)
    end
  end.

Definition row_values (r : Row) : list value := match r with Some l => l | None => [] end.

(** The key before it is shortened. *)
Definition raw_key (p : Plan) (r : Row) : res transform_error string :=
  parts ← key_parts (p_keyPositions p) (p_keyNames p) (row_values r);
  Ok (Join parts ":").

(** [(p *Plan) key]. *)
Definition key (p : Plan) (r : Row) : res transform_error string :=
  k ← raw_key p r;
  if (maxKeyBytes <? slen k)%Z then Ok ("h" +:+ hex_EncodeToString (Sha256.Sum256 k))
  else Ok k.

(** ** Values *)

(** [asInt]: every integer type of the switch converted to [int64]. *)
Definition asInt (v : value) : option Z :=
  match v with VInt _ n => Some (i64 n) | _ => None end.

Definition json_escape_byte (c : ascii) : string :=
  let b := byte_val c in
  if (b =? 34)%Z then String backslash (str1 quote_char)
  else if (b =? 92)%Z then String backslash (str1 backslash)
  else if (b =? 10)%Z then String backslash "n"
  else if (b =? 13)%Z then String backslash "r"
  else if (b =? 9)%Z then String backslash "t"
  else if (b <? 32)%Z then u00 b
  else str1 c.

Definition appendJSONString (s : string) : string :=
  String quote_char (str_concat_map json_escape_byte s +:+ str1 quote_char).

Definition appendBool (f : field) (v : value) : res transform_error string :=
  match asInt v with
  | None => Err (EFieldType (f_name f) "an integer for a boolean")
  | Some n => if (n =? 0)%Z then Ok "false" else Ok "true"
  end.

Definition appendInt (f : field) (v : value) : res transform_error string :=
  match v with
  | VInt Uint64 x => Ok (FormatUint x)
  | _ =>
    match asInt v with
    | None => Err (EFieldType (f_name f) "an integer")
    | Some n => Ok (FormatInt n)
    end
  end.

Definition appendUint (f : field) (v : value) : res transform_error string :=
  match v with
  | VInt Uint64 x => Ok (FormatUint x)
  | VInt Int64 x =>
      if (x <? 0)%Z then Err (EUnsignedNegative (f_name f) x) else Ok (FormatInt x)
  | _ =>
    match asInt v with
    | None => Err (EFieldType (f_name f) "an unsigned integer")
    | Some n => Ok (FormatInt n)
    end
  end.

Definition appendFloat (f : field) (v : value) : res transform_error string :=
  match v with
  | VFloat32 b => Ok (AppendFloat_g 32 b)
  | VFloat64 b => Ok (AppendFloat_g 64 b)
  | _ => Err (EFieldType (f_name f) "a float")
  end.

Definition decimalText (f : field) (v : value) : res transform_error string :=
  match v with
  | VDecimal d =>
      let places := i32 (- decimal_Exponent d) in
      Ok (decimal_StringFixed d (if (places <? 0)%Z then 0 else places))
  | VString s => Ok s
  | VBytes s => Ok s
  | VFloat64 b => Ok (FormatFloat_f b)
  | _ => Err (EFieldType (f_name f) "an exact decimal")
  end.

Definition appendDecimal (p : Plan) (f : field) (v : value) : res transform_error string :=
  text ← decimalText f v;
  match p_dialect p with
  | DialectElasticsearch => Ok (appendJSONString text)
  | DialectClickHouse => Ok text
  end.

Definition appendEnum (f : field) (v : value) : res transform_error string :=
  match asInt v with
  | None => Err (EFieldType (f_name f) "an enum member number")
  | Some n =>
      if (n =? 0)%Z then Ok (appendJSONString "")
      else if ((1 <=? n) && (n <=? zlen (f_enumLabels f)))%Z then
        match f_enumLabels f !! Z.to_nat (n - 1) with
        | Some label => Ok (appendJSONString label)
        | None => Err (EIndexOutOfRange (n - 1))
        end
      else Err (EEnumMember (f_name f) n (zlen (f_enumLabels f)))
  end.

(** The labels whose bit is set: [bits & (1 << uint(i))] is zero for every
    [i] from 64 on. *)
Fixpoint set_members (i : Z) (bits : Z) (labels : list string) : list string :=
  match labels with
  | [] => []
  | l :: rest =>
      if (i <? 64)%Z && Z.testbit bits i then l :: set_members (i + 1) bits rest
      else set_members (i + 1) bits rest
  end.

Definition appendSet (f : field) (v : value) : res transform_error string :=
  match asInt v with
  | None => Err (EFieldType (f_name f) "a set bitmask")
  | Some bits =>
      Ok ("[" +:+ Join (map appendJSONString (set_members 0 bits (f_setLabels f))) "," +:+ "]")
  end.

Definition appendRawJSON (f : field) (v : value) : res transform_error string :=
  match v with
  | VBytes raw | VString raw => Ok (if bool_decide (raw = "") then "null" else raw)
  | _ => Err (EFieldType (f_name f) "a JSON document")
  end.

Definition appendBase64 (f : field) (v : value) : res transform_error string :=
  match v with
  | VBytes s | VString s => Ok (appendJSONString (base64_EncodeToString s))
  | _ => Err (EFieldType (f_name f) "bytes")
  end.

(** Latin-1 text re-encoded as UTF-8, one rune per byte. *)
Definition latin1_to_utf8 : string -> string :=
  str_concat_map (fun c => WriteRune (byte_val c)).

Definition stringValue (f : field) (v : value) : res transform_error string :=
  match v with
  | VString raw | VBytes raw =>
      if f_needsCharsetConversion f then Ok (latin1_to_utf8 raw)
      else if ValidString raw then Ok raw
      else Err (EInvalidUTF8 (f_name f) (hex_EncodeToString raw))
  | _ => Err (EFieldType (f_name f) "text")
  end.

Definition appendString (f : field) (v : value) : res transform_error string :=
  text ← stringValue f v; Ok (appendJSONString text).

Definition isZeroDate (s : string) : bool := HasPrefix s "0000-00-00".

Definition time_layouts : list string :=
  ["2006-01-02 15:04:05.999999999"; "2006-01-02 15:04:05"; "2006-01-02"; "15:04:05.999999999"].
Definition RFC3339 : string := "2006-01-02T15:04:05Z07:00".
Definition RFC3339Nano : string := "2006-01-02T15:04:05.999999999Z07:00".

Fixpoint parse_first (layouts : list string) (s : string) (zone : Location) : option Z :=
  match layouts with
  | [] => None
  | l :: rest =>
      match ParseInLocation l s zone with Some t => Some t | None => parse_first rest s zone end
  end.
Definition parseMySQLTime (s : string) (zone : Location) : option Z :=
  parse_first time_layouts s zone.

Definition appendTime (p : Plan) (f : field) (v : value) : res transform_error string :=
  match v with
  | VTime t => Ok (appendJSONString (FormatUTC RFC3339Nano t))
  | VString x =>
      if isZeroDate x then
        if bool_decide (p_zeroDate p = zeroDateNull) then Ok "null"
        else if bool_decide (p_zeroDate p = zeroDateEpoch)
        then Ok (appendJSONString (FormatUTC RFC3339 0))
        else Err (EZeroDate (f_name f) x)
      else
        let zone := if bool_decide (f_kind f = KindTimestamp) then UTC else p_sourceZone p in
        match parseMySQLTime x zone with
        | None => Err (EBadTime (f_name f) x)
        | Some t => Ok (appendJSONString (FormatUTC RFC3339Nano t))
        end
  | _ => Err (EFieldType (f_name f) "a date or time")
  end.

Definition encodeValue (p : Plan) (f : field) (v : value) : res transform_error string :=
  match v with
  | VNil => Ok "null"
  | _ =>
    match f_kind f with
    | KindBool => appendBool f v
    | KindInt | KindYear | KindTime | KindBit => appendInt f v
    | KindUint => appendUint f v
    | KindFloat => appendFloat f v
    | KindDecimal => appendDecimal p f v
    | KindEnum => appendEnum f v
    | KindSet => appendSet f v
    | KindJSON => appendRawJSON f v
    | KindBytes => appendBase64 f v
    | KindString => appendString f v
    | KindDate | KindDateTime | KindTimestamp => appendTime p f v
    | KindInvalid => Err (EUnhandledKind (f_name f) (f_kind f))
    end
  end.

(** ** Bodies *)

Definition encode_member (p : Plan) (row : list value) (f : field) : res transform_error string :=
  match row !! f_position f with
  | None => Err (EIndexOutOfRange (Z.of_nat (f_position f)))
  | Some v => t ← encodeValue p f v; Ok (f_jsonKey f +:+ t)
  end.

Definition encodeFields (p : Plan) (fields : list field) (r : Row) : res transform_error string :=
  members ← res_map (encode_member p (row_values r)) fields;
  Ok ("{" +:+ Join members "," +:+ "}").

Definition encode (p : Plan) (r : Row) : res transform_error string := encodeFields p (p_fields p) r.

(** ** Apply *)

Definition checkWidth (p : Plan) (r : Row) : res transform_error () :=
  match r with
  | None => Err (ENoValues (TableMeta_Name (p_meta p)))
  | Some l =>
      if (zlen l <? zlen (tm_Columns (p_meta p)))%Z
      then Err (EStaleWidth (TableMeta_Name (p_meta p)) (zlen l) (zlen (tm_Columns (p_meta p))))
      else Ok ()
  end.

(** [(p *Plan) Apply]. *)
Definition Apply (p : Plan) (ev : option ChangeEvent) : res transform_error (list Doc) :=
  match ev with
  | None => Err ENilEvent
  | Some ev =>
    _ ← checkWidth p (Values ev);
    match ev_Operation ev with
    | OperationDelete =>
        k ← key p (Values ev);
        match p_dialect p with
        | DialectClickHouse =>
            body ← encodeFields p (p_keyFields p) (Values ev);
            Ok [mkDoc k body (ev_Seq ev) true]
        | DialectElasticsearch => Ok [mkDoc k "" (ev_Seq ev) true]
        end
    | op =>
        newKey ← key p (ev_After ev);
        body ← encode p (ev_After ev);
        match op, ev_Before ev with
        | OperationUpdate, Some _ =>
            _ ← checkWidth p (ev_Before ev);
            oldKey ← key p (ev_Before ev);
            if bool_decide (oldKey = newKey)
            then Ok [mkDoc newKey body (ev_Seq ev) false]
            else Ok [mkDoc oldKey "" (ev_Seq ev) true; mkDoc newKey body (ev_Seq ev) false]
        | _, _ => Ok [mkDoc newKey body (ev_Seq ev) false]
        end
    end
  end.

(** ** Keys: lemmas *)

(** One byte of an escaped key part read back. *)
Definition read_key_byte (s : string) : option (ascii * string) :=
  match s with
  | "" => None
  | String c s1 =>
    if ascii_dec c percent then
      match s1 with
      | String h (String l s2) =>
          hv ← hex_digit_val h; lv ← hex_digit_val l; Some (byte_of_Z (hv * 16 + lv), s2)
      | _ => None
      end
    else Some (c, s1)
  end.

Lemma read_key_escape c s : read_key_byte (escape_byte c +:+ s) = Some (c, s).
Proof. all_bytes c; reflexivity. Qed.

#[export] Instance escapeKeyPart_inj : Inj (=) (=) escapeKeyPart.
Proof.
  unfold escapeKeyPart. intros s. induction s as [|c s IH]; intros [|d t] Heq; simpl in *; [done| | |].
  - apply (f_equal read_key_byte) in Heq. by rewrite read_key_escape in Heq.
  - apply (f_equal read_key_byte) in Heq. by rewrite read_key_escape in Heq.
  - apply (f_equal read_key_byte) in Heq. rewrite !read_key_escape in Heq.
    injection Heq as -> Heq. f_equal. by apply IH.
Qed.

(** The bytes an escaped part can hold. *)
Definition key_byte (c : ascii) : bool := unreserved c || bool_decide (c = percent).

Lemma escape_byte_bytes c : str_forall key_byte (escape_byte c) = true.
Proof. all_bytes c; reflexivity. Qed.

Lemma escapeKeyPart_bytes s : str_forall key_byte (escapeKeyPart s) = true.
Proof. apply str_forall_concat_map, escape_byte_bytes. Qed.

Lemma str_forall_impl P Q s :
  (forall c, P c = true -> Q c = true) -> str_forall P s = true -> str_forall Q s = true.
Proof.
  intros HPQ. induction s as [|c s IH]; simpl; [done|].
  rewrite !andb_true_iff. intros [? ?]; auto.
Qed.

Lemma key_byte_not_colon c : key_byte c = true -> negb (bool_decide (c = ":"%char)) = true.
Proof. all_bytes c; done. Qed.

Lemma escapeKeyPart_free s : free_of ":" (escapeKeyPart s) = true.
Proof. eapply str_forall_impl, escapeKeyPart_bytes. apply key_byte_not_colon. Qed.

(** The texts of a row's key columns, when all are present. *)
Definition key_texts (p : Plan) (r : Row) : option (list string) :=
  mapM (fun pos => v ← row_values r !! pos;
          if bool_decide (v = VNil) then None else Some (keyString v)) (p_keyPositions p).

Lemma key_parts_ok positions names row parts :
  key_parts positions names row = Ok parts <->
  exists texts, mapM (fun pos => v ← row !! pos;
          if bool_decide (v = VNil) then None else Some (keyString v)) positions = Some texts
    /\ parts = map escapeKeyPart texts.
Proof.
  revert names parts. induction positions as [|pos rest IH]; intros names parts; simpl.
  - split; [intros [= <-]; by exists [] | by intros (? & [= <-] & ->)].
  - destruct (row !! pos) as [v|]; simpl; [|split; [done | by intros (? & ? & _)]].
    destruct (decide (v = VNil)) as [->|Hv].
    + rewrite bool_decide_eq_true_2 by done. split; [done | by intros (? & ? & _)].
    + rewrite bool_decide_eq_false_2 by done.
      transitivity (exists parts', key_parts rest (tl names) row = Ok parts' /\
                      parts = escapeKeyPart (keyString v) :: parts').
      { destruct v; try done; (split;
          [intros (ps & Hps & [= <-])%res_bind_ok; eauto
          | intros (ps & Hps & ->); by rewrite Hps]). }
      split.
      * intros (ps & (texts & Ht & ->)%IH & ->). exists (keyString v :: texts).
        by rewrite Ht.
      * intros (texts & Ht & ->). simpl in Ht. apply bind_Some in Ht as (ts & Hts & [= <-]).
        exists (map escapeKeyPart ts). split; [|done]. apply IH. eauto.
Qed.

Lemma raw_key_ok p r k :
  raw_key p r = Ok k <->
  exists texts, key_texts p r = Some texts /\ k = Join (map escapeKeyPart texts) ":".
Proof.
  unfold raw_key, key_texts. split.
  - intros (parts & (texts & Ht & ->)%key_parts_ok & [= <-])%res_bind_ok. eauto.
  - intros (texts & Ht & ->).
    rewrite (proj2 (key_parts_ok _ (p_keyNames p) _ (map escapeKeyPart texts))); eauto.
Qed.

Lemma key_texts_length p r texts :
  key_texts p r = Some texts -> length texts = length (p_keyPositions p).
Proof. by intros Ht%length_mapM. Qed.

Lemma Join_escaped_inj l1 l2 :
  length l1 = length l2 ->
  Join (map escapeKeyPart l1) ":" = Join (map escapeKeyPart l2) ":" -> l1 = l2.
Proof.
  intros Hlen Heq. destruct l1 as [|x l1], l2 as [|y l2]; try done.
  apply (f_equal (SplitByte ":")) in Heq.
  rewrite !(SplitByte_Join ":") in Heq;
    try done; try (apply Forall_fmap, Forall_true; intros; apply escapeKeyPart_free).
  by apply (inj (fmap escapeKeyPart)) in Heq.
Qed.

(** ** Keys *)

(** C40: Two rows get the same unshortened key exactly when the texts of their key
    columns agree, column by column. *)
Theorem key_injective p r1 r2 k1 k2 :
  raw_key p r1 = Ok k1 -> raw_key p r2 = Ok k2 ->
  (slen k1 <= maxKeyBytes)%Z -> (slen k2 <= maxKeyBytes)%Z ->
  key p r1 = key p r2 <-> key_texts p r1 = key_texts p r2.
Proof.
  intros H1 H2 Hk1 Hk2. unfold key. rewrite H1, H2. simpl.
  rewrite !(proj2 (Z.ltb_ge _ _)) by done.
  apply raw_key_ok in H1 as (t1 & Ht1 & ->), H2 as (t2 & Ht2 & ->).
  rewrite Ht1, Ht2. split; [|by intros [= ->]].
  intros [= Heq]. f_equal. apply Join_escaped_inj; [|done].
  by rewrite (key_texts_length _ _ _ Ht1), (key_texts_length _ _ _ Ht2).
Qed.

Lemma str_forall_Join P l sep :
  str_forall P sep = true -> Forall (fun s => str_forall P s = true) l ->
  str_forall P (Join l sep) = true.
Proof.
  intros Hsep. induction 1 as [|s l Hs Hl IH]; [done|].
  destruct l as [|t l]; [done|].
  change (Join (s :: t :: l) sep) with (s +:+ (sep +:+ Join (t :: l) sep)).
  by rewrite !str_forall_app, Hs, Hsep, IH.
Qed.

(** The bytes of a key: unreserved ones, the percent sign and the colon. *)
Definition id_byte (c : ascii) : bool := key_byte c || bool_decide (c = ":"%char).

Lemma hex_id_bytes s : str_forall id_byte (hex_EncodeToString s) = true.
Proof. apply str_forall_concat_map. intros c. all_bytes c; reflexivity. Qed.

(** A document's key never exceeds the 512 bytes a destination allows, and
    holds only bytes that need no escaping in a request. *)
Theorem key_bounded p r k :
  key p r = Ok k -> (slen k <= maxKeyBytes)%Z /\ str_forall id_byte k = true.
Proof.
  unfold key. intros (raw & (texts & _ & ->)%raw_key_ok & Hk)%res_bind_ok.
  destruct (Z.ltb_spec maxKeyBytes (slen (Join (map escapeKeyPart texts) ":"))) as [Hlt|Hle].
  - set (digest := Sha256.Sum256 _) in Hk.
    assert (k = str1 "h" +:+ hex_EncodeToString digest) as -> by (injection Hk as <-; reflexivity).
    rewrite slen_app, str_forall_app, hex_slen, hex_id_bytes.
    unfold digest. rewrite Sha256Facts.Sum256_slen. done.
  - injection Hk as <-. split; [done|].
    apply str_forall_Join; [done|]. apply Forall_fmap, Forall_true. intros t; simpl.
    eapply str_forall_impl, escapeKeyPart_bytes. intros c Hc. unfold id_byte. by rewrite Hc.
Qed.

(** ** Values *)

Lemma json_escape_reads_back : reads_back json_escape_byte.
Proof. intros c rest. all_bytes c; reflexivity. Qed.

(** The string encoder round-trips: a JSON reader gives back exactly the bytes
    it was given and stops at the closing quote, so that no byte of a value
    can end the string early or reach the rest of the document. *)
Theorem appendJSONString_roundtrip s rest :
  read_json_string (appendJSONString s +:+ rest) = Some (s, rest).
Proof. apply (read_json_concat_map json_escape_byte), json_escape_reads_back. Qed.

(** Latin-1 text becomes valid UTF-8 whose runes are the bytes of the text. *)
Theorem latin1_to_utf8_valid s :
  ValidString (latin1_to_utf8 s) = true /\
  map fst (runes (latin1_to_utf8 s)) = map (fun c => Some (byte_val c)) (String.list_ascii_of_string s).
Proof.
  unfold ValidString, latin1_to_utf8. rewrite runes_latin1. split.
  - apply forallb_forall. intros x (c & <- & _)%in_map_iff. done.
  - by rewrite map_map.
Qed.

Definition integer_kind (k : Kind) : bool :=
  match k with KindInt | KindUint | KindYear | KindTime | KindBit => true | _ => false end.

Definition value_in_type (t : inttype) (n : Z) : Prop :=
  ((int_range t).1 <= n <= (int_range t).2)%Z.

Lemma asInt_small t n :
  value_in_type t n -> t <> Uint -> t <> Uint64 -> asInt (VInt t n) = Some n.
Proof.
  intros Hn Ht1 Ht2. simpl. f_equal. apply i64_small.
  unfold value_in_type, i64_range in *. destruct t; simpl in *; try done; lia.
Qed.

(** An integer is written as its exact decimal text, at every width and
    signedness the readers produce, [uint64] values above 2^63 included. *)
Theorem encodeValue_integer_exact p f t n text :
  integer_kind (f_kind f) = true -> value_in_type t n -> t <> Uint ->
  encodeValue p f (VInt t n) = Ok text -> text = FormatInt n.
Proof.
  intros Hk Hn Ht Henc.
  assert (appendInt f (VInt t n) = Ok text \/ appendUint f (VInt t n) = Ok text) as Hor.
  { unfold encodeValue, integer_kind in *. destruct (f_kind f); try done; auto. }
  destruct (decide (t = Uint64)) as [->|Ht64].
  { unfold value_in_type in Hn. simpl in Hn. rewrite FormatInt_nonneg by lia.
    by destruct Hor as [[= <-]|[= <-]]. }
  unfold appendInt, appendUint in Hor. rewrite (asInt_small t n) in Hor by done.
  destruct t; try done; destruct Hor as [Hor|Hor]; case_all_in Hor; by simplify_eq.
Qed.

(** ** No row indexes out of range *)

Definition panics {A} (r : res transform_error A) : bool :=
  match r with Err (EIndexOutOfRange _) => true | _ => false end.

Lemma panics_bind {A B} (m : res transform_error A) (k : A -> res transform_error B) :
  panics m = false -> (forall a, m = Ok a -> panics (k a) = false) -> panics (m ≫= k) = false.
Proof. destruct m as [a|e]; simpl; auto. Qed.

Lemma encodeValue_no_panic p f v : panics (encodeValue p f v) = false.
Proof.
  unfold encodeValue, appendBool, appendInt, appendUint, appendFloat, appendDecimal, decimalText,
    appendEnum, appendSet, appendRawJSON, appendBase64, appendString, stringValue, appendTime.
  destruct v, (f_kind f); try done; simpl; try (by case_all).
  all: repeat case_match; simplify_eq/=; try done; bool_to_prop;
    match goal with Hn : _ !! _ = None |- _ => apply lookup_ge_None in Hn; unfold zlen in *; lia end.
Qed.

Definition position_fits (n : nat) (f : field) : Prop := f_position f < n.

Lemma encodeFields_no_panic p fields row :
  Forall (position_fits (length row)) fields ->
  panics (encodeFields p fields (Some row)) = false.
Proof.
  intros Hf. apply panics_bind; [|done]. simpl.
  induction Hf as [|f fields Hf _ IH]; [done|]. simpl. apply panics_bind.
  - unfold encode_member. destruct (lookup_lt_is_Some_2 row (f_position f) Hf) as [v ->].
    apply panics_bind; [apply encodeValue_no_panic | done].
  - intros t _. by apply panics_bind.
Qed.

Lemma key_parts_no_panic positions names row : panics (key_parts positions names row) = false.
Proof.
  revert names. induction positions as [|pos rest IH]; intros names; simpl; [done|].
  case_all; done || (apply panics_bind; [apply IH | done]).
Qed.

Lemma key_no_panic p r : panics (key p r) = false.
Proof.
  apply panics_bind; [apply panics_bind; [apply key_parts_no_panic | done]|].
  intros k _. by case_match.
Qed.

(** A plan writes only columns of its table. *)
Definition plan_wf (p : Plan) : Prop :=
  let n := length (tm_Columns (p_meta p)) in
  Forall (position_fits n) (p_fields p) /\ Forall (position_fits n) (p_keyFields p).

(** Ordinal positions are indexes, as [information_schema] numbers them. *)
Definition meta_wf (t : TableMeta) : Prop :=
  Forall (fun c => col_Position c < length (tm_Columns t)) (tm_Columns t).

Lemma compile_field_spec rename c f :
  compile_field rename c = Ok f ->
  exists m, Map c = Ok m /\ f_position f = col_Position c /\ f_kind f = mapped_Kind m /\
    f_name f = destination_name rename c /\ f_enumLabels f = col_EnumValues c /\
    f_setLabels f = col_SetValues c /\
    f_jsonKey f = json_MarshalString (f_name f) +:+ ":".
Proof.
  unfold compile_field. intros (m & Hm & (conv & _ & [= <-])%res_bind_ok)%res_bind_ok.
  destruct (Map c) as [m'|] eqn:HM; simplify_eq/=. eauto 10.
Qed.

Lemma compile_key_fields meta fields key positions kfields :
  compile_key meta fields key = Ok (positions, kfields) ->
  Forall (fun f => f ∈ fields) kfields /\
  Forall2 (fun name pos => exists c, TableMeta_Column meta name = Some c /\ col_Position c = pos)
    key positions.
Proof.
  revert positions kfields. induction key as [|name key IH]; intros positions kfields Heq; simpl in Heq.
  - injection Heq as <- <-. by split; constructor.
  - destruct (TableMeta_Column meta name) as [c|] eqn:Hc; [|done].
    apply res_bind_ok in Heq as ([pos kf] & [Hf Hp]%IH & [= <- <-]). split.
    + case_match; [|done]. destruct p as [i f]. constructor; [|done].
      match goal with HL : list_find _ _ = Some _ |- _ => apply list_find_Some in HL as (HL & _ & _) end.
      by eapply list_elem_of_lookup_2.
    + constructor; eauto.
Qed.

(** What a compiled plan holds. *)
Lemma Compile_spec meta mapping dialect zone zd p :
  Compile (Some meta) mapping dialect zone zd = Ok p ->
  p_meta p = meta /\ p_dialect p = dialect /\
  ResolveKey meta (m_Key mapping) = Ok (p_keyNames p) /\
  (exists selected, SelectColumns meta (m_Include mapping) (m_Exclude mapping) (p_keyNames p) = Ok selected /\
     Forall2 (fun c f => compile_field (m_Rename mapping) c = Ok f) selected (p_fields p)) /\
  compile_key meta (p_fields p) (p_keyNames p) = Ok (p_keyPositions p, p_keyFields p) /\
  (dialect = DialectClickHouse -> length (p_keyFields p) = length (p_keyNames p)).
Proof.
  unfold Compile. intros (z & _ & Heq)%res_bind_ok.
  apply res_bind_ok in Heq as (k & Hk & Heq). apply res_bind_ok in Heq as (sel & Hsel & Heq).
  apply res_bind_ok in Heq as (fs & Hfs%res_map_ok & Heq).
  apply res_bind_ok in Heq as ([pos kf] & Hkey & Heq).
  destruct (ResolveKey meta (m_Key mapping)) eqn:HR; simplify_eq/=.
  destruct (SelectColumns _ _ _ k) eqn:HS; simplify_eq/=.
  case_match eqn:Hch; simplify_eq/=. repeat split; try done; eauto.
  intros ->. by rewrite bool_decide_eq_true_2, andb_true_l, negb_false_iff, bool_decide_eq_true in Hch.
Qed.

Lemma Compile_wf meta mapping dialect zone zd p :
  meta_wf meta -> Compile (Some meta) mapping dialect zone zd = Ok p -> plan_wf p.
Proof.
  intros Hwf (<- & _ & _ & (sel & Hsel & Hfs) & Hkey & _)%Compile_spec.
  apply SelectColumns_spec in Hsel as (_ & Hsub & _).
  assert (Forall (position_fits (length (tm_Columns (p_meta p)))) (p_fields p)) as Hf.
  { eapply Forall2_Forall_r; [exact Hfs|]. apply Forall_forall. intros c Hc f Hcf.
    apply compile_field_spec in Hcf as (m & _ & Hpos & _). unfold position_fits. rewrite Hpos.
    unfold meta_wf in Hwf. rewrite Forall_forall in Hwf. apply Hwf. by eapply elem_of_sublist. }
  split; [exact Hf|]. apply compile_key_fields in Hkey as [Hk _].
  rewrite Forall_forall in *. auto.
Qed.

Lemma checkWidth_ok p r :
  checkWidth p r = Ok () -> exists row, r = Some row /\ length (tm_Columns (p_meta p)) <= length row.
Proof.
  unfold checkWidth. destruct r as [row|]; [|done]. case_match; [done|]. intros _.
  exists row. bool_to_prop. unfold zlen in *. split; [done|lia].
Qed.

Lemma encode_fits p fields r :
  Forall (position_fits (length (tm_Columns (p_meta p)))) fields -> checkWidth p r = Ok () ->
  panics (encodeFields p fields r) = false.
Proof.
  intros Hf (row & -> & Hlen)%checkWidth_ok. apply encodeFields_no_panic.
  eapply Forall_impl; [exact Hf|]. unfold position_fits. intros f ?. lia.
Qed.

(** Applying a compiled plan never indexes outside a row: every position was
    fixed against the table the width check compares the row with. *)
Theorem Apply_never_panics meta mapping dialect zone zd p ev :
  meta_wf meta -> Compile (Some meta) mapping dialect zone zd = Ok p ->
  panics (Apply p ev) = false.
Proof.
  intros Hwf HC. pose proof (Compile_wf _ _ _ _ _ _ Hwf HC) as [Hf Hkf].
  destruct ev as [ev|]; [|done]. unfold Apply. apply panics_bind.
  { unfold checkWidth. repeat case_match; done. }
  intros [] Hw. unfold Values in *. destruct (ev_Operation ev).
  3: { apply panics_bind; [apply key_no_panic|]. intros k _. case_match; [done|].
       apply panics_bind; [by apply encode_fits | done]. }
  all: apply panics_bind; [apply key_no_panic|]; intros k _;
    apply panics_bind; [by apply encode_fits|]; intros body _; try done.
  destruct (ev_Before ev) as [before|]; [|done].
  apply panics_bind; [unfold checkWidth; repeat case_match; done|]. intros [] _.
  apply panics_bind; [apply key_no_panic|]. intros old _. by case_match.
Qed.

(** ** What an event's writes do to a destination *)

(** A destination that keeps the last write to each key. *)
Definition apply_doc (dst : gmap string string) (d : Doc) : gmap string string :=
  if doc_Deleted d then delete (doc_Key d) dst else <[doc_Key d := doc_Body d]> dst.

(** The key a row had before an update. *)
Definition replaced_key (p : Plan) (ev : ChangeEvent) : option string :=
  match ev_Operation ev, ev_Before ev with
  | OperationUpdate, Some _ =>
      match key p (ev_Before ev) with Ok k => Some k | Err _ => None end
  | _, _ => None
  end.

Definition remove_replaced (p : Plan) (ev : ChangeEvent) (dst : gmap string string) :=
  match replaced_key p ev with Some k => delete k dst | None => dst end.

Lemma Apply_effect_spec p ev docs dst :
  Apply p (Some ev) = Ok docs ->
  if bool_decide (ev_Operation ev = OperationDelete)
  then exists k, key p (ev_Before ev) = Ok k /\ foldl apply_doc dst docs = delete k dst
  else exists k body, key p (ev_After ev) = Ok k /\ encode p (ev_After ev) = Ok body /\
         foldl apply_doc dst docs = <[k := body]> (remove_replaced p ev dst).
Proof.
  unfold Apply, remove_replaced, replaced_key, Values.
  intros (_ & _ & Heq)%res_bind_ok.
  destruct (ev_Operation ev) eqn:Hop; simpl.
  3: { apply res_bind_ok in Heq as (k & Hk & Heq). exists k. split; [done|].
       destruct (p_dialect p); [by injection Heq as <-|].
       apply res_bind_ok in Heq as (b & _ & [= <-]). done. }
  all: apply res_bind_ok in Heq as (k & Hk & Heq); apply res_bind_ok in Heq as (body & Hb & Heq);
    exists k, body; split; [done|]; split; [done|]; try by injection Heq as <-.
  destruct (ev_Before ev) as [before|]; [|by injection Heq as <-].
  apply res_bind_ok in Heq as ([] & _ & Heq). apply res_bind_ok in Heq as (old & -> & Heq).
  destruct (decide (old = k)) as [->|Hne].
  - rewrite bool_decide_eq_true_2 in Heq by done. injection Heq as <-. simpl. unfold apply_doc. simpl.
    by rewrite insert_delete_eq.
  - rewrite bool_decide_eq_false_2 in Heq by done. by injection Heq as <-.
Qed.

(** A delete event removes the row's document. Any other event leaves the new
    row under its key and nothing under the key an update took it from, every
    other document being untouched. *)
Theorem Apply_effect p ev docs dst :
  Apply p (Some ev) = Ok docs ->
  if bool_decide (ev_Operation ev = OperationDelete)
  then exists k, key p (ev_Before ev) = Ok k /\ foldl apply_doc dst docs = delete k dst
  else exists k body, key p (ev_After ev) = Ok k /\ encode p (ev_After ev) = Ok body /\
         foldl apply_doc dst docs = <[k := body]> (remove_replaced p ev dst).
Proof. exact (Apply_effect_spec p ev docs dst). Qed.

Lemma Apply_documents_spec p ev docs :
  Apply p (Some ev) = Ok docs ->
  Forall (fun d => doc_Version d = ev_Seq ev /\ (doc_Deleted d = false -> doc_Body d <> "")) docs /\
  NoDup (map doc_Key docs) /\ 1 <= length docs <= 2.
Proof.
  unfold Apply, Values. intros (_ & _ & Heq)%res_bind_ok.
  assert (forall r body, encode p r = Ok body -> body <> "") as Hbody.
  { intros r body (ms & _ & [= <-])%res_bind_ok. done. }
  assert (forall d : Doc, NoDup (map doc_Key [d])) as Hnd1.
  { intros d. apply NoDup_singleton. }
  destruct (ev_Operation ev) eqn:Hop.
  3: { apply res_bind_ok in Heq as (k & Hk & Heq).
       destruct (p_dialect p); [|apply res_bind_ok in Heq as (b & _ & Heq)];
         injection Heq as <-; (split; [by repeat constructor|]); split; [done | simpl; lia | done | simpl; lia]. }
  all: apply res_bind_ok in Heq as (k & Hk & Heq); apply res_bind_ok in Heq as (body & Hb & Heq);
    pose proof (Hbody _ _ Hb).
  2: destruct (ev_Before ev) as [before|];
    [apply res_bind_ok in Heq as ([] & _ & Heq); apply res_bind_ok in Heq as (old & Hold & Heq);
     case_match; bool_to_prop; [|injection Heq as <-; split; [by repeat constructor|]; split;
       [apply NoDup_cons_2; [by intros ?%list_elem_of_singleton | apply NoDup_singleton] | simpl; lia]]|].
  all: injection Heq as <-; (split; [by repeat constructor|]); split; [done | simpl; lia].
Qed.

(** Every write of an event carries the event's version, and no two of them
    address the same document; only deletes may lack a body. *)
Theorem Apply_documents p ev docs :
  Apply p (Some ev) = Ok docs ->
  Forall (fun d => doc_Version d = ev_Seq ev /\ (doc_Deleted d = false -> doc_Body d <> "")) docs /\
  NoDup (map doc_Key docs) /\ 1 <= length docs <= 2.
Proof. exact (Apply_documents_spec p ev docs). Qed.

(** ** The plan and the schema agree *)

(** What is validated against the destination is what is sent: the fields the
    mapping check resolves are the plan's, in order, with the same kinds. *)
Theorem Compile_matches_resolveFields meta mapping dialect zone zd p fs :
  Compile (Some meta) mapping dialect zone zd = Ok p ->
  resolveFields meta (m_Include mapping) (m_Exclude mapping) (p_keyNames p) (m_Rename mapping) = Ok fs ->
  map df_name fs = Fields p /\ map (fun f => mapped_Kind (df_mapped f)) fs = map f_kind (p_fields p).
Proof.
  intros (_ & _ & _ & (sel & Hsel & Hp) & _)%Compile_spec (sel' & Hsel' & Hr)%resolveFields_spec.
  rewrite Hsel in Hsel'. injection Hsel' as <-. unfold Fields. clear Hsel.
  revert Hr. generalize dependent fs. induction Hp as [|c f sel pf Hcf _ IH]; intros fs Hr.
  - by inversion Hr.
  - inversion Hr as [|? d ? ds (_ & Hn & Hm & _) Hrest]; subst. simpl.
    apply compile_field_spec in Hcf as (m & Hm' & _ & -> & -> & _).
    destruct (IH ds Hrest) as [-> ->]. rewrite Hm in Hm'. injection Hm' as <-. by rewrite Hn.
Qed.

End Transform.
