(* ===== verification/Batcher.v ===== *)
(** * Grouping documents ([internal/pipeline/batcher.go])

    A batcher holds the documents not yet written, their size and when the
    first of them arrived. The clock reading an operation takes is its [now]
    argument. *)

From S2P Require Import Prelude GoStd Cdc.

Record Limits := mkLimits {
  MaxRows : Z;
  MaxBytes : Z;
  FlushInterval : Z
}.

Record Batcher := mkBatcher {
  b_limits : Limits;
  b_pending : list Doc;
  b_bytes : Z;
  b_startedAt : Z
}.

Inductive limits_error := EMaxRows | EMaxBytes | EFlushInterval.

Definition NewBatcher (limits : Limits) : res limits_error Batcher :=
  if (MaxRows limits <? 1)%Z then Err EMaxRows
  else if (MaxBytes limits =? 0)%Z then Err EMaxBytes
  else if (FlushInterval limits <=? 0)%Z then Err EFlushInterval
  else Ok (mkBatcher limits [] 0 zero_time).

(** [(b *Batcher) Flush]: [nil] when nothing is pending. *)
Definition Flush (b : Batcher) : list Doc * Batcher :=
  match b_pending b with
  | [] => ([], b)
  | out => (out, mkBatcher (b_limits b) [] 0 zero_time)
  end.

(** [(b *Batcher) append]. *)
Definition append_doc (now : Z) (d : Doc) (size : Z) (b : Batcher) : Batcher :=
  mkBatcher (b_limits b) (b_pending b ++ [d]) (u64 (b_bytes b + size))
    (match b_pending b with [] => now | _ => b_startedAt b end).

(** [(b *Batcher) Add]: the batch the document completes, [None] for [nil]. *)
Definition Add (now : Z) (d : Doc) (b : Batcher) : option (list Doc) * Batcher :=
  let size := u64 (Size d) in
  let pending := negb (bool_decide (b_pending b = [])) in
  if (MaxBytes (b_limits b) <=? size)%Z && pending then
    let '(flushed, b) := Flush b in
    let '(last, b) := Flush (append_doc now d size b) in
    (Some (flushed ++ last), b)
  else if pending && (MaxBytes (b_limits b) <? u64 (b_bytes b + size))%Z then
    let '(flushed, b) := Flush b in
    (Some flushed, append_doc now d size b)
  else
    let b := append_doc now d size b in
    if (MaxRows (b_limits b) <=? zlen (b_pending b))%Z || (MaxBytes (b_limits b) <=? b_bytes b)%Z
    then let '(out, b) := Flush b in (Some out, b)
    else (None, b).

#[global] Arguments Add : simpl never.

Definition NextDeadline (b : Batcher) : option Z :=
  match b_pending b with
  | [] => None
  | _ => Some (b_startedAt b + FlushInterval (b_limits b))%Z
  end.

Definition DueForFlush (now : Z) (b : Batcher) : bool :=
  match b_pending b with
  | [] => false
  | _ => negb (now <? b_startedAt b + FlushInterval (b_limits b))%Z
  end.

Definition Len (b : Batcher) : Z := zlen (b_pending b).
Definition Bytes (b : Batcher) : Z := b_bytes b.

(** ** Invariant *)

Definition total_size (docs : list Doc) : Z := zsum (map Size docs).

Lemma total_size_app l k : total_size (l ++ k) = (total_size l + total_size k)%Z.
Proof. unfold total_size. by rewrite map_app, zsum_app. Qed.

Lemma total_size_nonneg l : (0 <= total_size l)%Z.
Proof. apply zsum_nonneg, Forall_fmap, Forall_true. intros; apply Size_nonneg. Qed.

(** Limits that could work, with byte budgets of a size a machine can hold:
    [MaxBytes] and every document stay below 2^62. *)
Definition limits_ok (l : Limits) : Prop :=
  (1 <= MaxRows l /\ 0 < MaxBytes l < 2 ^ 62 /\ 0 < FlushInterval l)%Z.
Definition doc_ok (d : Doc) : Prop := (Size d < 2 ^ 62)%Z.

(** Between operations the size is that of the pending documents, and they are
    short of both limits. *)
Record batcher_inv (b : Batcher) : Prop := {
  inv_limits : limits_ok (b_limits b);
  inv_bytes : b_bytes b = total_size (b_pending b);
  inv_rows_short : (zlen (b_pending b) < MaxRows (b_limits b))%Z;
  inv_bytes_short : (b_bytes b < MaxBytes (b_limits b))%Z
}.

Lemma NewBatcher_inv limits b :
  (0 <= MaxBytes limits < 2 ^ 62)%Z -> NewBatcher limits = Ok b -> batcher_inv b.
Proof.
  intros Hm. unfold NewBatcher. repeat case_match; intros; simplify_eq. bool_to_prop.
  unfold limits_ok. split; simpl; unfold limits_ok, total_size; simpl; rewrite ?zlen_cons; unfold zlen; simpl; lia.
Qed.

Lemma batcher_inv_flush b : batcher_inv b -> batcher_inv (Flush b).2 /\ b_pending (Flush b).2 = [].
Proof.
  intros Hb. unfold Flush. destruct (b_pending b) eqn:Hp; simpl; [by rewrite Hp|].
  split; [|done]. destruct Hb. unfold limits_ok in *.
  split; simpl; unfold limits_ok, total_size, zlen; simpl; lia.
Qed.

(** The three ways [Add] ends. A document that fills or exceeds the batch
    leaves with everything before it; one that does not fit pushes out what
    came before; any other waits. *)
Inductive add_outcome (b : Batcher) (d : Doc) : option (list Doc) * Batcher -> Prop :=
  | AddLeaves started :
      (MaxBytes (b_limits b) <= Size d \/
       total_size (b_pending b ++ [d]) <= MaxBytes (b_limits b))%Z ->
      add_outcome b d (Some (b_pending b ++ [d]), mkBatcher (b_limits b) [] 0 started)
  | AddPushes started :
      b_pending b <> [] ->
      (Size d < MaxBytes (b_limits b) < total_size (b_pending b ++ [d]))%Z ->
      add_outcome b d (Some (b_pending b), mkBatcher (b_limits b) [d] (Size d) started)
  | AddJoins started :
      (zlen (b_pending b ++ [d]) < MaxRows (b_limits b))%Z ->
      (total_size (b_pending b ++ [d]) < MaxBytes (b_limits b))%Z ->
      add_outcome b d (None, mkBatcher (b_limits b) (b_pending b ++ [d])
                               (total_size (b_pending b ++ [d])) started).

Lemma u64_size d : doc_ok d -> u64 (Size d) = Size d.
Proof. intros Hd. apply u64_small. pose proof (Size_nonneg d). unfold doc_ok, u64_range in *. lia. Qed.

Lemma total_size_single d : total_size [d] = Size d.
Proof. unfold total_size. simpl. lia. Qed.

Lemma bytes_after_append b d :
  batcher_inv b -> doc_ok d -> u64 (b_bytes b + Size d) = total_size (b_pending b ++ [d]).
Proof.
  intros [Hl Hbytes _ Hshort] Hd. rewrite total_size_app, total_size_single, Hbytes.
  pose proof (Size_nonneg d). pose proof (total_size_nonneg (b_pending b)).
  apply u64_small. unfold u64_range, limits_ok, doc_ok in *. lia.
Qed.

Lemma Flush_append now d size b :
  Flush (append_doc now d size b) = (b_pending b ++ [d], mkBatcher (b_limits b) [] 0 zero_time).
Proof. unfold Flush, append_doc. simpl. by destruct (b_pending b). Qed.

Lemma Add_spec now d b : batcher_inv b -> doc_ok d -> add_outcome b d (Add now d b).
Proof.
  intros Hb Hd. pose proof (bytes_after_append b d Hb Hd) as Hsum. unfold Add.
  rewrite (u64_size d Hd), Hsum.
  destruct (decide (b_pending b = [])) as [Hp|Hp].
  - rewrite bool_decide_eq_true_2, andb_false_r, andb_false_l, Flush_append by done.
    unfold append_doc. rewrite Hsum. cbn [b_pending b_bytes b_limits].
    case_match eqn:Hfull.
    + constructor. rewrite Hp, app_nil_l, total_size_single. lia.
    + apply orb_false_iff in Hfull as [? ?]. constructor; bool_to_prop; lia.
  - rewrite bool_decide_eq_false_2 by done. rewrite andb_true_l, andb_true_r.
    assert (Flush b = (b_pending b, mkBatcher (b_limits b) [] 0 zero_time)) as HF
      by (unfold Flush; by destruct (b_pending b)).
    rewrite HF, !Flush_append. destruct (Z.leb_spec (MaxBytes (b_limits b)) (Size d)).
    { apply (AddLeaves b d). by left. }
    destruct (Z.ltb_spec (MaxBytes (b_limits b)) (total_size (b_pending b ++ [d]))).
    { assert (append_doc now d (Size d) (mkBatcher (b_limits b) [] 0 zero_time)
              = mkBatcher (b_limits b) [d] (Size d) now) as ->.
      { unfold append_doc. cbn [b_pending b_bytes b_limits app]. by rewrite Z.add_0_l, u64_size. }
      by apply (AddPushes b d). }
    unfold append_doc. rewrite Hsum. cbn [b_pending b_bytes b_limits].
    case_match eqn:Hfull; [apply (AddLeaves b d); by right|].
    apply orb_false_iff in Hfull as [? ?]. constructor; bool_to_prop; lia.
Qed.

Lemma Add_inv now d b : batcher_inv b -> doc_ok d -> batcher_inv (Add now d b).2.
Proof.
  intros Hb Hd. pose proof (Add_spec now d b Hb Hd) as Hspec.
  destruct Hb as [Hl Hbytes Hrows Hshort]. pose proof Hl as Hl'. unfold limits_ok in Hl'.
  destruct (Add now d b) as [out b']. inversion Hspec as [s ?|s Hne%zlen_ne ?|s ? ?]; subst; simpl.
  - split; simpl; try done; unfold total_size, zlen; simpl; lia.
  - split; simpl; rewrite ?total_size_single; try done; change (zlen [d]) with 1%Z; lia.
  - by split.
Qed.

Lemma Add_limits now d b : b_limits (Add now d b).2 = b_limits b.
Proof. unfold Add, Flush, append_doc. destruct (b_pending b); simpl; repeat case_match; by simplify_eq/=. Qed.

(** ** Properties *)

Fixpoint add_all (now : Z) (ds : list Doc) (b : Batcher) : list (list Doc) * Batcher :=
  match ds with
  | [] => ([], b)
  | d :: ds =>
      let '(out, b) := Add now d b in
      let '(outs, b) := add_all now ds b in
      (match out with Some batch => batch :: outs | None => outs end, b)
  end.

(** Documents leave in the order they came, none lost, none twice: the batches
    returned so far followed by what is pending are the documents added. *)
Theorem Add_conserves now ds b outs b' :
  batcher_inv b -> Forall doc_ok ds -> add_all now ds b = (outs, b') ->
  concat outs ++ b_pending b' = b_pending b ++ ds.
Proof.
  intros Hb Hds. revert b outs Hb. induction Hds as [|d ds Hd _ IH]; intros b outs Hb Heq; simpl in Heq.
  - injection Heq as <- <-. by rewrite app_nil_r.
  - pose proof (Add_inv now d b Hb Hd) as Hb'. pose proof (Add_spec now d b Hb Hd) as Hspec.
    destruct (Add now d b) as [out b1]. destruct (add_all now ds b1) as [outs1 b2] eqn:Hall.
    injection Heq as <- <-. specialize (IH _ _ Hb' Hall).
    inversion Hspec; subst; simpl in *; rewrite <- ?app_assoc, IH; by rewrite <- ?app_assoc.
Qed.

(** No batch has more rows than its limit, none is empty, and a batch above the
    byte budget is one whose last document alone reaches it. *)
Theorem Add_batch_bounds now d b batch b' :
  batcher_inv b -> doc_ok d -> Add now d b = (Some batch, b') ->
  (1 <= zlen batch <= MaxRows (b_limits b))%Z /\
  (total_size batch <= MaxBytes (b_limits b) \/
   exists front, batch = front ++ [d] /\ MaxBytes (b_limits b) <= Size d /\
     total_size front < MaxBytes (b_limits b))%Z.
Proof.
  intros Hb Hd Heq. pose proof (Add_spec now d b Hb Hd) as Hspec. rewrite Heq in Hspec.
  destruct Hb as [Hl Hbytes Hrows Hshort]. pose proof (zlen_nonneg (b_pending b)).
  inversion Hspec as [s Hor|s Hne Hlt|]; subst.
  - split; [rewrite zlen_app; change (zlen [d]) with 1%Z; lia|].
    destruct Hor as [Hbig|]; [right; exists (b_pending b); split; [done|lia] | by left].
  - apply zlen_ne in Hne. split; [lia | left; lia].
Qed.

(** The batch is due exactly when the clock has reached the deadline the runner
    waits for: a waiting batch is never forgotten and an empty one never due. *)
Theorem DueForFlush_deadline now b :
  DueForFlush now b = true <-> exists t, NextDeadline b = Some t /\ (t <= now)%Z.
Proof.
  unfold DueForFlush, NextDeadline. destruct (b_pending b); [by split; [|intros (t & ? & _)]|].
  rewrite negb_true_iff, Z.ltb_ge. split; [by eauto | by intros (t & [= <-] & ?)].
Qed.
