(* ===== verification/Sink.v ===== *)
(** * The sink contract ([internal/sink/sink.go])

    What a destination reports for one batch, and the interface a pipeline
    writes through. *)

From S2P Require Import Prelude GoStd Cdc.

Record Rejection := mkRejection {
  rej_Doc : Doc;
  rej_Status : Z;
  rej_Reason : string
}.

Record Result := mkResult {
  Applied : Z;
  Stale : Z;
  Rejected : list Rejection
}.

Definition zero_result : Result := mkResult 0 0 [].

(** [(r Result) Total]. *)
Definition Total (r : Result) : Z := (Applied r + Stale r + zlen (Rejected r))%Z.

(** The fields of two results added up, as the sinks combine two halves. *)
Definition add_result (r s : Result) : Result :=
  mkResult (Applied r + Applied s) (Stale r + Stale s) (Rejected r ++ Rejected s).

Lemma Total_add r s : Total (add_result r s) = (Total r + Total s)%Z.
Proof. unfold Total. simpl. rewrite zlen_app. lia. Qed.

(** A result that stands for every document of a batch: the counts add up, no
    count is negative, and what was rejected is part of the batch, each
    document at most as often as the batch holds it. *)
Record accounts_for (docs : list Doc) (r : Result) : Prop := {
  acc_total : Total r = zlen docs;
  acc_applied : (0 <= Applied r)%Z;
  acc_stale : (0 <= Stale r)%Z;
  acc_rejected : map rej_Doc (Rejected r) ⊆+ docs
}.

(** [Sink]: a batch is written against the world; the result and the error are
    both returned, as in Go. *)
Class SinkOps (W : Type) := {
  sink_Write : list Doc -> W -> W * (Result * option string)
}.

(** What an implementation promises the pipeline: without an error every
    document is accounted for. *)
Class SinkLaws (W : Type) `{SinkOps W} : Prop := {
  sink_accounts : forall docs w w' r,
    sink_Write docs w = (w', (r, None)) -> accounts_for docs r
}.

Lemma accounts_app docs1 docs2 r1 r2 :
  accounts_for docs1 r1 -> accounts_for docs2 r2 ->
  accounts_for (docs1 ++ docs2) (add_result r1 r2).
Proof.
  intros [H1 H2 H3 H4] [K1 K2 K3 K4]. split; simpl; try lia.
  - rewrite Total_add, zlen_app. lia.
  - rewrite map_app. by apply submseteq_app.
Qed.

Lemma accounts_halves docs n r1 r2 :
  accounts_for (take n docs) r1 -> accounts_for (drop n docs) r2 ->
  accounts_for docs (add_result r1 r2).
Proof. intros H1 H2. rewrite <- (take_drop n docs). by apply accounts_app. Qed.
