(* ===== verification/Checkpoint.v ===== *)
(** * Durable positions ([internal/checkpoint])

    The checkpoint record ([checkpoint.go]), the interface of the stores that
    keep it with the in-memory store ([memory.go]), and the allocator of version
    numbers ([seq.go]). The MySQL store is in [CheckpointTable]. *)

From Stdlib Require Import Ascii Sorted.
From S2P Require Import Prelude GoStd.

(** ** checkpoint.go *)

Definition SchemaVersion : Z := 1.

Record Checkpoint := mkCheckpoint {
  cp_Stream : string;
  cp_GTIDSet : string;
  cp_SnapshotDone : bool;
  cp_SnapshotStartGTID : string;
  cp_SnapshotCursor : string;
  cp_SnapshotBaseSeq : Z;
  cp_SnapshotRowsDone : Z;
  cp_SnapshotRowsTotal : Z;
  cp_SeqWatermark : Z;
  cp_LastEventTsMs : Z;
  cp_LastError : string;
  cp_SchemaVersion : Z;
  cp_UpdatedAt : Z
}.

#[export] Instance Checkpoint_eq_dec : EqDecision Checkpoint.
Proof. solve_decision. Defined.

(** [Checkpoint{}]. *)
Definition zero_checkpoint : Checkpoint :=
  mkCheckpoint "" "" false "" "" 0 0 0 0 0 "" 0 zero_time.

(** [now.Sub(t)] saturates at the range of a [time.Duration]. *)
Definition time_Sub (t u : Z) : Z := Z.max (- 2 ^ 63) (Z.min (2 ^ 63 - 1) (t - u)).

Definition LagAt (c : Checkpoint) (now : Z) : option Z :=
  if (cp_LastEventTsMs c =? 0)%Z then None
  else
    let lag := time_Sub now (cp_LastEventTsMs c * 10 ^ 6) in
    Some (if (lag <? 0)%Z then 0 else lag)%Z.

Definition ClearSnapshot (c : Checkpoint) : Checkpoint :=
  mkCheckpoint (cp_Stream c) (cp_GTIDSet c) false "" "" 0 0 0 (cp_SeqWatermark c)
    (cp_LastEventTsMs c) (cp_LastError c) (cp_SchemaVersion c) (cp_UpdatedAt c).

(** Field updates. *)
Definition set_Stream (s : string) (c : Checkpoint) : Checkpoint :=
  mkCheckpoint s (cp_GTIDSet c) (cp_SnapshotDone c) (cp_SnapshotStartGTID c) (cp_SnapshotCursor c)
    (cp_SnapshotBaseSeq c) (cp_SnapshotRowsDone c) (cp_SnapshotRowsTotal c) (cp_SeqWatermark c)
    (cp_LastEventTsMs c) (cp_LastError c) (cp_SchemaVersion c) (cp_UpdatedAt c).
Definition set_GTIDSet (g : string) (c : Checkpoint) : Checkpoint :=
  mkCheckpoint (cp_Stream c) g (cp_SnapshotDone c) (cp_SnapshotStartGTID c) (cp_SnapshotCursor c)
    (cp_SnapshotBaseSeq c) (cp_SnapshotRowsDone c) (cp_SnapshotRowsTotal c) (cp_SeqWatermark c)
    (cp_LastEventTsMs c) (cp_LastError c) (cp_SchemaVersion c) (cp_UpdatedAt c).
Definition set_Cursor (cursor : string) (rows : Z) (c : Checkpoint) : Checkpoint :=
  mkCheckpoint (cp_Stream c) (cp_GTIDSet c) (cp_SnapshotDone c) (cp_SnapshotStartGTID c) cursor
    (cp_SnapshotBaseSeq c) rows (cp_SnapshotRowsTotal c) (cp_SeqWatermark c)
    (cp_LastEventTsMs c) (cp_LastError c) (cp_SchemaVersion c) (cp_UpdatedAt c).
Definition set_SeqWatermark (n : Z) (c : Checkpoint) : Checkpoint :=
  mkCheckpoint (cp_Stream c) (cp_GTIDSet c) (cp_SnapshotDone c) (cp_SnapshotStartGTID c) (cp_SnapshotCursor c)
    (cp_SnapshotBaseSeq c) (cp_SnapshotRowsDone c) (cp_SnapshotRowsTotal c) n
    (cp_LastEventTsMs c) (cp_LastError c) (cp_SchemaVersion c) (cp_UpdatedAt c).
Definition set_LastEventTsMs (ms : Z) (c : Checkpoint) : Checkpoint :=
  mkCheckpoint (cp_Stream c) (cp_GTIDSet c) (cp_SnapshotDone c) (cp_SnapshotStartGTID c) (cp_SnapshotCursor c)
    (cp_SnapshotBaseSeq c) (cp_SnapshotRowsDone c) (cp_SnapshotRowsTotal c) (cp_SeqWatermark c)
    ms (cp_LastError c) (cp_SchemaVersion c) (cp_UpdatedAt c).
Definition set_SchemaVersion (v : Z) (c : Checkpoint) : Checkpoint :=
  mkCheckpoint (cp_Stream c) (cp_GTIDSet c) (cp_SnapshotDone c) (cp_SnapshotStartGTID c) (cp_SnapshotCursor c)
    (cp_SnapshotBaseSeq c) (cp_SnapshotRowsDone c) (cp_SnapshotRowsTotal c) (cp_SeqWatermark c)
    (cp_LastEventTsMs c) (cp_LastError c) v (cp_UpdatedAt c).
Definition set_UpdatedAt (t : Z) (c : Checkpoint) : Checkpoint :=
  mkCheckpoint (cp_Stream c) (cp_GTIDSet c) (cp_SnapshotDone c) (cp_SnapshotStartGTID c) (cp_SnapshotCursor c)
    (cp_SnapshotBaseSeq c) (cp_SnapshotRowsDone c) (cp_SnapshotRowsTotal c) (cp_SeqWatermark c)
    (cp_LastEventTsMs c) (cp_LastError c) (cp_SchemaVersion c) t.

(** [if cp.SchemaVersion == 0 { cp.SchemaVersion = SchemaVersion }]. *)
Definition default_version (c : Checkpoint) : Checkpoint :=
  if (cp_SchemaVersion c =? 0)%Z then set_SchemaVersion SchemaVersion c else c.

(** ** The store interface *)

Inductive store_error := ErrNotFound | StoreFailed (reason : string).

#[export] Instance store_error_eq_dec : EqDecision store_error.
Proof. solve_decision. Defined.

Class StoreOps (W : Type) := {
  store_Load : string -> eff W store_error Checkpoint;
  store_Save : Checkpoint -> eff W store_error ()
}.

(** A clock, read and not advanced by reading. *)
Class ClockOps (W : Type) := { clock : W -> Z }.

(** What a store promises. [view] is what it holds, under the names by
    [store_key]: a table takes for one the names that its collation does, which
    for others is none. A load changes nothing and reports what is held; a save
    replaces one stream's row, up to the time it stamps, the schema version it
    fills in and the spelling of the name; a save that reports failure may or may
    not have happened. *)
Definition saved_as (key : string -> string) (cp cp' : Checkpoint) : Prop :=
  exists t n, key n = key (cp_Stream cp) /\
    (cp' = set_Stream n (set_UpdatedAt t cp) \/ cp' = set_Stream n (set_UpdatedAt t (default_version cp))).

Class StoreLaws (W : Type) `{StoreOps W} := {
  store_key : string -> string;
  view : W -> gmap string Checkpoint;
  load_frame : forall s w, view (store_Load s w).1 = view w;
  load_ok : forall s w w' cp, store_Load s w = (w', Ok cp) -> view w !! store_key s = Some cp;
  load_not_found : forall s w w', store_Load s w = (w', Err ErrNotFound) -> view w !! store_key s = None;
  save_ok : forall cp w w', store_Save cp w = (w', Ok ()) ->
    exists cp', saved_as store_key cp cp' /\ view w' = <[store_key (cp_Stream cp) := cp']> (view w);
  save_err : forall cp w w' e, store_Save cp w = (w', Err e) ->
    view w' = view w \/
    exists cp', saved_as store_key cp cp' /\ view w' = <[store_key (cp_Stream cp) := cp']> (view w)
}.

Lemma set_Stream_same c : set_Stream (cp_Stream c) c = c.
Proof. by destruct c. Qed.

(** ** memory.go *)

Record MemoryStore := mkMemoryStore {
  ms_data : gmap string Checkpoint;
  ms_saves : Z;
  ms_now : Z
}.

Definition NewMemoryStore (now : Z) : MemoryStore := mkMemoryStore ∅ 0 now.

Definition MemoryStore_Load (stream : string) : eff MemoryStore store_error Checkpoint := fun s =>
  match ms_data s !! stream with
  | None => (s, Err ErrNotFound)
  | Some cp => (s, Ok cp)
  end.

Definition MemoryStore_Save (cp : Checkpoint) : eff MemoryStore store_error () := fun s =>
  (mkMemoryStore (<[cp_Stream cp := set_UpdatedAt (ms_now s) cp]> (ms_data s))
     (ms_saves s + 1) (ms_now s), Ok ()).

#[export] Instance MemoryStore_ops : StoreOps MemoryStore := {
  store_Load := MemoryStore_Load; store_Save := MemoryStore_Save }.
#[export] Instance MemoryStore_clock : ClockOps MemoryStore := { clock := ms_now }.

#[export] Program Instance MemoryStore_laws : StoreLaws MemoryStore := { store_key := fun s => s; view := ms_data }.
Next Obligation. intros s w. simpl. unfold MemoryStore_Load. by case_match. Qed.
Next Obligation. simpl. unfold MemoryStore_Load. intros. by case_match; simplify_eq. Qed.
Next Obligation. simpl. unfold MemoryStore_Load. intros. by case_match; simplify_eq. Qed.
Next Obligation.
  simpl. unfold MemoryStore_Save. intros cp w w' [= <-]. simpl.
  eexists. split; [|done]. exists (ms_now w), (cp_Stream cp). split; [done|left]. by destruct cp.
Qed.
Next Obligation. done. Qed.

(** ** seq.go *)

Definition floorShift : Z := 10.

Definition seqFloor (now : Z) : Z :=
  let ms := unix_milli now in
  if (ms <? 0)%Z then 0%Z else u64 (Z.shiftl ms floorShift).

Record Allocator := mkAllocator {
  al_stream : string;
  al_blockSize : Z;
  al_next : Z;
  al_end : Z
}.

Inductive alloc_error :=
  | EAllocStream
  | EAllocBlock
  | EAllocLoad (e : store_error)
  | EAllocExhausted
  | EAllocSave (e : store_error).

Definition NewAllocator (stream : string) (blockSize : Z) : res alloc_error Allocator :=
  if bool_decide (stream = "") then Err EAllocStream
  else if (blockSize =? 0)%Z then Err EAllocBlock
  else Ok (mkAllocator stream blockSize 1 0).

Section Allocator.
Context {W : Type} `{StoreOps W, ClockOps W}.

(** The first version of the next block. *)
Definition block_start (a : Allocator) (watermark now : Z) : Z :=
  let start := u64 (watermark + 1) in
  let floor := seqFloor now in
  let start := if (start <? floor)%Z then floor else start in
  if (start <=? al_end a)%Z then u64 (al_end a + 1) else start.

(** What [reserve] starts from: the stream's row, or a new one. *)
Definition loaded_or_new (stream : string) (loaded : res store_error Checkpoint)
  : res alloc_error Checkpoint :=
  match loaded with
  | Err ErrNotFound => Ok (set_Stream stream (set_SchemaVersion SchemaVersion zero_checkpoint))
  | Err e => Err (EAllocLoad e)
  | Ok cp => Ok cp
  end.

(** [(a *Allocator) reserve]. *)
Definition reserve : eff (Allocator * W) alloc_error () := fun '(a, w) =>
  let '(w, loaded) := store_Load (al_stream a) w in
  match loaded_or_new (al_stream a) loaded with
  | Err e => ((a, w), Err e)
  | Ok cp =>
    let start := block_start a (cp_SeqWatermark cp) (clock w) in
    let end_ := u64 (start + al_blockSize a - 1) in
    if (end_ <? start)%Z then ((a, w), Err EAllocExhausted)
    else
      let cp := default_version (set_SeqWatermark end_ (set_Stream (al_stream a) cp)) in
      match store_Save cp w with
      | (w, Err e) => ((a, w), Err (EAllocSave e))
      | (w, Ok _) => ((mkAllocator (al_stream a) (al_blockSize a) start end_, w), Ok ())
      end
  end.

(** [(a *Allocator) Next]. *)
Definition Next : eff (Allocator * W) alloc_error Z := fun '(a, w) =>
  let issue '(a, w) :=
    ((mkAllocator (al_stream a) (al_blockSize a) (u64 (al_next a + 1)) (al_end a), w),
     Ok (al_next a)) in
  if (al_end a <? al_next a)%Z then
    match reserve (a, w) with
    | (aw, Err e) => (aw, Err e)
    | (aw, Ok _) => issue aw
    end
  else issue (a, w).

End Allocator.

#[global] Arguments Next : simpl never.
#[global] Arguments reserve : simpl never.

(** ** Versions only grow

    The allocator inside the process that owns it, the store, and what else
    happens to them: the process may restart at any point, other code may save
    checkpoints, some of which may even take the watermark back, and the clock
    may read anything above a floor, which is zero for a clock of which nothing
    is known. *)

Section AllocatorRuns.
Context {W : Type} `{!StoreOps W, !StoreLaws W, !ClockOps W}.
Variable stream : string.

(** The watermark a stream's row holds. *)
Definition watermark (w : W) : Z :=
  match view w !! store_key stream with Some cp => cp_SeqWatermark cp | None => 0 end.

(** The allocator, the world, the versions issued, latest first, the highest
    watermark the row has had, and what versions taken from the clock are from
    now on at least. *)
Record alloc_state := mkAllocState {
  as_alloc : Allocator;
  as_world : W;
  as_issued : list Z;
  as_peak : Z;
  as_floor : Z
}.

(** Below the last version there is: at it the counter wraps. *)
Definition has_room (w : W) : Prop := (0 <= watermark w < 2 ^ 64 - 1)%Z.

(** Everything reserved so far is below the row's watermark, the end of the block
    the allocator holds, or the clock. *)
Definition guarded (a : Allocator) (w : W) (peak floor : Z) : Prop :=
  (peak <= Z.max (al_end a) (watermark w) \/ peak < floor)%Z.

(** The clock a reservation reads. *)
Definition clock_above (floor : Z) (w : W) : Prop := (floor <= seqFloor (clock (store_Load stream w).1))%Z.

Inductive alloc_step : alloc_state -> alloc_state -> Prop :=
  | StepIssue a w a' w' v l peak floor :
      Next (a, w) = ((a', w'), Ok v) -> has_room w' -> clock_above floor w ->
      alloc_step (mkAllocState a w l peak floor) (mkAllocState a' w' (v :: l) (Z.max peak (watermark w')) floor)
  | StepFail a w a' w' e l peak floor :
      Next (a, w) = ((a', w'), Err e) -> has_room w' -> clock_above floor w ->
      alloc_step (mkAllocState a w l peak floor) (mkAllocState a' w' l (Z.max peak (watermark w')) floor)
  | StepRestart a w a' bs l peak floor :
      NewAllocator stream bs = Ok a' -> (0 < bs < 2 ^ 64)%Z -> guarded a' w peak floor ->
      alloc_step (mkAllocState a w l peak floor) (mkAllocState a' w l peak floor)
  | StepElsewhere a w w' l peak floor :
      has_room w' -> guarded a w' (Z.max peak (watermark w')) floor ->
      alloc_step (mkAllocState a w l peak floor) (mkAllocState a w' l (Z.max peak (watermark w')) floor)
  | StepLater a w l peak floor floor' :
      (floor <= floor')%Z ->
      alloc_step (mkAllocState a w l peak floor) (mkAllocState a w l peak floor').

Definition alloc_init (s : alloc_state) : Prop :=
  exists bs, NewAllocator stream bs = Ok (as_alloc s) /\ (0 < bs < 2 ^ 64)%Z /\
    has_room (as_world s) /\ as_issued s = [] /\ as_peak s = watermark (as_world s).

(** What is issued was reserved, and what was reserved stays below what the
    allocator will issue next. *)
Record alloc_inv (s : alloc_state) : Prop := {
  ai_stream : al_stream (as_alloc s) = stream;
  ai_block : (0 < al_blockSize (as_alloc s) < 2 ^ 64)%Z;
  ai_room : has_room (as_world s);
  ai_peak : (0 <= as_peak s < 2 ^ 64 - 1)%Z /\ (watermark (as_world s) <= as_peak s)%Z;
  ai_end : (0 <= al_end (as_alloc s) <= as_peak s)%Z;
  ai_next : (0 < al_next (as_alloc s) <= al_end (as_alloc s) + 1)%Z;
  ai_sorted : StronglySorted Z.gt (as_issued s);
  ai_reserved : Forall (fun v => 0 <= v <= as_peak s)%Z (as_issued s);
  ai_fresh : (al_next (as_alloc s) <= al_end (as_alloc s))%Z ->
             Forall (fun v => v < al_next (as_alloc s))%Z (as_issued s);
  ai_guarded : guarded (as_alloc s) (as_world s) (as_peak s) (as_floor s)
}.

Lemma NewAllocator_fields bs a :
  NewAllocator stream bs = Ok a -> a = mkAllocator stream bs 1 0.
Proof. unfold NewAllocator. repeat case_match; congruence. Qed.

Lemma seqFloor_range t : (0 <= seqFloor t < 2 ^ 64)%Z.
Proof. unfold seqFloor. case_match; [lia|]. apply u64_in_range. Qed.

Lemma loaded_watermark w w1 loaded cp :
  store_Load stream w = (w1, loaded) -> loaded_or_new stream loaded = Ok cp ->
  cp_SeqWatermark cp = watermark w.
Proof.
  intros HL Hcp. pose proof (load_frame stream w) as Hf. rewrite HL in Hf. simpl in Hf.
  unfold watermark. destruct loaded as [c|[|]]; simplify_eq/=.
  - by rewrite (load_ok _ _ _ _ HL).
  - by rewrite (load_not_found _ _ _ HL).
Qed.

Lemma load_watermark w : watermark (store_Load stream w).1 = watermark w.
Proof. unfold watermark. by rewrite load_frame. Qed.

Lemma watermark_saved n cp cp' w w' :
  let cp := default_version (set_SeqWatermark n (set_Stream stream cp)) in
  saved_as store_key cp cp' -> view w' = <[store_key (cp_Stream cp) := cp']> (view w) -> watermark w' = n.
Proof.
  simpl. intros (t & name & Hn & Hcp) Hv. unfold watermark. rewrite Hv.
  assert (cp_Stream (default_version (set_SeqWatermark n (set_Stream stream cp))) = stream) as ->
    by (unfold default_version; by case_match).
  rewrite lookup_insert_eq. unfold default_version in Hcp.
  destruct Hcp as [->| ->]; repeat case_match; done.
Qed.

(** What the version a block starts at lies above. *)
Definition starts_above (a : Allocator) (w : W) (start : Z) : Prop :=
  (watermark w < start /\ al_end a < start /\ seqFloor (clock (store_Load stream w).1) <= start)%Z.

Lemma block_start_above a w now :
  has_room w -> (0 <= al_end a < 2 ^ 64 - 1)%Z ->
  (watermark w < block_start a (watermark w) now < 2 ^ 64 /\ al_end a < block_start a (watermark w) now /\
   seqFloor now <= block_start a (watermark w) now)%Z.
Proof.
  unfold block_start, has_room. intros. pose proof (seqFloor_range now).
  rewrite (u64_small (watermark w + 1)) by (unfold u64_range; lia).
  rewrite (u64_small (al_end a + 1)) by (unfold u64_range; lia).
  repeat case_match; bool_to_prop; lia.
Qed.

(** A reservation takes a block above the watermark, above the block the
    allocator holds and above the clock, durable before it is used; one that
    fails leaves the allocator as it was, and the watermark where it was or
    at the end of such a block. *)
Lemma reserve_spec a w a' w' r :
  al_stream a = stream -> has_room w -> (0 <= al_end a < 2 ^ 64 - 1)%Z ->
  (0 < al_blockSize a < 2 ^ 64)%Z ->
  reserve (a, w) = ((a', w'), r) ->
  match r with
  | Ok _ => al_stream a' = stream /\ al_blockSize a' = al_blockSize a /\ starts_above a w (al_next a') /\
      (al_next a' <= al_end a' < 2 ^ 64)%Z /\ watermark w' = al_end a'
  | Err _ => a' = a /\ (watermark w' = watermark w \/
      exists start, starts_above a w start /\ (start <= watermark w')%Z)
  end.
Proof.
  intros Hs Hroom Hend Hbs Hr. unfold reserve in Hr. rewrite Hs in Hr. unfold starts_above.
  pose proof (load_watermark w) as Hwm.
  destruct (store_Load stream w) as [w1 loaded] eqn:HL. simpl in Hwm. simpl.
  destruct (loaded_or_new stream loaded) as [cp|e] eqn:Hcp.
  2: { injection Hr as <- <- <-. auto. }
  rewrite (loaded_watermark _ _ _ _ HL Hcp) in Hr.
  pose proof (block_start_above a w (clock w1) Hroom Hend) as Hstart.
  set (start := block_start a (watermark w) (clock w1)) in *.
  pose proof (u64_in_range (start + al_blockSize a - 1)) as Hu. unfold u64_range in Hu.
  destruct (u64 (start + al_blockSize a - 1) <? start)%Z eqn:Hex; bool_to_prop.
  { injection Hr as <- <- <-. auto. }
  destruct (store_Save _ w1) as [w2 [[]|e]] eqn:HS; injection Hr as <- <- <-; simpl.
  - apply save_ok in HS as (cp' & Hsaved & Hv).
    rewrite (watermark_saved _ _ _ _ _ Hsaved Hv). repeat split; try done; lia.
  - split; [done|]. apply save_err in HS as [Hv|(cp' & Hsaved & Hv)].
    + left. unfold watermark in *. by rewrite Hv.
    + right. exists start. rewrite (watermark_saved _ _ _ _ _ Hsaved Hv). lia.
Qed.

(** It is above everything reserved before. *)
Lemma guarded_start a w peak floor start :
  guarded a w peak floor -> clock_above floor w -> starts_above a w start -> (peak < start)%Z.
Proof. unfold guarded, clock_above, starts_above. lia. Qed.

Lemma Next_reserved a w :
  (al_next a <= al_end a)%Z ->
  Next (a, w) = ((mkAllocator (al_stream a) (al_blockSize a) (u64 (al_next a + 1)) (al_end a), w),
                 Ok (al_next a)).
Proof. intros Hle. unfold Next. by rewrite (proj2 (Z.ltb_ge _ _)). Qed.

Lemma Next_exhausted a w :
  (al_end a < al_next a)%Z ->
  Next (a, w) =
    match reserve (a, w) with
    | (aw, Err e) => (aw, Err e)
    | ((a, w), Ok _) =>
        ((mkAllocator (al_stream a) (al_blockSize a) (u64 (al_next a + 1)) (al_end a), w), Ok (al_next a))
    end.
Proof.
  intros Hlt. unfold Next. rewrite (proj2 (Z.ltb_lt _ _)) by done.
  by destruct (reserve (a, w)) as [[? ?] [|]].
Qed.

(** A block starts at the floor the clock gives, or above it. *)
Lemma reserve_floor a w a' w' :
  (0 <= al_end a < 2 ^ 64 - 1)%Z -> reserve (a, w) = ((a', w'), Ok ()) ->
  (seqFloor (clock (store_Load (al_stream a) w).1) <= al_next a')%Z /\ (al_next a' <= al_end a')%Z.
Proof.
  intros Hend Hr. unfold reserve in Hr. destruct (store_Load (al_stream a) w) as [w1 loaded]. simpl.
  destruct (loaded_or_new _ loaded) as [cp|]; [|done].
  destruct (Z.ltb_spec (u64 (block_start a (cp_SeqWatermark cp) (clock w1) + al_blockSize a - 1))
     (block_start a (cp_SeqWatermark cp) (clock w1))) as [|Hle]; [done|].
  destruct (store_Save _ w1) as [w2 [[]|]]; [|done]. injection Hr as <- <-. simpl. split; [|done].
  unfold block_start. destruct (Z.leb_spec (if (u64 (cp_SeqWatermark cp + 1) <? seqFloor (clock w1))%Z
      then seqFloor (clock w1) else u64 (cp_SeqWatermark cp + 1)) (al_end a)) as [Hc|Hc].
  - rewrite u64_small by (unfold u64_range; lia). case_match; bool_to_prop; lia.
  - case_match; bool_to_prop; lia.
Qed.

(** Issuing out of a block keeps the invariant. *)
Lemma issue_inv a w l peak floor :
  al_stream a = stream -> (0 < al_blockSize a < 2 ^ 64)%Z -> has_room w ->
  (0 <= peak < 2 ^ 64 - 1)%Z -> (watermark w <= peak)%Z ->
  (0 < al_next a <= al_end a)%Z -> (al_end a <= peak)%Z ->
  StronglySorted Z.gt l -> Forall (fun v => 0 <= v < al_next a)%Z l -> guarded a w peak floor ->
  alloc_inv (mkAllocState (mkAllocator (al_stream a) (al_blockSize a) (u64 (al_next a + 1)) (al_end a))
               w (al_next a :: l) peak floor).
Proof.
  intros Hs Hbs Hroom Hpeak Hw Hn He Hsort Hl Hg. unfold has_room in *.
  assert (u64 (al_next a + 1) = al_next a + 1)%Z as -> by (apply u64_small; unfold u64_range; lia).
  split; simpl; try done; try lia.
  - constructor; [done|]. eapply Forall_impl; [exact Hl|]. simpl. lia.
  - constructor; [lia|]. eapply Forall_impl; [exact Hl|]. simpl. lia.
  - intros _. constructor; [lia|]. eapply Forall_impl; [exact Hl|]. simpl. lia.
Qed.

(** The row and its highest watermark change. *)
Lemma alloc_inv_row a w w' l peak floor :
  has_room w' -> guarded a w' (Z.max peak (watermark w')) floor ->
  alloc_inv (mkAllocState a w l peak floor) -> alloc_inv (mkAllocState a w' l (Z.max peak (watermark w')) floor).
Proof.
  intros Hroom Hg [Hs Hbs Hr Hp He Hn Hsort Hres Hfresh _]. unfold has_room in *. simpl in *.
  split; simpl; try done; try lia. eapply Forall_impl; [exact Hres|]. simpl. lia.
Qed.

Lemma issue_step a w a' w' v l peak floor :
  alloc_inv (mkAllocState a w l peak floor) -> Next (a, w) = ((a', w'), Ok v) -> has_room w' -> clock_above floor w ->
  alloc_inv (mkAllocState a' w' (v :: l) (Z.max peak (watermark w')) floor).
Proof.
  intros [Hs Hbs Hroom Hp He Hn Hsort Hres Hfresh Hg] HN Hroom' Hclock. simpl in *.
  destruct (Z.le_gt_cases (al_next a) (al_end a)) as [Hle|Hgt].
  - rewrite Next_reserved in HN by done. injection HN as <- <- <-.
    replace (Z.max peak (watermark w)) with peak by lia. apply issue_inv; try done; try lia.
    specialize (Hfresh Hle). rewrite Forall_forall in *. intros x Hx.
    specialize (Hfresh x Hx). specialize (Hres x Hx). simpl in *. lia.
  - rewrite Next_exhausted in HN by lia. destruct (reserve (a, w)) as [[a1 w1] r] eqn:HR.
    apply reserve_spec in HR; try done; [|lia]. destruct r as [[]|]; [|done].
    destruct HR as (Hs1 & Hb1 & Habove & Hn1 & Hw1). injection HN as <- <- <-.
    pose proof (guarded_start _ _ _ _ _ Hg Hclock Habove) as Hstart. unfold has_room in *.
    apply issue_inv; try done; try lia; [|left; lia].
    eapply Forall_impl; [exact Hres|]. simpl. lia.
Qed.

Lemma fail_step a w a' w' e l peak floor :
  alloc_inv (mkAllocState a w l peak floor) -> Next (a, w) = ((a', w'), Err e) -> has_room w' -> clock_above floor w ->
  alloc_inv (mkAllocState a' w' l (Z.max peak (watermark w')) floor).
Proof.
  intros Hinv HN Hroom' Hclock. pose proof Hinv as [Hs Hbs Hroom Hp He Hn _ _ _ Hg]. simpl in *.
  destruct (Z.le_gt_cases (al_next a) (al_end a)) as [Hle|Hgt]; [by rewrite Next_reserved in HN|].
  rewrite Next_exhausted in HN by lia. destruct (reserve (a, w)) as [[a1 w1] r] eqn:HR.
  apply reserve_spec in HR; try done; [|lia]. destruct r as [[]|]; [done|]. destruct HR as [-> Hw].
  injection HN as <- <- _. eapply alloc_inv_row; [done| |exact Hinv].
  destruct Hw as [Hw|(start & Habove & Hw)].
  - unfold guarded in *. rewrite Hw. lia.
  - pose proof (guarded_start _ _ _ _ _ Hg Hclock Habove). left. lia.
Qed.

(** A block just reserved guards what was reserved before it: while its process
    lives, any save may follow, that of a scan's start included. *)
Lemma reserved_guards a w a' w' v l peak floor w'' :
  alloc_inv (mkAllocState a w l peak floor) -> (al_end a < al_next a)%Z -> clock_above floor w ->
  Next (a, w) = ((a', w'), Ok v) ->
  guarded a' w'' (Z.max (Z.max peak (watermark w')) (watermark w'')) floor.
Proof.
  intros [Hs Hbs Hroom Hp He Hn _ _ _ Hg] Hgt Hclock HN. simpl in *. rewrite Next_exhausted in HN by lia.
  destruct (reserve (a, w)) as [[a1 w1] r] eqn:HR. apply reserve_spec in HR; try done; [|lia].
  destruct r as [[]|]; [|done]. destruct HR as (_ & _ & Habove & Hn1 & Hw1). injection HN as <- <- _.
  pose proof (guarded_start _ _ _ _ _ Hg Hclock Habove). left. simpl. lia.
Qed.

Lemma alloc_step_inv s s' : alloc_step s s' -> alloc_inv s -> alloc_inv s'.
Proof.
  intros [a w a' w' v l peak floor HN Hr Hc|a w a' w' e l peak floor HN Hr Hc|a w a' bs l peak floor HN Hbs Hg|
    a w w' l peak floor Hr Hg|a w l peak floor floor' Hle] Hinv;
    [by eapply issue_step|by eapply fail_step| |by eapply alloc_inv_row|].
  - apply NewAllocator_fields in HN as ->. destruct Hinv as [_ _ Hroom Hp He Hn Hsort Hres _ _].
    unfold has_room in *. simpl in *. split; simpl; try done; lia.
  - destruct Hinv as [Hs Hbs Hroom Hp He Hn Hsort Hres Hfresh Hg]. split; try done. unfold guarded in *. simpl in *. lia.
Qed.

Lemma alloc_init_inv s : alloc_init s -> alloc_inv s.
Proof.
  destruct s as [a w l peak floor]. intros (bs & Ha%NewAllocator_fields & Hbs & Hroom & Hl & Hp). simpl in *. subst a l peak.
  unfold has_room in *. split; simpl; try done; try lia; try constructor; simpl; lia.
Qed.


End AllocatorRuns.

(** ** Where versions are issued again *)

(** The end of the number space: one past the largest watermark wraps to zero,
    the exhaustion test does not fire, and versions start again from the clock,
    below those already issued. *)
Theorem reserve_wraps_at_limit s bs cp w :
  ms_data w !! s = Some cp -> cp_SeqWatermark cp = (2 ^ 64 - 1)%Z ->
  (0 < seqFloor (ms_now w))%Z -> (0 < bs)%Z -> (seqFloor (ms_now w) + bs < 2 ^ 64)%Z ->
  exists aw, Next (mkAllocator s bs 1 0, w) = (aw, Ok (seqFloor (ms_now w))).
Proof.
  intros Hcp Hwm Hf Hbs Hroom. rewrite Next_exhausted by (simpl; lia). unfold reserve. simpl.
  unfold MemoryStore_Load. rewrite Hcp. simpl. unfold block_start. simpl.
  rewrite Hwm. change (u64 (2 ^ 64 - 1 + 1)) with 0%Z.
  rewrite (proj2 (Z.ltb_lt 0 _)) by done. rewrite (proj2 (Z.leb_gt _ 0)) by done.
  rewrite (u64_small (_ + bs - 1)) by (unfold u64_range; lia).
  rewrite (proj2 (Z.ltb_ge _ _)) by lia. simpl. eauto.
Qed.

(** A checkpoint loaded before a reservation and saved after it takes the
    watermark back: an allocator started then issues the same versions again
    while the clock has not moved past the first block. *)
Theorem stale_save_reissues s bs cp w a1 w1 v :
  cp_Stream cp = s -> ms_data w !! s = Some cp ->
  Next (mkAllocator s bs 1 0, w) = ((a1, w1), Ok v) -> (0 <= cp_SeqWatermark cp)%Z ->
  exists aw, Next (mkAllocator s bs 1 0, (MemoryStore_Save cp w1).1) = (aw, Ok v).
Proof.
  intros Hs Hcp HN Hwm. rewrite Next_exhausted in * by (simpl; lia).
  unfold reserve in *. simpl in *. unfold MemoryStore_Load in *. rewrite Hcp in HN. simpl in *.
  rewrite Hs. simpl. rewrite lookup_insert_eq. simpl.
  destruct (_ <? _)%Z eqn:Hex in HN; [done|]. simpl in HN. injection HN as <- <- <-. simpl.
  rewrite Hex. simpl. eauto.
Qed.
