(* ===== verification/CheckpointTable.v ===== *)
(** * Checkpoints in MySQL ([internal/checkpoint/mysql.go])

    The store of checkpoints in a table: its statements as the source writes
    them, what is read back of a row, the recording of errors, and the advisory
    lock of a stream. The server is an interface that carries out whatever
    statements of [SqlText] it is sent as [SqlTable] says, with its collation as
    the function that tells keys apart; which statements the store's texts spell
    is shown here. The store is then an instance of the interface of
    [Checkpoint], under any collation. *)

From Stdlib Require Import Ascii.
From S2P Require Import Prelude GoStd GoEncoding Sql SqlText SqlTable Checkpoint.

(** ** Statements *)

Definition create_statement (table : string) : string := "
CREATE TABLE IF NOT EXISTS " +:+ table +:+ " (
    stream              VARCHAR(64)      NOT NULL PRIMARY KEY,
    gtid_set            TEXT             NOT NULL,
    snapshot_done       TINYINT(1)       NOT NULL DEFAULT 0,
    snapshot_start_gtid TEXT                 NULL,
    snapshot_cursor     VARBINARY(255)       NULL,
    snapshot_base_seq   BIGINT UNSIGNED  NOT NULL DEFAULT 0,
    snapshot_rows_done  BIGINT UNSIGNED  NOT NULL DEFAULT 0,
    snapshot_rows_total BIGINT UNSIGNED  NOT NULL DEFAULT 0,
    seq_watermark       BIGINT UNSIGNED  NOT NULL DEFAULT 0,
    last_event_ts_ms    BIGINT           NOT NULL DEFAULT 0,
    last_error          TEXT                 NULL,
    schema_version      INT              NOT NULL DEFAULT 1,
    updated_at          TIMESTAMP        NOT NULL DEFAULT CURRENT_TIMESTAMP ON UPDATE CURRENT_TIMESTAMP
) ENGINE=InnoDB".

Definition probe_statement (table : string) : string := "SELECT 1 FROM " +:+ table +:+ " WHERE 1=0".

Definition select_statement (table : string) : string := "
		SELECT stream, gtid_set, snapshot_done, COALESCE(snapshot_start_gtid,''),
		       snapshot_cursor, snapshot_base_seq, snapshot_rows_done,
		       snapshot_rows_total, seq_watermark, last_event_ts_ms,
		       COALESCE(last_error,''), schema_version, updated_at
		FROM " +:+ table +:+ " WHERE stream = ?".

Definition upsert_statement (table : string) : string := "
		INSERT INTO " +:+ table +:+ " (stream, gtid_set, snapshot_done, snapshot_start_gtid,
		                snapshot_cursor, snapshot_base_seq, snapshot_rows_done,
		                snapshot_rows_total, seq_watermark, last_event_ts_ms,
		                last_error, schema_version)
		VALUES (?,?,?,?,?,?,?,?,?,?,?,?)
		ON DUPLICATE KEY UPDATE
		    gtid_set = VALUES(gtid_set),
		    snapshot_done = VALUES(snapshot_done),
		    snapshot_start_gtid = VALUES(snapshot_start_gtid),
		    snapshot_cursor = VALUES(snapshot_cursor),
		    snapshot_base_seq = VALUES(snapshot_base_seq),
		    snapshot_rows_done = VALUES(snapshot_rows_done),
		    snapshot_rows_total = VALUES(snapshot_rows_total),
		    seq_watermark = VALUES(seq_watermark),
		    last_event_ts_ms = VALUES(last_event_ts_ms),
		    last_error = VALUES(last_error),
		    schema_version = VALUES(schema_version)".

Definition error_statement (table : string) : string :=
  "UPDATE " +:+ table +:+ " SET last_error = ? WHERE stream = ?".

Definition names_statement (table : string) : string := "SELECT stream FROM " +:+ table +:+ " ORDER BY stream".

(** [time.ParseInLocation] in UTC. *)
Class SqlTime := { sql_ParseUTC : string -> string -> option Z }.

(** ** Reading a row *)

(** The destinations [Load] scans into; the time is converted afterwards. *)
Definition scan_checkpoint (row : list sql_value) : option (Checkpoint * sql_value) :=
  match row with
  | [stream; gtid; done; start; cursor; base; rows; total; watermark; ts; error; version; updated] =>
    stream ← scan_string stream; gtid ← scan_string gtid; done ← scan_bool done;
    start ← scan_string start; cursor ← scan_bytes cursor; base ← scan_uint64 base;
    rows ← scan_uint64 rows; total ← scan_uint64 total; watermark ← scan_uint64 watermark;
    ts ← scan_int64 ts; error ← scan_string error; version ← scan_int64 version;
    Some (mkCheckpoint stream gtid done start cursor base rows total watermark ts error version zero_time, updated)
  | _ => None
  end.

Section Timestamps.
Context `{!SqlTime}.

Definition timestamp_layouts : list string := ["2006-01-02 15:04:05.999999"; "2006-01-02 15:04:05"].

Fixpoint first_layout (layouts : list string) (s : string) : option Z :=
  match layouts with
  | [] => None
  | l :: layouts => match sql_ParseUTC l s with Some t => Some t | None => first_layout layouts s end
  end.

Definition parseTimestampText (s : string) : option Z :=
  let s := TrimSpace s in
  if bool_decide (s = "") || HasPrefix s "0000-00-00" then Some zero_time else first_layout timestamp_layouts s.

Definition parseTimestamp (v : sql_value) : option Z :=
  match v with
  | SNull => Some zero_time
  | STime t => Some t
  | SText s => parseTimestampText s
  | SInt _ => None
  end.

End Timestamps.

(** ** The store *)

Record MySQLStore := mkMySQLStore { my_table : string; my_LockTimeout : Z }.

Inductive mysql_error :=
  | ENoDatabase
  | ETableEmpty
  | ETableMalformed (name : string)
  | ETableName (name : string)
  | ENotFound
  | ENotInitialized
  | ESql (e : sql_error)
  | EUnreadableRow
  | EUnreadableTime (stream : string)
  | ENewerVersion (stream : string) (version : Z)
  | EStreamEmpty
  | EStreamLong (stream : string)
  | EStreamLocked (stream : string).

Definition identifier_byte (c : ascii) : bool :=
  let b := byte_val c in
  ((b =? 95) || (b =? 36) || (97 <=? b) && (b <=? 122) || (65 <=? b) && (b <=? 90) || (48 <=? b) && (b <=? 57))%Z.

Fixpoint check_parts (name : string) (parts : list string) : option mysql_error :=
  match parts with
  | [] => None
  | part :: parts =>
    if bool_decide (part = "") then Some (ETableMalformed name)
    else if str_forall identifier_byte part then check_parts name parts
    else Some (ETableName name)
  end.

Definition validateIdentifier (name : string) : option mysql_error :=
  if bool_decide (name = "") then Some ETableEmpty else check_parts name (SplitByte "." name).

Definition NewMySQLStore (db : bool) (table : string) : res mysql_error MySQLStore :=
  if negb db then Err ENoDatabase
  else match validateIdentifier table with
  | Some e => Err e
  | None => Ok (mkMySQLStore table (10 * 10 ^ 9))
  end.

Definition maxStreamNameLen : Z := 48.
Definition validateStream (stream : string) : option mysql_error :=
  if bool_decide (stream = "") then Some EStreamEmpty
  else if (maxStreamNameLen <? slen stream)%Z then Some (EStreamLong stream)
  else None.

Definition missingTableCode : Z := 1146.
Definition asMissingTable (e : sql_error) : mysql_error :=
  match e with
  | SqlServer n _ => if (n =? missingTableCode)%Z then ENotInitialized else ESql e
  | SqlDriver _ => ESql e
  end.

Definition ellipsis : string :=
  String (ascii_of_nat 226) (String (ascii_of_nat 128) (str1 (ascii_of_nat 166))).
Definition maxRecordedErrorLen : nat := 1000.

(** The reason as [RecordError] stores it, cut at a byte. *)
Definition recorded_reason (reason : string) : sql_value :=
  let reason := if (Z.of_nat maxRecordedErrorLen <? slen reason)%Z
                then String.substring 0 maxRecordedErrorLen reason +:+ ellipsis else reason in
  if bool_decide (reason = "") then SNull else SText reason.

(** [time.Duration.Round]: halves away from zero, saturating. *)
Definition duration_Round (d m : Z) : Z :=
  if (m <=? 0)%Z then d
  else if (d <? 0)%Z then
    let r := ((- d) mod m)%Z in
    if (r + r <? m)%Z then (d + r)%Z
    else if (- 2 ^ 63 <=? d - m + r)%Z then (d - m + r)%Z else (- 2 ^ 63)%Z
  else
    let r := (d mod m)%Z in
    if (r + r <? m)%Z then (d - r)%Z
    else if (d + m - r <? 2 ^ 63)%Z then (d + m - r)%Z else (2 ^ 63 - 1)%Z.

Definition lock_name (stream : string) : string := "changeflow:" +:+ stream.
Definition second : Z := 10 ^ 9.
Definition wait_seconds (timeout : Z) : Z := Z.max 0 (Z.quot (duration_Round timeout second) second).

(** A pinned connection, and a stream's lock with the connection that holds it
    until it is released. *)
Class ConnOps (W : Type) := {
  conn_Open : eff W sql_error Z;
  conn_QueryRow : Z -> string -> list sql_value -> eff W sql_error (option (list sql_value));
  conn_Exec : Z -> string -> list sql_value -> eff W sql_error ();
  conn_Close : Z -> eff W sql_error ()
}.

Record StreamLock := mkStreamLock { lk_conn : option Z; lk_name : string; lk_stream : string }.

Definition get_lock : string := "SELECT GET_LOCK(?, ?)".
Definition is_used_lock : string := "SELECT IS_USED_LOCK(?)".
Definition release_lock : string := "SELECT RELEASE_LOCK(?)".

(** Scanning one column into an [sql.NullInt64]. *)
Definition scan_null_int (row : option (list sql_value)) : option (option Z) :=
  match row with
  | Some [SNull] => Some None
  | Some [SInt z] => Some (Some z)
  | _ => None
  end.

Section Store.
Context {W : Type} `{!SqlOps W, !SqlTime}.
Variable s : MySQLStore.

(** Any row of the probe, and any error but the absence of one, counts as no
    table. *)
Definition schemaExists (w : W) : W * bool :=
  match sql_QueryRow (probe_statement (my_table s)) [] w with
  | (w, Ok None) => (w, true)
  | (w, _) => (w, false)
  end.

Definition EnsureSchema : eff W mysql_error () := fun w =>
  let '(w, exists_) := schemaExists w in
  if exists_ then (w, Ok ()) else eff_map_err ESql (sql_Exec (create_statement (my_table s)) []) w.

(** [Load], on what the query answered. *)
Definition read_checkpoint (stream : string) (answer : res sql_error (option (list sql_value)))
  : res mysql_error Checkpoint :=
  match answer with
  | Ok None => Err ENotFound
  | Err e => Err (asMissingTable e)
  | Ok (Some row) =>
    match scan_checkpoint row with
    | None => Err EUnreadableRow
    | Some (cp, updated) =>
      match parseTimestamp updated with
      | None => Err (EUnreadableTime stream)
      | Some t =>
        if (SchemaVersion <? cp_SchemaVersion cp)%Z then Err (ENewerVersion stream (cp_SchemaVersion cp))
        else Ok (set_UpdatedAt t cp)
      end
    end
  end.

Definition MySQL_Load (stream : string) : eff W mysql_error Checkpoint := fun w =>
  let '(w, answer) := sql_QueryRow (select_statement (my_table s)) [SText stream] w in
  (w, read_checkpoint stream answer).

Definition sql_bool (b : bool) : sql_value := SInt (if b then 1 else 0).

Definition save_args (cp : Checkpoint) : list sql_value :=
  [SText (cp_Stream cp); SText (cp_GTIDSet cp); sql_bool (cp_SnapshotDone cp); SText (cp_SnapshotStartGTID cp);
   SText (cp_SnapshotCursor cp); SInt (cp_SnapshotBaseSeq cp); SInt (cp_SnapshotRowsDone cp);
   SInt (cp_SnapshotRowsTotal cp); SInt (cp_SeqWatermark cp); SInt (cp_LastEventTsMs cp);
   SText (cp_LastError cp); SInt (cp_SchemaVersion cp)].

Definition MySQL_Save (cp : Checkpoint) : eff W mysql_error () := fun w =>
  match validateStream (cp_Stream cp) with
  | Some e => (w, Err e)
  | None => eff_map_err ESql (sql_Exec (upsert_statement (my_table s)) (save_args (default_version cp))) w
  end.

Definition RecordError (stream reason : string) : eff W mysql_error () := fun w =>
  match validateStream stream with
  | Some e => (w, Err e)
  | None => eff_map_err ESql (sql_Exec (error_statement (my_table s)) [recorded_reason reason; SText stream]) w
  end.

(** [List]: the names first, then each checkpoint. *)
Fixpoint load_all (names : list string) : eff W mysql_error (list Checkpoint) :=
  match names with
  | [] => mret []
  | name :: names => cp ← MySQL_Load name; rest ← load_all names; mret (cp :: rest)
  end.

Definition scan_name (row : list sql_value) : option string :=
  match row with [v] => scan_string v | _ => None end.

Definition MySQL_List : eff W mysql_error (list Checkpoint) :=
  rows ← eff_map_err ESql (sql_Query (names_statement (my_table s)) []);
  match mapM scan_name rows with
  | None => eff_fail EUnreadableRow
  | Some names => load_all names
  end.

Context `{!ConnOps W}.

(** [Lock]: the connection is closed on every way out but the last. *)
Definition Lock (stream : string) : eff W mysql_error StreamLock := fun w =>
  match validateStream stream with
  | Some e => (w, Err e)
  | None =>
    match conn_Open w with
    | (w, Err e) => (w, Err (ESql e))
    | (w, Ok conn) =>
      let name := lock_name stream in
      match conn_QueryRow conn get_lock [SText name; SInt (wait_seconds (my_LockTimeout s))] w with
      | (w, Err e) => ((conn_Close conn w).1, Err (ESql e))
      | (w, Ok row) =>
        match scan_null_int row with
        | None => ((conn_Close conn w).1, Err EUnreadableRow)
        | Some (Some 1%Z) => (w, Ok (mkStreamLock (Some conn) name stream))
        | Some _ =>
          let w := (conn_QueryRow conn is_used_lock [SText name] w).1 in
          ((conn_Close conn w).1, Err (EStreamLocked stream))
        end
      end
    end
  end.

Definition Release : eff (StreamLock * W) mysql_error () := fun '(l, w) =>
  match lk_conn l with
  | None => ((l, w), Ok ())
  | Some conn =>
    let '(w, r1) := conn_Exec conn release_lock [SText (lk_name l)] w in
    let '(w, r2) := conn_Close conn w in
    let l := mkStreamLock None (lk_name l) (lk_stream l) in
    ((l, w), match r1 with Err e => Err (ESql e) | Ok _ => map_err ESql r2 end)
  end.

Definition Held (l : StreamLock) (w : W) : W * bool :=
  match lk_conn l with
  | None => (w, false)
  | Some conn =>
    match conn_QueryRow conn is_used_lock [SText (lk_name l)] w with
    | (w, Ok row) => (w, match scan_null_int row with Some (Some _) => true | _ => false end)
    | (w, Err _) => (w, false)
    end
  end.

End Store.

(** ** The table *)

(** The columns [create_statement] declares. *)
Definition checkpoint_table (table : string) : table_schema := mkTable table
  [("stream", CText); ("gtid_set", CText); ("snapshot_done", CNumber); ("snapshot_start_gtid", CNullText);
   ("snapshot_cursor", CNullText); ("snapshot_base_seq", CNumber); ("snapshot_rows_done", CNumber);
   ("snapshot_rows_total", CNumber); ("seq_watermark", CNumber); ("last_event_ts_ms", CNumber);
   ("last_error", CNullText); ("schema_version", CNumber); ("updated_at", CStamp)] "stream".

(** What the texts spell. *)
Definition load_query (table : string) : select := {|
  sel_exprs := [ECol "stream"; ECol "gtid_set"; ECol "snapshot_done"; ECoalesce "snapshot_start_gtid";
    ECol "snapshot_cursor"; ECol "snapshot_base_seq"; ECol "snapshot_rows_done"; ECol "snapshot_rows_total";
    ECol "seq_watermark"; ECol "last_event_ts_ms"; ECoalesce "last_error"; ECol "schema_version"; ECol "updated_at"];
  sel_from := Plain table; sel_where := Some (mkCondition ["stream"] OpEq); sel_order := []; sel_limit := false |}.

Definition save_insert (table : string) : insert := {|
  ins_into := Plain table;
  ins_columns := ["stream"; "gtid_set"; "snapshot_done"; "snapshot_start_gtid"; "snapshot_cursor"; "snapshot_base_seq";
    "snapshot_rows_done"; "snapshot_rows_total"; "seq_watermark"; "last_event_ts_ms"; "last_error"; "schema_version"];
  ins_update := map (fun c => (c, c)) ["gtid_set"; "snapshot_done"; "snapshot_start_gtid"; "snapshot_cursor"; "snapshot_base_seq";
    "snapshot_rows_done"; "snapshot_rows_total"; "seq_watermark"; "last_event_ts_ms"; "last_error"; "schema_version"] |}.

Definition error_update (table : string) : update := {|
  upd_table := Plain table; upd_set := ["last_error"]; upd_where := Some (mkCondition ["stream"] OpEq) |}.

Lemma select_spelled table : is_word table = true -> spelled (select_statement table) = Some (Select (load_query table)).
Proof.
  intros Hw. unfold spelled, select_statement. erewrite tokens_around; [|done|vm_compute; reflexivity|done|vm_compute; reflexivity].
  vm_compute. reflexivity.
Qed.

Lemma upsert_spelled table : is_word table = true -> spelled (upsert_statement table) = Some (Insert (save_insert table)).
Proof.
  intros Hw. unfold spelled, upsert_statement. erewrite tokens_around; [|done|vm_compute; reflexivity|done|vm_compute; reflexivity].
  vm_compute. reflexivity.
Qed.

Lemma error_spelled table : is_word table = true -> spelled (error_statement table) = Some (Update (error_update table)).
Proof.
  intros Hw. unfold spelled, error_statement. erewrite tokens_around; [|done|vm_compute; reflexivity|done|vm_compute; reflexivity].
  vm_compute. reflexivity.
Qed.

(** A name [NewMySQLStore] accepts is a word. *)
Lemma parts_word_bytes name s p l :
  SplitByte "." s = p :: l -> str_forall identifier_byte p = true -> check_parts name l = None ->
  str_forall word_byte s = true.
Proof.
  revert p l. induction s as [|c s IH]; intros p l Hs Hp Hl; [done|]. cbn [SplitByte] in Hs.
  destruct (SplitByte "." s) as [|x k] eqn:E; [by destruct (SplitByte_ne "." s)|]. cbn [str_forall].
  destruct (ascii_dec c ".") as [->|Hc].
  - injection Hs as <- <-. cbn [check_parts] in Hl. case_bool_decide; [done|].
    destruct (str_forall identifier_byte x) eqn:Hx; [|done]. by rewrite (IH _ _ eq_refl Hx Hl).
  - injection Hs as <- <-. cbn [str_forall] in Hp. apply andb_true_iff in Hp as [Hc' Hp].
    rewrite (IH _ _ eq_refl Hp Hl), andb_true_r. unfold word_byte. change (name_byte c) with (identifier_byte c). by rewrite Hc'.
Qed.

Lemma identifier_word name : validateIdentifier name = None -> is_word name = true.
Proof.
  unfold validateIdentifier. case_bool_decide as Hne; [done|]. intros Hn. destruct name as [|c s]; [done|].
  destruct (SplitByte "." (String c s)) as [|p l] eqn:E; [by destruct (SplitByte_ne "." (String c s))|].
  cbn [check_parts] in Hn. case_bool_decide as Hp; [done|]. destruct (str_forall identifier_byte p) eqn:Hb; [|done].
  pose proof (parts_word_bytes _ _ _ _ E Hb Hn) as Hall. cbn [str_forall is_word] in *. apply andb_true_iff in Hall as [_ ->].
  rewrite andb_true_r. cbn [SplitByte] in E. destruct (SplitByte "." s) as [|x k]; [|destruct (ascii_dec c ".")];
    injection E as <- _; [| |]; try done; cbn [str_forall] in Hb; by apply andb_true_iff in Hb as [? _].
Qed.

(** *** What is read of a row *)

Definition row_text (r : row) (c : string) : string := match column_value r c with SText s => s | _ => "" end.
Definition row_number (r : row) (c : string) : Z := match column_value r c with SInt z => z | _ => 0 end.

Section Rows.
Context `{!SqlTime}.

Definition time_readable (v : sql_value) : Prop := is_Some (parseTimestamp v).

(** The checkpoint a row stands for. *)
Definition row_checkpoint (r : row) : Checkpoint := {|
  cp_Stream := row_text r "stream"; cp_GTIDSet := row_text r "gtid_set";
  cp_SnapshotDone := bool_decide (row_number r "snapshot_done" = 1%Z);
  cp_SnapshotStartGTID := row_text r "snapshot_start_gtid"; cp_SnapshotCursor := row_text r "snapshot_cursor";
  cp_SnapshotBaseSeq := row_number r "snapshot_base_seq"; cp_SnapshotRowsDone := row_number r "snapshot_rows_done";
  cp_SnapshotRowsTotal := row_number r "snapshot_rows_total"; cp_SeqWatermark := row_number r "seq_watermark";
  cp_LastEventTsMs := row_number r "last_event_ts_ms"; cp_LastError := row_text r "last_error";
  cp_SchemaVersion := row_number r "schema_version";
  cp_UpdatedAt := default zero_time (parseTimestamp (column_value r "updated_at")) |}.

Definition is_uint64 (z : Z) : bool := ((0 <=? z) && (z <? 2 ^ 64))%Z.
Definition is_int64 (z : Z) : bool := ((- 2 ^ 63 <=? z) && (z <? 2 ^ 63))%Z.
Definition is_flag (z : Z) : bool := ((z =? 0) || (z =? 1))%Z.

(** The numbers are in the range of the Go types they are scanned into. *)
Definition in_ranges (r : row) : bool :=
  is_flag (row_number r "snapshot_done") && is_uint64 (row_number r "snapshot_base_seq") &&
  is_uint64 (row_number r "snapshot_rows_done") && is_uint64 (row_number r "snapshot_rows_total") &&
  is_uint64 (row_number r "seq_watermark") && is_int64 (row_number r "last_event_ts_ms") &&
  is_int64 (row_number r "schema_version").

(** A row this build can read: its time is readable and its version known too. *)
Definition readable (r : row) : bool :=
  in_ranges r && bool_decide (time_readable (column_value r "updated_at")) &&
  (row_number r "schema_version" <=? SchemaVersion)%Z.

(** What [Load] is given of a row. *)
Definition loaded_columns (table : string) (r : row) : list sql_value :=
  map (eval_expr coalesce_text (column_value r)) (sel_exprs (load_query table)).

Lemma scan_flag z : scan_bool (SInt z) = if is_flag z then Some (bool_decide (z = 1%Z)) else None.
Proof. destruct z as [|[p|p|]|p]; done. Qed.

(** Scanning a row whose columns have their types. *)
Lemma scan_columns table r :
  typed (checkpoint_table table) r = true ->
  scan_checkpoint (loaded_columns table r) =
    if in_ranges r then Some (set_UpdatedAt zero_time (row_checkpoint r), column_value r "updated_at") else None.
Proof.
  unfold typed, checkpoint_table, scan_checkpoint, loaded_columns, in_ranges, row_checkpoint, row_text, row_number.
  cbn [tb_columns forallb fst snd sel_exprs load_query map eval_expr]. rewrite !andb_true_iff.
  intros (H1 & H2 & H3 & H4 & H5 & H6 & H7 & H8 & H9 & H10 & H11 & H12 & _).
  destruct (column_value r "stream"), (column_value r "gtid_set"), (column_value r "snapshot_done"); try discriminate.
  destruct (column_value r "snapshot_base_seq"), (column_value r "snapshot_rows_done"), (column_value r "snapshot_rows_total"),
    (column_value r "seq_watermark"), (column_value r "last_event_ts_ms"), (column_value r "schema_version"); try discriminate.
  clear H1 H2 H3 H6 H7 H8 H9 H10 H12.
  assert (forall v, has_type CNullText v = true -> scan_string (coalesce_text v) = Some (match v with SText s => s | _ => "" end) /\
    scan_bytes v = Some (match v with SText s => s | _ => "" end)) as Hnull by (by intros []).
  destruct (Hnull _ H4) as [-> _]. destruct (Hnull _ H5) as [_ ->]. destruct (Hnull _ H11) as [-> _]. clear Hnull H4 H5 H11.
  cbn [scan_string]. rewrite scan_flag. unfold scan_uint64, scan_int64, is_uint64, is_int64.
  repeat (case_match; cbn [mbind option_bind andb] in *; try done).
Qed.

Lemma read_readable table stream r :
  typed (checkpoint_table table) r = true -> readable r = true ->
  read_checkpoint stream (Ok (Some (loaded_columns table r))) = Ok (row_checkpoint r).
Proof.
  intros Ht. unfold readable, read_checkpoint. rewrite !andb_true_iff. intros [[Hr [t Hp]%bool_decide_eq_true] Hv].
  rewrite scan_columns, Hr, Hp by done. replace (SchemaVersion <? _)%Z with false by (symmetry; apply Z.ltb_ge; cbn; lia).
  unfold row_checkpoint. by rewrite Hp.
Qed.

Lemma read_sound table stream r c :
  typed (checkpoint_table table) r = true ->
  read_checkpoint stream (Ok (Some (loaded_columns table r))) = Ok c -> c = row_checkpoint r.
Proof.
  intros Ht. unfold read_checkpoint. rewrite scan_columns by done. destruct (in_ranges r); [|done].
  destruct (parseTimestamp (column_value r "updated_at")) as [t|] eqn:Hp; [|done]. case_match; [done|].
  intros [= <-]. unfold row_checkpoint. by rewrite Hp.
Qed.

(** *** What is written of a checkpoint *)

(** The row of a checkpoint after a save at time [t]. *)
Definition stored (t : sql_value) (cp : Checkpoint) (old : option row) : row :=
  let i := save_insert "" in
  let new := new_row i (save_args cp) in
  stamped (checkpoint_table "") t (match old with Some o => reassigned i new o | None => new end).

Lemma stored_columns t cp old c :
  column_value (stored t cp old) c =
  if bool_decide (c = "stream") then match old with Some o => column_value o "stream" | None => SText (cp_Stream cp) end
  else if bool_decide (c = "updated_at") then t
  else if bool_decide (c ∈ ins_columns (save_insert "")) then column_value (new_row (save_insert "") (save_args cp)) c
  else match old with Some o => column_value o c | None => SNull end.
Proof.
  unfold stored. set (new := new_row _ _).
  unfold stamped, checkpoint_table. cbn [tb_columns foldl fst snd]. unfold column_value at 1.
  case_bool_decide as Hs; [subst c|case_bool_decide as Hu; [subst c|]].
  - rewrite lookup_insert_ne by done. destruct old as [o|]; [|reflexivity].
    unfold reassigned. cbn [save_insert ins_update map foldl fst snd]. by rewrite !lookup_insert_ne by done.
  - by rewrite lookup_insert_eq.
  - rewrite lookup_insert_ne by done. destruct old as [o|].
    + unfold reassigned. cbn [save_insert ins_update map foldl fst snd].
      case_bool_decide as Hin.
      * repeat (apply elem_of_cons in Hin as [->|Hin]; [repeat (rewrite lookup_insert_eq || rewrite lookup_insert_ne by done); done|]).
        by apply not_elem_of_nil in Hin.
      * assert (forall n, n ∈ ins_columns (save_insert "") -> n <> c) as Hne by (by intros n Hn ->).
        by rewrite !lookup_insert_ne by (apply Hne; cbn; repeat constructor).
    + case_bool_decide as Hin; [done|]. unfold new, new_row. rewrite (not_elem_of_list_to_map_1 _ c); [done|]. done.
Qed.

(** A checkpoint whose numbers are in the range of their Go types. *)
Definition well_typed (cp : Checkpoint) : bool :=
  is_uint64 (cp_SnapshotBaseSeq cp) && is_uint64 (cp_SnapshotRowsDone cp) &&
  is_uint64 (cp_SnapshotRowsTotal cp) && is_uint64 (cp_SeqWatermark cp) &&
  is_int64 (cp_LastEventTsMs cp) && is_int64 (cp_SchemaVersion cp) && (cp_SchemaVersion cp <=? SchemaVersion)%Z.

(** Its row reads as the checkpoint, under the name that was there before. *)
Lemma stored_checkpoint t cp old :
  row_checkpoint (stored t cp old) =
  set_Stream (match old with Some o => row_text o "stream" | None => cp_Stream cp end)
    (set_UpdatedAt (default zero_time (parseTimestamp t)) cp).
Proof.
  unfold row_checkpoint, row_text, row_number. rewrite !stored_columns. cbn [bool_decide].
  destruct old as [o|]; destruct cp as [? ? [] ? ? ? ? ? ? ? ? ? ?]; reflexivity.
Qed.

Lemma stored_readable t cp old : time_readable t -> well_typed cp = true -> readable (stored t cp old) = true.
Proof.
  intros Ht. unfold readable, in_ranges, row_number. rewrite !stored_columns.
  rewrite (bool_decide_eq_true_2 (time_readable _)) by exact Ht.
  unfold well_typed. rewrite !andb_true_iff. intros ((((((? & ?) & ?) & ?) & ?) & ?) & ?).
  destruct cp as [? ? [] ? ? ? ? ? ? ? ? ? ?]; cbn in *; by split_and!.
Qed.

Lemma default_version_Stream cp : cp_Stream (default_version cp) = cp_Stream cp.
Proof. unfold default_version. by case_match. Qed.

Lemma default_version_typed cp : well_typed cp = true -> well_typed (default_version cp) = true.
Proof. unfold default_version. case_match; [|done]. unfold well_typed. cbn. rewrite !andb_true_iff. tauto. Qed.

(** A row with an error recorded at time [t]. *)
Definition with_error (t v : sql_value) (r : row) : row := <["updated_at" := t]> (<["last_error" := v]> r).
(** A row but for its error, and the time of its last change. *)
Definition but_error (r : row) : row := delete "updated_at" (delete "last_error" r).

Lemma but_error_with t v r : but_error (with_error t v r) = but_error r.
Proof.
  unfold but_error, with_error. apply map_eq. intros c.
  destruct (decide (c = "updated_at")) as [->|Hu]; [by rewrite !lookup_delete_eq|].
  rewrite !(lookup_delete_ne _ "updated_at") by done.
  destruct (decide (c = "last_error")) as [->|He]; [by rewrite !lookup_delete_eq|].
  rewrite !lookup_delete_ne, !lookup_insert_ne by done. done.
Qed.

End Rows.

(** ** The server *)

(** A checkpoint table a server keeps, under a name it reads without quotes. *)
Class TableLaws (W : Type) `{!SqlOps W, !SqlTime} (table : string) (ckey : string -> string) := {
  #[global] table_kept :: KeptTable W (checkpoint_table table) time_readable ckey;
  table_word : is_word table = true
}.

Definition to_store_error (e : mysql_error) : store_error :=
  match e with ENotFound => ErrNotFound | _ => StoreFailed "mysql" end.

#[export] Instance MySQL_ops {W : Type} `{!SqlOps W, !SqlTime} (s : MySQLStore) : StoreOps W | 100 := {
  store_Load stream := eff_map_err to_store_error (MySQL_Load s stream);
  store_Save cp := eff_map_err to_store_error (MySQL_Save s cp)
}.

Section StoreFacts.
Context {W : Type} `{!SqlOps W, !SqlTime} (s : MySQLStore) (ckey : string -> string).
Context `{!TableLaws W (my_table s) ckey}.

Lemma stream_compared table name :
  compared (checkpoint_table table) (Some (mkCondition ["stream"] OpEq)) [SText name].
Proof. constructor; [|constructor]. exists CText. split; [left|by split; [left|]]. Qed.

(** The answer [Load] gives, in terms of the table. *)
Lemma Load_table stream w w' r :
  MySQL_Load s stream w = (w', r) ->
  rows w' = rows w /\
  match r with
  | Ok c => exists row, rows w !! ckey stream = Some row /\ c = row_checkpoint row
  | Err ENotFound => rows w !! ckey stream = None
  | Err (ESql _) | Err ENotInitialized => True
  | Err _ => exists row, rows w !! ckey stream = Some row /\ readable row = false
  end.
Proof.
  unfold MySQL_Load. pose proof (select_spelled _ table_word) as Hsel.
  pose proof (query_frame _ _ [SText stream] w Hsel) as Hf.
  destruct (sql_QueryRow _ _ w) as [w1 answer] eqn:Hq. intros [= <- <-]. split; [done|].
  destruct answer as [a|e]; [|destruct e as [n txt|txt]; cbn; [destruct (n =? missingTableCode)%Z|]; done].
  assert (queries (checkpoint_table (my_table s)) (load_query (my_table s)) [SText stream]) as Hqueries.
  { split; [done|]. split.
    - unfold known. apply Forall_forall. intros c Hc. apply list_elem_of_In. apply list_elem_of_In in Hc. cbn in Hc |- *. tauto.
    - split; [apply stream_compared|]. split; [constructor|done]. }
  eapply key_query in Hq as ->; [|exact Hsel|exact Hqueries|done].
  destruct (rows w !! ckey stream) as [row|] eqn:Hrow; [|done]. cbn [fmap option_fmap option_map].
  pose proof (rows_typed _ _ _ Hrow) as Ht. change (map _ _) with (loaded_columns (my_table s) row).
  destruct (readable row) eqn:Hr; [rewrite read_readable by done; eauto|].
  destruct (read_checkpoint stream (Ok (Some (loaded_columns (my_table s) row)))) as [c|e] eqn:Hc.
  - apply read_sound in Hc; [|done]. eauto.
  - destruct e; try (by eexists); unfold read_checkpoint in Hc; repeat case_match; done.
Qed.

Lemma save_inserts table cp : inserts (checkpoint_table table) (save_insert table) (save_args cp).
Proof.
  split; [done|]. split; [apply (bool_decide_unpack _); vm_compute; exact I|].
  split; [unfold known; apply (bool_decide_unpack _); vm_compute; exact I|]. split; [done|].
  split; [repeat (apply Forall_cons; split; [first [by left|right; cbn; apply (bool_decide_unpack _); vm_compute; exact I]|]); constructor|].
  split; [by destruct cp as [? ? [] ? ? ? ? ? ? ? ? ? ?]|].
  apply Forall_map, Forall_forall. intros c Hc. apply list_elem_of_In in Hc. cbn in Hc.
  repeat (destruct Hc as [<-|Hc]; [
    split; [apply (bool_decide_unpack _); vm_compute; exact I|]; split; [apply (bool_decide_unpack _); vm_compute; exact I|];
    split; [done|]; intros ty Hty; apply list_elem_of_In in Hty; cbn in Hty;
    repeat (destruct Hty as [Hty|Hty]; [first [discriminate Hty|injection Hty as <-; reflexivity]|]); done|]). done.
Qed.

Lemma Save_table cp w w' r :
  MySQL_Save s cp w = (w', r) ->
  r <> Ok () /\ rows w' = rows w \/
  exists t, time_readable t /\
    rows w' = <[ckey (cp_Stream cp) := stored t (default_version cp) (rows w !! ckey (cp_Stream cp))]> (rows w).
Proof.
  unfold MySQL_Save. destruct (validateStream _); [intros [= <- <-]; by left|].
  unfold eff_map_err. destruct (sql_Exec _ _ w) as [w1 r1] eqn:Hq. intros [= <- <-].
  pose proof (default_version_Stream cp) as Hn.
  eapply insert_done in Hq as [[? ?]|(t & Ht & Hr)]; [left; split; [by destruct r1 as [[]|]|done]|right|
    apply upsert_spelled, table_word|apply save_inserts].
  exists t. split; [done|]. rewrite Hr. unfold inserted.
  assert (new_row (save_insert (my_table s)) (save_args (default_version cp)) !! "stream" = Some (SText (cp_Stream cp))) as Hnew
    by (rewrite <- Hn; reflexivity).
  cbn [tb_key checkpoint_table]. rewrite Hnew. done.
Qed.

(** The checkpoints of the table, by the keys of their names. *)
Definition table_view (w : W) : gmap string Checkpoint := row_checkpoint <$> rows w.

Lemma Save_view cp w w' r :
  MySQL_Save s cp w = (w', r) ->
  r <> Ok () /\ table_view w' = table_view w \/
  exists cp', saved_as ckey cp cp' /\ table_view w' = <[ckey (cp_Stream cp) := cp']> (table_view w).
Proof.
  intros [[? Hr]|(t & Ht & Hr)]%Save_table; [left; split; [done|]; unfold table_view; by rewrite Hr|right].
  unfold table_view. rewrite Hr, fmap_insert, stored_checkpoint. eexists. split; [|reflexivity].
  eexists _, _. split; [|right; reflexivity]. destruct (rows w !! ckey (cp_Stream cp)) as [o|] eqn:Ho.
  - destruct (rows_keyed _ _ _ Ho) as (n & Hn & Hk). unfold row_text, column_value. cbn in Hn. by rewrite Hn.
  - by rewrite default_version_Stream.
Qed.

End StoreFacts.

(** ** What the store promises *)

(** The table is a store as the allocator and the runner rely on, whatever names
    its collation takes for one. *)
Section Refinement.
Context {W : Type} `{!SqlOps W, !SqlTime} (s : MySQLStore) (ckey : string -> string).
Context `{!TableLaws W (my_table s) ckey}.

#[local] Instance table_store : StoreOps W := MySQL_ops s.

#[program] Definition MySQL_laws : StoreLaws W := {| store_key := ckey; view := table_view s ckey |}.
Next Obligation.
  intros stream w. cbn. unfold eff_map_err. destruct (MySQL_Load s stream w) as [w1 r] eqn:HL.
  apply (Load_table s ckey) in HL as [Hr _]. cbn. unfold table_view. by rewrite Hr.
Qed.
Next Obligation.
  intros stream w w' cp. cbn. unfold eff_map_err. destruct (MySQL_Load s stream w) as [w1 r] eqn:HL.
  apply (Load_table s ckey) in HL as [_ Hr]. intros [= <- Hc]. destruct r as [c|e]; [|done]. injection Hc as <-.
  destruct Hr as (row & Hrow & ->). unfold table_view. by rewrite lookup_fmap, Hrow.
Qed.
Next Obligation.
  intros stream w w'. cbn. unfold eff_map_err. destruct (MySQL_Load s stream w) as [w1 r] eqn:HL.
  apply (Load_table s ckey) in HL as [_ Hr]. intros [= <- Hc]. destruct r as [c|[]]; try done.
  unfold table_view. by rewrite lookup_fmap, Hr.
Qed.
Next Obligation.
  intros cp w w'. cbn. unfold eff_map_err. destruct (MySQL_Save s cp w) as [w1 r] eqn:HS.
  apply (Save_view s ckey) in HS. intros [= <- Hr]. destruct HS as [[Hne _]|HS]; [by destruct r as [[]|]|exact HS].
Qed.
Next Obligation.
  intros cp w w' e. cbn. unfold eff_map_err. destruct (MySQL_Save s cp w) as [w1 r] eqn:HS.
  apply (Save_view s ckey) in HS. intros [= <- Hr]. destruct HS as [[_ Hv]|HS]; [by left|by right].
Qed.

(** C16: Over any server that carries out the statements it is sent, and under any
    collation of names, the MySQL store is a store: its table read row by row,
    each column for its field, keeps the laws that the allocator, the runner and
    the supervisor are proved against, whichever statements fail. Names that the
    collation takes for one share a row. *)
Theorem MySQL_store_refines :
  exists L : StoreLaws W, (forall name, @store_key W _ L name = ckey name) /\
    forall w k, @view W _ L w !! k =
      (fun r => {| cp_Stream := row_text r "stream"; cp_GTIDSet := row_text r "gtid_set";
        cp_SnapshotDone := bool_decide (row_number r "snapshot_done" = 1%Z);
        cp_SnapshotStartGTID := row_text r "snapshot_start_gtid"; cp_SnapshotCursor := row_text r "snapshot_cursor";
        cp_SnapshotBaseSeq := row_number r "snapshot_base_seq"; cp_SnapshotRowsDone := row_number r "snapshot_rows_done";
        cp_SnapshotRowsTotal := row_number r "snapshot_rows_total"; cp_SeqWatermark := row_number r "seq_watermark";
        cp_LastEventTsMs := row_number r "last_event_ts_ms"; cp_LastError := row_text r "last_error";
        cp_SchemaVersion := row_number r "schema_version";
        cp_UpdatedAt := default zero_time (parseTimestamp (column_value r "updated_at")) |}) <$> rows w !! k.
Proof. exists MySQL_laws. split; [done|]. intros w k. exact (lookup_fmap row_checkpoint (rows w) k). Qed.

End Refinement.

Section Properties.
Context {W : Type} `{!SqlOps W, !SqlTime} (s : MySQLStore) (ckey : string -> string).
Context `{!TableLaws W (my_table s) ckey}.

(** C17: Over any server that carries out the statements it is sent: a checkpoint
    that was saved is what a load finds, every field but the time, under its name
    and under every name the server's collation takes for it: what another stream
    saved under such a name is gone. *)
Theorem saved_is_loaded cp stream w w1 w2 r :
  MySQL_Save s cp w = (w1, Ok ()) -> well_typed cp = true -> ckey stream = ckey (cp_Stream cp) ->
  MySQL_Load s stream w1 = (w2, r) ->
  match r with
  | Ok c => set_UpdatedAt 0 (set_Stream (cp_Stream cp) c) = set_UpdatedAt 0 (default_version cp)
  | Err (ESql _) | Err ENotInitialized => True
  | Err _ => False
  end.
Proof.
  intros [[? _]|(t & Ht & Hrows)]%(Save_table s ckey) Hwt Hkey Hload; [done|].
  apply (Load_table s ckey) in Hload as [_ Hr]. rewrite Hkey, Hrows, lookup_insert_eq in Hr.
  assert (readable (stored t (default_version cp) (rows w !! ckey (cp_Stream cp))) = true) as Hread
    by (by apply stored_readable, default_version_typed).
  destruct r as [c|e].
  - destruct Hr as (row & [= <-] & ->). rewrite stored_checkpoint.
    rewrite <- (default_version_Stream cp). by destruct (default_version cp).
  - destruct e; try done; destruct Hr as (row & [= <-] & Hr); congruence.
Qed.

Lemma reason_updates table reason stream :
  updates (checkpoint_table table) (error_update table) [recorded_reason reason; SText stream].
Proof.
  split; [done|]. split; [unfold known; apply (bool_decide_unpack _); vm_compute; exact I|].
  split; [intros Hin; apply list_elem_of_In in Hin; by destruct Hin as [|[]]|].
  split; [apply stream_compared|].
  constructor; [|constructor]. intros ty Hty. apply list_elem_of_In in Hty. cbn in Hty.
  repeat (destruct Hty as [Hty|Hty];
    [first [discriminate Hty|injection Hty as <-; unfold recorded_reason; by case_bool_decide]|]). done.
Qed.

(** What [RecordError] leaves of the table. *)
Lemma RecordError_table stream reason w w' r :
  RecordError s stream reason w = (w', r) ->
  rows w' = rows w \/ exists t, rows w' = alter (with_error t (recorded_reason reason)) (ckey stream) (rows w).
Proof.
  unfold RecordError. destruct (validateStream stream); [intros [= <- <-]; by left|].
  unfold eff_map_err. destruct (sql_Exec _ _ w) as [w1 r1] eqn:Hq. intros [= <- <-].
  eapply update_done in Hq as [[_ ?]|(t & _ & ->)]; [by left|right|apply error_spelled, table_word|apply reason_updates].
  exists (t (ckey stream)). by rewrite (key_updated _ _ ckey w t _ _ stream).
Qed.

(** Recording why a stream stopped, or that it runs again, never moves a
    position: whatever the outcome, every row keeps every column but its error
    and the time of its change, and a stream without a row is not given one. *)
Theorem RecordError_keeps_positions stream reason w w' r :
  RecordError s stream reason w = (w', r) ->
  forall k, but_error <$> rows w' !! k = but_error <$> rows w !! k.
Proof.
  intros [->|(t & ->)]%RecordError_table k; [done|].
  destruct (decide (ckey stream = k)) as [<-|Hne]; [|by rewrite lookup_alter_ne].
  rewrite lookup_alter_eq. destruct (rows w !! ckey stream); cbn; [|done]. by rewrite but_error_with.
Qed.

End Properties.

(** ** Locks *)

Definition granted (r : res sql_error (option (list sql_value))) : bool :=
  match r with Ok row => bool_decide (scan_null_int row = Some (Some 1%Z)) | Err _ => false end.

(** The server's advisory locks: who holds which name, names that [lkey] takes
    for one being one lock. A pinned connection holds none; a lock is granted to
    one connection at a time; closing a connection takes no lock from another. *)
Class LockLaws (W : Type) `{!ConnOps W} (lkey : string -> string) := {
  holder : W -> gmap string Z;
  open_fresh : forall w w' conn, conn_Open w = (w', Ok conn) ->
    holder w' = holder w /\ forall k, holder w !! k <> Some conn;
  open_frame : forall w w' e, conn_Open w = (w', Err e) -> holder w' = holder w;
  get_granted : forall conn name n w w' r,
    conn_QueryRow conn get_lock [SText name; SInt n] w = (w', r) ->
    if granted r
    then (holder w !! lkey name = None \/ holder w !! lkey name = Some conn) /\
         holder w' = <[lkey name := conn]> (holder w)
    else holder w' = holder w;
  used_frame : forall conn name w, holder (conn_QueryRow conn is_used_lock [SText name] w).1 = holder w;
  close_others : forall conn w k c, c <> conn -> holder w !! k = Some c -> holder (conn_Close conn w).1 !! k = Some c;
  close_adds_none : forall conn w k c, holder (conn_Close conn w).1 !! k = Some c -> holder w !! k = Some c;
  release_own : forall conn name w w' r, conn_Exec conn release_lock [SText name] w = (w', r) ->
    (forall k, k <> lkey name \/ holder w !! k <> Some conn -> holder w' !! k = holder w !! k) /\
    (r = Ok () -> holder w !! lkey name = Some conn -> holder w' !! lkey name = None)
}.

Section Locks.
Context {W : Type} `{!SqlOps W, !SqlTime, !ConnOps W} (s : MySQLStore) (lkey : string -> string).
Context `{!LockLaws W lkey}.

Lemma closed_same (conn : Z) w w1 :
  (forall k, holder w !! k <> Some conn) -> holder w1 = holder w -> holder (conn_Close conn w1).1 = holder w.
Proof.
  intros Hfresh Heq. apply map_eq. intros k. destruct (holder w !! k) as [c|] eqn:Hk.
  - apply close_others; [by intros ->; eapply Hfresh|]. by rewrite Heq.
  - destruct (holder (conn_Close conn w1).1 !! k) as [c|] eqn:Hc; [|done]. apply close_adds_none in Hc. by rewrite Heq, Hk in Hc.
Qed.

(** What an attempt at a stream's lock does to the locks held. *)
Lemma Lock_spec stream w w' r :
  Lock s stream w = (w', r) ->
  match r with
  | Ok l => holder w !! lkey (lock_name stream) = None /\
      exists conn, (forall k, holder w !! k <> Some conn) /\ lk_conn l = Some conn /\ lk_name l = lock_name stream /\
        holder w' = <[lkey (lock_name stream) := conn]> (holder w)
  | Err _ => holder w' = holder w
  end.
Proof.
  unfold Lock. destruct (validateStream stream); [by intros [= <- <-]|].
  destruct (conn_Open w) as [w1 [conn|e]] eqn:Ho; [|intros [= <- <-]; by rewrite (open_frame _ _ _ Ho)].
  apply open_fresh in Ho as [Hf Hfresh]. cbv zeta.
  destruct (conn_QueryRow conn get_lock _ w1) as [w2 row] eqn:Hq. apply get_granted in Hq.
  unfold granted in Hq. rewrite Hf in Hq. destruct row as [row|e]; [|intros [= <- <-]; by apply closed_same].
  destruct (scan_null_int row) as [got|] eqn:Hs.
  2: { intros [= <- <-]. rewrite bool_decide_eq_false_2 in Hq by done. by apply closed_same. }
  case_bool_decide as Hg.
  - injection Hg as ->. destruct Hq as [[Hnone|Hown] Hq]; [|by destruct (Hfresh _ Hown)].
    intros [= <- <-]. split; [done|]. exists conn. by split_and!.
  - assert (forall w3 r3, ((conn_Close conn (conn_QueryRow conn is_used_lock [SText (lock_name stream)] w2).1).1,
      Err (EStreamLocked stream) : res mysql_error StreamLock) = (w3, r3) ->
      match r3 with Ok _ => False | Err _ => holder w3 = holder w end) as Hlost.
    { intros w3 r3 [= <- <-]. apply closed_same; [done|]. by rewrite used_frame. }
    intros HL. destruct got as [[|[p|p|]|p]|]; try (by destruct Hg); by apply Hlost in HL; destruct r.
Qed.

(** Releasing a lock that is held, without an error, frees it and no other. *)
Lemma Release_spec l conn w l' w' :
  lk_conn l = Some conn -> holder w !! lkey (lk_name l) = Some conn ->
  (forall k, holder w !! k = Some conn -> k = lkey (lk_name l)) ->
  Release (l, w) = ((l', w'), Ok ()) -> holder w' = delete (lkey (lk_name l)) (holder w) /\ lk_conn l' = None.
Proof.
  intros Hl Hheld Honly. unfold Release. rewrite Hl.
  destruct (conn_Exec conn release_lock _ w) as [w1 r1] eqn:Hr. apply release_own in Hr as [Hothers Hown].
  destruct (conn_Close conn w1) as [w2 r2] eqn:Hcl. destruct r1 as [[]|]; [|done].
  intros [= <- <- _]. split; [|done]. specialize (Hown eq_refl Hheld). apply map_eq. intros k.
  assert (forall k c, holder w2 !! k = Some c -> holder w1 !! k = Some c) as Hadd.
  { intros k' c Hc. apply (close_adds_none conn w1). by rewrite Hcl. }
  destruct (decide (k = lkey (lk_name l))) as [->|Hk].
  - rewrite lookup_delete_eq. destruct (holder w2 !! _) as [c|] eqn:Hc; [|done]. apply Hadd in Hc. by rewrite Hown in Hc.
  - rewrite lookup_delete_ne by done. assert (holder w1 !! k = holder w !! k) as <- by (apply Hothers; auto).
    destruct (holder w1 !! k) as [c|] eqn:Hc.
    + assert (c <> conn) as Hne by (intros ->; rewrite Hothers in Hc by auto; by apply Hk, Honly).
      pose proof (close_others conn w1 k c Hne Hc) as H1. by rewrite Hcl in H1.
    + destruct (holder w2 !! k) as [c|] eqn:Hc2; [|done]. apply Hadd in Hc2. by rewrite Hc in Hc2.
Qed.

(** A stream's lock is granted only when no session holds a lock of its name, or
    of a name the server takes for it, and then this one alone is added; an
    attempt that fails leaves the locks as they were. *)
Theorem Lock_exclusive stream w w' r :
  Lock s stream w = (w', r) ->
  match r with
  | Ok l => holder w !! lkey (lock_name stream) = None /\
      exists conn, lk_conn l = Some conn /\ lk_name l = lock_name stream /\
        holder w' = <[lkey (lock_name stream) := conn]> (holder w)
  | Err _ => holder w' = holder w
  end.
Proof. intros HL%Lock_spec. destruct r; [|done]. destruct HL as (Hn & conn & _ & HL). split; [done|by exists conn]. Qed.

End Locks.
