(* ===== verification/Runner.v ===== *)
(** * One stream's pipeline ([internal/pipeline/runner.go])

    Transform, batch, write, and only then record the position. The runner
    talks to the sink, the checkpoint store, the dead letter queue, the
    observer and the clock through interfaces over a world [W]; every function
    below passes the runner's own state and the world along, and keeps both
    when it fails. Log lines and the wording of wrapped errors are left out. *)

From S2P Require Import Prelude GoStd Schema Cdc Transform Batcher Sink Checkpoint.

(** ** What the runner needs *)

(** [DeadLetterQueue]. *)
Class DlqOps (W : Type) := {
  dlq_Record : list Rejection -> eff W string ()
}.

(** The calls of an [Observer]. *)
Inductive report :=
  | ReportEvent (o : Operation)
  | ReportLag (d : Z)
  | ReportBatch (rows : Z)
  | ReportWrite (applied stale rejected elapsed : Z) (failed : bool)
  | ReportDeadLettered (n : Z).

Class ObserverOps (W : Type) := { observe : report -> W -> W }.

(** What passes in the world while the runner waits in its [select]. *)
Class WaitOps (W : Type) := { waited : W -> W }.

(** The text of a transform error, which the dead letter record carries. *)
Class ErrorText := { error_text : transform_error -> string }.

Inductive runner_error :=
  | ERunnerStream
  | ERunnerPlan
  | ERunnerSink
  | ERunnerStore
  | ERunnerLimits (e : limits_error)
  | EWrite (batch : Z) (cause : string)
  | EAccounting (accounted batch : Z)
  | ENoDeadLetterQueue (n : Z)
  | EDeadLetter (n : Z) (cause : string)
  | ELoadCheckpoint (e : store_error)
  | ESaveCheckpoint (e : store_error)
  | ECancelled.

Section Runner.
Context `{GoLib} `{!ErrorText}.

(** ** Construction *)

Record RunnerOptions := mkRunnerOptions {
  ro_Stream : string;
  ro_Plan : option Plan;
  ro_Sink : bool;
  ro_DLQ : bool;
  ro_Store : bool;
  ro_Limits : Limits;
  ro_ShutdownGrace : Z
}.

Record Runner := mkRunner {
  r_stream : string;
  r_plan : Plan;
  r_dlq : bool;
  r_batcher : Batcher;
  r_shutdownGrace : Z;
  r_pendingGTID : string;
  r_pendingEventTsMs : Z;
  r_pendingCursor : string;
  r_pendingRows : Z
}.

(** [ro_Sink], [ro_DLQ] and [ro_Store] say whether the dependency is set. *)
Definition NewRunner (opts : RunnerOptions) : res runner_error Runner :=
  if bool_decide (ro_Stream opts = "") then Err ERunnerStream
  else match ro_Plan opts with
  | None => Err ERunnerPlan
  | Some plan =>
    if negb (ro_Sink opts) then Err ERunnerSink
    else if negb (ro_Store opts) then Err ERunnerStore
    else
      batcher ← map_err ERunnerLimits (NewBatcher (ro_Limits opts));
      let grace := if (ro_ShutdownGrace opts <=? 0)%Z then (30 * 10 ^ 9)%Z else ro_ShutdownGrace opts in
      Ok (mkRunner (ro_Stream opts) plan (ro_DLQ opts) batcher grace "" 0 "" 0)
  end.

Definition set_batcher (b : Batcher) (r : Runner) : Runner :=
  mkRunner (r_stream r) (r_plan r) (r_dlq r) b (r_shutdownGrace r)
    (r_pendingGTID r) (r_pendingEventTsMs r) (r_pendingCursor r) (r_pendingRows r).

(** ** Operations *)

Context {W : Type} `{!SinkOps W, !DlqOps W, !StoreOps W, !ObserverOps W, !ClockOps W, !WaitOps W}.

(** [(r *Runner) deadLetter]. *)
Definition deadLetter (r : Runner) (rejections : list Rejection) : eff W runner_error () := fun w =>
  if negb (r_dlq r) then (w, Err (ENoDeadLetterQueue (zlen rejections)))
  else match dlq_Record rejections w with
  | (w, Err e) => (w, Err (EDeadLetter (zlen rejections) e))
  | (w, Ok _) => (observe (ReportDeadLettered (zlen rejections)) w, Ok ())
  end.

(** The checkpoint [advance] saves over the one it loaded. *)
Definition advanced (r : Runner) (cp : Checkpoint) : Checkpoint :=
  let cp := set_Stream (r_stream r) cp in
  let cp := if bool_decide (r_pendingGTID r = "") then cp else set_GTIDSet (r_pendingGTID r) cp in
  let cp := if bool_decide (r_pendingCursor r = "") then cp
            else set_Cursor (r_pendingCursor r) (r_pendingRows r) cp in
  let cp := if (0 <? r_pendingEventTsMs r)%Z then set_LastEventTsMs (r_pendingEventTsMs r) cp else cp in
  default_version cp.

(** [(r *Runner) advance]: [Load] returns the zero checkpoint with
    [ErrNotFound]. *)
Definition advance (r : Runner) : eff W runner_error () := fun w =>
  if bool_decide (r_pendingGTID r = "") && bool_decide (r_pendingCursor r = "") then (w, Ok ())
  else
    let '(w, loaded) := store_Load (r_stream r) w in
    match
      (match loaded with
       | Ok cp => Ok cp
       | Err ErrNotFound => Ok zero_checkpoint
       | Err e => Err (ELoadCheckpoint e)
       end)
    with
    | Err e => (w, Err e)
    | Ok cp => eff_map_err ESaveCheckpoint (store_Save (advanced r cp)) w
    end.

(** [(r *Runner) write]. *)
Definition write (r : Runner) (batch : list Doc) : eff W runner_error () := fun w =>
  let w := observe (ReportBatch (zlen batch)) w in
  let started := clock w in
  let '(w, (result, err)) := sink_Write batch w in
  let w := observe (ReportWrite (Applied result) (Stale result) (zlen (Rejected result))
                      (time_Sub (clock w) started) (bool_decide (is_Some err))) w in
  match err with
  | Some e => (w, Err (EWrite (zlen batch) e))
  | None =>
    if negb (Total result =? zlen batch)%Z then (w, Err (EAccounting (Total result) (zlen batch)))
    else
      (_ ← (match Rejected result with [] => mret () | rej => deadLetter r rej end);
       advance r) w
  end.

(** [(r *Runner) flush]. *)
Definition flush : eff (Runner * W) runner_error () := fun '(r, w) =>
  let '(batch, b) := Flush (r_batcher r) in
  let r := set_batcher b r in
  match batch with
  | [] => ((r, w), Ok ())
  | _ => let '(w, res) := write r batch w in ((r, w), res)
  end.

(** [(r *Runner) drain]: a failed final write is only reported. *)
Definition drain (rw : Runner * W) : Runner * W :=
  if (Len (r_batcher rw.1) =? 0)%Z then rw else (flush rw).1.

(** The position and progress of the event being handled. *)
Definition note_event (ev : ChangeEvent) (r : Runner) : Runner :=
  let ms := unix_milli (ev_Timestamp ev) in
  mkRunner (r_stream r) (r_plan r) (r_dlq r) (r_batcher r) (r_shutdownGrace r)
    (if bool_decide (ev_GTID ev = "") then r_pendingGTID r else ev_GTID ev)
    (if negb (is_zero_time (ev_Timestamp ev)) && (r_pendingEventTsMs r <? ms)%Z
     then ms else r_pendingEventTsMs r)
    (if bool_decide (ev_Cursor ev = "") then r_pendingCursor r else ev_Cursor ev)
    (if bool_decide (ev_Cursor ev = "") then r_pendingRows r else ev_RowsScanned ev).

Fixpoint add_docs (docs : list Doc) : eff (Runner * W) runner_error () := fun '(r, w) =>
  match docs with
  | [] => ((r, w), Ok ())
  | d :: docs =>
    let '(out, b) := Add (clock w) d (r_batcher r) in
    let r := set_batcher b r in
    match out with
    | None => add_docs docs (r, w)
    | Some batch =>
      match write r batch w with
      | (w, Err e) => ((r, w), Err e)
      | (w, Ok _) => add_docs docs (r, w)
      end
    end
  end.

Definition report_event (ev : ChangeEvent) (w : W) : W :=
  let w := observe (ReportEvent (ev_Operation ev)) w in
  if is_zero_time (ev_Timestamp ev) then w
  else observe (ReportLag (time_Sub (clock w) (ev_Timestamp ev))) w.

(** What is recorded for an event that cannot be transformed. *)
Definition transform_rejection (ev : ChangeEvent) (e : transform_error) : Rejection :=
  mkRejection (mkDoc (ev_GTID ev) "" 0 false) 0 ("transform failed: " +:+ error_text e).

(** [(r *Runner) handle]. *)
Definition handle (ev : ChangeEvent) : eff (Runner * W) runner_error () := fun '(r, w) =>
  match Apply (r_plan r) (Some ev) with
  | Err e =>
      let '(w, res) := deadLetter r [transform_rejection ev e] w in ((r, w), res)
  | Ok docs => add_docs docs (note_event ev r, report_event ev w)
  end.

(** What the [select] of [Run] receives. *)
Inductive signal :=
  | Cancelled
  | Ticked
  | Received (ev : ChangeEvent)
  | Closed.

(** [(r *Runner) Run] over the signals it receives, in order; [None] while it
    still waits for the next. No tick arrives while nothing is pending, since
    the timer is not set. *)
Fixpoint Run (signals : list signal) (rw : Runner * W)
  : (Runner * W) * option (res runner_error ()) :=
  match signals with
  | [] => (rw, None)
  | s :: signals =>
    let '(r, w) := rw in
    let w := waited w in
    match s with
    | Cancelled => (drain (r, w), Some (Err ECancelled))
    | Ticked =>
      match NextDeadline (r_batcher r) with
      | None => Run signals (r, w)
      | Some _ =>
        match flush (r, w) with
        | (rw, Err e) => (rw, Some (Err e))
        | (rw, Ok _) => Run signals rw
        end
      end
    | Closed => let '(rw, res) := flush (r, w) in (rw, Some res)
    | Received ev =>
      match handle ev (r, w) with
      | (rw, Err e) => (rw, Some (Err e))
      | (rw, Ok _) => Run signals rw
      end
    end
  end.

End Runner.

#[global] Arguments write : simpl never.
#[global] Arguments flush : simpl never.
#[global] Arguments handle : simpl never.
#[global] Arguments advance : simpl never.
#[global] Arguments deadLetter : simpl never.
