(* ===== verification/DeadLetters.v ===== *)
(** * Dead letters ([internal/sink/dlq/dlq.go])

    The files that refused documents are recorded in: one line of JSON for each,
    appended, flushed and synced before the position may advance; their rotation
    by size; and the counting and reading of what they hold. The file system is
    an interface with its laws; times are written and read by arguments. *)

From Stdlib Require Import Ascii.
From S2P Require Import Prelude GoStd GoEncoding GoJson Cdc Sink Runner.

(** ** Records *)

Record LetterRecord := mkLetterRecord {
  lr_RecordedAt : Z;
  lr_Stream : string;
  lr_Key : string;
  lr_Version : Z;
  lr_Deleted : bool;
  lr_Status : Z;
  lr_Reason : string;
  lr_BodyBytes : Z;
  lr_Body : string
}.

(** How [time.Time] writes itself between quotes, which it does for the years 0
    to 9999 alone, and is read. *)
Class LetterTime := {
  time_MarshalText : Z -> string;
  time_UnmarshalText : string -> option Z
}.
Definition writable_time (t : Z) : bool :=
  ((-62167219200 * 10 ^ 9 <=? t) && (t <? 253402300800 * 10 ^ 9))%Z.
Class LetterTimeLaws `{LetterTime} : Prop := {
  time_plain : forall t, writable_time t = true -> str_forall plain_byte (time_MarshalText t) = true;
  time_back : forall t, writable_time t = true -> time_UnmarshalText (time_MarshalText t) = Some t
}.

(** [json.Marshal] of a [json.RawMessage]: without white space between tokens,
    and with the bytes HTML is wary of escaped. *)
Fixpoint compact (in_string escaped : bool) (s : string) : string :=
  match s with
  | "" => ""
  | String c s1 =>
    let b := byte_val c in
    let html := if in_string && ((b =? 60) || (b =? 62) || (b =? 38))%Z then u00 b else str1 c in
    if in_string then
      match s1 with
      | String d (String e s3) =>
        if ((b =? 226) && (byte_val d =? 128) && ((byte_val e =? 168) || (byte_val e =? 169)))%Z
        then String backslash ("u202" +:+ str1 (hex_lower (Z.land (byte_val e) 15))) +:+ compact true false s3
        else html +:+ compact (escaped || negb (b =? 34)%Z) (negb escaped && (b =? 92)%Z) s1
      | _ => html +:+ compact (escaped || negb (b =? 34)%Z) (negb escaped && (b =? 92)%Z) s1
      end
    else if is_ws c then compact false false s1
    else str1 c +:+ compact (b =? 34)%Z false s1
  end.

Definition marshal_raw (raw : string) : option string :=
  _ ← json_Parse raw; Some (compact false false raw).

Definition when {A} (b : bool) (l : list A) : list A := if b then l else [].

Section Records.
Context `{!LetterTime}.

(** The members [json.Marshal] writes of a record whose body has the given text,
    in the order of the fields, the empty ones left out. *)
Definition letter_fields (r : LetterRecord) (body : string) : list (string * string) :=
  [("recorded_at", dq +:+ time_MarshalText (lr_RecordedAt r) +:+ dq);
   ("stream", json_MarshalString (lr_Stream r));
   ("key", json_MarshalString (lr_Key r));
   ("version", FormatUint (lr_Version r))]
  ++ when (lr_Deleted r) [("deleted", "true")]
  ++ when (negb (lr_Status r =? 0)%Z) [("status", FormatInt (lr_Status r))]
  ++ [("reason", json_MarshalString (lr_Reason r));
      ("body_bytes", FormatInt (lr_BodyBytes r))]
  ++ when (negb (bool_decide (lr_Body r = ""))) [("body", body)].

Definition marshal_letter (r : LetterRecord) : option string :=
  if negb (writable_time (lr_RecordedAt r)) then None else
  body ← (if bool_decide (lr_Body r = "") then Some "" else marshal_raw (lr_Body r));
  Some (String "{" (fields_text (letter_fields r body) "")).

(** A time field: [null] changes nothing. *)
Definition as_time (v : json) : option Z := match v with JStr s => time_UnmarshalText s | _ => None end.
Definition as_uint (v : json) : option Z := match v with JNum t => ParseUint t 64 | JNull => Some 0%Z | _ => None end.

Definition unmarshal_letter (line : string) : option LetterRecord :=
  v ← json_Parse line;
  members ← as_members v;
  raws ← raw_members line;
  at_ ← scalar_field zero_time as_time "recorded_at" members;
  stream ← scalar_field "" as_string "stream" members;
  key ← scalar_field "" as_string "key" members;
  version ← scalar_field 0%Z as_uint "version" members;
  deleted ← scalar_field false as_bool "deleted" members;
  status ← scalar_field 0%Z as_int "status" members;
  reason ← scalar_field "" as_string "reason" members;
  bytes ← scalar_field 0%Z as_int "body_bytes" members;
  Some (mkLetterRecord at_ stream key version deleted status reason bytes (raw_field "body" raws)).

End Records.

(** ** Lines *)

Definition drop_return (line : string) : string := TrimSuffix line (str1 (ascii_of_nat 13)).

(** The lines of a file as [bufio.ScanLines] finds them: none after the last
    newline. *)
Definition raw_lines (content : string) : list string :=
  let lines := SplitByte newline content in
  match rev lines with
  | "" :: front => rev front
  | _ => lines
  end.

Definition maxToken : Z := 2 ^ 24.

(** The lines a [bufio.Scanner] returns before one that fills its buffer, and
    whether there was none. *)
Fixpoint scan_lines (lines : list string) : list string * bool :=
  match lines with
  | [] => ([], true)
  | line :: lines =>
    if (maxToken <=? slen line)%Z then ([], false)
    else let '(rest, done) := scan_lines lines in (drop_return line :: rest, done)
  end.

Definition blank (line : string) : bool := bool_decide (TrimSpace line = "").

(** ** Files *)

(** [os], [bufio]'s reads and [path/filepath], with errors as texts. A handle is
    open for appending. *)
Class OsOps (W : Type) := {
  os_MkdirAll : string -> eff W string ();
  os_OpenAppend : string -> eff W string Z;
  os_Read : string -> eff W string string;
  os_Rename : string -> string -> eff W string ();
  file_Size : Z -> eff W string Z;
  file_Write : Z -> string -> eff W string ();
  file_Sync : Z -> eff W string ();
  file_Close : Z -> eff W string ();
  path_Glob : string -> eff W string (list string);
  path_Join : string -> string -> string;
  now_UTC : W -> Z
}.

Inductive dlq_error :=
  | EDlqDir
  | EDlqStream
  | EDlqName (stream : string)
  | EDlqFile (cause : string)
  | EDlqEncode (key : string)
  | EDlqLong
  | EDlqRecord (line : Z).

Record DlqOptions := mkDlqOptions {
  dq_Dir : string;
  dq_Stream : string;
  dq_MaxBytes : Z;
  dq_IncludePayload : bool
}.

Record Writer := mkWriter {
  wr_opts : DlqOptions;
  wr_path : string;
  wr_file : option Z;
  wr_size : Z
}.

Definition defaultMaxBytes : Z := 64 * 2 ^ 20.

(** [filepath.Base] of a name without separators is the name itself, so that it
    adds to the other conditions only the empty name, already refused. *)
Definition is_separator (c : ascii) : bool := bool_decide (c = "/"%char) || bool_decide (c = backslash).
Definition usable_name (stream : string) : bool :=
  str_forall (fun c => negb (is_separator c)) stream &&
  negb (bool_decide (stream = ".")) && negb (bool_decide (stream = "..")).

Section Dlq.
Context `{!LetterTime} {W : Type} `{!OsOps W}.

(** The layout [20060102T150405.000000000] of a moment. *)
Variable stamp_text : Z -> string.

Definition NewWriter (opts : DlqOptions) : res dlq_error Writer :=
  if bool_decide (dq_Dir opts = "") then Err EDlqDir
  else if bool_decide (dq_Stream opts = "") then Err EDlqStream
  else if negb (usable_name (dq_Stream opts)) then Err (EDlqName (dq_Stream opts))
  else
    let size := if (dq_MaxBytes opts <=? 0)%Z then defaultMaxBytes else dq_MaxBytes opts in
    Ok (mkWriter (mkDlqOptions (dq_Dir opts) (dq_Stream opts) size (dq_IncludePayload opts))
      (path_Join (dq_Dir opts) (dq_Stream opts +:+ ".jsonl")) None 0).

Definition toRecord (wr : Writer) (now : Z) (rej : Rejection) : LetterRecord :=
  let d := rej_Doc rej in
  mkLetterRecord now (dq_Stream (wr_opts wr)) (doc_Key d) (doc_Version d) (doc_Deleted d)
    (rej_Status rej) (rej_Reason rej) (slen (doc_Body d))
    (if dq_IncludePayload (wr_opts wr) then doc_Body d else "").

Definition on_file {A} (f : eff W string A) : eff (Writer * W) dlq_error A := fun '(wr, w) =>
  let '(w, r) := f w in ((wr, w), map_err EDlqFile r).

Definition set_file (file : option Z) (size : Z) (wr : Writer) : Writer :=
  mkWriter (wr_opts wr) (wr_path wr) file size.

(** [open]; the size of a file just opened is asked for, and a handle whose file
    cannot be measured is closed. *)
Definition measure (h : Z) : eff (Writer * W) dlq_error Z := fun '(wr, w) =>
  match file_Size h w with
  | (w, Err e) => ((wr, (file_Close h w).1), Err (EDlqFile e))
  | (w, Ok size) => ((set_file (Some h) size wr, w), Ok h)
  end.
Definition open_new : eff (Writer * W) dlq_error Z := fun '(wr, w) =>
  match os_MkdirAll (dq_Dir (wr_opts wr)) w with
  | (w, Err e) => ((wr, w), Err (EDlqFile e))
  | (w, Ok _) =>
    match os_OpenAppend (wr_path wr) w with
    | (w, Err e) => ((wr, w), Err (EDlqFile e))
    | (w, Ok h) => measure h (wr, w)
    end
  end.
Definition open : eff (Writer * W) dlq_error Z := fun '(wr, w) =>
  match wr_file wr with Some h => ((wr, w), Ok h) | None => open_new (wr, w) end.

(** [rotate]. *)
Definition rotated_path (wr : Writer) (now : Z) : string := wr_path wr +:+ "." +:+ stamp_text now.
Definition rotate (h : Z) : eff (Writer * W) dlq_error () := fun '(wr, w) =>
  match file_Close h w with
  | (w, Err e) => ((wr, w), Err (EDlqFile e))
  | (w, Ok _) =>
    let wr := set_file None (wr_size wr) wr in
    match os_Rename (wr_path wr) (rotated_path wr (now_UTC w)) w with
    | (w, Err e) => ((wr, w), Err (EDlqFile e))
    | (w, Ok _) => ((set_file None 0 wr, w), Ok ())
    end
  end.

(** A [bufio.Writer] of the default size: what fits is kept, what does not fills
    the buffer and is handed on, and a text longer than an empty buffer is handed
    on by itself. *)
Definition buffer_size : nat := 4096.

Definition buf_Write (h : Z) (text buffered : string) : eff W string string :=
  if (String.length text <=? buffer_size - String.length buffered)%nat then mret (buffered +:+ text)
  else if bool_decide (buffered = "") then _ ← file_Write h text; mret ""
  else
    let avail := (buffer_size - String.length buffered)%nat in
    let rest := drop_str avail text in
    _ ← file_Write h (buffered +:+ String.substring 0 avail text);
    if (String.length rest <=? buffer_size)%nat then mret rest
    else _ ← file_Write h rest; mret "".

Definition buf_Flush (h : Z) (buffered : string) : eff W string () :=
  if bool_decide (buffered = "") then mret () else file_Write h buffered.

Definition line_of (wr : Writer) (now : Z) (rej : Rejection) : option string :=
  text ← marshal_letter (toRecord wr now rej); Some (text +:+ str1 newline).

(** The loop of [Record]: what was buffered is lost when a record cannot be
    encoded. The result is what is buffered and how much was written. *)
Fixpoint write_letters (h : Z) (rejections : list Rejection) (buffered : string) (written : Z)
  : eff (Writer * W) dlq_error (string * Z) := fun '(wr, w) =>
  match rejections with
  | [] => ((wr, w), Ok (buffered, written))
  | rej :: rejections =>
    match line_of wr (now_UTC w) rej with
    | None => ((wr, w), Err (EDlqEncode (doc_Key (rej_Doc rej))))
    | Some line =>
      match buf_Write h line buffered w with
      | (w, Err e) => ((wr, w), Err (EDlqFile e))
      | (w, Ok buffered) => write_letters h rejections buffered (written + slen line) (wr, w)
      end
    end
  end.

(** [Record]. *)
Definition grow (h written : Z) : eff (Writer * W) dlq_error () := fun '(wr, w) =>
  let wr := set_file (wr_file wr) (wr_size wr + written) wr in
  if (dq_MaxBytes (wr_opts wr) <=? wr_size wr)%Z then rotate h (wr, w) else ((wr, w), Ok ()).
Definition Record_ (rejections : list Rejection) : eff (Writer * W) dlq_error () :=
  match rejections with
  | [] => mret ()
  | _ =>
    h ← open;
    '(buffered, written) ← write_letters h rejections "" 0;
    _ ← on_file (buf_Flush h buffered);
    _ ← on_file (file_Sync h);
    grow h written
  end.

(** [Close]. *)
Definition Close_ : eff (Writer * W) dlq_error () := fun '(wr, w) =>
  match wr_file wr with
  | None => ((wr, w), Ok ())
  | Some h => let '(w, r) := file_Close h w in ((set_file None (wr_size wr) wr, w), map_err EDlqFile r)
  end.

Definition Files (dir stream : string) : eff W dlq_error (list string) :=
  if bool_decide (dir = "") then mret []
  else
    let pattern := if bool_decide (stream = "") then path_Join dir "*.jsonl*"
                   else path_Join dir (stream +:+ ".jsonl*") in
    matches ← eff_map_err EDlqFile (path_Glob pattern);
    mret (sort_Strings matches).

(** The lines of a file that are not blank, and whether the scanner reached its
    end. *)
Definition count_text (content : string) : Z * bool :=
  let '(lines, complete) := scan_lines (raw_lines content) in
  (zlen (filter (fun line => blank line = false) lines), complete).

Definition countLines (path : string) : W -> W * (Z * option dlq_error) := fun w =>
  match os_Read path w with
  | (w, Err e) => (w, (0%Z, Some (EDlqFile e)))
  | (w, Ok content) =>
    let '(n, complete) := count_text content in (w, (n, if complete then None else Some EDlqLong))
  end.

(** [Count]: what was counted before an error is reported beside it, without the
    file at fault. *)
Fixpoint count_files (paths : list string) (total : Z) : W -> W * (Z * option dlq_error) := fun w =>
  match paths with
  | [] => (w, (total, None))
  | path :: paths =>
    match countLines path w with
    | (w, (_, Some e)) => (w, (total, Some e))
    | (w, (n, None)) => count_files paths (total + n) w
    end
  end.
Definition Count (dir stream : string) (w : W) : W * (Z * option dlq_error) :=
  match Files dir stream w with
  | (w, Err e) => (w, (0%Z, Some e))
  | (w, Ok paths) => count_files paths 0 w
  end.

(** The records of the scanned lines, numbered from [lineNo]. *)
Fixpoint read_lines (lineNo : Z) (lines : list string) : res dlq_error (list LetterRecord) :=
  match lines with
  | [] => Ok []
  | line :: lines =>
    if blank line then read_lines (lineNo + 1) lines
    else match unmarshal_letter (TrimSpace line) with
    | None => Err (EDlqRecord lineNo)
    | Some r => rest ← read_lines (lineNo + 1) lines; Ok (r :: rest)
    end
  end.
Definition read_text (content : string) : res dlq_error (list LetterRecord) :=
  let '(lines, complete) := scan_lines (raw_lines content) in
  records ← read_lines 1 lines;
  if complete then Ok records else Err EDlqLong.
Definition ReadLetters (path : string) : eff W dlq_error (list LetterRecord) := fun w =>
  match os_Read path w with
  | (w, Err e) => (w, Err (EDlqFile e))
  | (w, Ok content) => (w, read_text content)
  end.

End Dlq.

(** ** Records come back *)

(** What a record is made of when its document's body is not kept: texts that
    are valid UTF-8, numbers that fit their fields. *)
Record plain_letter (r : LetterRecord) : Prop := {
  pl_stream : ValidString (lr_Stream r) = true;
  pl_key : ValidString (lr_Key r) = true;
  pl_reason : ValidString (lr_Reason r) = true;
  pl_version : u64_range (lr_Version r);
  pl_status : (0 <= lr_Status r < 2 ^ 63)%Z;
  pl_bytes : (0 <= lr_BodyBytes r < 2 ^ 63)%Z;
  pl_body : lr_Body r = ""
}.

Section Letters.
Context `{!LetterTime} {Ht : LetterTimeLaws}.

Definition letter_values (r : LetterRecord) : list (string * json) :=
  [("recorded_at", JStr (time_MarshalText (lr_RecordedAt r)));
   ("stream", JStr (lr_Stream r)); ("key", JStr (lr_Key r)); ("version", JNum (FormatUint (lr_Version r)))]
  ++ when (lr_Deleted r) [("deleted", JBool true)]
  ++ when (negb (lr_Status r =? 0)%Z) [("status", JNum (FormatUint (lr_Status r)))]
  ++ [("reason", JStr (lr_Reason r)); ("body_bytes", JNum (FormatUint (lr_BodyBytes r)))].

Lemma reads_plain t : str_forall plain_byte t = true -> reads (dq +:+ t +:+ dq) (JStr t).
Proof.
  intros Hp n c rest _. unfold dq. cbn [str1 String.append]. rewrite app_assoc_str. cbn [str1 String.append].
  change (('(u, r) ← unquote (t +:+ String quote_char (String c rest)); Some (JStr u, r)) = Some (JStr t, String c rest)).
  by rewrite unquote_plain.
Qed.

Lemma Forall2_when {A B} (R : A -> B -> Prop) b l k : Forall2 R l k -> Forall2 R (when b l) (when b k).
Proof. intros. by destruct b. Qed.

Lemma Forall_when {A} (P : A -> Prop) b l : Forall P l -> Forall P (when b l).
Proof. intros. by destruct b. Qed.

Lemma letter_reads r :
  writable_time (lr_RecordedAt r) = true -> plain_letter r ->
  Forall2 field_reads (letter_fields r "") (letter_values r).
Proof.
  intros Hw [Hs Hk Hr Hv Hst Hb Hbody]. unfold letter_fields, letter_values.
  rewrite Hbody, bool_decide_eq_true_2, app_nil_r by done. rewrite !FormatInt_nonneg by lia.
  repeat (apply Forall2_app || apply Forall2_when || constructor); cbn -[dq time_MarshalText].
  all: auto using reads_string, reads_uint, reads_true, reads_plain, time_plain.
Qed.

Lemma solid_uint z : starts_solid (FormatUint z) = true.
Proof.
  pose proof (FormatUint_ne z). pose proof (FormatUint_digits z) as Hd. destruct (FormatUint z) as [|c t]; [done|].
  cbn in *. apply andb_true_iff in Hd as [Hd _]. revert Hd. all_bytes c; done.
Qed.

Lemma letter_solid r : plain_letter r -> Forall (fun kt => starts_solid kt.2 = true) (letter_fields r "").
Proof.
  intros [Hs Hk Hr Hv Hst Hb Hbody]. unfold letter_fields.
  rewrite Hbody, bool_decide_eq_true_2, app_nil_r by done. rewrite !FormatInt_nonneg by lia.
  repeat (apply Forall_app_2 || apply Forall_when || constructor); cbn -[dq FormatUint json_MarshalString];
    auto using solid_uint.
Qed.

Lemma marshal_plain_letter r text :
  plain_letter r -> marshal_letter r = Some text ->
  writable_time (lr_RecordedAt r) = true /\ text = String "{" (fields_text (letter_fields r "") "").
Proof.
  intros Hp. unfold marshal_letter. destruct (writable_time _); [|done]. cbn [negb].
  rewrite (pl_body _ Hp), bool_decide_eq_true_2 by done. by intros [= <-].
Qed.

(** Decoding a member: one of another name is passed over. *)
Lemma scalar_skip {A} (z : A) dec name k v l :
  EqualFold k name = false -> scalar_field z dec name ((k, v) :: l) = scalar_field z dec name l.
Proof. intros He. unfold scalar_field. cbn [foldl mbind option_bind fst]. by rewrite He. Qed.
Lemma scalar_hit {A} (z x : A) dec name k v l :
  EqualFold k name = true -> v <> JNull -> dec v = Some x ->
  scalar_field z dec name ((k, v) :: l) = scalar_field x dec name l.
Proof. intros He Hv Hd. unfold scalar_field. cbn [foldl mbind option_bind fst snd]. rewrite He. destruct v; by rewrite ?Hd. Qed.
Lemma raw_skip name k t l : EqualFold k name = false -> raw_field name ((k, t) :: l) = raw_field name l.
Proof. intros He. unfold raw_field. cbn [foldl fst]. by rewrite He. Qed.

Lemma bind_some {A B} (m : option A) x (f : A -> option B) r : m = Some x -> f x = r -> m ≫= f = r.
Proof. by intros -> <-. Qed.

Ltac read_member :=
  repeat (rewrite scalar_skip by (vm_compute; reflexivity)); try (erewrite scalar_hit; [|done|done|try done; eauto]);
  repeat (rewrite scalar_skip by (vm_compute; reflexivity)); reflexivity.

Lemma letter_roundtrip r text :
  plain_letter r -> marshal_letter r = Some text -> unmarshal_letter text = Some r.
Proof.
  intros Hp Hm. destruct (marshal_plain_letter r text Hp Hm) as [Hw ->].
  pose proof (letter_reads r Hw Hp) as Hr. pose proof (letter_solid r Hp) as Hs. unfold unmarshal_letter.
  assert (letter_fields r "" <> []) as Hne by done.
  eapply bind_some; [by apply (json_Parse_fields _ _ Hr Hne)|].
  eapply bind_some; [reflexivity|].
  eapply bind_some; [by apply (raw_members_fields _ _ Hr Hs Hne)|]. clear Hr Hs Hne Hm.
  destruct Hp as [_ _ _ Hv Hst Hb Hbody].
  destruct r as [at_ stream key version del status reason bytes body]. cbn in Hw, Hv, Hst, Hb, Hbody. subst body.
  assert (as_uint (JNum (FormatUint version)) = Some version) as Hpv by (by apply ParseUint_Format).
  assert (forall z, (0 <= z < 2 ^ 63)%Z -> as_int (JNum (FormatUint z)) = Some z) as Hpi.
  { intros z Hz. cbn [as_int]. rewrite <- FormatInt_nonneg by lia. apply ParseInt_Format. unfold i64_range. lia. }
  pose proof (time_back at_ Hw) as Hback.
  change (as_time (JStr (time_MarshalText at_)) = Some at_) in Hback.
  unfold letter_values, letter_fields. cbn [lr_RecordedAt lr_Stream lr_Key lr_Version lr_Deleted lr_Status lr_Reason lr_BodyBytes lr_Body].
  destruct del, (Z.eqb_spec status 0) as [->|_]; cbn [when negb app].
  all: do 8 (eapply bind_some; [read_member|]).
  all: do 2 f_equal; repeat (rewrite raw_skip by (vm_compute; reflexivity)); reflexivity.
Qed.
End Letters.

(** ** Lines *)

Lemma fields_text_end fields : fields <> [] -> exists p, fields_text fields "" = p +:+ str1 "}".
Proof.
  induction fields as [|[k t] [|kt fields] IH]; intros Hne; [done| |].
  - exists (String quote_char (k +:+ String quote_char (String ":" t))).
    cbn [fields_text]. unfold member_text. cbn [String.append]. rewrite app_assoc_str. cbn [String.append]. done.
  - destruct IH as [p Hp]; [done|]. exists (member_text k (t +:+ String "," p)).
    change (fields_text ((k, t) :: kt :: fields) "") with (member_text k (t +:+ String "," (fields_text (kt :: fields) ""))).
    rewrite Hp. unfold member_text. cbn [String.append]. rewrite !app_assoc_str. cbn [String.append]. by rewrite !app_assoc_str.
Qed.

Lemma member_text_free k rest : free_of newline (member_text k rest) = free_of newline k && free_of newline rest.
Proof. apply (free_app newline k (String quote_char (String ":" rest))). Qed.

Lemma fields_text_free fields :
  fields <> [] -> Forall (fun kt => free_of newline kt.1 = true /\ free_of newline kt.2 = true) fields ->
  free_of newline (fields_text fields "") = true.
Proof.
  intros Hne Hall. induction Hall as [|[k t] fields [Hk Ht] Hall IH]; [done|]. cbn [fst snd] in Hk, Ht. destruct fields as [|kt fields].
  - change (fields_text [(k, t)] "") with (member_text k (t +:+ String "}" "")).
    by rewrite member_text_free, Hk, free_app, Ht.
  - change (fields_text ((k, t) :: kt :: fields) "") with (member_text k (t +:+ String "," (fields_text (kt :: fields) ""))).
    rewrite member_text_free, Hk, free_app, Ht. by apply IH.
Qed.

Lemma plain_free s : str_forall plain_byte s = true -> free_of newline s = true.
Proof.
  unfold free_of. induction s as [|c s IH]; [done|]. simpl. intros [Hc Hs]%andb_true_iff.
  rewrite IH, andb_true_r by done. revert Hc. all_bytes c; done.
Qed.

Section LetterLines.
Context `{!LetterTime} {Ht : LetterTimeLaws}.

Lemma letter_end r text :
  plain_letter r -> marshal_letter r = Some text -> exists p, text = p +:+ str1 "}".
Proof.
  intros Hp Hm. destruct (marshal_plain_letter r text Hp Hm) as [_ ->].
  destruct (fields_text_end (letter_fields r "")) as [p ->]; [done|]. by exists (String "{" p).
Qed.

Lemma drop_return_end p : drop_return (p +:+ str1 "}") = p +:+ str1 "}".
Proof. unfold drop_return, TrimSuffix, HasSuffix. by rewrite str_rev_app. Qed.

(** A record is one line, between braces. *)
Lemma letter_line r text :
  plain_letter r -> marshal_letter r = Some text ->
  free_of newline text = true /\ TrimSpace text = text /\ drop_return text = text /\ text <> "".
Proof.
  intros Hp Hm. destruct (marshal_plain_letter r text Hp Hm) as [Hw ->].
  assert (letter_fields r "" <> []) as Hne by done. destruct (fields_text_end _ Hne) as [p Hend].
  split_and!; [| | |done].
  - change (free_of newline (fields_text (letter_fields r "") "") = true). apply fields_text_free; [done|].
    destruct Hp as [Hs Hk Hr Hv Hst Hb Hbody]. unfold letter_fields.
    rewrite Hbody, bool_decide_eq_true_2, app_nil_r by done. rewrite !FormatInt_nonneg by lia.
    pose proof (plain_free _ (time_plain _ Hw)) as Htime.
    repeat (apply Forall_app_2 || apply Forall_when || constructor); cbn -[free_of FormatUint json_MarshalString dq];
      rewrite ?free_app, ?Htime; auto using json_MarshalString_free, digits_free, FormatUint_digits.
  - rewrite Hend. by apply (TrimSpace_kept _ _ (String "{" p) "}").
  - rewrite Hend. apply (drop_return_end (String "{" p)).
Qed.
End LetterLines.

(** ** Files of lines *)

Lemma blank_forall s : blank s = str_forall is_space s.
Proof.
  unfold blank, TrimSpace, TrimBy, TrimRightBy.
  assert (forall t, str_forall is_space t = true -> TrimLeftBy is_space t = "") as Hall.
  { intros t. induction t as [|c t IH]; [done|]. cbn. intros [-> Ht]%andb_true_iff. by apply IH. }
  assert (forall t, str_forall is_space t = false -> exists c u, TrimLeftBy is_space t = String c u /\ is_space c = false) as Hsome.
  { intros t. induction t as [|c t IH]; [done|]. cbn. destruct (is_space c) eqn:Hc; [by intros Ht; apply IH|]. intros _. by exists c, t. }
  destruct (str_forall is_space s) eqn:Hs; [rewrite (Hall s Hs); by apply bool_decide_eq_true_2|].
  destruct (Hsome s Hs) as (c & u & -> & Hc). apply bool_decide_eq_false_2. rewrite str_rev_cons.
  assert (exists d v, TrimLeftBy is_space (str_rev u +:+ str1 c) = String d v) as (d & v & ->).
  { induction (str_rev u) as [|e w IH]; cbn; [rewrite Hc; by eexists _, _|]. destruct (is_space e); [done|by eexists _, _]. }
  rewrite str_rev_cons. by destruct (str_rev v).
Qed.

Definition letters_text (texts : list string) : string :=
  String.concat "" (map (fun t => t +:+ str1 newline) texts).

(** A text whose last line has its newline. *)
Definition whole (content : string) : Prop := exists front, SplitByte newline content = front ++ [""].

Lemma raw_lines_whole content front : SplitByte newline content = front ++ [""] -> raw_lines content = front.
Proof. unfold raw_lines. intros ->. rewrite rev_app_distr. cbn. apply rev_involutive. Qed.

Lemma SplitByte_line content front t :
  SplitByte newline content = front ++ [""] -> free_of newline t = true ->
  SplitByte newline (content +:+ t +:+ str1 newline) = (front ++ [t]) ++ [""].
Proof.
  intros Hc Hf. rewrite <- app_assoc_str. change (str1 newline) with (String newline ""). rewrite SplitByte_app.
  destruct (SplitByte_last newline content t Hf) as (front' & last & H1 & ->).
  rewrite Hc in H1. by apply app_inj_tail in H1 as [<- <-].
Qed.

(** A line added to a file that ends inside one is joined to that one. *)
Lemma SplitByte_partial content front last t :
  SplitByte newline content = front ++ [last] -> free_of newline t = true ->
  SplitByte newline (content +:+ t +:+ str1 newline) = (front ++ [last +:+ t]) ++ [""].
Proof.
  intros Hc Hf. rewrite <- app_assoc_str. change (str1 newline) with (String newline ""). rewrite SplitByte_app.
  destruct (SplitByte_last newline content t Hf) as (front' & last' & H1 & ->).
  rewrite Hc in H1. by apply app_inj_tail in H1 as [<- <-].
Qed.

Lemma SplitByte_letters content front texts :
  SplitByte newline content = front ++ [""] -> Forall (fun t => free_of newline t = true) texts ->
  SplitByte newline (content +:+ letters_text texts) = (front ++ texts) ++ [""].
Proof.
  intros Hc Hall. revert content front Hc. induction Hall as [|t texts Ht Hall IH]; intros content front Hc.
  - change (letters_text []) with "". by rewrite app_nil_r_str, app_nil_r.
  - unfold letters_text in *. cbn [map]. rewrite concat_cons, <- app_assoc_str.
    rewrite (IH _ (front ++ [t])) by (by apply SplitByte_line). by rewrite <- (assoc_L _ front).
Qed.

Lemma raw_lines_letters content texts :
  whole content -> Forall (fun t => free_of newline t = true) texts ->
  whole (content +:+ letters_text texts) /\
  raw_lines (content +:+ letters_text texts) = raw_lines content ++ texts.
Proof.
  intros [front Hc] Hall. pose proof (SplitByte_letters _ _ _ Hc Hall) as Hs. split; [by eexists|].
  by rewrite (raw_lines_whole _ _ Hs), (raw_lines_whole _ _ Hc).
Qed.

Lemma scan_lines_app l k :
  (scan_lines l).2 = true ->
  scan_lines (l ++ k) = ((scan_lines l).1 ++ (scan_lines k).1, (scan_lines k).2).
Proof.
  induction l as [|x l IH]; [intros _; cbn; by destruct (scan_lines k)|]. cbn [scan_lines app]. case_match; [done|].
  destruct (scan_lines l) as [rest done_] eqn:El. cbn [fst snd]. intros ->. cbn [snd] in IH. by rewrite IH.
Qed.

Lemma blank_app s t : blank (s +:+ t) = blank s && blank t.
Proof. rewrite !blank_forall. apply str_forall_app. Qed.

(** A line as a record is written. *)
Definition good_line (t : string) : Prop :=
  free_of newline t = true /\ TrimSpace t = t /\ drop_return t = t /\ t <> "" /\ (slen t < maxToken)%Z.

Lemma good_blank t : good_line t -> blank t = false.
Proof. intros (_ & Ht & _ & Hne & _). unfold blank. rewrite Ht. by apply bool_decide_eq_false_2. Qed.

Lemma scan_good texts : Forall good_line texts -> scan_lines texts = (texts, true).
Proof.
  induction 1 as [|t texts (_ & _ & Hd & _ & Hlen) _ IH]; [done|]. cbn [scan_lines].
  rewrite (proj2 (Z.leb_gt _ _) Hlen), IH. by rewrite Hd.
Qed.

Lemma filter_good texts : Forall good_line texts -> filter (fun line => blank line = false) texts = texts.
Proof. intros Hall. apply filter_all. intros t Hin. apply good_blank. by eapply Forall_forall in Hall. Qed.

Lemma count_letters content texts n :
  whole content -> Forall good_line texts -> count_text content = (n, true) ->
  count_text (content +:+ letters_text texts) = ((n + zlen texts)%Z, true).
Proof.
  intros Hw Hall Hn. unfold count_text in *.
  destruct (raw_lines_letters content texts Hw) as [_ ->]; [eapply Forall_impl; [done|by intros t []]|].
  destruct (scan_lines (raw_lines content)) as [l d] eqn:El. injection Hn as <- ->.
  rewrite scan_lines_app, El by (by rewrite El). rewrite (scan_good texts) by done. cbn [fst snd].
  by rewrite filter_app, (filter_good texts), zlen_app.
Qed.

(** The first line after a broken one is counted with it. *)
Lemma count_after_partial content front last t texts n :
  SplitByte newline content = front ++ [last] -> blank (drop_return last) = false -> blank last = false ->
  drop_return (last +:+ t) = last +:+ t -> (slen (last +:+ t) < maxToken)%Z ->
  Forall good_line (t :: texts) -> count_text content = (n, true) ->
  count_text (content +:+ letters_text (t :: texts)) = ((n + zlen texts)%Z, true).
Proof.
  intros Hc Hdb Hb Hd Hlen Hall Hn. inversion_clear Hall as [|? ? Ht Hts].
  assert (Forall (fun t => free_of newline t = true) texts) as Hfree by (eapply Forall_impl; [exact Hts|by intros ? []]).
  pose proof (SplitByte_partial _ _ _ t Hc ltac:(apply Ht)) as H1.
  pose proof (SplitByte_letters _ _ _ H1 Hfree) as H2.
  unfold letters_text in *. cbn [map]. rewrite concat_cons, <- app_assoc_str. unfold count_text in *.
  rewrite (raw_lines_whole _ _ H2).
  assert (raw_lines content = front ++ [last]) as Hr.
  { unfold raw_lines. rewrite Hc, rev_app_distr. cbn. destruct last; [by vm_compute in Hb|done]. }
  rewrite Hr in Hn. clear Hr H1 H2 Hc. rewrite <- (assoc_L app).
  destruct (scan_lines (front ++ [last])) as [l d] eqn:El. injection Hn as <- ->.
  assert ((scan_lines front).2 = true) as Hf.
  { clear -El. revert l El. induction front as [|x front IH]; intros l; [done|]. cbn [scan_lines app].
    case_match; [done|]. destruct (scan_lines (front ++ [last])) as [l' d'] eqn:E. intros [= <- ->].
    specialize (IH l' eq_refl). by destruct (scan_lines front). }
  rewrite scan_lines_app in El by done. rewrite scan_lines_app by done. injection El as <- _.
  cbn [app scan_lines fst snd] in *. rewrite (proj2 (Z.leb_gt _ _) Hlen), (scan_good texts) by done.
  assert (blank (last +:+ t) = false) as Hbt by (by rewrite blank_app, Hb).
  assert ((maxToken <=? slen last)%Z = false) as ->.
  { rewrite slen_app in Hlen. pose proof (slen_nonneg t). apply Z.leb_gt. lia. }
  cbn [fst snd]. rewrite !filter_app, !filter_cons_True by (by rewrite ?Hd). rewrite filter_nil, (filter_good texts) by done.
  rewrite !zlen_app, !zlen_cons. change (zlen []) with 0%Z. f_equal. lia.
Qed.

Section Reading.
Context `{!LetterTime}.

Lemma read_lines_app n l k :
  read_lines n (l ++ k) = (a ← read_lines n l; b ← read_lines (n + zlen l) k; Ok (a ++ b)).
Proof.
  revert n. induction l as [|x l IH]; intros n; cbn [app read_lines].
  - change (zlen []) with 0%Z. rewrite Z.add_0_r. cbn. by destruct (read_lines n k).
  - rewrite IH, zlen_cons, Z.add_assoc. case_match; [done|]. destruct (unmarshal_letter _); [|done]. cbn.
    destruct (read_lines (n + 1) l); cbn; [|done]. by destruct (read_lines _ k).
Qed.

Lemma read_good n texts records :
  Forall2 (fun t r => good_line t /\ unmarshal_letter t = Some r) texts records ->
  read_lines n texts = Ok records.
Proof.
  intros Hall. revert n. induction Hall as [|t r texts records [Hg Hr] _ IH]; intros n; [done|].
  cbn [read_lines]. rewrite (good_blank _ Hg). destruct Hg as (_ & -> & _). by rewrite Hr, IH.
Qed.

Lemma read_letters content texts records old :
  whole content -> Forall2 (fun t r => good_line t /\ unmarshal_letter t = Some r) texts records ->
  read_text content = Ok old -> read_text (content +:+ letters_text texts) = Ok (old ++ records).
Proof.
  intros Hw Hall Hold. assert (Forall good_line texts) as Hg.
  { clear Hold. induction Hall as [|?????? IH]; constructor; tauto. }
  unfold read_text in *.
  destruct (raw_lines_letters content texts Hw) as [_ ->]; [eapply Forall_impl; [done|by intros t []]|].
  destruct (scan_lines (raw_lines content)) as [l d] eqn:El.
  apply res_bind_ok in Hold as (old' & Hl & Hold). destruct d; [|done]. injection Hold as ->.
  rewrite scan_lines_app, El by (by rewrite El). rewrite (scan_good texts) by done. cbn [fst snd].
  by rewrite read_lines_app, Hl, (read_good _ _ _ Hall).
Qed.
End Reading.

(** ** The file system's promises *)

(** What is under each name, an absent file being empty, and the file a handle
    appends to while it is open. *)
Class FileLaws (W : Type) `{OsOps W} := {
  disk : W -> string -> string;
  handle : W -> Z -> option string;
  law_mkdir : forall dir w w' r, os_MkdirAll dir w = (w', r) -> disk w' = disk w;
  law_open : forall path w w' r, os_OpenAppend path w = (w', r) ->
    disk w' = disk w /\ forall h, r = Ok h -> handle w' h = Some path;
  law_size : forall h w w' r, file_Size h w = (w', r) ->
    disk w' = disk w /\ handle w' = handle w /\
    forall n path, r = Ok n -> handle w h = Some path -> n = slen (disk w path);
  law_write : forall h text w w' r path,
    handle w h = Some path \/ handle w h = None -> file_Write h text w = (w', r) ->
    exists out rest, text = out +:+ rest /\ (r = Ok () -> rest = "") /\
      disk w' path = disk w path +:+ out /\ (forall p, p <> path -> disk w' p = disk w p) /\ handle w' = handle w;
  law_sync : forall h w w' r, file_Sync h w = (w', r) -> disk w' = disk w /\ handle w' = handle w;
  law_close : forall h w w' r, file_Close h w = (w', r) ->
    disk w' = disk w /\ (handle w' h = handle w h \/ handle w' h = None);
  law_rename : forall p q w w' r, p <> q -> os_Rename p q w = (w', r) ->
    match r with
    | Ok _ => disk w' p = "" /\ disk w' q = disk w p /\ forall x, x <> p -> x <> q -> disk w' x = disk w x
    | Err _ => disk w' = disk w
    end
}.

Section DlqLaws.
Context `{!LetterTime} {Ht : LetterTimeLaws} {W : Type} `{!OsOps W} {Hfs : FileLaws W}.
Variable stamp_text : Z -> string.

Definition appends (path out : string) (w w' : W) : Prop :=
  disk w' path = disk w path +:+ out /\ (forall p, p <> path -> disk w' p = disk w p) /\ handle w' = handle w.

Lemma appends_none path w w' : disk w' = disk w -> handle w' = handle w -> appends path "" w w'.
Proof. intros Hd Hh. unfold appends. by rewrite Hd, app_nil_r_str. Qed.

Lemma appends_trans path a b w1 w2 w3 : appends path a w1 w2 -> appends path b w2 w3 -> appends path (a +:+ b) w1 w3.
Proof.
  intros (H1 & H2 & H3) (H4 & H5 & H6). unfold appends. rewrite H4, H1, app_assoc_str, H6. split; [done|].
  split; [|done]. intros p Hp. by rewrite H5, H2.
Qed.

(** A handle that is the path's, or no longer open. *)
Definition writes_to (h : Z) (path : string) (w : W) : Prop := handle w h = Some path \/ handle w h = None.

Lemma writes_appends h path out w w' : writes_to h path w -> appends path out w w' -> writes_to h path w'.
Proof. unfold writes_to. by intros ? (_ & _ & ->). Qed.

Lemma file_Write_appends h path text w w' r :
  writes_to h path w -> file_Write h text w = (w', r) ->
  exists out rest, text = out +:+ rest /\ (r = Ok () -> rest = "") /\ appends path out w w'.
Proof. intros Hh Hw. destruct (law_write h text w w' r path Hh Hw) as (out & rest & ? & ? & ?). by exists out, rest. Qed.

Lemma substring_drop n s : String.substring 0 n s +:+ drop_str n s = s.
Proof. revert n. induction s as [|c s IH]; intros [|n]; [done..|]. cbn. by rewrite IH. Qed.

(** What a buffered write hands on and keeps is what it was given, in order. *)
Lemma buf_Write_appends h path text buffered w w' r :
  writes_to h path w -> buf_Write h text buffered w = (w', r) ->
  exists out rest, appends path out w w' /\ buffered +:+ text = out +:+ rest /\ (forall b, r = Ok b -> rest = b).
Proof.
  intros Hh. unfold buf_Write. case_match.
  { intros [= <- <-]. exists "", (buffered +:+ text). split; [by apply appends_none|]. split; [done|]. by intros b [= <-]. }
  case_bool_decide as Hb.
  - subst buffered. intros Hbind. apply eff_bind_cases in Hbind as (w1 & x & Hw & Hx).
    destruct (file_Write_appends _ _ _ _ _ _ Hh Hw) as (out & rest & Heq & Hok & Happ). exists out, rest.
    destruct x as [[]|e]; [injection Hx as <- <-|destruct Hx as [-> ->]]; (split; [done|split; [done|intros b [= ]]]).
    subst b. by apply Hok.
  - set (avail := (buffer_size - String.length buffered)%nat). set (more := drop_str avail text).
    pose proof (substring_drop avail text) as Hcut. intros Hbind. apply eff_bind_cases in Hbind as (w1 & x & Hw & Hx).
    destruct (file_Write_appends _ _ _ _ _ _ Hh Hw) as (out & rest & Heq & Hok & Happ).
    assert (buffered +:+ text = out +:+ (rest +:+ more)) as Hall
      by (subst more; by rewrite <- (app_assoc_str out), <- Heq, app_assoc_str, Hcut).
    destruct x as [[]|e]; [|destruct Hx as [-> ->]; by exists out, (rest +:+ more)].
    rewrite (Hok eq_refl), app_nil_l_str in Hall. case_match.
    + injection Hx as <- <-. exists out, more. split; [done|]. split; [done|]. by intros b [= <-].
    + apply eff_bind_cases in Hx as (w2 & x & Hw2 & Hx).
      destruct (file_Write_appends _ _ _ _ _ _ (writes_appends _ _ _ _ _ Hh Happ) Hw2) as (out2 & rest2 & Heq2 & Hok2 & Happ2).
      exists (out +:+ out2), rest2. rewrite app_assoc_str, <- Heq2.
      destruct x as [[]|e]; [injection Hx as <- <-|destruct Hx as [-> ->]];
        (split; [by eapply appends_trans|split; [done|intros b [= ]]]). subst b. by apply Hok2.
Qed.

Lemma buf_Flush_appends h path buffered w w' r :
  writes_to h path w -> buf_Flush h buffered w = (w', r) ->
  exists out rest, appends path out w w' /\ buffered = out +:+ rest /\ (r = Ok () -> rest = "").
Proof.
  intros Hh. unfold buf_Flush. case_bool_decide as Hb.
  - intros [= <- <-]. exists "", "". subst. split; [by apply appends_none|done].
  - intros Hw. destruct (file_Write_appends _ _ _ _ _ _ Hh Hw) as (out & rest & ? & ? & ?). by exists out, rest.
Qed.

(** The text of a record of the rejection, at some moment. *)
Definition made_of (wr : Writer) (rej : Rejection) (text : string) : Prop :=
  exists now, marshal_letter (toRecord wr now rej) = Some text.

Lemma letters_text_cons t texts : letters_text (t :: texts) = t +:+ str1 newline +:+ letters_text texts.
Proof. unfold letters_text. cbn [map]. by rewrite concat_cons, app_assoc_str. Qed.

Lemma write_letters_appends h rejections buffered written wr w wr' w' r :
  writes_to h (wr_path wr) w ->
  write_letters h rejections buffered written (wr, w) = ((wr', w'), r) ->
  wr' = wr /\ exists texts out rest,
    Forall2 (made_of wr) (take (length texts) rejections) texts /\ appends (wr_path wr) out w w' /\
    buffered +:+ letters_text texts = out +:+ rest /\
    forall b n, r = Ok (b, n) ->
      length texts = length rejections /\ rest = b /\ n = (written + slen (letters_text texts))%Z.
Proof.
  revert buffered written w. induction rejections as [|rej rejections IH]; intros buffered written w Hh; cbn [write_letters].
  { intros [= <- <- <-]. split; [done|]. exists [], "", buffered. split; [constructor|].
    split; [by apply appends_none|]. split; [by rewrite app_nil_r_str|]. intros b n [= <- <-].
    change (slen (letters_text [])) with 0%Z. split; [done|]. split; [done|lia]. }
  unfold line_of. destruct (marshal_letter _) as [t|] eqn:Hm; cbn [mbind option_bind].
  2:{ intros [= <- <- <-]. split; [done|]. exists [], "", buffered. split; [constructor|].
      split; [by apply appends_none|]. split; [by rewrite app_nil_r_str|]. intros b n [= ]. }
  destruct (buf_Write h (t +:+ str1 newline) buffered w) as [w1 [b1|e]] eqn:Hb;
    destruct (buf_Write_appends _ _ _ _ _ _ _ Hh Hb) as (out & rest & Happ & Heq & Hok).
  - intros Hrec. rewrite (Hok b1 eq_refl) in Heq.
    destruct (IH _ _ _ (writes_appends _ _ _ _ _ Hh Happ) Hrec) as (-> & texts & out2 & rest2 & Hmade & Happ2 & Heq2 & Hok2).
    split; [done|]. exists (t :: texts), (out +:+ out2), rest2. split; [constructor; [by eexists|done]|].
    split; [by eapply appends_trans|]. rewrite letters_text_cons.
    split; [by rewrite (app_assoc_str out), <- Heq2, <- (app_assoc_str out), <- Heq, !app_assoc_str|].
    intros b n Hr. destruct (Hok2 b n Hr) as (Hlen & -> & ->). split; [cbn; by rewrite Hlen|]. split; [done|].
    rewrite !slen_app. lia.
  - intros [= <- <- <-]. split; [done|]. exists [t], out, rest. split; [constructor; [by eexists|constructor]|].
    split; [done|]. change (letters_text [t]) with (t +:+ str1 newline). split; [done|]. intros b n [= ].
Qed.

(** ** Recording *)

(** The writer's handle is its file's, and it knows the size of the file. *)
Definition holds_file (wr : Writer) (w : W) : Prop := forall h, wr_file wr = Some h -> writes_to h (wr_path wr) w.
Definition sized (wr : Writer) (w : W) : Prop := forall h, wr_file wr = Some h -> wr_size wr = slen (disk w (wr_path wr)).

Lemma open_file wr w wr' w' r :
  holds_file wr w -> open (wr, w) = ((wr', w'), r) ->
  disk w' = disk w /\ holds_file wr' w' /\ wr_opts wr' = wr_opts wr /\ wr_path wr' = wr_path wr /\
  (forall h, r = Ok h -> wr_file wr' = Some h) /\ (sized wr w -> sized wr' w').
Proof.
  intros Hh. unfold open. destruct (wr_file wr) as [h0|] eqn:Hf.
  { intros [= <- <- <-]. split_and!; [done..|intros h [= <-]; done|done]. }
  unfold open_new. destruct (os_MkdirAll _ w) as [w1 [[]|e]] eqn:Hm; pose proof (law_mkdir _ _ _ _ Hm) as Hd1.
  2:{ intros [= <- <- <-]. split_and!; [done|intros h; by rewrite Hf|done|done|done|intros _ h; by rewrite Hf]. }
  destruct (os_OpenAppend _ w1) as [w2 [h|e]] eqn:Ho; destruct (law_open _ _ _ _ Ho) as [Hd2 Hh2].
  2:{ intros [= <- <- <-]. split_and!; [by rewrite Hd2|intros h; by rewrite Hf|done|done|done|intros _ h; by rewrite Hf]. }
  unfold measure. destruct (file_Size h w2) as [w3 [n|e]] eqn:Hs; destruct (law_size _ _ _ _ Hs) as (Hd3 & Hh3 & Hn).
  - intros [= <- <- <-]. split_and!; [by rewrite Hd3, Hd2| |done|done|by intros h' [= <-]|].
    + intros h' [= <-]. left. by rewrite Hh3, (Hh2 h eq_refl).
    + intros _ h' [= <-]. cbn. rewrite (Hn n (wr_path wr) eq_refl (Hh2 h eq_refl)). by rewrite Hd3.
  - intros [= <- <- <-]. destruct (file_Close h w3) as [w4 rc] eqn:Hc. destruct (law_close _ _ _ _ Hc) as [Hd4 _].
    split_and!; [cbn; by rewrite Hd4, Hd3, Hd2|intros h'; by rewrite Hf|done|done|done|intros _ h'; by rewrite Hf].
Qed.

(** Where the file's content is afterwards: still there, or under a rotated name. *)
Definition placed (wr : Writer) (path : string) (w w' : W) : Prop :=
  (path = wr_path wr \/ exists now, path = rotated_path stamp_text wr now) /\
  disk w' path = disk w (wr_path wr) /\ (path <> wr_path wr -> disk w' (wr_path wr) = "") /\
  forall p, p <> wr_path wr -> p <> path -> disk w' p = disk w p.

Lemma placed_same wr w w' : disk w' = disk w -> placed wr (wr_path wr) w w'.
Proof. intros Hd. split; [by left|]. rewrite Hd. done. Qed.

Lemma rotated_apart wr now : wr_path wr <> rotated_path stamp_text wr now.
Proof.
  unfold rotated_path. intros Heq. apply (f_equal slen) in Heq. rewrite slen_app in Heq.
  change ("." +:+ stamp_text now) with (String "." (stamp_text now)) in Heq. unfold slen in Heq. cbn [String.length] in Heq. lia.
Qed.

Lemma grow_places h written wr w wr' w' r :
  wr_file wr = Some h -> holds_file wr w -> grow stamp_text h written (wr, w) = ((wr', w'), r) ->
  holds_file wr' w' /\ wr_opts wr' = wr_opts wr /\ wr_path wr' = wr_path wr /\ (exists path, placed wr path w w') /\
  (r = Ok () -> (0 < dq_MaxBytes (wr_opts wr))%Z -> (wr_size wr + written = slen (disk w (wr_path wr)))%Z ->
   sized wr' w' /\ (slen (disk w' (wr_path wr)) < dq_MaxBytes (wr_opts wr))%Z).
Proof.
  intros Hf Hh. unfold grow. cbn [set_file wr_opts wr_size wr_file].
  destruct (dq_MaxBytes (wr_opts wr) <=? wr_size wr + written)%Z eqn:Hmax.
  2:{ intros [= <- <- <-]. split; [exact Hh|]. split; [done|]. split; [done|]. split; [by exists (wr_path wr); apply placed_same|].
      intros _ Hpos Hsz. bool_to_prop. split; [by intros h' _|]. by rewrite <- Hsz. }
  unfold rotate. destruct (file_Close h w) as [w1 [[]|e]] eqn:Hc; destruct (law_close _ _ _ _ Hc) as [Hd1 Hh1].
  2:{ intros [= <- <- <-]. split; [|split; [done|split; [done|split; [by exists (wr_path wr); apply placed_same|done]]]].
      intros h' Hh'. cbn in Hh'. rewrite Hf in Hh'. injection Hh' as <-. cbn [wr_path set_file].
      destruct Hh1 as [Hh1|Hh1]; [|by right]. unfold writes_to. rewrite Hh1. by apply Hh. }
  cbn [set_file wr_path wr_opts wr_size]. set (q := rotated_path stamp_text _ (now_UTC w1)).
  assert (q = rotated_path stamp_text wr (now_UTC w1)) as Hq by done. clearbody q.
  assert (wr_path wr <> q) as Hpq by (rewrite Hq; apply rotated_apart).
  destruct (os_Rename (wr_path wr) q w1) as [w2 [[]|e]] eqn:Hr; pose proof (law_rename _ _ _ _ _ Hpq Hr) as Hren; cbn in Hren.
  - destruct Hren as (Hp0 & Hq1 & Hrest). intros [= <- <- <-]. split; [by intros h'|]. split; [done|]. split; [done|].
    split; [exists q; split; [right; by eexists|]; rewrite Hq1, Hp0, Hd1; split; [done|]; split; [done|];
            intros p H1 H2; rewrite Hrest by done; by rewrite Hd1|].
    intros _ Hpos _. split; [by intros h'|]. rewrite Hp0. done.
  - intros [= <- <- <-]. split; [by intros h'|]. split; [done|]. split; [done|].
    split; [exists (wr_path wr); apply placed_same; by rewrite Hren|done].
Qed.

Lemma placed_after wr path out w0 w w1 w' :
  disk w = disk w0 -> appends (wr_path wr) out w w1 -> placed wr path w1 w' ->
  (path = wr_path wr \/ exists now, path = rotated_path stamp_text wr now) /\
  disk w' path = disk w0 (wr_path wr) +:+ out /\ (path <> wr_path wr -> disk w' (wr_path wr) = "") /\
  forall p, p <> wr_path wr -> p <> path -> disk w' p = disk w0 p.
Proof.
  intros Hd (Ha & Hrest & _) (Hp & Hc & He & Hr). rewrite Hd in *. split; [done|]. split; [by rewrite Hc, Ha|].
  split; [done|]. intros p H1 H2. by rewrite Hr, Hrest by done.
Qed.

(** What a call of [Record] leaves: the file with more lines after its old
    content, under its name or rotated, and every other file as it was. *)
Record recorded (rejections : list Rejection) (wr wr' : Writer) (w w' : W) (ok : Prop) (texts : list string) (path : string) : Prop := {
  rd_made : Forall2 (made_of wr) (take (length texts) rejections) texts;
  rd_written : exists out rest, letters_text texts = out +:+ rest /\ (ok -> rest = "") /\
    disk w' path = disk w (wr_path wr) +:+ out;
  rd_all : ok -> length texts = length rejections;
  rd_path : path = wr_path wr \/ exists now, path = rotated_path stamp_text wr now;
  rd_fresh : path <> wr_path wr -> disk w' (wr_path wr) = "";
  rd_others : forall p, p <> wr_path wr -> p <> path -> disk w' p = disk w p;
  rd_holds : holds_file wr' w';
  rd_same : wr_opts wr' = wr_opts wr /\ wr_path wr' = wr_path wr;
  rd_size : ok -> (0 < dq_MaxBytes (wr_opts wr))%Z -> sized wr w ->
    sized wr' w' /\ (slen (disk w' (wr_path wr)) < dq_MaxBytes (wr_opts wr))%Z
}.

Lemma recorded_nothing rejections wr wr' w w' (ok : Prop) :
  ~ ok -> disk w' = disk w -> holds_file wr' w' -> wr_opts wr' = wr_opts wr /\ wr_path wr' = wr_path wr ->
  recorded rejections wr wr' w w' ok [] (wr_path wr).
Proof.
  intros Hno Hd Hh Hs. constructor; [constructor| |done|by left|done|by rewrite Hd|done|done|done].
  exists "", "". split; [done|]. split; [done|]. by rewrite Hd, app_nil_r_str.
Qed.

Lemma Record_outcome rejections wr w wr' w' r :
  rejections <> [] -> holds_file wr w -> Record_ stamp_text rejections (wr, w) = ((wr', w'), r) ->
  exists texts path, recorded rejections wr wr' w w' (r = Ok ()) texts path.
Proof.
  intros Hne Hh. unfold Record_. destruct rejections as [|rej rejs]; [done|]. set (rejections := rej :: rejs). clearbody rejections.
  intros (w1 & x & Ho & Hx)%eff_bind_cases. destruct w1 as [wr1 w1].
  destruct (open_file _ _ _ _ _ Hh Ho) as (Hd1 & Hh1 & Hopt1 & Hp1 & Hf1 & Hs1).
  destruct x as [h|e].
  2:{ destruct Hx as [[= -> ->] ->]. exists [], (wr_path wr). by apply recorded_nothing. }
  specialize (Hf1 h eq_refl). pose proof (Hh1 h Hf1) as Hto.
  assert (forall rej text, made_of wr1 rej text -> made_of wr rej text) as Hmo.
  { intros rej' text [now Hm]. exists now. unfold toRecord in *. by rewrite Hopt1 in Hm. }
  apply eff_bind_cases in Hx as ([wr2 w2] & x & Hw & Hx).
  destruct (write_letters_appends _ _ _ _ _ _ _ _ _ Hto Hw) as (-> & texts & out & rest & Hmade & Happ & Heq & Hok).
  rewrite app_nil_l_str in Heq. rewrite Hp1 in Happ, Hto. pose proof (writes_appends _ _ _ _ _ Hto Happ) as Hto2.
  assert (Forall2 (made_of wr) (take (length texts) rejections) texts) as Hmade'.
  { eapply Forall2_impl; [exact Hmade|]. auto. }
  assert (forall (wr' : Writer) w' out rest ok, appends (wr_path wr) out w1 w' -> letters_text texts = out +:+ rest ->
            wr' = wr1 -> ~ ok -> recorded rejections wr wr' w w' ok texts (wr_path wr)) as Hstop.
  { intros wr3 w3 out3 rest3 ok Ha3 He3 -> Hno.
    destruct (placed_after wr (wr_path wr) out3 w w1 w3 w3 Hd1 Ha3) as (_ & Hc & _ & Hoth); [by apply placed_same|].
    constructor; [done|by exists out3, rest3|done|by left|done|done| |done|done].
    intros h' Hh'. rewrite Hp1. eapply writes_appends; [|exact Ha3]. rewrite Hf1 in Hh'. by injection Hh' as <-. }
  destruct x as [[b n]|e].
  2:{ destruct Hx as [[= -> ->] ->]. exists texts, (wr_path wr). by eapply Hstop. }
  destruct (Hok b n eq_refl) as (Hlen & -> & ->). clear Hok.
  apply eff_bind_cases in Hx as ([wr3 w3] & x & Hfl & Hx). unfold on_file in Hfl.
  destruct (buf_Flush h b w2) as [w3' rf] eqn:Hflush. injection Hfl as <- <- <-.
  destruct (buf_Flush_appends _ _ _ _ _ _ Hto2 Hflush) as (out2 & rest2 & Happ2 & Heq2 & Hok2).
  pose proof (appends_trans _ _ _ _ _ _ Happ Happ2) as Happ3. rewrite Heq2, <- app_assoc_str in Heq.
  destruct rf as [[]|e]; cbn [map_err] in Hx.
  2:{ destruct Hx as [[= -> ->] ->]. exists texts, (wr_path wr). by eapply Hstop. }
  rewrite (Hok2 eq_refl), app_nil_r_str in Heq.
  apply eff_bind_cases in Hx as ([wr4 w4] & x & Hsy & Hx). unfold on_file in Hsy.
  destruct (file_Sync h w3') as [w4' rs] eqn:Hsync. injection Hsy as <- <- <-.
  destruct (law_sync _ _ _ _ Hsync) as [Hd4 Hh4].
  pose proof (appends_trans _ _ _ _ _ _ Happ3 (appends_none _ _ _ Hd4 Hh4)) as Happ4.
  rewrite app_nil_r_str in Happ4.
  destruct rs as [[]|e]; cbn [map_err] in Hx.
  2:{ destruct Hx as [[= -> ->] ->]. exists texts, (wr_path wr). eapply (Hstop _ _ _ ""); [done|by rewrite app_nil_r_str|done|done]. }
  assert (holds_file wr1 w4') as Hh5.
  { intros h' Hh'. rewrite Hp1. eapply writes_appends; [|exact Happ4]. rewrite Hf1 in Hh'. by injection Hh' as <-. }
  destruct (grow_places _ _ _ _ _ _ _ Hf1 Hh5 Hx) as (Hh6 & Hopt6 & Hp6 & (path & Hplace) & Hsz).
  assert (placed wr path w4' w') as Hplace'. { unfold placed, rotated_path in *. by rewrite Hp1 in Hplace. }
  destruct (placed_after wr path _ w w1 w4' w' Hd1 Happ4 Hplace') as (Hpath & Hc & Hfresh & Hoth).
  exists texts, path. constructor; [done| |by intros _|done|done|done|done|by rewrite Hopt6, Hp6|].
  { exists (out +:+ out2), "". by rewrite app_nil_r_str. }
  intros Hr Hmax Hsized. rewrite Hopt1, Hp1 in Hsz. apply Hsz; [done|done|].
  rewrite (Hs1 Hsized h Hf1), Hp1. destruct Happ4 as (-> & _). rewrite slen_app, <- Heq. lia.
Qed.

(** ** Nothing recorded is lost *)

(** C18: Recording refused documents only ever adds to what was recorded. Whatever
    fails on the way, the file keeps its old content, under its own name or under
    a rotated one, followed by a part of the new lines from their beginning;
    when the call succeeds the lines of all the documents are there, in order.
    No other file changes. *)
Theorem Record_keeps_letters rejections wr w wr' w' r :
  holds_file wr w -> Record_ stamp_text rejections (wr, w) = ((wr', w'), r) ->
  holds_file wr' w' /\ exists texts path out rest,
    (path = wr_path wr \/ exists now, path = rotated_path stamp_text wr now) /\
    disk w' path = disk w (wr_path wr) +:+ out /\
    Forall2 (made_of wr) (take (length texts) rejections) texts /\ letters_text texts = out +:+ rest /\
    (r = Ok () -> length texts = length rejections /\ rest = "") /\
    forall p, p <> wr_path wr -> p <> path -> disk w' p = disk w p.
Proof.
  intros Hh HR. destruct (decide (rejections = [])) as [->|Hne].
  - injection HR as <- <- <-. split; [done|]. exists [], (wr_path wr), "", "". rewrite app_nil_r_str. split; [by left|]. done.
  - destruct (Record_outcome _ _ _ _ _ _ Hne Hh HR) as (texts & path & [Hm (out & rest & He & Hr & Hd) Hl Hp _ Ho Hh' _ _]).
    split; [done|]. exists texts, path, out, rest. by repeat (split; [by eauto|]).
Qed.

(** The file being written stays under its limit of size: a successful call
    leaves it smaller than the limit, whatever its size was, the larger one
    being moved to a name of its own. *)
Theorem Record_bounds_file rejections wr w wr' w' :
  rejections <> [] -> holds_file wr w -> sized wr w -> (0 < dq_MaxBytes (wr_opts wr))%Z ->
  Record_ stamp_text rejections (wr, w) = ((wr', w'), Ok ()) ->
  sized wr' w' /\ wr_path wr' = wr_path wr /\ (slen (disk w' (wr_path wr)) < dq_MaxBytes (wr_opts wr))%Z.
Proof.
  intros Hne Hh Hs Hpos HR. destruct (Record_outcome _ _ _ _ _ _ Hne Hh HR) as (texts & path & Hrd).
  destruct (rd_size _ _ _ _ _ _ _ _ Hrd eq_refl Hpos Hs). by destruct (rd_same _ _ _ _ _ _ _ _ Hrd).
Qed.

(** A rejection whose record is a plain one. *)
Definition plain_rejection (rej : Rejection) : Prop :=
  ValidString (doc_Key (rej_Doc rej)) = true /\ ValidString (rej_Reason rej) = true /\
  u64_range (doc_Version (rej_Doc rej)) /\ (0 <= rej_Status rej < 2 ^ 63)%Z /\ (slen (doc_Body (rej_Doc rej)) < 2 ^ 63)%Z.

Lemma plain_record wr now rej :
  dq_IncludePayload (wr_opts wr) = false -> ValidString (dq_Stream (wr_opts wr)) = true ->
  plain_rejection rej -> plain_letter (toRecord wr now rej).
Proof.
  intros Hno Hs (Hk & Hr & Hv & Hst & Hb). constructor; try done; cbn -[slen]; [|by rewrite Hno].
  pose proof (slen_nonneg (doc_Body (rej_Doc rej))). lia.
Qed.

(** The lines of plain rejections, none of which fills a reader's buffer. *)
Definition short_lines (wr : Writer) (rejections : list Rejection) : Prop :=
  forall rej text, rej ∈ rejections -> made_of wr rej text -> (slen text < maxToken)%Z.

Lemma made_lines wr rejections texts :
  dq_IncludePayload (wr_opts wr) = false -> ValidString (dq_Stream (wr_opts wr)) = true ->
  Forall plain_rejection rejections -> short_lines wr rejections -> Forall2 (made_of wr) rejections texts ->
  exists records, Forall2 (fun rej r => exists now, r = toRecord wr now rej) rejections records /\
    Forall2 (fun t r => good_line t /\ unmarshal_letter t = Some r) texts records.
Proof.
  intros Hno Hs Hall Hshort Hm. induction Hm as [|rej t rejs texts [now Hm] Hms IH]; [by exists []|].
  inversion_clear Hall as [|? ? Hp Hall'].
  destruct IH as (records & H1 & H2); [done|intros rej' t' Hin; apply Hshort; by right|].
  pose proof (plain_record wr now rej Hno Hs Hp) as Hpl. exists (toRecord wr now rej :: records).
  split; [constructor; [by exists now|done]|]. constructor; [|done]. split; [|by apply letter_roundtrip].
  destruct (letter_line _ _ Hpl Hm) as (? & ? & ? & ?). split_and!; [done..|].
  eapply Hshort; [by left|by exists now].
Qed.


(** A line that a failed write left unfinished swallows the next record: after
    a later successful call the file's count of letters is one short of what was
    recorded. *)
Theorem broken_line_hides_a_letter rej rejections wr w wr' w' front last n :
  dq_IncludePayload (wr_opts wr) = false -> ValidString (dq_Stream (wr_opts wr)) = true ->
  Forall plain_rejection (rej :: rejections) -> short_lines wr (rej :: rejections) ->
  (forall text, made_of wr rej text -> slen (last +:+ text) < maxToken)%Z ->
  holds_file wr w -> SplitByte newline (disk w (wr_path wr)) = front ++ [last] ->
  blank last = false -> drop_return last = last -> count_text (disk w (wr_path wr)) = (n, true) ->
  Record_ stamp_text (rej :: rejections) (wr, w) = ((wr', w'), Ok ()) ->
  exists path, (path = wr_path wr \/ exists now, path = rotated_path stamp_text wr now) /\
    count_text (disk w' path) = ((n + zlen (rej :: rejections) - 1)%Z, true).
Proof.
  intros Hno Hs Hall Hshort Hjoined Hh Hlast Hb Hd Hn HR.
  destruct (Record_keeps_letters _ _ _ _ _ _ Hh HR) as (_ & texts & path & out & rest & Hp & Hdisk & Hm & He & Hok & _).
  destruct (Hok eq_refl) as [Hlen ->]. rewrite app_nil_r_str in He. subst out. rewrite Hlen, firstn_all in Hm.
  destruct (made_lines wr _ texts Hno Hs Hall Hshort Hm) as (records & _ & H2). exists path. split; [done|]. rewrite Hdisk.
  assert (Forall good_line texts) as Hg by (clear -H2; induction H2 as [|?????? IH]; constructor; tauto).
  destruct texts as [|t texts]; [done|]. apply Forall2_cons in Hm as [Hm1 Hms].
  pose proof Hm1 as [now Hm1']. inversion_clear Hall as [|? ? Hpl _].
  destruct (letter_end _ _ (plain_record wr now rej Hno Hs Hpl) Hm1') as [p Hend].
  rewrite (count_after_partial _ front last t texts n);
    [|done|by rewrite Hd|done|by rewrite Hend, <- app_assoc_str, drop_return_end|by apply Hjoined|done|done].
  unfold zlen. cbn [length] in Hlen |- *. f_equal. lia.
Qed.
End DlqLaws.
