(* ===== verification/Delivery.v ===== *)
(** * Write first, then record the position

    The runner against a recording world: every call it makes is logged with
    the answer it got, and the answers come from an oracle that may depend on
    everything that happened before. Since the oracle is arbitrary, what is
    proved here holds for every sink, dead letter queue, store, observer and
    clock. *)

From S2P Require Import Prelude GoStd Schema Cdc Transform Batcher Sink Checkpoint Runner.

#[export] Instance Rejection_eq_dec : EqDecision Rejection.
Proof. solve_decision. Defined.

(** ** The recording world *)

Inductive effect :=
  | Wrote (docs : list Doc) (r : Result) (err : option string)
  | RecordedDlq (rejections : list Rejection) (r : res string ())
  | Loaded (stream : string) (r : res store_error Checkpoint)
  | Saved (cp : Checkpoint) (r : res store_error ())
  | Observed (r : report)
  | Waited.

(** What the outside answers, given the calls so far. *)
Record Oracle := mkOracle {
  on_Write : list effect -> list Doc -> Result * option string;
  on_Record : list effect -> list Rejection -> res string ();
  on_Load : list effect -> string -> res store_error Checkpoint;
  on_Save : list effect -> Checkpoint -> res store_error ();
  on_Clock : list effect -> Z
}.

Record World := mkWorld { oracle : Oracle; trace : list effect }.

Definition log (e : effect) (w : World) : World := mkWorld (oracle w) (trace w ++ [e]).

#[export] Instance World_sink : SinkOps World := {
  sink_Write docs w :=
    let a := on_Write (oracle w) (trace w) docs in (log (Wrote docs a.1 a.2) w, a) }.
#[export] Instance World_dlq : DlqOps World := {
  dlq_Record rej w :=
    let a := on_Record (oracle w) (trace w) rej in (log (RecordedDlq rej a) w, a) }.
#[export] Instance World_store : StoreOps World := {
  store_Load s w := let a := on_Load (oracle w) (trace w) s in (log (Loaded s a) w, a);
  store_Save cp w := let a := on_Save (oracle w) (trace w) cp in (log (Saved cp a) w, a) }.
#[export] Instance World_observer : ObserverOps World := { observe r w := log (Observed r) w }.
#[export] Instance World_clock : ClockOps World := { clock w := on_Clock (oracle w) (trace w) }.
#[export] Instance World_wait : WaitOps World := { waited w := log Waited w }.

(** ** Auditing a trace

    What a trace shows to be delivered: the documents of the writes the sink
    accounted for, once the dead letter queue has recorded what it refused; and
    what that queue has recorded on its own, not for a write: the events
    [turned] away because they could not be transformed. *)
Inductive audit_state :=
  | Quiet (acked : list Doc) (turned : list Rejection)
  | Owing (acked : list Doc) (turned rejections : list Rejection)
  | Stopped.

Definition audit_step (a : audit_state) (e : effect) : audit_state :=
  match e with
  | Loaded _ _ | Observed _ | Waited => a
  | Wrote docs r err =>
    match a with
    | Quiet acked turned =>
        if bool_decide (err = None) && (Total r =? zlen docs)%Z then
          match Rejected r with
          | [] => Quiet (acked ++ docs) turned
          | rej => Owing (acked ++ docs) turned rej
          end
        else Stopped
    | _ => Stopped
    end
  | RecordedDlq rej (Ok _) =>
    match a with
    | Quiet acked turned => Quiet acked (turned ++ rej)
    | Owing acked turned owed => if bool_decide (rej = owed) then Quiet acked turned else Stopped
    | Stopped => Stopped
    end
  | RecordedDlq _ (Err _) => Stopped
  | Saved _ (Ok _) => match a with Quiet _ _ => a | _ => Stopped end
  | Saved _ (Err _) => Stopped
  end.

Definition audit (tr : list effect) : audit_state := foldl audit_step (Quiet [] []) tr.

Lemma audit_snoc tr e : audit (tr ++ [e]) = audit_step (audit tr) e.
Proof. unfold audit. by rewrite foldl_app. Qed.

(** Every save of a trace was made with nothing owed, and [P] relates what was
    delivered and turned away by then to the checkpoint saved. *)
Definition saves_safe (P : list Doc -> list Rejection -> Checkpoint -> Prop) (tr : list effect) : Prop :=
  forall pre cp r post, tr = pre ++ Saved cp r :: post ->
    exists acked turned, audit pre = Quiet acked turned /\ P acked turned cp.

Lemma saves_safe_nil P : saves_safe P [].
Proof. by intros [|] cp r post Heq. Qed.

Lemma saves_safe_snoc P tr e :
  saves_safe P tr ->
  (forall cp r, e = Saved cp r -> exists acked turned, audit tr = Quiet acked turned /\ P acked turned cp) ->
  saves_safe P (tr ++ [e]).
Proof.
  intros Htr He pre cp r post Heq. destruct post as [|x post _] using rev_ind.
  - apply app_inj_tail in Heq as [-> ->]. by eapply He.
  - rewrite app_comm_cons, app_assoc in Heq. apply app_inj_tail in Heq as [-> _]. by eapply Htr.
Qed.

Lemma saves_safe_log P w e :
  saves_safe P (trace w) -> (forall cp r, e <> Saved cp r) -> saves_safe P (trace (log e w)).
Proof. intros Hw He. apply saves_safe_snoc; [done|]. intros cp r ->. by destruct (He cp r). Qed.

Section Delivery.
Context `{GoLib} `{!ErrorText}.

(** Whether the runner has a position to record. *)
Definition has_position (r : Runner) : Prop := r_pendingGTID r <> "" \/ r_pendingCursor r <> "".

(** ** The operations in the recording world *)

Lemma deadLetter_audit P r rej w w' res acked turned after :
  audit (trace w) = Quiet acked turned /\ after = turned ++ rej \/
  audit (trace w) = Owing acked turned rej /\ after = turned ->
  saves_safe P (trace w) -> deadLetter r rej w = (w', res) ->
  saves_safe P (trace w') /\ (res = Ok () -> audit (trace w') = Quiet acked after).
Proof.
  intros Ha Hs Hd. unfold deadLetter in Hd. simpl in Hd.
  case_match; [injection Hd as <- <-; done|].
  destruct (on_Record _ _ rej) as [[]|e] eqn:Ho; injection Hd as <- <-.
  - split.
    + by repeat apply saves_safe_log.
    + intros _. simpl. rewrite !audit_snoc. simpl.
      destruct Ha as [[-> ->]|[-> ->]]; simpl; [done|]. by rewrite bool_decide_eq_true_2.
  - split; [|done]. by apply saves_safe_log.
Qed.

Lemma advance_audit (P : list Doc -> list Rejection -> Checkpoint -> Prop) r w w' res acked turned :
  audit (trace w) = Quiet acked turned -> saves_safe P (trace w) ->
  (has_position r -> forall cp, P acked turned (advanced r cp)) -> advance r w = (w', res) ->
  saves_safe P (trace w') /\ (res = Ok () -> audit (trace w') = Quiet acked turned).
Proof.
  intros Ha Hs HP Hadv. unfold advance in Hadv. simpl in Hadv.
  destruct (_ && _) eqn:Hpos; [injection Hadv as <- <-; done|].
  assert (has_position r) as Hhas.
  { apply andb_false_iff in Hpos as [Hg|Hc]; bool_to_prop; [by left|by right]. }
  specialize (HP Hhas).
  match type of Hadv with context [match ?x with Ok _ => _ | Err _ => _ end] => destruct x as [cp|e] end.
  - unfold eff_map_err in Hadv. simpl in Hadv.
    assert (audit (trace (log (Loaded (r_stream r) (on_Load (oracle w) (trace w) (r_stream r))) w)) = Quiet acked turned) as Ha'.
    { simpl. by rewrite audit_snoc, Ha. }
    injection Hadv as <- <-. simpl in *. split.
    + apply saves_safe_snoc; [by apply saves_safe_snoc|]. intros ? ? [= <- _]. eauto.
    + intros Hok. rewrite audit_snoc, Ha'. simpl. by destruct (on_Save _ _ _) as [[]|].
  - injection Hadv as <- <-. split; [by apply saves_safe_log | done].
Qed.

(** A write that returns without an error has been accounted for, its refusals
    recorded and the position saved, in that order. *)
Lemma write_audit (P : list Doc -> list Rejection -> Checkpoint -> Prop) r batch w w' res acked turned :
  audit (trace w) = Quiet acked turned -> saves_safe P (trace w) ->
  (has_position r -> forall cp, P (acked ++ batch) turned (advanced r cp)) -> write r batch w = (w', res) ->
  saves_safe P (trace w') /\ (res = Ok () -> audit (trace w') = Quiet (acked ++ batch) turned).
Proof.
  intros Ha Hs HP Hw. unfold write in Hw. simpl in Hw.
  set (w1 := log (Observed (ReportBatch _)) w) in *.
  set (a := on_Write _ _ batch) in *. destruct a as [result err] eqn:Hans. simpl in Hw.
  match type of Hw with context [log (Observed (ReportWrite ?x1 ?x2 ?x3 ?x4 ?x5)) ?w0] =>
    set (w2 := log (Observed (ReportWrite x1 x2 x3 x4 x5)) w0) in * end.
  assert (saves_safe P (trace w2)) as Hs2 by (subst w2 w1; by repeat apply saves_safe_log).
  destruct err as [e|]; [injection Hw as <- <-; done|].
  destruct (negb _) eqn:Hacc; [injection Hw as <- <-; done|]. apply negb_false_iff in Hacc.
  assert (audit (trace w2) = match Rejected result with
      | [] => Quiet (acked ++ batch) turned | rej => Owing (acked ++ batch) turned rej end) as Ha2.
  { subst w2 w1. simpl. rewrite !audit_snoc, Ha. simpl. by rewrite Hacc. }
  unfold mbind, eff_bind in Hw. destruct (Rejected result) as [|rej rejs]; simpl in Hw.
  - by eapply advance_audit.
  - destruct (deadLetter r (rej :: rejs) w2) as [w3 res3] eqn:Hd.
    eapply deadLetter_audit in Hd as [Hs3 Ha3]; [| by right | done].
    destruct res3 as [[]|e]; [|injection Hw as <- <-; done].
    eapply advance_audit; eauto.
Qed.

Lemma flush_audit (P : list Doc -> list Rejection -> Checkpoint -> Prop) r w rw' res acked turned :
  audit (trace w) = Quiet acked turned -> saves_safe P (trace w) -> batcher_inv (r_batcher r) ->
  (has_position r -> forall cp, P (acked ++ b_pending (r_batcher r)) turned (advanced r cp)) ->
  flush (r, w) = (rw', res) ->
  saves_safe P (trace rw'.2) /\
  exists b, rw'.1 = set_batcher b r /\ batcher_inv b /\ b_limits b = b_limits (r_batcher r) /\
    b_pending b = [] /\
    (res = Ok () -> audit (trace rw'.2) = Quiet (acked ++ b_pending (r_batcher r)) turned).
Proof.
  intros Ha Hs Hb HP Hf. unfold flush in Hf.
  pose proof (batcher_inv_flush _ Hb) as [Hb' Hnone].
  assert (b_limits (Flush (r_batcher r)).2 = b_limits (r_batcher r)) as Hlim
    by (unfold Flush; by destruct (b_pending (r_batcher r))).
  destruct (Flush (r_batcher r)) as [batch b] eqn:HF. simpl in *.
  assert (batch = b_pending (r_batcher r)) as -> by
    (unfold Flush in HF; destruct (b_pending (r_batcher r)) eqn:Hp; by injection HF as <- _).
  destruct (b_pending (r_batcher r)) as [|d ds].
  - injection Hf as <- <-. simpl. split; [done|]. exists b. by rewrite app_nil_r.
  - destruct (write _ _ w) as [w' res'] eqn:Hw. injection Hf as <- <-. simpl.
    eapply write_audit in Hw as [Hs' Ha']; [|done..]. eauto 10.
Qed.

(** Adding one event's documents: whatever is written on the way leaves the
    documents of the events before it delivered. *)
Lemma add_docs_audit (P : list Doc -> list Rejection -> Checkpoint -> Prop) before docs r w rw' res acked turned :
  batcher_inv (r_batcher r) -> Forall doc_ok docs ->
  audit (trace w) = Quiet acked turned -> saves_safe P (trace w) ->
  before `prefix_of` acked ++ b_pending (r_batcher r) ->
  (has_position r -> forall acked' cp, before `prefix_of` acked' ->
     acked' `prefix_of` acked ++ b_pending (r_batcher r) ++ docs -> P acked' turned (advanced r cp)) ->
  add_docs docs (r, w) = (rw', res) ->
  saves_safe P (trace rw'.2) /\
  (res = Ok () -> exists b acked', rw'.1 = set_batcher b r /\ batcher_inv b /\
     b_limits b = b_limits (r_batcher r) /\ audit (trace rw'.2) = Quiet acked' turned /\
     acked' ++ b_pending b = acked ++ b_pending (r_batcher r) ++ docs).
Proof.
  intros Hb Hdocs. revert r w acked Hb.
  induction Hdocs as [|d docs Hd _ IH]; intros r w acked Hb Ha Hs Hbefore HP Hadd.
  { simpl in Hadd. injection Hadd as <- <-. split; [done|]. intros _. exists (r_batcher r), acked.
    rewrite app_nil_r. by destruct r. }
  simpl in Hadd. pose proof (Add_inv (clock w) d _ Hb Hd) as Hb'.
  pose proof (Add_spec (clock w) d _ Hb Hd) as Hspec. simpl in *.
  pose proof (Add_limits (clock w) d (r_batcher r)) as Hlim. simpl in Hlim.
  destruct (Add _ d (r_batcher r)) as [out b] eqn:HA. simpl in Hlim.
  assert (forall batch, out = Some batch ->
    acked ++ batch ++ b_pending b = acked ++ b_pending (r_batcher r) ++ [d] /\
    before `prefix_of` acked ++ batch) as Hout.
  { intros batch ->. inversion Hspec; subst; simpl in *.
    - rewrite app_nil_r. split; [done|]. rewrite app_assoc. by apply prefix_app_r.
    - done. }
  destruct out as [batch|].
  - destruct (Hout batch eq_refl) as [Heq Hbatch].
    assert (forall l, (acked ++ batch) ++ b_pending b ++ l = acked ++ b_pending (r_batcher r) ++ d :: l) as Hl.
    { intros l. rewrite app_assoc, <- (app_assoc acked batch), Heq. by rewrite <- !app_assoc. }
    destruct (write (set_batcher b r) batch w) as [w1 res1] eqn:Hw.
    eapply (write_audit P) in Hw as [Hs1 Ha1]; [|done|done|].
    2: { intros Hpos cp. apply HP; [done|done|]. exists (b_pending b ++ docs).
         by rewrite Hl. }
    destruct res1 as [[]|e]; [|injection Hadd as <- <-; done].
    apply (IH _ w1 (acked ++ batch)) in Hadd as [Hs2 Hres]; simpl; auto.
    + split; [done|]. intros Hok. destruct (Hres Hok) as (b2 & acked2 & -> & ? & Hlim2 & ? & Heq2).
      exists b2, acked2. split_and!; try done; [by rewrite Hlim2|]. simpl in Heq2. by rewrite Heq2, Hl.
    + eapply prefix_app_r in Hbatch. done.
    + intros Hpos acked' cp Hbe Hpre. apply HP; [done|done|]. by rewrite <- Hl.
  - inversion Hspec as [| |s Hr Hbytes]; subst. simpl in *.
    apply (IH _ w acked) in Hadd as [Hs2 Hres]; simpl; auto.
    + split; [done|]. intros Hok. destruct (Hres Hok) as (b2 & acked2 & -> & ? & Hlim2 & ? & Heq2).
      exists b2, acked2. split_and!; try done. simpl in Heq2. by rewrite Heq2, <- !app_assoc.
    + rewrite app_assoc. by apply prefix_app_r.
    + intros Hpos acked' cp Hbe Hpre. apply HP; [done|done|]. by rewrite <- !app_assoc in Hpre.
Qed.

Lemma report_event_audit P ev w :
  saves_safe P (trace w) ->
  saves_safe P (trace (report_event ev w)) /\ audit (trace (report_event ev w)) = audit (trace w).
Proof.
  intros Hs. unfold report_event. case_match; simpl.
  - split; [by apply saves_safe_log | by rewrite audit_snoc].
  - split; [by repeat apply saves_safe_snoc | by rewrite !audit_snoc].
Qed.

(** Adding the document of a row when the batch has room for it: whatever is
    written on the way includes the document. *)
Lemma add_doc_audit (P : list Doc -> list Rejection -> Checkpoint -> Prop) d r w rw' res acked turned :
  batcher_inv (r_batcher r) -> doc_ok d ->
  (total_size (b_pending (r_batcher r) ++ [d]) <= MaxBytes (b_limits (r_batcher r)))%Z ->
  audit (trace w) = Quiet acked turned -> saves_safe P (trace w) ->
  (has_position r -> forall cp, P (acked ++ b_pending (r_batcher r) ++ [d]) turned (advanced r cp)) ->
  add_docs [d] (r, w) = (rw', res) ->
  saves_safe P (trace rw'.2) /\
  (res = Ok () -> exists b acked', rw'.1 = set_batcher b r /\ batcher_inv b /\
     b_limits b = b_limits (r_batcher r) /\ audit (trace rw'.2) = Quiet acked' turned /\
     acked' ++ b_pending b = acked ++ b_pending (r_batcher r) ++ [d]).
Proof.
  intros Hb Hd Hfits Ha Hs HP Hadd. simpl in Hadd.
  pose proof (Add_inv (clock w) d _ Hb Hd) as Hb'.
  pose proof (Add_spec (clock w) d _ Hb Hd) as Hspec. simpl in *.
  destruct (Add _ d (r_batcher r)) as [out b] eqn:HA.
  inversion Hspec as [s Hle|s Hne Hgt|s Hr Hbytes]; subst; simpl in *; [|lia|].
  - destruct (write _ _ w) as [w1 res1] eqn:Hw.
    eapply (write_audit P) in Hw as [Hs1 Ha1]; [|done|done|exact HP].
    destruct res1 as [[]|e]; injection Hadd as <- <-; [|done].
    split; [done|]. intros _. eexists _, _. split_and!; [done|done|done|by apply Ha1|].
    by rewrite app_nil_r.
  - injection Hadd as <- <-. split; [done|]. intros _. eexists _, acked. by split_and!.
Qed.

(** ** A whole run *)

(** The documents of events, in order; an event that cannot be transformed has
    none. *)
Definition docs_of (p : Plan) (ev : ChangeEvent) : list Doc :=
  match Apply p (Some ev) with Ok docs => docs | Err _ => [] end.
Definition docs_all (p : Plan) (evs : list ChangeEvent) : list Doc := concat (map (docs_of p) evs).

Lemma docs_all_app p l k : docs_all p (l ++ k) = docs_all p l ++ docs_all p k.
Proof. unfold docs_all. by rewrite map_app, concat_app. Qed.

Lemma docs_all_snoc p l ev : docs_all p (l ++ [ev]) = docs_all p l ++ docs_of p ev.
Proof. rewrite docs_all_app. unfold docs_all at 2. simpl. by rewrite app_nil_r. Qed.

(** What the dead letter queue is owed for an event that cannot be transformed:
    a record with its position, status 0 and the reason. *)
Definition refusal_of (p : Plan) (ev : ChangeEvent) : list Rejection :=
  match Apply p (Some ev) with
  | Ok _ => []
  | Err e => [{| rej_Doc := {| doc_Key := ev_GTID ev; doc_Body := ""; doc_Version := 0; doc_Deleted := false |};
                 rej_Status := 0; rej_Reason := "transform failed: " +:+ error_text e |}]
  end.
Definition refusals (p : Plan) (evs : list ChangeEvent) : list Rejection :=
  concat (map (refusal_of p) evs).

Lemma refusals_app p l k : refusals p (l ++ k) = refusals p l ++ refusals p k.
Proof. unfold refusals. by rewrite map_app, concat_app. Qed.

Lemma refusals_snoc p l ev : refusals p (l ++ [ev]) = refusals p l ++ refusal_of p ev.
Proof. rewrite refusals_app. unfold refusals at 2. simpl. by rewrite app_nil_r. Qed.

(** The events received before the run is told to end. *)
Fixpoint received (signals : list signal) : list ChangeEvent :=
  match signals with
  | Received ev :: rest => ev :: received rest
  | Ticked :: rest => received rest
  | Cancelled :: _ | Closed :: _ | [] => []
  end.

Section RunAudit.
(** A run whose saves are to satisfy [P], with [pos] what the runner's pending
    position says of the events handled so far. *)
Variables (p : Plan) (all : list ChangeEvent) (P : list Doc -> list Rejection -> Checkpoint -> Prop)
  (pos : list ChangeEvent -> Runner -> Prop) (good : ChangeEvent -> Prop).

Record run_inv (handled : list ChangeEvent) (r : Runner) (w : World) : Prop := {
  ri_plan : r_plan r = p;
  ri_batcher : batcher_inv (r_batcher r);
  ri_saves : saves_safe P (trace w);
  ri_audit : exists acked, audit (trace w) = Quiet acked (refusals p handled) /\
    acked ++ b_pending (r_batcher r) = docs_all p handled;
  ri_position : pos handled r
}.

Hypothesis pos_batcher : forall handled r b,
  b_limits b = b_limits (r_batcher r) -> pos handled r -> pos handled (set_batcher b r).
Hypothesis pos_covers : forall handled rest r cp,
  all = handled ++ rest -> pos handled r -> has_position r -> P (docs_all p handled) (refusals p handled) (advanced r cp).
Hypothesis pos_skips : forall handled ev r, good ev -> pos handled r -> pos (handled ++ [ev]) r.
Hypothesis pos_notes : forall handled ev r,
  good ev -> pos handled r -> pos (handled ++ [ev]) (note_event ev r).
Hypothesis pos_adds : forall handled ev rest r w rw' res acked docs,
  Apply p (Some ev) = Ok docs -> all = handled ++ ev :: rest -> good ev -> pos handled r -> batcher_inv (r_batcher r) ->
  audit (trace w) = Quiet acked (refusals p handled) -> saves_safe P (trace w) ->
  acked ++ b_pending (r_batcher r) = docs_all p handled ->
  add_docs docs (note_event ev r, w) = (rw', res) ->
  saves_safe P (trace rw'.2) /\
  (res = Ok () -> exists b acked', rw'.1 = set_batcher b (note_event ev r) /\ batcher_inv b /\
     b_limits b = b_limits (r_batcher r) /\ audit (trace rw'.2) = Quiet acked' (refusals p handled) /\
     acked' ++ b_pending b = acked ++ b_pending (r_batcher r) ++ docs).

Lemma flush_run_inv handled rest r w rw' res :
  run_inv handled r w -> all = handled ++ rest -> flush (r, w) = (rw', res) ->
  saves_safe P (trace rw'.2) /\
  (res = Ok () -> run_inv handled rw'.1 rw'.2 /\ audit (trace rw'.2) = Quiet (docs_all p handled) (refusals p handled)).
Proof.
  intros [Hp Hb Hs (acked & Ha & Heq) Hpos] Hall Hf.
  eapply (flush_audit P) in Hf as [Hs' (b & Hr & Hb' & Hlim & Hnone & Ha')]; try done.
  2: { rewrite Heq. intros ? cp. by eapply pos_covers. }
  split; [done|]. intros Hok. rewrite Heq in Ha'. split; [|by apply Ha'].
  rewrite Hr. split; simpl; try done; [|by apply pos_batcher].
  exists (docs_all p handled). rewrite Hnone, app_nil_r. auto.
Qed.

Lemma handle_run_inv handled ev rest r w rw' res :
  run_inv handled r w -> all = handled ++ ev :: rest -> good ev ->
  handle ev (r, w) = (rw', res) ->
  saves_safe P (trace rw'.2) /\ (res = Ok () -> run_inv (handled ++ [ev]) rw'.1 rw'.2).
Proof.
  intros [Hp Hb Hs (acked & Ha & Heq) Hpos] Hall Hgood Hh.
  unfold handle in Hh. rewrite Hp in Hh.
  destruct (Apply p (Some ev)) as [docs|e] eqn:HA.
  - destruct (report_event_audit P ev w Hs) as [Hs1 Ha1]. rewrite Ha in Ha1.
    assert (docs_of p ev = docs) as Hdocs by (unfold docs_of; by rewrite HA).
    assert (refusals p (handled ++ [ev]) = refusals p handled) as Href
      by (rewrite refusals_snoc; unfold refusal_of; by rewrite HA, app_nil_r).
    eapply (pos_adds _ _ _ _ _ _ _ _ _ HA Hall Hgood Hpos Hb Ha1 Hs1 Heq) in Hh as [Hs2 Hres].
    split; [done|]. intros HOk. destruct (Hres HOk) as (b & acked' & -> & Hb2 & Hlim & Ha2 & Heq2).
    split; simpl; try done; [|by apply pos_batcher, pos_notes].
    exists acked'. rewrite Href. split; [done|]. by rewrite Heq2, docs_all_snoc, app_assoc, Heq, Hdocs.
  - destruct (deadLetter _ _ w) as [w1 res1] eqn:Hd. injection Hh as <- <-.
    eapply deadLetter_audit in Hd as [Hs1 Ha1]; [|by left|exact Hs]. split; [done|]. intros Hok1.
    split; simpl; try done; [|by apply pos_skips].
    exists acked. rewrite Heq, docs_all_snoc, refusals_snoc. unfold docs_of, refusal_of.
    rewrite HA, app_nil_r. auto.
Qed.

Lemma run_audit handled signals r w rw' out :
  run_inv handled r w -> all = handled ++ received signals ->
  Forall good (received signals) -> Run signals (r, w) = (rw', out) ->
  saves_safe P (trace rw'.2) /\
  (out = Some (Ok ()) -> audit (trace rw'.2) = Quiet (docs_all p all) (refusals p all)).
Proof.
  revert handled r w. induction signals as [|s signals IH]; intros handled r w Hinv Hall Hev Hrun.
  { injection Hrun as <- <-. split; [apply Hinv | done]. }
  simpl in Hrun. assert (run_inv handled r (waited w)) as Hw.
  { destruct Hinv as [Hp Hb Hs (acked & Ha & Heq) Hpos]. split; try done; [by apply saves_safe_log|].
    exists acked. simpl. by rewrite audit_snoc, Ha. }
  clear Hinv. destruct s as [| |ev|]; simpl in *.
  - injection Hrun as <- <-. split; [|done]. unfold drain. simpl. destruct (Len _ =? 0)%Z; [apply Hw|].
    destruct (flush _) as [rw res] eqn:Hf. simpl. by eapply flush_run_inv in Hf as [? _].
  - destruct (NextDeadline _); [|by eapply IH].
    destruct (flush _) as [[r1 w1] res] eqn:Hf. eapply flush_run_inv in Hf as [Hs Hok]; [|done..].
    destruct res as [[]|e]; [|injection Hrun as <- <-; done]. destruct (Hok eq_refl) as [Hinv1 _].
    by eapply IH.
  - apply Forall_cons in Hev as [Hev1 Hev].
    destruct (handle _ _) as [[r1 w1] res] eqn:Hh. eapply handle_run_inv in Hh as [Hs Hok]; [|done..].
    destruct res as [[]|e]; [|injection Hrun as <- <-; done].
    eapply IH; [by apply Hok| |done|done]. by rewrite <- app_assoc.
  - destruct (flush _) as [rw res] eqn:Hf. injection Hrun as <- <-.
    eapply flush_run_inv in Hf as [Hs Hok]; [|done..]. split; [done|].
    intros [= ->]. rewrite Hall, app_nil_r. by apply Hok.
Qed.

End RunAudit.

(** ** Streaming *)

(** A checkpoint taken with [acked] delivered, in a run that receives [all]:
    its position is that of an event whose predecessors' documents are all
    delivered, or their refusals recorded, and nothing was delivered or
    recorded out of order. *)
Definition covered (p : Plan) (all : list ChangeEvent) (acked : list Doc) (turned : list Rejection)
    (cp : Checkpoint) : Prop :=
  exists before ev after, all = before ++ ev :: after /\ cp_GTIDSet cp = ev_GTID ev /\
    docs_all p before `prefix_of` acked /\ acked `prefix_of` docs_all p all /\
    refusals p before `prefix_of` turned /\ turned `prefix_of` refusals p all.

(** The events of a binlog stream carry a position; their documents are of a
    size a machine can hold. *)
Definition stream_event (p : Plan) (ev : ChangeEvent) : Prop :=
  ev_GTID ev <> "" /\ Forall doc_ok (docs_of p ev).

(** A runner as [NewRunner] makes it. *)
Definition fresh_runner (p : Plan) (r : Runner) : Prop :=
  r_plan r = p /\ batcher_inv (r_batcher r) /\ b_pending (r_batcher r) = [] /\
  r_pendingGTID r = "" /\ r_pendingCursor r = "".

Lemma NewRunner_fresh opts r :
  (0 <= MaxBytes (ro_Limits opts) < 2 ^ 62)%Z -> NewRunner opts = Ok r -> fresh_runner (r_plan r) r.
Proof.
  intros Hm Heq. unfold NewRunner in Heq. case_match; [done|]. destruct (ro_Plan opts); [|done].
  do 2 (case_match; [done|]). apply res_bind_ok in Heq as (b & Hb & [= <-]).
  destruct (NewBatcher _) as [b'|] eqn:HN; simplify_eq/=.
  assert (b_pending b = []) as Hnone by (unfold NewBatcher in HN; repeat case_match; by simplify_eq).
  split; [done|]. split; [|done]. exact (NewBatcher_inv _ _ Hm HN).
Qed.

Definition stream_pos (handled : list ChangeEvent) (r : Runner) : Prop :=
  has_position r -> exists before ev after, handled = before ++ ev :: after /\
    r_pendingGTID r = ev_GTID ev /\ ev_GTID ev <> "".

Lemma advanced_gtid r cp :
  r_pendingGTID r <> "" -> cp_GTIDSet (advanced r cp) = r_pendingGTID r.
Proof.
  intros Hg. unfold advanced. rewrite (bool_decide_eq_false_2 _ Hg).
  unfold default_version. repeat case_match; done.
Qed.

Lemma fresh_run_inv p P pos r o :
  fresh_runner p r -> pos [] r -> run_inv p P pos [] r (mkWorld o []).
Proof.
  intros (Hp & Hb & Hpend & _ & _) Hpos. split; try done; [by apply saves_safe_nil|].
  exists []. by rewrite Hpend.
Qed.

Lemma stream_run_audit p r o signals rw' out :
  fresh_runner p r -> Forall (stream_event p) (received signals) ->
  Run signals (r, mkWorld o []) = (rw', out) ->
  saves_safe (covered p (received signals)) (trace rw'.2) /\
  (out = Some (Ok ()) -> audit (trace rw'.2) = Quiet (docs_all p (received signals)) (refusals p (received signals))).
Proof.
  intros Hfresh Hev Hrun. set (all := received signals) in *.
  eapply (run_audit p all (covered p all) stream_pos (stream_event p)) with (handled := []); try done.
  - intros handled rest r0 cp Hall Hpos Hhas.
    destruct (Hpos Hhas) as (before & ev & after & Hh & Hg & Hne).
    exists before, ev, (after ++ rest). rewrite Hall, Hh. split; [by rewrite <- app_assoc|].
    split; [by rewrite advanced_gtid by congruence|].
    rewrite !docs_all_app, !refusals_app. split_and!; by apply prefix_app_r.
  - intros handled ev r0 _ Hpos Hhas. destruct (Hpos Hhas) as (b & e & a & -> & ? & ?).
    exists b, e, (a ++ [ev]). by rewrite <- app_assoc.
  - intros handled ev r0 [Hg _] _ _. exists handled, ev, []. simpl. by rewrite bool_decide_eq_false_2.
  - intros handled ev rest r0 w rw res acked docs HA Hall [Hg Hok] _ Hb Ha Hs Heq Hadd.
    unfold docs_of in Hok. rewrite HA in Hok. eapply (add_docs_audit _ (docs_all p handled)) in Hadd; try done; simpl; [by rewrite Heq|].
    intros _ acked' cp Hbe Hle. exists handled, ev, rest. split; [done|]. split.
    + rewrite advanced_gtid; simpl; by rewrite bool_decide_eq_false_2.
    + rewrite Hall, docs_all_app, refusals_app. split_and!; [done| |done|by apply prefix_app_r].
      etransitivity; [exact Hle|]. simpl. rewrite app_assoc, Heq. apply prefix_app.
      unfold docs_all. simpl. unfold docs_of at 1. rewrite HA. by apply prefix_app_r.
  - destruct Hfresh as (? & ? & ? & HG & HC). apply fresh_run_inv; [done|].
    intros [Hx|Hx]; congruence.
Qed.

(** C4: Every position a run records is that of an event all of whose predecessors
    are in the destination or the dead letter queue, at a moment when nothing
    is owed to that queue, whatever the sink, the store and the clock answer
    and wherever the run stops. *)
Theorem position_follows_writes p r o signals rw' out pre cp res post :
  fresh_runner p r -> Forall (stream_event p) (received signals) ->
  Run signals (r, mkWorld o []) = (rw', out) ->
  trace rw'.2 = pre ++ Saved cp res :: post ->
  exists acked turned, audit pre = Quiet acked turned /\ covered p (received signals) acked turned cp.
Proof.
  intros Hfresh Hev Hrun Htr. eapply (stream_run_audit p) in Hrun as [Hs _]; [|done..]. by eapply Hs.
Qed.

(** C10: A run that ends without an error has delivered every document of every
    event it received, in order and once. *)
Theorem Run_delivers p r o signals rw' :
  fresh_runner p r -> Forall (stream_event p) (received signals) ->
  Run signals (r, mkWorld o []) = (rw', Some (Ok ())) ->
  audit (trace rw'.2) = Quiet (docs_all p (received signals)) (refusals p (received signals)).
Proof. intros Hfresh Hev Hrun. by apply (stream_run_audit p r o signals rw' (Some (Ok ()))). Qed.

(** Whatever its events carry, a run that ends without an error has delivered all
    their documents and recorded all their refusals. *)
Lemma ended_run_delivers p r o signals rw' :
  fresh_runner p r -> Forall (fun ev => Forall doc_ok (docs_of p ev)) (received signals) ->
  Run signals (r, mkWorld o []) = (rw', Some (Ok ())) ->
  audit (trace rw'.2) = Quiet (docs_all p (received signals)) (refusals p (received signals)).
Proof.
  intros Hfresh Hev Hrun. set (all := received signals) in *.
  eapply (run_audit p all (fun _ _ _ => True) (fun _ _ => True) (fun ev => Forall doc_ok (docs_of p ev)))
    with (handled := []) in Hrun as [_ Hd]; [by apply Hd| | | | | | |done|done]; try done.
  - intros handled ev rest r0 w rw res acked docs HA Hall Hok _ Hb Ha Hs Heq Hadd.
    unfold docs_of in Hok. rewrite HA in Hok.
    eapply (add_docs_audit _ []) in Hadd; try done. apply prefix_nil.
  - by apply fresh_run_inv.
Qed.

(** ** Scanning *)

(** The events of a scan: one row each, no binlog position, a cursor on some,
    and rows so small that no batch of them reaches the byte limit before the
    row limit. *)
Definition scan_event (lims : Limits) (p : Plan) (ev : ChangeEvent) : Prop :=
  ev_Operation ev = OperationSnapshot /\ ev_GTID ev = "" /\
  Forall (fun d => MaxRows lims * Size d <= MaxBytes lims)%Z (docs_of p ev).

(** A checkpoint whose cursor is that of a row already delivered or recorded as
    refused, with every row ahead of it. *)
Definition cursor_covered (p : Plan) (all : list ChangeEvent) (acked : list Doc) (turned : list Rejection)
    (cp : Checkpoint) : Prop :=
  exists before ev after, all = before ++ ev :: after /\ cp_SnapshotCursor cp = ev_Cursor ev /\
    cp_SnapshotRowsDone cp = ev_RowsScanned ev /\ docs_all p (before ++ [ev]) `prefix_of` acked /\ refusals p (before ++ [ev]) `prefix_of` turned.

Definition scan_pos (lims : Limits) (p : Plan) (handled : list ChangeEvent) (r : Runner) : Prop :=
  b_limits (r_batcher r) = lims /\ Forall (scan_event lims p) handled /\ r_pendingGTID r = "" /\
  (r_pendingCursor r <> "" -> exists before ev after, handled = before ++ ev :: after /\
    r_pendingCursor r = ev_Cursor ev /\ r_pendingRows r = ev_RowsScanned ev).

Lemma docs_of_snapshot p ev : ev_Operation ev = OperationSnapshot -> length (docs_of p ev) <= 1.
Proof.
  intros Hop. unfold docs_of. destruct (Apply p (Some ev)) as [docs|] eqn:HA; [|simpl; lia].
  unfold Apply, Values in HA. rewrite Hop in HA. simpl in HA.
  apply res_bind_ok in HA as (? & _ & HA). apply res_bind_ok in HA as (? & _ & HA).
  apply res_bind_ok in HA as (? & _ & [= <-]). simpl. lia.
Qed.

Lemma total_size_scaled k n l :
  Forall (fun d => n * Size d <= k)%Z l -> (n * total_size l <= zlen l * k)%Z.
Proof.
  unfold total_size. induction 1 as [|d l Hd _ IH]; [unfold zlen; simpl; lia|].
  rewrite zlen_cons. simpl. nia.
Qed.

Lemma advanced_cursor r cp :
  r_pendingCursor r <> "" ->
  cp_SnapshotCursor (advanced r cp) = r_pendingCursor r /\
  cp_SnapshotRowsDone (advanced r cp) = r_pendingRows r.
Proof.
  intros Hc. unfold advanced. rewrite (bool_decide_eq_false_2 _ Hc).
  unfold default_version. by destruct (bool_decide _), (0 <? _)%Z; simpl; case_match.
Qed.

Lemma scan_room lims p handled r d acked :
  limits_ok lims -> scan_pos lims p handled r -> batcher_inv (r_batcher r) ->
  acked ++ b_pending (r_batcher r) = docs_all p handled ->
  (MaxRows lims * Size d <= MaxBytes lims)%Z ->
  (total_size (b_pending (r_batcher r) ++ [d]) <= MaxBytes (b_limits (r_batcher r)))%Z.
Proof.
  intros (Hm & Hmb & _) (Hl & Hev & _) Hb Heq Hd. rewrite Hl.
  assert (Forall (fun d => MaxRows lims * Size d <= MaxBytes lims)%Z
            (b_pending (r_batcher r) ++ [d])) as Hall.
  { apply Forall_app. split; [|by constructor].
    assert (Forall (fun d => MaxRows lims * Size d <= MaxBytes lims)%Z (docs_all p handled)) as Hh.
    { unfold docs_all. apply Forall_concat, Forall_fmap.
      eapply Forall_impl; [exact Hev|]. by intros ev (_ & _ & ?). }
    rewrite <- Heq in Hh. by apply Forall_app in Hh as [_ ?]. }
  apply total_size_scaled in Hall. pose proof (inv_rows_short _ Hb) as Hshort. rewrite Hl in Hshort.
  rewrite zlen_app in Hall. change (zlen [d]) with 1%Z in Hall. nia.
Qed.

Lemma scan_notes lims p handled ev r :
  scan_event lims p ev -> scan_pos lims p handled r -> scan_pos lims p (handled ++ [ev]) (note_event ev r).
Proof.
  intros Hgood (? & ? & ? & Hpos). pose proof Hgood as (_ & HG & _). split_and!; simpl; [done| | |].
  - apply Forall_app. auto.
  - by rewrite bool_decide_eq_true_2.
  - case_bool_decide as Hc.
    + intros Hhas. destruct (Hpos Hhas) as (b & e & a & -> & ?).
      exists b, e, (a ++ [ev]). by rewrite <- app_assoc.
    + intros _. by exists handled, ev, [].
Qed.

Lemma scan_covers lims p all handled rest r cp :
  all = handled ++ rest -> scan_pos lims p handled r -> has_position r ->
  cursor_covered p all (docs_all p handled) (refusals p handled) (advanced r cp).
Proof.
  intros Hall (_ & _ & HG & Hpos) [Hhas|Hhas]; [by rewrite HG in Hhas|].
  destruct (Hpos Hhas) as (before & ev & after & Hh & Hc & Hr).
  exists before, ev, (after ++ rest). rewrite Hall, Hh. split; [by rewrite <- app_assoc|].
  destruct (advanced_cursor r cp) as [-> ->]; [done|].
  split_and!; try done; [exists (docs_all p after)|exists (refusals p after)].
  - by rewrite <- docs_all_app, <- app_assoc.
  - by rewrite <- refusals_app, <- app_assoc.
Qed.

Lemma scan_run_audit p lims r o signals rw' out :
  fresh_runner p r -> b_limits (r_batcher r) = lims ->
  Forall (scan_event lims p) (received signals) ->
  Run signals (r, mkWorld o []) = (rw', out) ->
  saves_safe (cursor_covered p (received signals)) (trace rw'.2) /\
  (out = Some (Ok ()) -> audit (trace rw'.2) = Quiet (docs_all p (received signals)) (refusals p (received signals))).
Proof.
  intros Hfresh Hl Hev Hrun. set (all := received signals) in *.
  assert (limits_ok lims) as Hlims.
  { destruct Hfresh as (_ & Hb & _). rewrite <- Hl. apply Hb. }
  eapply (run_audit p all (cursor_covered p all) (scan_pos lims p) (scan_event lims p))
    with (handled := []) in Hrun; [exact Hrun| | | | | | |done|done].
  - intros handled r0 b Hb (? & ? & ? & ?). split_and!; simpl; congruence || done.
  - intros handled rest r0 cp0 Hall Hpos Hhas. by eapply scan_covers.
  - intros handled ev r0 Hgood (? & ? & ? & Hpos). split_and!; [done| |done|].
    { apply Forall_app. auto. }
    intros Hhas. destruct (Hpos Hhas) as (b & e & a & -> & ?).
    exists b, e, (a ++ [ev]). by rewrite <- app_assoc.
  - intros handled ev r0. apply scan_notes.
  - intros handled ev rest r0 w rw res0 acked docs HA Hall Hgood Hpos Hb Ha Hs Heq Hadd.
    assert (docs_of p ev = docs) as Hdocs by (unfold docs_of; by rewrite HA).
    assert (refusals p handled = refusals p (handled ++ [ev])) as Href
      by (rewrite refusals_snoc; unfold refusal_of; by rewrite HA, app_nil_r).
    pose proof Hgood as (Hop & Hc & Hsize). pose proof (docs_of_snapshot p ev Hop) as Hone.
    rewrite Hdocs in Hone, Hsize. destruct docs as [|d [|]]; simpl in Hone; [| |lia].
    { injection Hadd as <- <-. split; [done|]. intros _. exists (r_batcher r0), acked.
      by rewrite app_nil_r. }
    apply Forall_cons in Hsize as [Hsize _].
    eapply add_doc_audit in Hadd; try done.
    + destruct Hlims as (? & ? & _). unfold doc_ok. pose proof (Size_nonneg d).
      pose proof (Z.mul_le_mono_nonneg_r 1 (MaxRows lims) (Size d)). lia.
    + exact (scan_room lims p handled r0 d acked Hlims Hpos Hb Heq Hsize).
    + intros Hhas cp0.
      assert (acked ++ b_pending (r_batcher r0) ++ [d] = docs_all p (handled ++ [ev])) as E
        by (by rewrite docs_all_snoc, <- Heq, Hdocs, <- app_assoc).
      simpl. rewrite E, Href. eapply scan_covers; [|by apply scan_notes|done].
      rewrite Hall, <- app_assoc. done.
  - apply fresh_run_inv; [done|]. destruct Hfresh as (? & ? & ? & HG & HC).
    split_and!; [done|constructor|done|]. by rewrite HC.
Qed.

(** Resuming a scan misses no row when batches fill by rows: each cursor
    recorded is that of a row delivered before, with every row ahead of it. *)
Theorem cursor_follows_writes p lims r o signals rw' out pre cp res post :
  fresh_runner p r -> b_limits (r_batcher r) = lims ->
  Forall (scan_event lims p) (received signals) ->
  Run signals (r, mkWorld o []) = (rw', out) ->
  trace rw'.2 = pre ++ Saved cp res :: post ->
  exists acked turned, audit pre = Quiet acked turned /\ cursor_covered p (received signals) acked turned cp.
Proof.
  intros Hfresh Hl Hev Hrun Htr. destruct (scan_run_audit _ _ _ _ _ _ _ Hfresh Hl Hev Hrun) as [Hs _]. by eapply Hs.
Qed.

(** ** A cursor ahead of its row *)

Lemma write_saves r batch w w' :
  write r batch w = (w', Ok ()) -> has_position r ->
  exists pre cp, trace w' = pre ++ [Saved (advanced r cp) (Ok ())].
Proof.
  intros Hw Hpos. unfold write in Hw. simpl in Hw.
  destruct (on_Write _ _ batch) as [result [e|]]; simpl in Hw; [done|].
  case_match; [done|]. apply eff_bind_inv in Hw as (_ & w1 & _ & Hadv).
  unfold advance in Hadv. simpl in Hadv.
  assert (bool_decide (r_pendingGTID r = "") && bool_decide (r_pendingCursor r = "") = false) as E.
  { apply andb_false_iff. destruct Hpos; [left|right]; by apply bool_decide_eq_false_2. }
  rewrite E in Hadv.
  match type of Hadv with context [match ?x with Ok _ => _ | Err _ => _ end] => destruct x as [cp|e] end; [|done].
  unfold eff_map_err in Hadv. simpl in Hadv.
  destruct (on_Save _ _ _) as [[]|] eqn:Hsv; [|done]. injection Hadv as <-. simpl. eauto.
Qed.

(** Where a scan can lose a row: the row that overflows the batch's byte budget
    is not part of the batch written, yet the checkpoint that write is followed
    by already holds the row's cursor. A restart before the next flush resumes
    after the row. *)
Theorem cursor_recorded_before_its_row ev d r w rw' :
  Apply (r_plan r) (Some ev) = Ok [d] -> ev_Cursor ev <> "" ->
  batcher_inv (r_batcher r) -> b_pending (r_batcher r) <> [] ->
  (Size d < MaxBytes (b_limits (r_batcher r)) < total_size (b_pending (r_batcher r) ++ [d]))%Z ->
  handle ev (r, w) = (rw', Ok ()) ->
  b_pending (r_batcher rw'.1) = [d] /\
  exists pre cp, trace rw'.2 = pre ++ [Saved cp (Ok ())] /\ cp_SnapshotCursor cp = ev_Cursor ev.
Proof.
  intros HA Hc Hb Hne Hsize Hh. unfold handle in Hh. rewrite HA in Hh. simpl in Hh.
  assert (doc_ok d) as Hd by (pose proof (inv_limits _ Hb) as (_ & ? & _); unfold doc_ok; lia).
  set (w1 := report_event ev w) in *.
  pose proof (Add_spec (clock w1) d _ Hb Hd) as Hspec. simpl in Hspec.
  destruct (Add _ d (r_batcher r)) as [out b] eqn:HAdd.
  inversion Hspec as [s [?|?]|s ? ? Hout|s ? ?]; subst; [lia|lia| |lia].
  destruct (write _ _ w1) as [w2 [[]|]] eqn:Hw; [|done]. injection Hh as <-. split; [done|].
  simpl. apply write_saves in Hw as (pre & cp & ->).
  2: { right. simpl. by rewrite bool_decide_eq_false_2. }
  eexists _, _. split; [done|].
  match goal with |- cp_SnapshotCursor (advanced ?x _) = _ => destruct (advanced_cursor x cp) as [-> _] end;
    simpl; by rewrite bool_decide_eq_false_2.
Qed.

(** ** Progress *)

(** An outside that works: every write is accounted for, every record and save
    succeeds, and a load finds the checkpoint or that there is none. *)
Record healthy (o : Oracle) : Prop := {
  healthy_write : forall tr docs, (on_Write o tr docs).2 = None /\ Total (on_Write o tr docs).1 = zlen docs;
  healthy_record : forall tr rej, on_Record o tr rej = Ok ();
  healthy_load : forall tr s reason, on_Load o tr s <> Err (StoreFailed reason);
  healthy_save : forall tr cp, on_Save o tr cp = Ok ()
}.

Definition working (r : Runner) (w : World) : Prop := healthy (oracle w) /\ r_dlq r = true.

Lemma deadLetter_works r rej w :
  working r w -> exists w', deadLetter r rej w = (w', Ok ()) /\ oracle w' = oracle w.
Proof.
  intros [Hw Hd]. unfold deadLetter. rewrite Hd. simpl. rewrite (healthy_record _ Hw). eauto.
Qed.

Lemma advance_works r w :
  working r w -> exists w', advance r w = (w', Ok ()) /\ oracle w' = oracle w.
Proof.
  intros [Hw Hd]. unfold advance. case_match; [eauto|]. simpl.
  pose proof (healthy_load _ Hw (trace w) (r_stream r)) as Hl.
  destruct (on_Load _ _ _) as [cp|[|reason]]; [| |by destruct (Hl reason)];
    unfold eff_map_err; simpl; rewrite (healthy_save _ Hw); simpl; eauto.
Qed.

Lemma write_works r batch w :
  working r w -> exists w', write r batch w = (w', Ok ()) /\ oracle w' = oracle w.
Proof.
  intros [Hw Hd]. unfold write. simpl.
  destruct (healthy_write _ Hw (trace w ++ [Observed (ReportBatch (zlen batch))]) batch) as [He Ht].
  destruct (on_Write _ _ batch) as [result err] eqn:Hres. simpl in *. subst err.
  rewrite Ht, Z.eqb_refl. simpl. unfold mbind, eff_bind.
  match goal with |- context [log (Observed (ReportWrite ?x1 ?x2 ?x3 ?x4 ?x5)) ?w0] =>
    set (w2 := log (Observed (ReportWrite x1 x2 x3 x4 x5)) w0) end.
  destruct (Rejected result) as [|rej rejs].
  - apply (advance_works r w2). by split.
  - destruct (deadLetter_works r (rej :: rejs) w2) as (w3 & -> & Ho3); [by split|].
    destruct (advance_works r w3) as (w4 & -> & Ho4); [split; [by rewrite Ho3|done]|].
    exists w4. split; [done|]. by rewrite Ho4, Ho3.
Qed.

Lemma flush_works r w :
  working r w -> exists r' w', flush (r, w) = ((r', w'), Ok ()) /\ working r' w'.
Proof.
  intros Hw. unfold flush. destruct (Flush (r_batcher r)) as [[|d ds] b]; [by eauto|].
  destruct (write_works (set_batcher b r) (d :: ds) w Hw) as (w' & -> & Ho).
  eexists _, _. split; [done|]. destruct Hw. split; [by rewrite Ho|done].
Qed.

Lemma add_docs_works docs r w :
  working r w -> exists r' w', add_docs docs (r, w) = ((r', w'), Ok ()) /\ working r' w'.
Proof.
  revert r w. induction docs as [|d docs IH]; intros r w Hw; simpl; [eauto|].
  destruct (Add _ d (r_batcher r)) as [[batch|] b]; [|by apply IH].
  destruct (write_works (set_batcher b r) batch w Hw) as (w' & -> & Ho).
  apply IH. destruct Hw. split; [by rewrite Ho|done].
Qed.

Lemma handle_works ev r w :
  working r w -> exists r' w', handle ev (r, w) = ((r', w'), Ok ()) /\ working r' w'.
Proof.
  intros Hw. unfold handle. destruct (Apply (r_plan r) (Some ev)).
  - apply add_docs_works. destruct Hw as [Hw Hd]. split; [|done].
    unfold report_event. by case_match.
  - destruct (deadLetter_works r [transform_rejection ev e] w Hw) as (w' & -> & Ho).
    eexists _, _. split; [done|]. destruct Hw. split; [by rewrite Ho|done].
Qed.

(** C11: With an outside that works a stream never stops by itself: every event is
    handled, refused documents included, and when the source ends everything
    it sent has been delivered. *)
Theorem Run_completes p r o evs :
  fresh_runner p r -> r_dlq r = true -> healthy o -> Forall (stream_event p) evs ->
  exists rw', Run (map Received evs ++ [Closed]) (r, mkWorld o []) = (rw', Some (Ok ())) /\
    audit (trace rw'.2) = Quiet (docs_all p evs) (refusals p evs).
Proof.
  intros Hfresh Hd Ho Hev.
  assert (received (map Received evs ++ [Closed]) = evs) as Hrec by (clear; induction evs; simpl; congruence).
  assert (forall evs r w, working r w ->
    exists rw', Run (map Received evs ++ [Closed]) (r, w) = (rw', Some (Ok ()))) as Hrun.
  { clear. induction evs as [|ev evs IH]; intros r w Hw; simpl.
    - destruct (flush_works r (log Waited w) Hw) as (r' & w' & -> & _). eauto.
    - destruct (handle_works ev r (log Waited w) Hw) as (r' & w' & -> & Hw'). by apply IH. }
  destruct (Hrun evs r (mkWorld o [])) as [rw' Hr]; [by split|].
  exists rw'. split; [done|]. rewrite <- Hrec.
  eapply (stream_run_audit p); [exact Hfresh| |exact Hr|done]. by rewrite Hrec.
Qed.

End Delivery.
