(* ===== verification/Destination.v ===== *)
(** * What a destination promises

    The specification of a destination that orders writes by version, which is
    what [version_type: external] asks of Elasticsearch and what a
    ReplacingMergeTree keyed by [_version] gives on ClickHouse: the write of
    the highest version of a key stays, whatever order writes arrive in, and a
    deletion is remembered with its version. The sinks under
    [internal/sink] send the writes; this file states what they achieve. *)

From S2P Require Import Prelude GoStd Schema Cdc Transform.

(** The version and content of each key; a deleted key has no content. *)
Abbreviation versioned := (gmap string (Z * option string)).

Definition content (d : Doc) : option string := if doc_Deleted d then None else Some (doc_Body d).

(** One write: applied when its version is above the one held, stale
    otherwise. *)
Definition put (st : versioned) (d : Doc) : versioned :=
  match st !! doc_Key d with
  | Some (v, _) => if (v <? doc_Version d)%Z then <[doc_Key d := (doc_Version d, content d)]> st else st
  | None => <[doc_Key d := (doc_Version d, content d)]> st
  end.
Definition puts (st : versioned) (docs : list Doc) : versioned := foldl put st docs.

(** What a reader sees. *)
Definition visible (st : versioned) : gmap string string := omap snd st.

(** Writes of one version to one key are the same write. *)
Definition consistent (docs : list Doc) : Prop := forall a b, a ∈ docs -> b ∈ docs ->
  doc_Key a = doc_Key b -> doc_Version a = doc_Version b -> content a = content b.

Lemma put_lookup st d k :
  put st d !! k =
    if bool_decide (doc_Key d = k) then
      match st !! k with
      | Some (v, c) => if (v <? doc_Version d)%Z then Some (doc_Version d, content d) else Some (v, c)
      | None => Some (doc_Version d, content d)
      end
    else st !! k.
Proof.
  unfold put. case_bool_decide as Hk.
  - subst k. destruct (st !! doc_Key d) as [[v c]|] eqn:Hs; [case_match|]; by rewrite ?lookup_insert_eq, ?Hs.
  - destruct (st !! doc_Key d) as [[v c]|]; [case_match|]; by rewrite ?lookup_insert_ne.
Qed.

(** A write at or below the version held is stale. *)
Lemma put_stale st d v c :
  st !! doc_Key d = Some (v, c) -> (doc_Version d <= v)%Z -> put st d = st.
Proof. intros Hst Hv. unfold put. by rewrite Hst, (proj2 (Z.ltb_ge _ _)). Qed.

Lemma put_comm st a b :
  (doc_Key a = doc_Key b -> doc_Version a = doc_Version b -> content a = content b) ->
  put (put st a) b = put (put st b) a.
Proof.
  intros Hab. apply map_eq. intros k. rewrite !put_lookup.
  destruct (decide (doc_Key a = k)) as [Ha|Ha], (decide (doc_Key b = k)) as [Hb|Hb];
    rewrite ?(bool_decide_eq_true_2 _ Ha), ?(bool_decide_eq_true_2 _ Hb),
      ?(bool_decide_eq_false_2 _ Ha), ?(bool_decide_eq_false_2 _ Hb); try done.
  specialize (Hab ltac:(congruence)).
  destruct (st !! k) as [[v c]|]; repeat (case_match; simplify_eq; bool_to_prop; try lia); try done;
    assert (doc_Version a = doc_Version b) as E by lia; by rewrite E, Hab.
Qed.

Lemma put_put st d : put (put st d) d = put st d.
Proof.
  apply map_eq. intros k. rewrite !put_lookup. case_bool_decide; [|done].
  destruct (st !! k) as [[v c]|]; repeat (case_match; simplify_eq; bool_to_prop; try lia); done.
Qed.

Lemma consistent_sub docs docs' : docs ⊆ docs' -> consistent docs' -> consistent docs.
Proof. intros Hs Hc a b Ha Hb. apply Hc; by apply Hs. Qed.

(** The outcome depends on which writes arrived, not on their order: retries
    that reorder a batch, and a scan that runs beside a stream, end in the same
    state. *)
Theorem puts_order_free st docs docs' :
  docs ≡ₚ docs' -> consistent docs -> puts st docs = puts st docs'.
Proof.
  unfold puts. intros Hp. revert st. induction Hp as [|d l l' Hp IH|a b l|l l' l'' Hp1 IH1 Hp2 IH2];
    intros st Hc; simpl.
  - done.
  - apply IH. by eapply consistent_sub; [|exact Hc]; intros x ?; apply elem_of_cons; right.
  - f_equal. apply put_comm. intros. symmetry. apply Hc; try done; set_solver.
  - rewrite IH1 by done. apply IH2. eapply consistent_sub; [|exact Hc]. intros x. by rewrite Hp1.
Qed.

Lemma puts_again st docs d : d ∈ docs -> consistent docs -> put (puts st docs) d = puts st docs.
Proof.
  intros Hd Hc. apply elem_of_Permutation in Hd as [rest Hp].
  assert (docs ≡ₚ rest ++ [d]) as Hp' by (by rewrite Hp, Permutation_cons_append).
  rewrite (puts_order_free st _ _ Hp' Hc). unfold puts. rewrite foldl_app. simpl. apply put_put.
Qed.

(** Writing again what was already written changes nothing: a batch replayed
    after a crash, in whole or in part, leaves the destination as it was. *)
Theorem puts_replay st docs again :
  again ⊆ docs -> consistent docs -> puts (puts st docs) again = puts st docs.
Proof.
  intros Hs Hc. induction again as [|d again IH]; [done|].
  change (puts (put (puts st docs) d) again = puts st docs).
  rewrite (puts_again st docs d) by (done || (apply Hs; set_solver)). apply IH. set_solver.
Qed.

(** Versions never behind what is held, as a stream's allocator issues them. *)
Fixpoint in_order (st : versioned) (docs : list Doc) : Prop :=
  match docs with
  | [] => True
  | d :: docs =>
      (forall v c, st !! doc_Key d = Some (v, c) -> (v < doc_Version d)%Z) /\ in_order (put st d) docs
  end.

Lemma visible_put st d :
  (forall v c, st !! doc_Key d = Some (v, c) -> (v < doc_Version d)%Z) ->
  visible (put st d) = apply_doc (visible st) d.
Proof.
  intros Hv. assert (put st d = <[doc_Key d := (doc_Version d, content d)]> st) as ->.
  { unfold put. destruct (st !! doc_Key d) as [[v c]|]; [|done].
    by rewrite (proj2 (Z.ltb_lt _ _)) by eauto. }
  unfold visible, apply_doc, content. destruct (doc_Deleted d).
  - by rewrite omap_insert.
  - by rewrite omap_insert.
Qed.

(** For writes whose versions follow their order, the versioned destination
    shows what a plain one that keeps the last write of each key holds. *)
Lemma visible_in_order st docs :
  in_order st docs -> visible (puts st docs) = foldl apply_doc (visible st) docs.
Proof.
  revert st. induction docs as [|d docs IH]; intros st Hin; [done|]. destruct Hin as [Hd Hin].
  unfold puts in *. simpl. by rewrite IH, visible_put.
Qed.

(** A scanned row never undoes a change: written at any moment, with a base
    version below the change's, it leaves the change's document. *)
Theorem scan_never_overwrites st row change others1 others2 :
  doc_Key row = doc_Key change -> (doc_Version row < doc_Version change)%Z ->
  consistent (others1 ++ [change] ++ others2 ++ [row]) ->
  puts st (others1 ++ [change] ++ others2 ++ [row]) = puts st (others1 ++ [change] ++ others2).
Proof.
  intros Hk Hv Hc.
  assert (others1 ++ [change] ++ others2 ++ [row] ≡ₚ (others1 ++ others2) ++ [row] ++ [change]) as Hp.
  { rewrite <- (app_assoc others1 others2). apply Permutation_app_head.
    by rewrite (Permutation_app_comm [change]), <- app_assoc. }
  assert (others1 ++ [change] ++ others2 ≡ₚ (others1 ++ others2) ++ [change]) as Hp'.
  { rewrite <- (app_assoc others1 others2). apply Permutation_app_head, Permutation_app_comm. }
  rewrite (puts_order_free st _ _ Hp Hc).
  rewrite (puts_order_free st _ _ Hp').
  2: { eapply consistent_sub; [|exact Hc]. set_solver. }
  unfold puts. rewrite !foldl_app. simpl. set (s0 := foldl put (foldl put st others1) others2).
  apply map_eq. intros k. rewrite !put_lookup, <- Hk. case_bool_decide; [|done].
  destruct (s0 !! k) as [[v c]|]; repeat (case_match; simplify_eq; bool_to_prop; try lia); done.
Qed.
