(* ===== verification/Convergence.v ===== *)
(** * What a stream leaves in its destination

    The events of a table, replicated: the documents the runner delivers,
    written to a destination that orders writes by version, leave there the
    table's rows as the plan encodes them; and they do so again when a crash
    makes part of the stream be delivered twice. *)

From Stdlib Require Import Sorted.
From S2P Require Import Prelude GoStd Schema Cdc Transform Batcher Sink Checkpoint Runner Delivery Destination.

(** ** Plain destinations *)

(** The last write of a key in a list. *)
Definition last_write (k : string) (docs : list Doc) : option Doc :=
  foldl (fun acc d => if bool_decide (doc_Key d = k) then Some d else acc) None docs.

Lemma last_write_snoc k docs d :
  last_write k (docs ++ [d]) = if bool_decide (doc_Key d = k) then Some d else last_write k docs.
Proof. unfold last_write. by rewrite foldl_app. Qed.

Lemma last_write_app k l1 l2 :
  last_write k (l1 ++ l2) = match last_write k l2 with Some d => Some d | None => last_write k l1 end.
Proof.
  induction l2 as [|d l2 IH] using rev_ind; [by rewrite app_nil_r|].
  rewrite app_assoc, !last_write_snoc, IH. by case_bool_decide.
Qed.

Lemma apply_docs_lookup dst docs k :
  foldl apply_doc dst docs !! k = match last_write k docs with Some d => content d | None => dst !! k end.
Proof.
  induction docs as [|d docs IH] using rev_ind; [done|].
  rewrite foldl_app, last_write_snoc. simpl. unfold apply_doc at 1, content.
  case_bool_decide as Hk.
  - subst k. destruct (doc_Deleted d); [by rewrite lookup_delete_eq | by rewrite lookup_insert_eq].
  - destruct (doc_Deleted d); [by rewrite lookup_delete_ne | by rewrite lookup_insert_ne].
Qed.

Lemma last_write_prefix k l docs : l `prefix_of` docs -> last_write k docs = None -> last_write k l = None.
Proof. intros [rest ->]. rewrite last_write_app. by case_match. Qed.

(** Delivering a prefix of some writes before all of them changes nothing. *)
Lemma apply_docs_replay dst part docs :
  part `prefix_of` docs -> foldl apply_doc dst (part ++ docs) = foldl apply_doc dst docs.
Proof.
  intros Hp. apply map_eq. intros k. rewrite !apply_docs_lookup, last_write_app.
  destruct (last_write k docs) eqn:Hl; [done|]. by rewrite (last_write_prefix _ _ _ Hp Hl).
Qed.

(** Writes that differ in their versions only. *)
Definition same_write (a b : Doc) : Prop :=
  doc_Key a = doc_Key b /\ doc_Body a = doc_Body b /\ doc_Deleted a = doc_Deleted b.

Lemma apply_same dst l1 l2 : Forall2 same_write l1 l2 -> foldl apply_doc dst l1 = foldl apply_doc dst l2.
Proof.
  intros H. revert dst. induction H as [|a b l1 l2 (Hk & Hb & Hd) _ IH]; intros dst; [done|].
  simpl. rewrite IH. unfold apply_doc. by rewrite Hk, Hb, Hd.
Qed.

Section Convergence.
Context `{GoLib}.

(** ** The table's image *)

(** What an event means: the row's document gone, or the new row under its key
    and nothing under the key it had. *)
Definition replicate_event (p : Plan) (dst : gmap string string) (ev : ChangeEvent) : gmap string string :=
  if bool_decide (ev_Operation ev = OperationDelete) then
    match key p (ev_Before ev) with Ok k => delete k dst | Err _ => dst end
  else
    match key p (ev_After ev), encode p (ev_After ev) with
    | Ok k, Ok body => <[k := body]> (remove_replaced p ev dst)
    | _, _ => dst
    end.

Definition transforms (p : Plan) (ev : ChangeEvent) : Prop := is_ok (Apply p (Some ev)) = true.

Lemma docs_of_effect p ev dst :
  transforms p ev -> foldl apply_doc dst (docs_of p ev) = replicate_event p dst ev.
Proof.
  unfold transforms, docs_of, replicate_event. destruct (Apply p (Some ev)) as [docs|] eqn:HA; [|done].
  intros _. pose proof (Apply_effect_spec p ev docs dst HA) as He. case_bool_decide.
  - destruct He as (k & Hk & ->). by rewrite Hk.
  - destruct He as (k & body & Hk & Hb & ->). by rewrite Hk, Hb.
Qed.

Lemma docs_all_cons p ev evs : docs_all p (ev :: evs) = docs_of p ev ++ docs_all p evs.
Proof. done. Qed.

Lemma docs_all_effect p evs dst :
  Forall (transforms p) evs -> foldl apply_doc dst (docs_all p evs) = foldl (replicate_event p) dst evs.
Proof.
  intros H1. revert dst. induction H1 as [|ev evs Hev _ IH]; intros dst; [done|].
  rewrite docs_all_cons, foldl_app, docs_of_effect by done. by rewrite IH.
Qed.

(** ** Versions *)

(** Every version held is below [n]. *)
Definition below (st : versioned) (n : Z) : Prop := forall k v c, st !! k = Some (v, c) -> (v < n)%Z.

Lemma below_le st n m : below st n -> (n <= m)%Z -> below st m.
Proof. intros Hb Hn k v c Hk. specialize (Hb _ _ _ Hk). lia. Qed.

Lemma below_put st n d : below st n -> (doc_Version d < n)%Z -> below (put st d) n.
Proof.
  intros Hb Hd k v c. rewrite put_lookup. destruct (st !! k) as [[v' c']|] eqn:Hk;
    repeat case_match; intros; simplify_eq; eauto.
Qed.

Lemma below_puts st n docs :
  below st n -> Forall (fun d => doc_Version d < n)%Z docs -> below (puts st docs) n.
Proof.
  intros Hb Hd. revert st Hb. induction Hd as [|d docs Hd _ IH]; intros st Hb; [done|].
  by apply IH, below_put.
Qed.

Lemma in_order_app st l1 l2 : in_order st (l1 ++ l2) <-> in_order st l1 /\ in_order (puts st l1) l2.
Proof.
  revert st. induction l1 as [|d l1 IH]; intros st; simpl; [tauto|]. rewrite IH. unfold puts. simpl. tauto.
Qed.

(** The writes of one event: one version, above all held, and distinct keys. *)
Lemma in_order_event st n docs :
  below st n -> Forall (fun d => doc_Version d = n) docs -> NoDup (map doc_Key docs) -> in_order st docs.
Proof.
  intros Hb. assert (forall k v c, st !! k = Some (v, c) -> k ∈ map doc_Key docs -> (v < n)%Z) as Hb'
    by (intros; eauto). clear Hb.
  intros Hd Hn. revert st Hb'. induction Hd as [|d docs Hv _ IH]; intros st Hb; [done|].
  simpl in Hn. apply NoDup_cons in Hn as [Hnot Hn]. split.
  - intros v c Hk. rewrite Hv. eapply Hb; [exact Hk|]. apply elem_of_cons. by left.
  - apply IH; [done|]. intros k v c. rewrite put_lookup. case_bool_decide as Hk.
    + subst k. intros _ Hin. done.
    + intros Hs Hin. eapply Hb; [exact Hs|]. apply elem_of_cons. by right.
Qed.

Lemma docs_of_versions p ev : Forall (fun d => doc_Version d = ev_Seq ev) (docs_of p ev) /\ NoDup (map doc_Key (docs_of p ev)).
Proof.
  unfold docs_of. destruct (Apply p (Some ev)) as [docs|] eqn:HA; [|by split; constructor].
  apply Apply_documents_spec in HA as (Hd & Hn & _). split; [|done].
  eapply Forall_impl; [exact Hd|]. by intros d [? _].
Qed.

(** The events' versions grow, and start above everything held. *)
Definition newer (st : versioned) (evs : list ChangeEvent) : Prop :=
  StronglySorted Z.lt (map ev_Seq evs) /\ Forall (fun ev => below st (ev_Seq ev)) evs.

Lemma docs_in_order p st evs : newer st evs -> in_order st (docs_all p evs).
Proof.
  intros [Hs Hb]. revert st Hb. induction evs as [|ev evs IH]; intros st Hb; [done|].
  rewrite docs_all_cons. apply in_order_app. apply StronglySorted_inv in Hs as [Hs Hlt].
  apply Forall_cons in Hb as [Hev Hb]. destruct (docs_of_versions p ev) as [Hv Hn]. split.
  - by eapply in_order_event.
  - apply IH; [done|]. rewrite Forall_forall in *. intros ev' Hin.
    assert (ev_Seq ev < ev_Seq ev')%Z as Hlt'.
    { apply (proj1 (Forall_forall _ (map ev_Seq evs)) Hlt). apply list_elem_of_fmap. by exists ev'. }
    apply below_puts; [by apply Hb|]. eapply Forall_impl; [exact Hv|]. simpl. lia.
Qed.

(** ** Replication *)

(** A stream's events, delivered in order to a destination that orders writes
    by version, leave in it the image of the table after those events. *)
Theorem stream_replicates p st evs :
  newer st evs -> Forall (transforms p) evs ->
  visible (puts st (docs_all p evs)) = foldl (replicate_event p) (visible st) evs.
Proof.
  intros Hn Ht. rewrite visible_in_order by (by apply docs_in_order). by apply docs_all_effect.
Qed.

(** The same change read again: only its version is new. *)
Definition redelivered (ev ev' : ChangeEvent) : Prop :=
  ev' = mkChangeEvent (ev_Meta ev) (ev_Operation ev) (ev_Before ev) (ev_After ev) (ev_Timestamp ev)
          (ev_GTID ev) (ev_TxID ev) (ev_Seq ev') (ev_Cursor ev) (ev_RowsScanned ev).

Lemma redelivered_docs p ev ev' : redelivered ev ev' -> Forall2 same_write (docs_of p ev) (docs_of p ev').
Proof.
  intros ->. generalize (ev_Seq ev'). intros seq. destruct ev as [meta op before after ts gtid tx seq0 cur rows].
  unfold docs_of, Apply, Values.
  assert (Forall2 same_write [] []) as Hnil by constructor.
  destruct op; cbn [ev_Operation ev_Before ev_After ev_Seq].
  3: { destruct (checkWidth p before) as [[]|]; cbn -[checkWidth key encode encodeFields]; [|exact Hnil].
       destruct (key p before); cbn -[checkWidth key encode encodeFields]; [|exact Hnil]. destruct (p_dialect p); cbn -[checkWidth key encode encodeFields]; [by repeat constructor|].
       destruct (encodeFields _ _ _); cbn -[checkWidth key encode encodeFields]; by repeat constructor. }
  all: destruct (checkWidth p after) as [[]|]; cbn -[checkWidth key encode encodeFields]; [|exact Hnil];
    destruct (key p after) as [k|]; cbn -[checkWidth key encode encodeFields]; [|exact Hnil];
    destruct (encode p after); cbn -[checkWidth key encode encodeFields]; [|exact Hnil]; try by repeat constructor.
  destruct before as [before|]; cbn -[checkWidth key encode encodeFields]; [|by repeat constructor].
  destruct (checkWidth p (Some before)) as [[]|]; cbn -[checkWidth key encode encodeFields]; [|exact Hnil].
  destruct (key p (Some before)); cbn -[checkWidth key encode encodeFields]; [|exact Hnil]. case_bool_decide; by repeat constructor.
Qed.

Lemma redelivered_all p evs evs' :
  Forall2 redelivered evs evs' -> Forall2 same_write (docs_all p evs) (docs_all p evs').
Proof.
  induction 1 as [|ev ev' evs evs' Hev _ IH]; [constructor|]. rewrite !docs_all_cons.
  apply Forall2_app; [by apply redelivered_docs|done].
Qed.

Lemma prefix_in_order st l docs : l `prefix_of` docs -> in_order st docs -> in_order st l.
Proof. intros [rest ->]. rewrite in_order_app. tauto. Qed.

(** Crash and recovery, from any state of the destination. *)
Lemma recovery_replicates p st before rest rest' acked :
  Forall (transforms p) (before ++ rest) ->
  docs_all p before `prefix_of` acked -> acked `prefix_of` docs_all p (before ++ rest) ->
  Forall2 redelivered rest rest' -> newer st ((before ++ rest) ++ rest') ->
  visible (puts (puts st acked) (docs_all p rest')) =
    foldl (replicate_event p) (visible st) (before ++ rest).
Proof.
  intros Ht Hbefore Hacked Hagain Hnew.
  assert (in_order st (docs_all p (before ++ rest)) /\
          in_order (puts st (docs_all p (before ++ rest))) (docs_all p rest')) as [Hin1 _].
  { apply in_order_app. rewrite <- docs_all_app. by apply docs_in_order. }
  pose proof (prefix_in_order _ _ _ Hacked Hin1) as Hin.
  assert (newer (puts st acked) rest') as Hnew'.
  { destruct Hnew as [Hs Hb]. rewrite map_app in Hs. split.
    - clear -Hs. induction (map ev_Seq (before ++ rest)) as [|x l IH]; [done|].
      apply IH. by apply StronglySorted_inv in Hs as [? _].
    - apply Forall_app in Hb as [_ Hb]. rewrite Forall_forall in *. intros ev' Hin'.
      apply below_puts; [by apply Hb|]. apply Forall_forall. intros d Hd.
      assert (d ∈ docs_all p (before ++ rest)) as Hd' by (destruct Hacked as [? ->]; apply elem_of_app; by left).
      unfold docs_all in Hd'. apply list_elem_of_In, in_concat in Hd' as (ds & Hds%list_elem_of_In & Hd'%list_elem_of_In).
      apply list_elem_of_fmap in Hds as (ev & -> & Hev). destruct (docs_of_versions p ev) as [Hv _].
      rewrite Forall_forall in Hv. rewrite (Hv d Hd').
      assert (forall x y : Z, x ∈ map ev_Seq (before ++ rest) -> y ∈ map ev_Seq rest' -> (x < y)%Z) as Hlt.
      { clear -Hs. induction (map ev_Seq (before ++ rest)) as [|z l IH]; intros x y Hx Hy; [by apply not_elem_of_nil in Hx|].
        apply StronglySorted_inv in Hs as [Hs Hall]. apply elem_of_cons in Hx as [->|Hx]; [|by apply IH].
        rewrite Forall_forall in Hall. apply Hall. apply elem_of_app. by right. }
      apply Hlt; apply list_elem_of_fmap; eauto. }
  rewrite visible_in_order by (by apply docs_in_order). rewrite visible_in_order by done.
  rewrite <- (apply_same _ _ _ (redelivered_all p _ _ Hagain)), <- docs_all_effect by done.
  rewrite docs_all_app in *. destruct Hbefore as [part ->]. apply prefix_app_inv in Hacked.
  rewrite <- foldl_app, <- app_assoc, !foldl_app, <- foldl_app. by apply apply_docs_replay.
Qed.

(** C1: Crash and recovery. A first run delivers some documents [acked] and records
    the position of an event whose predecessors are all among them; a second
    run, given newer versions, is sent that event and everything after it
    again. The destination ends as if every event had been delivered once. *)
Theorem recovery_converges p st before rest rest' acked :
  Forall (transforms p) (before ++ rest) ->
  docs_all p before `prefix_of` acked -> acked `prefix_of` docs_all p (before ++ rest) ->
  Forall2 redelivered rest rest' -> newer st ((before ++ rest) ++ rest') ->
  visible (puts (puts st acked) (docs_all p rest')) =
    foldl (replicate_event p) (visible st) (before ++ rest).
Proof. apply recovery_replicates. Qed.

End Convergence.
