(* ===== verification/Snapshot.v ===== *)
(** * Table scans ([internal/source/snapshot/scanner.go])

    A table read in key order, a chunk at a time, as snapshot events. The
    database connection, the channel the events go to and the pacing timer are
    operations over a world [W]; rows arrive as the values the driver hands to
    [Scan]. Log lines are left out. *)

From Stdlib Require Import Ascii Floats.SpecFloat.
From S2P Require Import Prelude GoStd GoEncoding GoJson SqlText Schema Cdc Transform.

(** ** What the scanner calls *)

(** [decimal.NewFromString], [strconv.ParseFloat(s, 64)] as the bits of the
    float, and [t.Format(layout)] in the instant's own location. *)
Class ScanLib `{GoLib} := {
  NewFromString : string -> option decimal;
  ParseFloat : string -> option Z;
  FormatLocal : string -> Z -> string
}.

(** An error of the outside: one that is [context.Canceled], or any other. *)
Inductive outside_error := Canceled | Failed (text : string).

#[export] Instance outside_error_eq_dec : EqDecision outside_error.
Proof. solve_decision. Defined.

Section Outside.
Context `{GoLib}.

(** What a query returns: for every [Next] what [Scan] fills in, and
    [result.Err()] at the end. *)
Record Rows := mkRows {
  rows_read : list (res outside_error (list value));
  rows_Err : option outside_error
}.

Class ScanOps (W : Type) := {
  db_Conn : eff W outside_error ();
  db_Exec : string -> eff W outside_error ();
  db_Query : string -> list value -> eff W outside_error Rows;
  conn_Close : W -> W;
  (** [select { case out <- ev: case <-ctx.Done(): return ctx.Err() }]. *)
  out_Send : ChangeEvent -> eff W outside_error ();
  scan_Observe : Z -> W -> W;
  scan_Now : W -> Z;
  (** The wait for a timer of this duration or the end of the context. *)
  pause : Z -> eff W outside_error ()
}.

End Outside.

Inductive snap_error :=
  | ESnapDB
  | ESnapMeta
  | ESnapKey
  | ESnapChunkSize
  | ESnapBaseSeq
  | ESnapKeyColumn (name table : string)
  | EConn (cause : outside_error)
  | ETimeZone (cause : outside_error)
  | EQuery (table : string) (cause : outside_error)
  | EScanRow (table : string) (cause : outside_error)
  | ERead (table : string) (cause : outside_error)
  | EColumnCount (expected got : Z)
  | EDecimalValue (text : string)
  | EExpectedBytes
  | EEnumValue (label : string)
  | ESetValue (member : string)
  | EUnsignedValue (text : string)
  | EIntegerValue (text : string)
  | EFloatValue (text : string)
  | EScanType (datatype : string)
  | ECursorUnreadable
  | ECursorLength (got expected : Z)
  | EStopped (cause : outside_error)
  (** A slice indexed out of range, which panics. *)
  | ESnapPanic (index : Z).

#[export] Instance snap_error_eq_dec : EqDecision snap_error.
Proof. solve_decision. Defined.

(** [errors.Is(err, context.Canceled)]: the wrapped errors keep their cause. *)
Definition is_canceled (e : snap_error) : bool :=
  match e with
  | EConn c | ETimeZone c | EQuery _ c | EScanRow _ c | ERead _ c | EStopped c => bool_decide (c = Canceled)
  | _ => false
  end.

(** ** Identifiers *)

Definition quoteIdentifier (name : string) : string :=
  str1 backtick +:+ ReplaceByte backtick (String backtick (str1 backtick)) name +:+ str1 backtick.

(** ** Values *)

(** The position of a string in a list, which [indexOf] and [indexOfString]
    both search for; [None] where the source returns [-1]. *)
Fixpoint find_index (P : string -> bool) (l : list string) : option nat :=
  match l with
  | [] => None
  | x :: l => if P x then Some 0 else S <$> find_index P l
  end.

Lemma find_index_Some P l i :
  find_index P l = Some i -> exists x, l !! i = Some x /\ P x = true.
Proof.
  revert i. induction l as [|x l IH]; intros i Hi; [done|]. simpl in Hi.
  destruct (P x) eqn:E; [by injection Hi as <-; exists x|].
  destruct (find_index P l) as [j|]; [|done]. injection Hi as <-. by apply IH.
Qed.

Lemma find_index_None P l x : find_index P l = None -> x ∈ l -> P x = false.
Proof.
  induction l as [|y l IH]; simpl; [by intros _ ?%not_elem_of_nil|].
  destruct (P y) eqn:E; [done|]. intros Hn [->|Hx]%elem_of_cons; [done|].
  apply IH; [|done]. by destruct (find_index P l).
Qed.

Definition indexOf (cols : list Column) (name : string) : option nat :=
  find_index (fun n => EqualFold n name) (map col_Name cols).
Definition indexOfString (values : list string) (want : string) : option nat :=
  find_index (fun v => bool_decide (v = want)) values.

Definition parseUint (text : string) : option Z := ParseUint (TrimSpace text) 64.
Definition parseInt (text : string) : option Z := ParseInt (TrimSpace text).

Section Values.
Context `{ScanLib}.

Definition rawKeyValue (v : value) : value :=
  match v with VBytes b => VString b | _ => v end.

Definition asString (v : value) : string :=
  match v with
  | VString s => s
  | VBytes s => s
  | VTime t => FormatLocal "2006-01-02 15:04:05.999999999" t
  | _ => Sprint v
  end.

Definition asBytes (v : value) : res snap_error string :=
  match v with
  | VBytes s | VString s => Ok s
  | _ => Err EExpectedBytes
  end.

Definition parseFloat (text : string) : option Z := ParseFloat (TrimSpace text).

Definition asInteger (c : Column) (v : value) : res snap_error value :=
  let text := asString v in
  if col_Unsigned c then
    match parseUint text with
    | Some n => Ok (VInt Uint64 n)
    | None => Err (EUnsignedValue text)
    end
  else
    match parseInt text with
    | Some n => Ok (VInt Int64 n)
    | None => Err (EIntegerValue text)
    end.

Definition asFloat (v : value) : res snap_error value :=
  match v with
  | VFloat64 _ | VFloat32 _ => Ok v
  | _ =>
    match parseFloat (asString v) with
    | Some f => Ok (VFloat64 f)
    | None => Err (EFloatValue (asString v))
    end
  end.

Definition enumMember (c : Column) (v : value) : res snap_error value :=
  let label := asString v in
  if bool_decide (label = "") then Ok (VInt Int64 0)
  else match indexOfString (col_EnumValues c) label with
  | Some i => Ok (VInt Int64 (Z.of_nat i + 1))
  | None => Err (EEnumValue label)
  end.

(** [bits |= 1 << uint(index)] for every member, on an [int64]: a shift by 64
    or more gives zero. *)
Fixpoint set_bits (labels members : list string) (bits : Z) : res snap_error Z :=
  match members with
  | [] => Ok bits
  | m :: members =>
    match indexOfString labels m with
    | None => Err (ESetValue m)
    | Some i => set_bits labels members (Z.lor bits (i64 (Z.shiftl 1 (Z.of_nat i))))
    end
  end.

Definition setBitmask (c : Column) (v : value) : res snap_error value :=
  let joined := asString v in
  if bool_decide (joined = "") then Ok (VInt Int64 0)
  else bits ← set_bits (col_SetValues c) (SplitByte "," joined) 0; Ok (VInt Int64 bits).

Definition toEventValue (c : Column) (v : value) : res snap_error value :=
  let ty := ToLower (col_DataType c) in
  match v with
  | VNil => Ok VNil
  | _ =>
    if bool_decide (ty = "enum") then enumMember c v
    else if bool_decide (ty = "set") then setBitmask c v
    else if one_of ty ["decimal"; "numeric"] then
      match NewFromString (asString v) with
      | Some d => Ok (VDecimal d)
      | None => Err (EDecimalValue (asString v))
      end
    else if one_of ty ["date"; "datetime"; "timestamp"; "time"] then Ok (VString (asString v))
    else if one_of ty ["json"; "binary"; "varbinary"; "tinyblob"; "blob"; "mediumblob"; "longblob"]
    then b ← asBytes v; Ok (VBytes b)
    else if one_of ty ["char"; "varchar"; "tinytext"; "text"; "mediumtext"; "longtext"]
    then Ok (VString (asString v))
    else if one_of ty ["bigint"; "int"; "integer"; "mediumint"; "smallint"; "tinyint"; "year"; "bit"]
    then asInteger c v
    else if one_of ty ["float"; "double"; "double precision"; "real"] then asFloat v
    else Err (EScanType (col_DataType c))
  end.

(** ** Cursors *)

Definition encodeCursor (values : list value) : string :=
  match values with
  | [] => ""
  | _ => json_MarshalStrings (map asString values)
  end.

Definition decodeCursor (encoded : string) (keyLen : nat) : res snap_error (option (list value)) :=
  if bool_decide (encoded = "") then Ok None
  else match json_UnmarshalStrings encoded with
  | None => Err ECursorUnreadable
  | Some parts =>
      if bool_decide (length parts = keyLen) then Ok (Some (map VString parts))
      else Err (ECursorLength (zlen parts) (Z.of_nat keyLen))
  end.

End Values.

(** ** The scanner *)

Section Scanner.
Context `{ScanLib}.

(** [so_DB] and [so_Observe] say whether they are set. *)
Record SOptions := mkSOptions {
  so_DB : bool;
  so_Meta : option TableMeta;
  so_Key : list string;
  so_ChunkSize : Z;
  so_MaxRowsPerSec : Z;
  so_Cursor : string;
  so_BaseSeq : Z;
  so_Observe : bool
}.

Record Snapshotter := mkSnapshotter {
  sn_meta : TableMeta;
  sn_opts : SOptions;
  sn_keyCols : list Column;
  sn_scanCols : list Column;
  sn_rowsRead : Z;
  sn_err : option snap_error;
  sn_done : bool
}.

Definition key_column (meta : TableMeta) (name : string) : res snap_error Column :=
  match TableMeta_Column meta name with
  | Some c => Ok c
  | None => Err (ESnapKeyColumn name (TableMeta_Name meta))
  end.

Definition NewSnapshotter (opts : SOptions) : res snap_error Snapshotter :=
  if negb (so_DB opts) then Err ESnapDB
  else match so_Meta opts with
  | None => Err ESnapMeta
  | Some meta =>
    if bool_decide (so_Key opts = []) then Err ESnapKey
    else if (so_ChunkSize opts <? 1)%Z then Err ESnapChunkSize
    else if (so_BaseSeq opts =? 0)%Z then Err ESnapBaseSeq
    else
      keyCols ← res_map (key_column meta) (so_Key opts);
      Ok (mkSnapshotter meta opts keyCols
            (List.filter (fun c => negb (col_Generated c)) (tm_Columns meta)) 0 None false)
  end.

Definition with_rows (n : Z) (s : Snapshotter) : Snapshotter :=
  mkSnapshotter (sn_meta s) (sn_opts s) (sn_keyCols s) (sn_scanCols s) n (sn_err s) (sn_done s).
Definition setErr (e : snap_error) (s : Snapshotter) : Snapshotter :=
  mkSnapshotter (sn_meta s) (sn_opts s) (sn_keyCols s) (sn_scanCols s) (sn_rowsRead s)
    (match sn_err s with None => Some e | old => old end) (sn_done s).
Definition set_done (s : Snapshotter) : Snapshotter :=
  mkSnapshotter (sn_meta s) (sn_opts s) (sn_keyCols s) (sn_scanCols s) (sn_rowsRead s) (sn_err s) true.

Definition comma_list (l : list string) : string := Join l ", ".

Definition chunkQuery (s : Snapshotter) (cursor : option (list value)) : string * list value :=
  let names cols := comma_list (map (fun c => quoteIdentifier (col_Name c)) cols) in
  let query := "SELECT " +:+ names (sn_scanCols s) +:+ " FROM " +:+ quoteIdentifier (tm_Schema (sn_meta s))
    +:+ "." +:+ quoteIdentifier (tm_Table (sn_meta s)) in
  let limit := [VInt Int (so_ChunkSize (sn_opts s))] in
  let tail := " ORDER BY " +:+ names (sn_keyCols s) +:+ " LIMIT ?" in
  match cursor with
  | None => (query +:+ tail, limit)
  | Some c =>
      (query +:+ " WHERE (" +:+ names (sn_keyCols s) +:+ ") > ("
         +:+ comma_list (map (fun _ => "?") (sn_keyCols s)) +:+ ")" +:+ tail, c ++ limit)
  end.

(** [row[c.Position] = value] for every scanned column, which panics past the
    end. *)
Fixpoint fill_row (cols : list Column) (raw row : list value) : res snap_error (list value) :=
  match cols, raw with
  | c :: cols, v :: raw =>
    x ← toEventValue c v;
    if bool_decide (col_Position c < length row) then fill_row cols raw (<[col_Position c := x]> row)
    else Err (ESnapPanic (Z.of_nat (col_Position c)))
  | _, _ => Ok row
  end.

(** [rawKeyValue(raw[indexOf(s.scanCols, c.Name)])]. *)
Definition key_value (scanCols : list Column) (raw : list value) (c : Column) : res snap_error value :=
  match indexOf scanCols (col_Name c) with
  | None => Err (ESnapPanic (-1))
  | Some i =>
    match raw !! i with
    | Some v => Ok (rawKeyValue v)
    | None => Err (ESnapPanic (Z.of_nat i))
    end
  end.

(** [scanRow] on what [Scan] filled in: the row, and the values of its key. *)
Definition scanRow (s : Snapshotter) (scanned : res outside_error (list value))
  : res snap_error (list value * list value) :=
  match scanned with
  | Err e => Err (EScanRow (TableMeta_Name (sn_meta s)) e)
  | Ok raw =>
    if negb (bool_decide (length raw = length (sn_scanCols s)))
    then Err (EColumnCount (zlen raw) (zlen (sn_scanCols s)))
    else
      row ← fill_row (sn_scanCols s) raw (replicate (length (tm_Columns (sn_meta s))) VNil);
      keyValues ← res_map (key_value (sn_scanCols s) raw) (sn_keyCols s);
      Ok (row, keyValues)
  end.

Fixpoint scan_rows (s : Snapshotter) (read : list (res outside_error (list value)))
    (rows : list (list value)) (next : list value) : res snap_error (list (list value) * list value) :=
  match read with
  | [] => Ok (rows, next)
  | r :: read => '(row, keyValues) ← scanRow s r; scan_rows s read (rows ++ [row]) keyValues
  end.

(** *** Pacing *)

Definition float_of_Z (z : Z) : spec_float := binary_normalize 53 1024 z 0 false.

(** The conversion of a finite float to an integer, toward zero. *)
Definition trunc (f : spec_float) : Z :=
  match f with
  | S754_finite sign m e =>
      let n := if (0 <=? e)%Z then Z.shiftl (Zpos m) e else Z.shiftr (Zpos m) (- e) in
      if sign then (- n)%Z else n
  | _ => 0%Z
  end.

(** [time.Duration(float64(rows) / float64(rowsPerSec) * float64(time.Second))]. *)
Definition chunk_time (rows rowsPerSec : Z) : Z :=
  trunc (SFmul 53 1024 (SFdiv 53 1024 (float_of_Z rows) (float_of_Z rowsPerSec)) (float_of_Z (10 ^ 9))).

Record limiter := mkLimiter { l_rowsPerSec : Z; l_last : Z }.

Context {W : Type} `{!ScanOps W}.

Definition newLimiter (rowsPerSec : Z) (w : W) : limiter := mkLimiter rowsPerSec (scan_Now w).

(** [time.Since] saturates at the range of a duration. *)
Definition since (t now : Z) : Z := Z.max (- 2 ^ 63) (Z.min (2 ^ 63 - 1) (now - t)).

Definition limiter_wait (l : limiter) (rows : Z) (w : W) : W * limiter * res snap_error () :=
  if (l_rowsPerSec l <=? 0)%Z then (w, l, Ok ())
  else
    let want := chunk_time rows (l_rowsPerSec l) in
    let elapsed := since (l_last l) (scan_Now w) in
    let l := mkLimiter (l_rowsPerSec l) (scan_Now w) in
    if (want <=? elapsed)%Z then (w, l, Ok ())
    else match pause (want - elapsed) w with
    | (w, Err e) => (w, l, Err (EStopped e))
    | (w, Ok _) => (w, mkLimiter (l_rowsPerSec l) (scan_Now w), Ok ())
    end.

(** *** Reading and emitting *)

Definition scanConn : eff W snap_error () := fun w =>
  match db_Conn w with
  | (w, Err e) => (w, Err (EConn e))
  | (w, Ok _) =>
    match db_Exec "SET SESSION time_zone = '+00:00'" w with
    | (w, Err e) => (conn_Close w, Err (ETimeZone e))
    | (w, Ok _) => (w, Ok ())
    end
  end.

Definition readChunk (s : Snapshotter) (cursor : option (list value))
  : eff W snap_error (list (list value) * list value) := fun w =>
  let '(query, args) := chunkQuery s cursor in
  match db_Query query args w with
  | (w, Err e) => (w, Err (EQuery (TableMeta_Name (sn_meta s)) e))
  | (w, Ok result) =>
    (w, '(rows, next) ← scan_rows s (rows_read result) [] [];
        match rows_Err result with
        | Some e => Err (ERead (TableMeta_Name (sn_meta s)) e)
        | None => Ok (rows, next)
        end)
  end.

(** The event of a row, which carries the cursor when it ends its chunk. *)
Definition row_event (s : Snapshotter) (row : list value) (cursor : string) (rowsScanned : Z) : ChangeEvent :=
  mkChangeEvent (Some (sn_meta s)) OperationSnapshot None (Some row) zero_time "" 0
    (so_BaseSeq (sn_opts s)) cursor rowsScanned.

Fixpoint send_rows (s : Snapshotter) (rows : list (list value)) (cursor : string) (rowsAfterChunk : Z)
  : eff W snap_error () := fun w =>
  match rows with
  | [] => (w, Ok ())
  | row :: rows =>
    let ev := match rows with [] => row_event s row cursor rowsAfterChunk | _ => row_event s row "" 0 end in
    match out_Send ev w with
    | (w, Err e) => (w, Err (EStopped e))
    | (w, Ok _) => send_rows s rows cursor rowsAfterChunk w
    end
  end.

Definition emitChunk (rows : list (list value)) (next : list value)
  : eff (Snapshotter * W) snap_error () := fun '(s, w) =>
  let rowsAfterChunk := u64 (sn_rowsRead s + zlen rows) in
  match send_rows s rows (encodeCursor next) rowsAfterChunk w with
  | (w, Err e) => ((s, w), Err e)
  | (w, Ok _) => ((with_rows rowsAfterChunk s, w), Ok ())
  end.

(** The loop of [run], [fuel] chunks of it; [None] while it goes on. *)
Fixpoint scan_loop (fuel : nat) (l : limiter) (cursor : option (list value)) (sw : Snapshotter * W)
  : (Snapshotter * W) * option (res snap_error ()) :=
  match fuel with
  | 0 => (sw, None)
  | S fuel =>
    let '(s, w) := sw in
    match readChunk s cursor w with
    | (w, Err e) => ((s, w), Some (Err e))
    | (w, Ok ([], _)) => ((s, w), Some (Ok ()))
    | (w, Ok (rows, next)) =>
      match emitChunk rows next (s, w) with
      | (sw, Err e) => (sw, Some (Err e))
      | ((s, w), Ok _) =>
        let w := if so_Observe (sn_opts s) then scan_Observe (sn_rowsRead s) w else w in
        match limiter_wait l (zlen rows) w with
        | (w, _, Err e) => ((s, w), Some (Err e))
        | (w, l, Ok _) =>
          if (zlen rows <? so_ChunkSize (sn_opts s))%Z then ((s, w), Some (Ok ()))
          else scan_loop fuel l (Some next) (s, w)
        end
      end
    end
  end.

(** [(s *Snapshotter) run], up to [fuel] chunks. *)
Definition scan_run (fuel : nat) (sw : Snapshotter * W) : (Snapshotter * W) * option (res snap_error ()) :=
  let '(s, w) := sw in
  match scanConn w with
  | (w, Err e) => ((s, w), Some (Err e))
  | (w, Ok _) =>
    match decodeCursor (so_Cursor (sn_opts s)) (length (sn_keyCols s)) with
    | Err e => ((s, conn_Close w), Some (Err e))
    | Ok cursor =>
      match scan_loop fuel (newLimiter (so_MaxRowsPerSec (sn_opts s)) w) cursor (s, w) with
      | (sw, None) => (sw, None)
      | ((s, w), outcome) => ((s, conn_Close w), outcome)
      end
    end
  end.

(** The goroutine of [Events]: [Done] and [Err] afterwards, [None] while it
    runs. *)
Definition Events (fuel : nat) (sw : Snapshotter * W) : option (Snapshotter * W) :=
  match scan_run fuel sw with
  | (_, None) => None
  | ((s, w), Some (Ok _)) => Some (set_done s, w)
  | ((s, w), Some (Err e)) => Some (if is_canceled e then s else setErr e s, w)
  end.

End Scanner.

#[global] Arguments readChunk : simpl never.
#[global] Arguments emitChunk : simpl never.
#[global] Arguments limiter_wait : simpl never.
#[global] Arguments scanRow : simpl never.

(** ** The chunk query

    What the text of a chunk's query asks for, as a server reads it. *)

Section ChunkQuery.
Context `{ScanLib}.

Definition key_names (s : Snapshotter) : list string := map col_Name (sn_keyCols s).

(** The scanned columns of the rows whose key is after the cursor, in the order
    of the key, up to a limit. *)
Definition next_chunk (s : Snapshotter) (cursor : option (list value)) : select := {|
  sel_exprs := map (fun c => ECol (col_Name c)) (sn_scanCols s);
  sel_from := Qualified (tm_Schema (sn_meta s)) (tm_Table (sn_meta s));
  sel_where := match cursor with None => None | Some _ => Some (mkCondition (key_names s) OpGt) end;
  sel_order := key_names s;
  sel_limit := true |}.

Lemma quoteIdentifier_quoted name : quoteIdentifier name = quoted_name name.
Proof. done. Qed.

Lemma lex_quoted_columns ts cols c rest :
  cols <> [] -> Ascii.eqb c backtick = false ->
  lex_run (ts, Between) (comma_list (map (fun c => quoteIdentifier (col_Name c)) cols) +:+ String c rest) =
  lex_run (lex_start (ts ++ listed (map TQuoted (map col_Name cols))) c) rest.
Proof.
  intros Hne Hc. rewrite <- lex_names; [|by destruct cols|done].
  unfold comma_list. by rewrite map_map.
Qed.

Lemma lex_table ts schema table rest :
  lex_run (ts, Between) (quoteIdentifier schema +:+ "." +:+ quoteIdentifier table +:+ String " " rest) =
  lex_run (ts ++ [TQuoted schema; TSym "."; TQuoted table], Between) rest.
Proof.
  rewrite !quoteIdentifier_quoted, lex_run_app, lex_quoted, lex_run_app.
  change (lex_run (ts, QuotedEnd schema) ".") with ((ts ++ [TQuoted schema]) ++ [TSym "."], Between).
  rewrite lex_run_app, lex_quoted. cbn [lex_run lex_step].
  change (Ascii.eqb " " backtick) with false. cbn iota.
  change (lex_start ?l " ") with (l, Between). by rewrite <- !(assoc_L (++)).
Qed.

(** The tokens of the two ends of the query. *)
Definition head_tokens (s : Snapshotter) : list token :=
  TWord "SELECT" :: listed (map TQuoted (map col_Name (sn_scanCols s))) ++
  [TWord "FROM"; TQuoted (tm_Schema (sn_meta s)); TSym "."; TQuoted (tm_Table (sn_meta s))].
Definition tail_tokens (s : Snapshotter) : list token :=
  TWord "ORDER" :: TWord "BY" :: listed (map TQuoted (key_names s)) ++ [TWord "LIMIT"; placeholder].
Definition where_tokens (s : Snapshotter) : list token :=
  TWord "WHERE" :: TSym "(" :: listed (map TQuoted (key_names s)) ++
  TSym ")" :: TSym ">" :: TSym "(" :: listed (map (fun _ => placeholder) (sn_keyCols s)) ++ [TSym ")"].

Lemma chunk_tokens s cursor :
  sn_scanCols s <> [] -> sn_keyCols s <> [] ->
  tokens (chunkQuery s cursor).1 =
    Some (head_tokens s ++ match cursor with None => [] | Some _ => where_tokens s end ++ tail_tokens s).
Proof.
  intros Hs Hk. unfold tokens.
  assert (forall ts rest, lex_run (ts, Between) ("SELECT " +:+ comma_list (map (fun c => quoteIdentifier (col_Name c)) (sn_scanCols s))
      +:+ " FROM " +:+ quoteIdentifier (tm_Schema (sn_meta s)) +:+ "." +:+ quoteIdentifier (tm_Table (sn_meta s)) +:+ String " " rest)
      = lex_run (ts ++ head_tokens s, Between) rest) as Hhead.
  { intros ts rest. rewrite lex_run_app. change (lex_run (ts, Between) "SELECT ") with (ts ++ [TWord "SELECT"], Between).
    rewrite app_cons_str, lex_quoted_columns by done.
    change (lex_start ?l " ") with (l, Between). rewrite lex_run_app.
    change (lex_run (?l, Between) "FROM ") with (l ++ [TWord "FROM"], Between). rewrite lex_table.
    unfold head_tokens. by app_right. }
  assert (forall ts, lex_run (ts, Between) ("ORDER BY " +:+ comma_list (map (fun c => quoteIdentifier (col_Name c)) (sn_keyCols s))
      +:+ " LIMIT ?") = (ts ++ tail_tokens s, Between)) as Htail.
  { intros ts. rewrite lex_run_app. change (lex_run (ts, Between) "ORDER BY ") with ((ts ++ [TWord "ORDER"]) ++ [TWord "BY"], Between).
    rewrite lex_quoted_columns by done. change (lex_start ?l " ") with (l, Between).
    change (lex_run (?l, Between) "LIMIT ?") with ((l ++ [TWord "LIMIT"]) ++ [placeholder], Between).
    unfold tail_tokens, key_names. by app_right. }
  unfold chunkQuery. destruct cursor as [c|]; cbn [fst].
  - rewrite !app_assoc_str. change (" WHERE (" +:+ ?x) with (String " " ("WHERE (" +:+ x)). rewrite Hhead, lex_run_app.
    change (lex_run (?l, Between) "WHERE (") with ((l ++ [TWord "WHERE"]) ++ [TSym "("], Between).
    change (") > (" +:+ ?x) with (String ")" (" > (" +:+ x)). rewrite lex_quoted_columns by done.
    change (lex_start ?l ")") with (l ++ [TSym ")"], Between). rewrite lex_run_app.
    change (lex_run (?l, Between) " > (") with ((l ++ [TSym ">"]) ++ [TSym "("], Between).
    unfold comma_list at 1. rewrite lex_run_app, lex_placeholders, lex_run_app.
    change (lex_run (?l, Between) ")") with (l ++ [TSym ")"], Between).
    change (" ORDER BY " +:+ ?x) with (String " " ("ORDER BY " +:+ x)). cbn [lex_run lex_step].
    change (lex_start ?l " ") with (l, Between). rewrite Htail. unfold lex_end. cbn [fst snd].
    f_equal. unfold where_tokens, key_names. by app_right.
  - rewrite !app_assoc_str. change (" ORDER BY " +:+ ?x) with (String " " ("ORDER BY " +:+ x)).
    by rewrite Hhead, Htail.
Qed.

(** The text spells that query. *)
Lemma chunk_spelled s cursor :
  sn_scanCols s <> [] -> sn_keyCols s <> [] -> spelled (chunkQuery s cursor).1 = Some (Select (next_chunk s cursor)).
Proof.
  intros Hs Hk. unfold spelled. rewrite chunk_tokens by done. cbn [mbind option_bind].
  unfold head_tokens. cbn [app statement_p]. unfold select_p. rewrite <- !(assoc_L (++)).
  assert (key_names s <> []) as Hn by (unfold key_names; by destruct (sn_keyCols s)).
  rewrite (comma_list_listed expression TQuoted ECol); [|done|by destruct (sn_scanCols s)|done].
  cbn [mbind option_bind app]. unfold keyword. rewrite expect_reads. cbn [mbind option_bind table_ref].
  assert (forall ts, order_clause (tail_tokens s ++ ts) = Some (key_names s, TWord "LIMIT" :: placeholder :: ts)) as Horder.
  { intros ts. unfold tail_tokens. cbn [app order_clause]. rewrite <- (assoc_L (++)).
    rewrite (comma_list_listed column TQuoted (fun c => c)); [by rewrite map_id|done..]. }
  specialize (Horder []). rewrite app_nil_r in Horder.
  assert (where_clause (match cursor with None => [] | Some _ => where_tokens s end ++ tail_tokens s) =
    Some (match cursor with None => None | Some _ => Some (mkCondition (key_names s) OpGt) end, tail_tokens s)) as Hw.
  { destruct cursor; [|done]. unfold where_tokens. cbn [app where_clause comparison_p].
    app_right. erewrite parens_reads by (apply (comma_list_listed column TQuoted (fun c => c)); done).
    rewrite map_id. cbn [mbind option_bind operator].
    erewrite parens_reads by (apply (comma_list_listed _ (fun _ => placeholder) (fun _ => ())); [|done..]; intros; apply expect_reads).
    cbn [mbind option_bind].
    rewrite bool_decide_eq_true_2 by (unfold key_names; by rewrite !length_map). done. }
  rewrite Hw. cbn [mbind option_bind]. rewrite Horder. cbn [mbind option_bind limit_clause placeholder].
  unfold next_chunk. by rewrite map_map.
Qed.

End ChunkQuery.

(** ** The table a scan reads *)

Lemma key_columns_of_table `{GoLib} meta names cols :
  res_map (key_column meta) names = Ok cols -> Forall (fun c => c ∈ tm_Columns meta) cols.
Proof.
  intros Hkeys%res_map_ok. eapply Forall2_Forall_r; [exact Hkeys|]. apply Forall_forall.
  intros n _ c Hc. unfold key_column in Hc. destruct (TableMeta_Column _ n) eqn:E; [|done].
  injection Hc as ->. by apply TableMeta_Column_spec in E as [? _].
Qed.

(** No two columns of a table have the same name, whatever their case. *)
Definition distinct_names (cols : list Column) : Prop :=
  forall c c', c ∈ cols -> c' ∈ cols -> EqualFold (col_Name c) (col_Name c') = true -> c = c'.

Lemma indexOf_stored cols c :
  c ∈ List.filter (fun c => negb (col_Generated c)) cols ->
  exists i, indexOf (List.filter (fun c => negb (col_Generated c)) cols) (col_Name c) = Some i /\
    i < length (List.filter (fun c => negb (col_Generated c)) cols).
Proof.
  intros Hc. unfold indexOf. destruct (find_index _ _) as [i|] eqn:E.
  - exists i. split; [done|]. apply find_index_Some in E as (n & Hn%lookup_lt_Some & _).
    by rewrite length_map in Hn.
  - apply (find_index_None _ _ (col_Name c)) in E; [by unfold EqualFold in E; rewrite bool_decide_eq_true_2 in E|].
    apply list_elem_of_fmap. by exists c.
Qed.

(** A scanner of a table whose key columns are stored, as [NewSnapshotter] makes
    one. *)
Record keyed_table `{GoLib} (s : Snapshotter) : Prop := {
  kt_columns : sn_scanCols s = List.filter (fun c => negb (col_Generated c)) (tm_Columns (sn_meta s));
  kt_keys : Forall (fun c => c ∈ tm_Columns (sn_meta s) /\ col_Generated c = false) (sn_keyCols s);
  kt_some_key : sn_keyCols s <> [];
  kt_names : distinct_names (tm_Columns (sn_meta s))
}.

Section Reading.
Context `{ScanLib}.

Lemma kt_key_scanned s c : keyed_table s -> c ∈ sn_keyCols s -> c ∈ sn_scanCols s.
Proof.
  intros Hs Hc. pose proof (kt_keys s Hs) as Hk. rewrite Forall_forall in Hk. destruct (Hk c Hc) as [Hin Hg].
  rewrite (kt_columns s Hs). apply list_elem_of_In, filter_In. split; [by apply list_elem_of_In|by rewrite Hg].
Qed.

Lemma kt_some_column s : keyed_table s -> sn_scanCols s <> [].
Proof.
  intros Hs. pose proof (kt_some_key s Hs) as Hne. destruct (sn_keyCols s) as [|c l] eqn:Hk; [done|].
  pose proof (kt_key_scanned s c Hs) as Hc. rewrite Hk in Hc. intros E. rewrite E in Hc.
  by eapply not_elem_of_nil, Hc, list_elem_of_here.
Qed.

(** The row of the table as the query returns it. *)
Definition project (s : Snapshotter) (r : trow (V := value)) : list value := map (fun c => r (col_Name c)) (sn_scanCols s).

Definition row_key (s : Snapshotter) (raw : list value) : list value :=
  match scanRow s (Ok raw) with Ok (_, k) => k | Err _ => [] end.
Definition row_of (s : Snapshotter) (raw : list value) : list value :=
  match scanRow s (Ok raw) with Ok (row, _) => row | Err _ => [] end.

Lemma key_value_stored s r c :
  keyed_table s -> c ∈ sn_keyCols s -> key_value (sn_scanCols s) (project s r) c = Ok (rawKeyValue (r (col_Name c))).
Proof.
  intros Hs Hc. pose proof (kt_key_scanned s c Hs Hc) as Hin. unfold key_value, project.
  pose proof Hin as Hin'. rewrite (kt_columns s Hs) in Hin'. destruct (indexOf_stored _ _ Hin') as (i & Hi & Hlt).
  rewrite <- (kt_columns s Hs) in Hi, Hlt. rewrite Hi. unfold indexOf in Hi. apply find_index_Some in Hi as (n & Hn & Heq).
  apply list_lookup_fmap_Some in Hn as (c' & -> & Hc').
  assert (c' = c) as ->.
  { apply (kt_names s Hs); [| |done].
    - apply list_elem_of_lookup_2 in Hc'. rewrite (kt_columns s Hs) in Hc'.
      apply list_elem_of_In, filter_In in Hc' as [Hc' _]. by apply list_elem_of_In.
    - pose proof (kt_keys s Hs) as Hk. rewrite Forall_forall in Hk. by apply Hk. }
  change (map ?f ?l) with (f <$> l). by rewrite list_lookup_fmap, Hc'.
Qed.

(** The key of a row as the scanner keeps it: the columns of the key, bytes as
    text. *)
Lemma row_key_stored s r :
  keyed_table s -> is_ok (scanRow s (Ok (project s r))) = true ->
  row_key s (project s r) = map rawKeyValue (map r (key_names s)).
Proof.
  intros Hs Hok. unfold row_key. destruct (scanRow s (Ok (project s r))) as [[row k]|] eqn:E; [|done].
  unfold scanRow in E. case_match; [done|]. apply res_bind_ok in E as (row' & _ & E).
  apply res_bind_ok in E as (k' & Hk & [= _ <-]). unfold key_names. rewrite !map_map.
  assert (Forall (fun c => c ∈ sn_keyCols s) (sn_keyCols s)) as Hall by (by apply Forall_forall).
  clear Hok. revert k' Hk Hall. generalize (sn_keyCols s) at 1 3 4. intros l. induction l as [|c l IH]; intros k' Hk Hall.
  { by injection Hk as <-. }
  apply Forall_cons in Hall as [Hc Hall]. cbn [res_map] in Hk. rewrite key_value_stored in Hk by done.
  cbn [mbind res_bind] in Hk. apply res_bind_ok in Hk as (k'' & Hk & [= <-]). cbn [map]. f_equal. by apply IH.
Qed.

End Reading.

(** ** A whole scan

    The server against which a scan is judged: it holds the rows of a table and
    answers every query of the language of [SqlText] that a server would. *)

Section WholeScan.
Context `{ScanLib} {W : Type} `{!ScanOps W}.

Definition readable (s : Snapshotter) (T : list (list value)) : Prop :=
  Forall (fun raw => is_ok (scanRow s (Ok raw)) = true) T.

(** The rows past a cursor. *)
Definition rows_after (s : Snapshotter) (beyond : list value -> list value -> bool)
    (cursor : option (list value)) (T : list (list value)) : list (list value) :=
  match cursor with
  | None => T
  | Some c => List.filter (fun raw => beyond (row_key s raw) c) T
  end.

(** The rows are listed by a strictly increasing key. *)
Definition key_ordered (s : Snapshotter) (beyond : list value -> list value -> bool)
    (T : list (list value)) : Prop :=
  forall i j ri rj, T !! i = Some ri -> T !! j = Some rj ->
    beyond (row_key s rj) (row_key s ri) = bool_decide (i < j).

(** *** The server *)

Definition coalesced_value (v : value) : value := match v with VNil => VString "" | _ => v end.

(** A query of the table's columns, its arguments and its limit. *)
Definition asks (meta : TableMeta) (q : select) (bound : list value) (limit : option Z) : Prop :=
  sel_from q = Qualified (tm_Schema meta) (tm_Table meta) /\
  Forall (fun n => n ∈ map col_Name (tm_Columns meta)) (mentions q) /\
  length bound = arity (sel_where q) /\ sel_limit q = bool_decide (is_Some limit) /\
  match limit with Some n => (0 <= n)%Z | None => True end.
Definition limit_args (limit : option Z) : list value := match limit with Some n => [VInt Int n] | None => [] end.

(** A server that holds these rows and answers any query of them, comparing the
    values of a column by [order] and bytes as text; and an outside that takes
    every event: [emitted] is what was sent. *)
Record serves (s : Snapshotter) (order : string -> value -> value -> comparison)
    (rows : list trow) (emitted : W -> list ChangeEvent) : Prop := {
  sv_conn : forall w, exists w', db_Conn w = (w', Ok ()) /\ emitted w' = emitted w;
  sv_exec : forall q w, exists w', db_Exec q w = (w', Ok ()) /\ emitted w' = emitted w;
  sv_close : forall w, emitted (conn_Close w) = emitted w;
  sv_observe : forall n w, emitted (scan_Observe n w) = emitted w;
  sv_pause : forall d w, exists w', pause d w = (w', Ok ()) /\ emitted w' = emitted w;
  sv_send : forall ev w, exists w', out_Send ev w = (w', Ok ()) /\ emitted w' = emitted w ++ [ev];
  sv_order : forall c v w, order c (rawKeyValue v) w = order c v w /\ order c v (rawKeyValue w) = order c v w;
  sv_query : forall text q bound limit w,
    spelled text = Some (Select q) -> asks (sn_meta s) q bound limit ->
    exists w' out, db_Query text (bound ++ limit_args limit) w = (w', Ok (mkRows (map Ok out) None)) /\
      answers order coalesced_value q bound (Z.to_nat <$> limit) rows out /\ emitted w' = emitted w
}.

(** Whether a key is after another, column by column. *)
Definition beyond (s : Snapshotter) (order : string -> value -> value -> comparison) (k c : list value) : bool :=
  bool_decide (compare_values order (key_names s) k c = Gt).

Definition cursor_fits (s : Snapshotter) (cursor : option (list value)) : Prop :=
  match cursor with None => True | Some c => length c = length (sn_keyCols s) end.

Lemma chunk_asks s cursor :
  keyed_table s -> (1 <= so_ChunkSize (sn_opts s))%Z -> cursor_fits s cursor ->
  asks (sn_meta s) (next_chunk s cursor) (default [] cursor) (Some (so_ChunkSize (sn_opts s))).
Proof.
  intros Hs Hc Hfit. assert (Forall (fun n => n ∈ map col_Name (tm_Columns (sn_meta s))) (key_names s)) as Hk.
  { unfold key_names. apply Forall_map. eapply Forall_impl; [exact (kt_keys s Hs)|]. intros c [? _]. by apply list_elem_of_fmap_2. }
  split; [done|]. split; [|split; [|by split; [rewrite bool_decide_eq_true_2|lia]]].
  - unfold mentions, next_chunk. cbn. apply Forall_app. split; [|apply Forall_app; split; [by destruct cursor|done]].
    rewrite map_map. cbn. apply Forall_map, Forall_forall. intros c Hin. apply list_elem_of_fmap_2.
    rewrite (kt_columns s Hs) in Hin. apply list_elem_of_In, filter_In in Hin as [Hin _]. by apply list_elem_of_In.
  - destruct cursor as [c|]; [|done]. cbn in *. unfold key_names. by rewrite length_map.
Qed.

Lemma chunk_args s cursor : (chunkQuery s cursor).2 = default [] cursor ++ limit_args (Some (so_ChunkSize (sn_opts s))).
Proof. by destruct cursor. Qed.

Lemma filter_map_list {A B} (f : A -> B) (P : B -> bool) l :
  List.filter P (map f l) = map f (List.filter (fun x => P (f x)) l).
Proof. induction l as [|x l IH]; [done|]. cbn. rewrite IH. by case_match. Qed.

Lemma compare_raw order cols (k c : list value) :
  (forall c v w, order c (rawKeyValue v) w = order c v w /\ order c v (rawKeyValue w) = order c v w) ->
  compare_values order cols (map rawKeyValue k) c = compare_values order cols k c /\
  compare_values order cols k (map rawKeyValue c) = compare_values order cols k c.
Proof.
  intros Hraw. revert k c. induction cols as [|col cols IH]; intros [|x k] [|y c]; try done. cbn [compare_values map].
  destruct (Hraw col x y) as [-> ->]. destruct (IH k c) as [-> ->]. done.
Qed.

(** What the server may answer to a chunk's query: the rows past the cursor, in
    the order of the key. *)
Lemma next_chunk_answer s order rows cursor n out :
  keyed_table s ->
  (forall c v w, order c (rawKeyValue v) w = order c v w /\ order c v (rawKeyValue w) = order c v w) ->
  readable s (map (project s) rows) -> key_ordered s (beyond s order) (map (project s) rows) ->
  answers order coalesced_value (next_chunk s cursor) (default [] cursor) (Some n) rows out ->
  out = take n (rows_after s (beyond s order) cursor (map (project s) rows)).
Proof.
  intros Hs Hraw Hread Hord Hans.
  assert (forall r, r ∈ rows -> row_key s (project s r) = map rawKeyValue (map r (key_names s))) as Hkey.
  { intros r Hr. apply row_key_stored; [done|]. unfold readable in Hread. rewrite Forall_map, Forall_forall in Hread. by apply Hread. }
  assert (forall a b, a ∈ rows -> b ∈ rows -> (beyond s order (row_key s (project s a)) (row_key s (project s b)) = true <->
    compare_values order (key_names s) (map a (key_names s)) (map b (key_names s)) = Gt)) as Hcmp.
  { intros a b Ha Hb. rewrite !Hkey by done. unfold beyond. rewrite bool_decide_eq_true.
    by rewrite (proj1 (compare_raw _ _ _ _ Hraw)), (proj2 (compare_raw _ _ _ _ Hraw)). }
  eapply answers_unique in Hans; [rewrite Hans; clear Hans| |exact Hcmp].
  2: { intros i j a b Hi Hj. eapply Hord; change (map ?f ?l) with (f <$> l); rewrite list_lookup_fmap, ?Hi, ?Hj; done. }
  unfold next_chunk. cbn [sel_exprs sel_where].
  assert (forall r : trow, map (eval_expr coalesced_value r) (map (fun c => ECol (col_Name c)) (sn_scanCols s)) = project s r) as Hproj
    by (intros r; by rewrite map_map).
  change (map ?f (take n ?l)) with (f <$> take n l). rewrite fmap_take. f_equal.
  transitivity (map (project s) (List.filter (satisfies order
    match cursor with None => None | Some _ => Some (mkCondition (key_names s) OpGt) end (default [] cursor)) rows)).
  { apply map_ext. intros r. apply Hproj. }
  destruct cursor as [c|]; cbn [rows_after].
  - rewrite filter_map_list. f_equal. apply filter_ext_in. intros r Hr. apply list_elem_of_In in Hr. cbn.
    rewrite Hkey by done. unfold beyond. rewrite (proj1 (compare_raw _ _ _ _ Hraw)). by destruct (compare_values _ _ _ _).
  - f_equal. by rewrite filter_true.
Qed.

(** The events of a scan from the [i]-th row on: a row that ends a chunk or the
    table carries the cursor past it and the number of rows read. *)
Fixpoint scan_events (s : Snapshotter) (i : Z) (raws : list (list value)) : list ChangeEvent :=
  match raws with
  | [] => []
  | raw :: rest =>
      (if ((i + 1) mod so_ChunkSize (sn_opts s) =? 0)%Z || bool_decide (rest = [])
       then row_event s (row_of s raw) (encodeCursor (row_key s raw)) (u64 (i + 1))
       else row_event s (row_of s raw) "" 0)
      :: scan_events s (i + 1) rest
  end.

Lemma scan_events_rows s i raws : map ev_After (scan_events s i raws) = map (fun r => Some (row_of s r)) raws.
Proof. revert i. induction raws as [|r raws IH]; intros i; simpl; [done|]. rewrite IH. by case_match. Qed.

Lemma filter_drop {A} (P : A -> bool) (l : list A) n :
  (forall j x, l !! j = Some x -> P x = bool_decide (n <= j)) -> List.filter P l = drop n l.
Proof.
  revert n. induction l as [|x l IH]; intros n HP; [by rewrite drop_nil|].
  cbn [List.filter]. rewrite (HP 0 x) by done. destruct n as [|n].
  - rewrite bool_decide_eq_true_2 by lia. simpl. rewrite (IH 0); [by rewrite drop_0|].
    intros j y Hj. rewrite (HP (S j) y) by done. by rewrite !bool_decide_eq_true_2 by lia.
  - rewrite bool_decide_eq_false_2 by lia. simpl. apply IH.
    intros j y Hj. rewrite (HP (S j) y) by done. apply bool_decide_ext. lia.
Qed.

Lemma rows_after_row s beyond T i raw :
  key_ordered s beyond T -> T !! i = Some raw ->
  rows_after s beyond (Some (row_key s raw)) T = drop (S i) T.
Proof. intros Ho Hi. apply filter_drop. intros j r Hj. by rewrite (Ho i j raw r Hi Hj). Qed.

Lemma scanRow_readable s raw :
  is_ok (scanRow s (Ok raw)) = true -> scanRow s (Ok raw) = Ok (row_of s raw, row_key s raw).
Proof. unfold row_of, row_key. by destruct (scanRow s (Ok raw)) as [[]|]. Qed.

Lemma scan_rows_readable s raws rows next :
  readable s raws ->
  scan_rows s (map Ok raws) rows next =
    Ok (rows ++ map (row_of s) raws, default next (row_key s <$> last raws)).
Proof.
  intros Hr. revert rows next. induction Hr as [|raw raws H1 Hr IH]; intros rows next.
  - by rewrite app_nil_r.
  - cbn [map scan_rows]. rewrite scanRow_readable by done. cbn [mbind res_bind].
    rewrite IH, <- (assoc_L (++)), last_cons. by destruct (last raws).
Qed.

(** What [send_rows] emits. *)
Fixpoint chunk_events (s : Snapshotter) (rows : list (list value)) (cursor : string) (n : Z) : list ChangeEvent :=
  match rows with
  | [] => []
  | row :: rows =>
      (match rows with [] => row_event s row cursor n | _ => row_event s row "" 0 end)
      :: chunk_events s rows cursor n
  end.

Lemma send_rows_emits s s' order table emitted rows cursor n w :
  serves s' order table emitted ->
  exists w', send_rows s rows cursor n w = (w', Ok ()) /\
    emitted w' = emitted w ++ chunk_events s rows cursor n.
Proof.
  intros Hs. revert w. induction rows as [|row rows IH]; intros w.
  - exists w. by rewrite app_nil_r.
  - simpl. edestruct (sv_send _ _ _ _ Hs) as (w1 & -> & He).
    destruct (IH w1) as (w' & -> & He'). exists w'. split; [done|].
    by rewrite He', He, <- (assoc_L (++)).
Qed.

(** A chunk is a stretch of the events of the whole scan. *)
Lemma scan_events_chunk s i raws k :
  (1 <= so_ChunkSize (sn_opts s))%Z -> (0 <= i)%Z -> raws <> [] -> (0 < Z.of_nat k)%Z ->
  (i mod so_ChunkSize (sn_opts s) = so_ChunkSize (sn_opts s) - Z.of_nat k)%Z ->
  scan_events s i raws =
    chunk_events s (map (row_of s) (take k raws))
      (default "" ((fun r => encodeCursor (row_key s r)) <$> last (take k raws)))
      (u64 (i + zlen (take k raws)))
    ++ scan_events s (i + Z.of_nat k) (drop k raws).
Proof.
  set (c := so_ChunkSize (sn_opts s)). intros Hc. revert i k. induction raws as [|raw rest IH]; intros i k Hi Hne Hk Hm; [done|].
  destruct k as [|k]; [lia|]. cbn [take drop map scan_events chunk_events app]. fold c.
  pose proof (Z.mod_pos_bound i c ltac:(lia)).
  assert (((i + 1) mod c =? 0)%Z = bool_decide (k = 0)) as ->.
  { destruct (decide (k = 0)) as [->|Hk0].
    - rewrite bool_decide_eq_true_2 by done. apply Z.eqb_eq.
      rewrite <- Zplus_mod_idemp_l, Hm. replace (c - Z.of_nat 1 + 1)%Z with c by lia. apply Z_mod_same_full.
    - rewrite bool_decide_eq_false_2 by done. apply Z.eqb_neq.
      rewrite <- Zplus_mod_idemp_l, Hm, Z.mod_small; lia. }
  destruct k as [|k].
  - rewrite bool_decide_eq_true_2 by done. rewrite take_0, drop_0. simpl.
    by replace (i + Z.of_nat 1)%Z with (i + 1)%Z by lia.
  - rewrite bool_decide_eq_false_2 by done. destruct rest as [|raw' rest].
    + simpl. done.
    + rewrite orb_false_l, bool_decide_eq_false_2 by done.
      rewrite (IH (i + 1)%Z (S k)); [|lia|done|lia|rewrite <- Zplus_mod_idemp_l, Hm, Z.mod_small; lia].
      cbn [take drop map chunk_events app last].
      f_equal. replace (i + 1 + Z.of_nat (S k))%Z with (i + Z.of_nat (S (S k)))%Z by lia.
      by rewrite !zlen_cons, !Z.add_assoc.
Qed.

Lemma chunk_events_with_rows s m rows cursor n :
  chunk_events (with_rows m s) rows cursor n = chunk_events s rows cursor n.
Proof. induction rows as [|row rows IH]; simpl; [done|]. by rewrite IH. Qed.

Lemma row_key_length s raw :
  is_ok (scanRow s (Ok raw)) = true -> length (row_key s raw) = length (sn_keyCols s).
Proof.
  intros Hok%scanRow_readable. unfold scanRow in Hok. case_match; [done|].
  apply res_bind_ok in Hok as (row & _ & Hok). apply res_bind_ok in Hok as (k & Hk & [= _ <-]).
  by eapply res_map_length.
Qed.

Section Served.
Context (s : Snapshotter) (order : string -> value -> value -> comparison) (table : list (trow (V := value)))
  (emitted : W -> list ChangeEvent).
#[local] Abbreviation T := (map (project s) table).
#[local] Abbreviation past := (beyond s order).
Context (Hserves : serves s order table emitted) (Htable : keyed_table s) (Hread : readable s T)
  (Hord : key_ordered s past T) (Hchunk : (1 <= so_ChunkSize (sn_opts s))%Z).
#[local] Abbreviation chunk := (Z.to_nat (so_ChunkSize (sn_opts s))).

Lemma limiter_wait_emits l rows w :
  exists w' l', limiter_wait l rows w = (w', l', Ok ()) /\ emitted w' = emitted w.
Proof.
  unfold limiter_wait. case_match; [eauto|]. case_match; [eauto|].
  edestruct (sv_pause _ _ _ _ Hserves) as (w' & -> & ?). eauto.
Qed.

Lemma readChunk_served m cursor w :
  cursor_fits s cursor -> exists w', readChunk (with_rows m s) cursor w =
    (w', let raws := take chunk (rows_after s past cursor T) in
         Ok (map (row_of s) raws, default [] (row_key s <$> last raws)))
    /\ emitted w' = emitted w.
Proof.
  intros Hfit. unfold readChunk.
  destruct (sv_query _ _ _ _ Hserves _ _ _ _ w (chunk_spelled s cursor (kt_some_column s Htable) (kt_some_key s Htable))
    (chunk_asks s cursor Htable Hchunk Hfit)) as (w' & out & Hq & Hans & He).
  rewrite <- chunk_args in Hq. apply next_chunk_answer in Hans; [|done|apply (sv_order _ _ _ _ Hserves)|done|done].
  change (chunkQuery (with_rows m s) cursor) with (chunkQuery s cursor).
  destruct (chunkQuery s cursor) as [q a]. cbn [fst snd] in Hq. rewrite Hq, Hans. exists w'. split; [|done].
  cbn [rows_read rows_Err]. rewrite scan_rows_readable; [done|].
  apply Forall_take. destruct cursor; [|done]. simpl.
  eapply Forall_impl; [|intros ? Hx; exact Hx].
  unfold readable in Hread. rewrite Forall_forall in Hread |- *.
  intros x Hx. apply Hread. apply list_elem_of_In, filter_In in Hx as [Hx _]. by apply list_elem_of_In.
Qed.

Lemma emitChunk_served m rows next w :
  exists w', emitChunk rows next (with_rows m s, w) = ((with_rows (u64 (m + zlen rows)) s, w'), Ok ())
    /\ emitted w' = emitted w ++ chunk_events s rows (encodeCursor next) (u64 (m + zlen rows)).
Proof.
  unfold emitChunk. change (sn_rowsRead (with_rows m s)) with m.
  destruct (send_rows_emits (with_rows m s) _ _ _ _ rows (encodeCursor next) (u64 (m + zlen rows)) w Hserves)
    as (w' & -> & He).
  exists w'. split; [done|]. by rewrite He, chunk_events_with_rows.
Qed.

(** From any chunk boundary the loop sends exactly the rows that are left. *)
Lemma scan_loop_emits fuel l cursor i j w :
  cursor_fits s cursor -> rows_after s past cursor T = drop j T -> (0 <= i)%Z -> (i mod so_ChunkSize (sn_opts s) = 0)%Z ->
  length (drop j T) < fuel ->
  exists w', scan_loop fuel l cursor (with_rows (u64 i) s, w) =
      ((with_rows (u64 (i + zlen (drop j T))) s, w'), Some (Ok ()))
    /\ emitted w' = emitted w ++ scan_events s i (drop j T).
Proof.
  revert l cursor i j w. induction fuel as [|fuel IH]; intros l cursor i j w Hfit Hcur Hi Hm Hf; [lia|].
  cbn [scan_loop]. destruct (readChunk_served (u64 i) cursor w Hfit) as (w1 & -> & He1). cbv zeta.
  rewrite Hcur. set (raws := drop j T) in *.
  destruct raws as [|raw rest] eqn:Hraws.
  { exists w1. rewrite take_nil, Z.add_0_r, app_nil_r. done. }
  assert (exists k, chunk = S k) as [k Hk] by (exists (pred chunk); lia).
  rewrite <- Hraws in *. set (rows := map (row_of s) (take chunk raws)).
  destruct rows as [|row rows'] eqn:Hrows; [subst rows; rewrite Hraws, Hk in Hrows; done|].
  rewrite <- Hrows in *. clear Hrows row rows'.
  set (next := default [] (row_key s <$> last (take chunk raws))).
  destruct (emitChunk_served (u64 i) rows next w1) as (w2 & -> & He2).
  rewrite u64_add_l in *.
  set (w3 := if so_Observe _ then _ else _).
  assert (emitted w3 = emitted w2) as He3 by (subst w3; case_match; [apply (sv_observe _ _ _ _ Hserves)|done]).
  destruct (limiter_wait_emits l (zlen rows) w3) as (w4 & l' & -> & He4).
  assert (zlen rows = zlen (take chunk raws)) as Hlen by (subst rows; unfold zlen; by rewrite length_map).
  assert (raws <> []) as Hne by (by rewrite Hraws).
  pose proof (scan_events_chunk s i raws chunk ltac:(lia) Hi Hne ltac:(lia) ltac:(rewrite Hm; lia)) as Hev.
  assert (encodeCursor next = default "" ((fun r => encodeCursor (row_key s r)) <$> last (take chunk raws))) as Hnext.
  { subst next. by destruct (last (take chunk raws)). }
  rewrite <- Hnext, <- Hlen in Hev. fold rows in Hev.
  change (sn_opts (with_rows (u64 (i + zlen rows)) s)) with (sn_opts s).
  destruct (Z.ltb_spec (zlen rows) (so_ChunkSize (sn_opts s))) as [Hlt|Hge].
  - assert (length raws <= chunk) as Hshort.
    { rewrite Hlen in Hlt. unfold zlen in Hlt. rewrite length_take in Hlt. lia. }
    exists w4. rewrite Hev, (drop_ge raws chunk), app_nil_r by done.
    rewrite He4, He3, He2, He1. split; [|done]. rewrite Hlen, take_ge by done. done.
  - assert (length rows = chunk /\ chunk <= length raws) as [Hfull Hle].
    { rewrite Hlen in Hge. unfold zlen in *. rewrite length_take in Hge. rewrite length_take in Hlen. lia. }
    assert (exists rj, T !! (j + k) = Some rj /\ last (take chunk raws) = Some rj) as (rj & Hrj & Hlast).
    { destruct (lookup_lt_is_Some_2 raws k ltac:(lia)) as [rj Hrj]. exists rj. split.
      - subst raws. by rewrite lookup_drop in Hrj.
      - rewrite Hk, (take_S_r _ _ _ Hrj). apply last_snoc. }
    assert (next = row_key s rj) as -> by (subst next; by rewrite Hlast).
    destruct (IH l' (Some (row_key s rj)) (i + zlen rows)%Z (S (j + k)) w4) as (w' & -> & He').
    + cbn. apply row_key_length. unfold readable in Hread. rewrite Forall_forall in Hread.
      apply Hread. by eapply list_elem_of_lookup_2.
    + by apply rows_after_row.
    + unfold zlen. lia.
    + unfold zlen. rewrite Hfull, Z2Nat.id, <- Zplus_mod_idemp_r, Z_mod_same_full by lia. by rewrite Z.add_0_r.
    + revert Hf Hle. subst raws. rewrite !length_drop. lia.
    + exists w'. assert (drop (S (j + k)) T = drop chunk raws) as Hdrop.
      { subst raws. rewrite drop_drop. f_equal. lia. }
      split.
      * rewrite Hdrop. assert (i + zlen rows + zlen (drop chunk raws) = i + zlen raws)%Z as -> by
          (unfold zlen; rewrite Hfull, length_drop; lia). done.
      * assert (i + Z.of_nat chunk = i + zlen rows)%Z as Hi' by (unfold zlen; lia).
        rewrite He', He4, He3, He2, He1, Hev, Hi', Hdrop. by rewrite (assoc_L (++)).
Qed.

End Served.

Lemma NewSnapshotter_spec opts s :
  NewSnapshotter opts = Ok s ->
  sn_opts s = opts /\ so_Meta opts = Some (sn_meta s) /\ with_rows 0 s = s /\
  (1 <= so_ChunkSize opts)%Z /\ sn_keyCols s <> [] /\
  res_map (key_column (sn_meta s)) (so_Key opts) = Ok (sn_keyCols s) /\
  sn_scanCols s = List.filter (fun c => negb (col_Generated c)) (tm_Columns (sn_meta s)).
Proof.
  unfold NewSnapshotter. case_match; [done|]. destruct (so_Meta opts) as [meta|]; [|done].
  case_bool_decide as Hk; [done|]. destruct (Z.ltb_spec (so_ChunkSize opts) 1); [done|].
  case_match; [done|]. intros (cols & Hcols & [= <-])%res_bind_ok. split_and!; try done.
  simpl. intros ->. apply res_map_length in Hcols. by destruct (so_Key opts).
Qed.

(** *** Cursors *)

Definition texts (k : list value) : list value := map (fun v => VString (asString v)) k.

Lemma cursor_roundtrip k n :
  k <> [] -> length k = n -> Forall (fun v => ValidString (asString v) = true) k ->
  decodeCursor (encodeCursor k) n = Ok (Some (texts k)).
Proof.
  intros Hne Hlen Hv. unfold decodeCursor, encodeCursor. destruct k as [|v k]; [done|].
  rewrite bool_decide_eq_false_2 by done.
  rewrite json_strings_roundtrip by (by apply Forall_map).
  rewrite bool_decide_eq_true_2 by (by rewrite length_map).
  unfold texts. by rewrite map_map.
Qed.

(** Where a scan starts: at the beginning, or after a row whose cursor was
    recorded. *)
Definition start_cursor (s : Snapshotter) (T : list (list value)) (from : option nat) : string :=
  match from with
  | None => ""
  | Some j => default "" ((fun r => encodeCursor (row_key s r)) <$> T !! j)
  end.
Definition start_row (from : option nat) : nat := match from with None => 0 | Some j => S j end.

(** The server compares with the text of a key value as with the value, and
    every such text can be written as JSON. *)
Definition textual_keys (s : Snapshotter) (beyond : list value -> list value -> bool)
    (T : list (list value)) : Prop :=
  (forall k r, r ∈ T -> beyond k (texts (row_key s r)) = beyond k (row_key s r)) /\
  Forall (fun r => Forall (fun v => ValidString (asString v) = true) (row_key s r)) T.

Lemma start_cursor_decodes s beyond T from :
  readable s T -> key_ordered s beyond T -> textual_keys s beyond T -> sn_keyCols s <> [] ->
  match from with None => True | Some j => j < length T end ->
  exists cursor, decodeCursor (start_cursor s T from) (length (sn_keyCols s)) = Ok cursor /\
    rows_after s beyond cursor T = drop (start_row from) T.
Proof.
  intros Hr Ho [Ht Hv] Hk Hj. destruct from as [j|]; [|by exists None].
  destruct (lookup_lt_is_Some_2 T j Hj) as [r Hjr]. simpl. rewrite Hjr. simpl.
  unfold readable in Hr. rewrite Forall_lookup in Hr, Hv. pose proof (Hr _ _ Hjr) as Hok.
  apply row_key_length in Hok. exists (Some (texts (row_key s r))). split.
  - apply cursor_roundtrip; eauto. intros E. rewrite E in Hok. by destruct (sn_keyCols s).
  - rewrite <- (rows_after_row s beyond T j r) by done. simpl.
    apply List.filter_ext. intros x. rewrite Ht; [done|]. by eapply list_elem_of_lookup_2.
Qed.

Lemma NewSnapshotter_table opts s :
  NewSnapshotter opts = Ok s -> distinct_names (tm_Columns (sn_meta s)) ->
  Forall (fun c => col_Generated c = false) (sn_keyCols s) -> keyed_table s.
Proof.
  intros (_ & _ & _ & _ & Hne & Hkeys & Hscan)%NewSnapshotter_spec Hd Hg. split; [done| |done|done].
  pose proof (key_columns_of_table _ _ _ Hkeys) as Hk.
  apply Forall_forall. intros c Hc. rewrite Forall_forall in Hk, Hg. auto.
Qed.

Lemma decoded_fits s encoded cursor :
  decodeCursor encoded (length (sn_keyCols s)) = Ok cursor -> cursor_fits s cursor.
Proof.
  unfold decodeCursor. case_bool_decide; [by intros [= <-]|]. destruct (json_UnmarshalStrings encoded); [|done].
  case_bool_decide; [|done]. intros [= <-]. cbn. by rewrite length_map.
Qed.

(** C30: Against any server that holds the table and answers queries as SQL says,
    a scan sends every row of the table after the one its cursor was recorded
    at, in key order and once, each chunk ending with the cursor to resume from,
    and then reports that it is done. The key columns are stored ones, and the
    server tells keys apart as their texts do, which JSON can hold. *)
Theorem scan_sends_the_rest (s : Snapshotter) opts order table emitted from fuel w :
  let T := map (project s) table in
  NewSnapshotter opts = Ok s -> so_Cursor opts = start_cursor s T from ->
  distinct_names (tm_Columns (sn_meta s)) -> Forall (fun c => col_Generated c = false) (sn_keyCols s) ->
  serves s order table emitted -> readable s T -> key_ordered s (beyond s order) T -> textual_keys s (beyond s order) T ->
  match from with None => True | Some j => j < length T end -> length T < fuel ->
  let rest := drop (start_row from) T in
  exists w', Events fuel (s, w) = Some (set_done (with_rows (u64 (zlen rest)) s), w') /\
    emitted w' = emitted w ++ scan_events s 0 rest.
Proof.
  intros T Hnew Hcur Hd Hg Hs Hr Ho Ht Hj Hfuel. cbv zeta.
  destruct (NewSnapshotter_spec _ _ Hnew) as (Hopts & _ & Hzero & Hc & Hk & _).
  pose proof (NewSnapshotter_table _ _ Hnew Hd Hg) as Htable.
  destruct (start_cursor_decodes s (beyond s order) T from Hr Ho Ht Hk Hj) as (cursor & Hdec & Hrows).
  unfold Events, scan_run, scanConn. rewrite Hopts, Hcur.
  edestruct (sv_conn _ _ _ _ Hs w) as (w1 & -> & He1).
  edestruct (sv_exec _ _ _ _ Hs) as (w2 & -> & He2). rewrite Hdec.
  destruct (scan_loop_emits s order table emitted Hs Htable Hr Ho ltac:(by rewrite Hopts) fuel
      (newLimiter (so_MaxRowsPerSec opts) w2) cursor 0 (start_row from) w2 (decoded_fits _ _ _ Hdec) Hrows ltac:(done))
    as (w' & Hloop & He').
  { by rewrite Zmod_0_l. }
  { subst T. rewrite length_drop. lia. }
  change (u64 0) with 0%Z in Hloop. rewrite Hzero in Hloop. rewrite Hloop. rewrite Z.add_0_l.
  exists (conn_Close w'). split; [done|]. by rewrite (sv_close _ _ _ _ Hs), He', He2, He1.
Qed.

End WholeScan.

(** ** Values read by a scan and written by a plan *)

Section Members.
Context `{ScanLib}.

Lemma indexOfString_in labels m :
  m ∈ labels -> exists i, indexOfString labels m = Some i /\ labels !! i = Some m.
Proof.
  intros Hm. unfold indexOfString. destruct (find_index _ labels) as [i|] eqn:E.
  - apply find_index_Some in E as (x & Hx & Hp). apply bool_decide_eq_true in Hp as ->. eauto.
  - apply (find_index_None _ _ m E) in Hm. by apply bool_decide_eq_false in Hm.
Qed.

Lemma i64_testbit z i : (0 <= i < 64)%Z -> Z.testbit (i64 z) i = Z.testbit z i.
Proof.
  intros Hi. rewrite <- (Z.mod_pow2_bits_low (i64 z) 64) by lia.
  rewrite <- (Z.mod_pow2_bits_low z 64) by lia. f_equal. unfold i64.
  rewrite Zminus_mod_idemp_l. f_equal. lia.
Qed.

Lemma set_bits_spec labels members b :
  NoDup labels -> Forall (fun m => m ∈ labels) members ->
  exists bits, set_bits labels members b = Ok bits /\
    forall j l, labels !! j = Some l -> j < 64 ->
      Z.testbit bits (Z.of_nat j) = Z.testbit b (Z.of_nat j) || bool_decide (l ∈ members).
Proof.
  intros Hnd Hm. revert b. induction Hm as [|m members Hin Hm IH]; intros b; cbn [set_bits].
  - exists b. split; [done|]. intros j l _ _. by rewrite bool_decide_eq_false_2, orb_false_r by apply not_elem_of_nil.
  - destruct (indexOfString_in labels m Hin) as (i & -> & Hi).
    destruct (IH (Z.lor b (i64 (Z.shiftl 1 (Z.of_nat i))))) as (bits & -> & Hbits).
    exists bits. split; [done|]. intros j l Hj Hlt. rewrite (Hbits j l Hj Hlt).
    rewrite Z.lor_spec, i64_testbit, Z.shiftl_1_l, Z.pow2_bits_eqb by lia. rewrite <- orb_assoc. f_equal.
    destruct (Z.eqb_spec (Z.of_nat i) (Z.of_nat j)) as [Heq|Hne].
    + apply Nat2Z.inj in Heq as ->. assert (l = m) as -> by congruence.
      by rewrite (bool_decide_eq_true_2 (m ∈ m :: members)) by constructor.
    + apply bool_decide_ext. rewrite elem_of_cons. split; [tauto|]. intros [->|?]; [|done].
      destruct Hne. f_equal. by eapply NoDup_lookup.
Qed.

Lemma set_members_spec (chosen : list string) bits labels i :
  (0 <= i)%Z -> (i + zlen labels <= 64)%Z ->
  (forall j l, labels !! j = Some l -> Z.testbit bits (i + Z.of_nat j) = bool_decide (l ∈ chosen)) ->
  set_members i bits labels = filter (fun l => l ∈ chosen) labels.
Proof.
  revert i. induction labels as [|l labels IH]; intros i Hi Hlen Hbits; [done|].
  rewrite zlen_cons in Hlen. cbn [set_members]. pose proof (zlen_nonneg labels).
  rewrite (proj2 (Z.ltb_lt _ _)) by lia.
  pose proof (Hbits 0 l eq_refl) as H0'. rewrite Z.add_0_r in H0'. rewrite H0'.
  rewrite IH; [|lia|lia|intros j l' Hj; rewrite <- (Hbits (S j) l' Hj); f_equal; lia].
  rewrite filter_cons. by repeat case_decide; repeat case_bool_decide.
Qed.

Lemma filter_sublist (chosen labels : list string) :
  chosen `sublist_of` labels -> NoDup labels -> filter (fun l => l ∈ chosen) labels = chosen.
Proof.
  induction 1 as [|x chosen labels Hs IH|x chosen labels Hs IH]; intros Hnd; [done| |];
    apply NoDup_cons in Hnd as [Hx Hnd].
  - rewrite filter_cons_True by constructor. f_equal. transitivity (filter (fun l => l ∈ chosen) labels); [|auto].
    apply filter_iff_in. intros y Hy. rewrite elem_of_cons. split; [intros [->|?]; done|by right].
  - rewrite filter_cons_False; [auto|]. intros Hin. apply Hx. by eapply elem_of_sublist.
Qed.

(** What a SET column holds comes back as its labels: the text MySQL prints
    becomes the bitmask the binlog carries, and the plan writes the labels of
    the bits that are set, in their declared order. *)
Theorem set_roundtrip c f members :
  ToLower (col_DataType c) = "set" -> f_setLabels f = col_SetValues c ->
  NoDup (col_SetValues c) -> (zlen (col_SetValues c) <= 64)%Z ->
  Forall (fun l => l <> "" /\ free_of "," l = true) (col_SetValues c) ->
  members `sublist_of` col_SetValues c ->
  exists v, toEventValue c (VString (Join members ",")) = Ok v /\
    appendSet f v = Ok ("[" +:+ Join (map appendJSONString members) "," +:+ "]").
Proof.
  intros Hty Hf Hnd Hlen Hl Hsub. unfold toEventValue. rewrite Hty.
  rewrite bool_decide_eq_false_2, bool_decide_eq_true_2 by done. unfold setBitmask. simpl asString.
  assert (Forall (fun l => l ∈ col_SetValues c) members) as Hin.
  { apply Forall_forall. intros l Hl'. by eapply elem_of_sublist. }
  destruct (set_bits_spec (col_SetValues c) members 0 Hnd Hin) as (bits & Hbits & Htest).
  assert (forall v, asInt v = Some (i64 bits) -> appendSet f v
      = Ok ("[" +:+ Join (map appendJSONString members) "," +:+ "]")) as Happ.
  { intros v Hv. unfold appendSet. rewrite Hv, Hf, (set_members_spec members); [by rewrite filter_sublist|lia|lia|].
    intros j l Hj. rewrite Z.add_0_l. pose proof (lookup_lt_Some _ _ _ Hj). unfold zlen in Hlen.
    rewrite i64_testbit by lia. rewrite (Htest j l Hj) by lia. by rewrite Z.bits_0. }
  destruct members as [|m members].
  - exists (VInt Int64 0). split; [done|]. apply Happ. simpl in *. by injection Hbits as <-.
  - assert (m <> "") as Hm.
    { rewrite Forall_forall in Hl, Hin. apply Hl, Hin. constructor. }
    rewrite bool_decide_eq_false_2.
    2: { destruct m; [done|]. unfold Join. simpl. by destruct members. }
    rewrite SplitByte_Join, Hbits; [|done|].
    + eexists. split; [done|]. by apply Happ.
    + eapply Forall_impl; [exact Hin|]. intros l Hl'. rewrite Forall_forall in Hl. by apply Hl.
Qed.

End Members.

(** ** Where a scan goes wrong *)

Section Defects.
Context `{ScanLib}.

Lemma parse_byte b :
  parseUint (str1 b) = (if is_digit b then Some (byte_val b - 48)%Z else None) /\
  parseInt (str1 b) = (if is_digit b then Some (byte_val b - 48)%Z else None).
Proof. all_bytes b; split; vm_compute; reflexivity. Qed.

(** A BIT column, which the driver returns as its bytes, is read as if the
    bytes were decimal digits: a one-byte value fails the scan unless it happens
    to be the code of a digit, which is then taken for that digit. *)
Theorem bit_column_misread c b :
  ToLower (col_DataType c) = "bit" ->
  toEventValue c (VBytes (str1 b)) =
    if is_digit b then Ok (VInt (if col_Unsigned c then Uint64 else Int64) (byte_val b - 48))
    else Err (if col_Unsigned c then EUnsignedValue (str1 b) else EIntegerValue (str1 b)).
Proof.
  intros Hty. unfold toEventValue. rewrite Hty. change (asInteger c (VBytes (str1 b)) = if is_digit b then
    Ok (VInt (if col_Unsigned c then Uint64 else Int64) (byte_val b - 48))
    else Err (if col_Unsigned c then EUnsignedValue (str1 b) else EIntegerValue (str1 b))).
  unfold asInteger. change (asString (VBytes (str1 b))) with (str1 b).
  destruct (parse_byte b) as [-> ->]. by destruct (col_Unsigned c), (is_digit b).
Qed.

(** Byte order, as a binary column compares. *)
Definition bytes_beyond (k c : list value) : bool :=
  match k, c with
  | [VString k], [VString c] => String.ltb c k
  | _, _ => false
  end.

(** What [json.Marshal] writes for a byte that is not UTF-8. *)
Definition replacement : string := AppendRune RuneError.

Lemma byte_cursor b :
  (128 <= byte_val b)%Z ->
  json_UnmarshalStrings (json_MarshalStrings [str1 b]) = Some [replacement].
Proof. revert b. intros b. all_bytes b; intros Hb; vm_compute in Hb |- *; try reflexivity; by destruct Hb. Qed.

Lemma below_replacement b : (byte_val b < 239)%Z -> String.ltb replacement (str1 b) = false.
Proof. all_bytes b; intros Hb; vm_compute in Hb |- *; done. Qed.

Lemma byte_order a b : (byte_val a < byte_val b)%Z -> String.ltb (str1 a) (str1 b) = true.
Proof.
  intros Hab. unfold String.ltb. simpl. unfold Ascii.compare.
  assert ((N_of_ascii a ?= N_of_ascii b)%N = Lt) as ->; [|done].
  apply N.compare_lt_iff. unfold byte_val in Hab. lia.
Qed.

(** The cursor of a row whose binary key is not UTF-8 does not come back: a
    scan resumed after it skips rows it never sent. *)
Theorem binary_cursor_skips_rows s r1 r2 b1 b2 :
  row_key s r1 = [VString (str1 b1)] -> row_key s r2 = [VString (str1 b2)] ->
  (128 <= byte_val b1 < byte_val b2)%Z -> (byte_val b2 < 239)%Z ->
  rows_after s bytes_beyond (Some (row_key s r1)) [r1; r2] = [r2] /\
  exists cursor, decodeCursor (encodeCursor (row_key s r1)) 1 = Ok (Some cursor) /\
    rows_after s bytes_beyond (Some cursor) [r1; r2] = [].
Proof.
  intros H1 H2 Hb1 Hb2. split.
  - cbn [rows_after List.filter]. rewrite H1, H2. cbn [bytes_beyond].
    rewrite (byte_order b1 b2) by lia.
    assert (String.ltb (str1 b1) (str1 b1) = false) as ->; [|done].
    all_bytes b1; reflexivity.
  - exists [VString replacement]. split.
    + rewrite H1. unfold decodeCursor, encodeCursor. cbn [map asString].
      rewrite bool_decide_eq_false_2 by done. by rewrite byte_cursor by lia.
    + cbn [rows_after List.filter]. rewrite H1, H2. cbn [bytes_beyond].
      by rewrite !below_replacement by lia.
Qed.

Lemma indexOf_generated cols c :
  distinct_names cols -> c ∈ cols -> col_Generated c = true ->
  indexOf (List.filter (fun c => negb (col_Generated c)) cols) (col_Name c) = None.
Proof.
  intros Hd Hc Hg. unfold indexOf. destruct (find_index _ _) as [i|] eqn:E; [exfalso|done].
  apply find_index_Some in E as (n & Hn & Heq). apply list_lookup_fmap_Some in Hn as (c' & -> & Hc').
  apply list_elem_of_lookup_2, list_elem_of_In, filter_In in Hc' as [Hc' Hg'].
  apply list_elem_of_In in Hc'. rewrite (Hd c' c Hc' Hc Heq), Hg in Hg'. done.
Qed.

Lemma key_values_stored cols raw keyCols :
  distinct_names cols -> Forall (fun c => c ∈ cols) keyCols ->
  let stored := List.filter (fun c => negb (col_Generated c)) cols in
  length raw = length stored ->
  if forallb (fun c => negb (col_Generated c)) keyCols
  then is_ok (res_map (key_value stored raw) keyCols) = true
  else res_map (key_value stored raw) keyCols = Err (ESnapPanic (-1)).
Proof.
  intros Hd Hk stored Hlen. induction Hk as [|c keyCols Hc Hk IH]; [done|]. cbn [forallb res_map].
  destruct (col_Generated c) eqn:Hg; cbn [negb andb].
  - assert (key_value stored raw c = Err (ESnapPanic (-1))) as ->; [|done].
    unfold key_value, stored. by rewrite (indexOf_generated cols c Hd Hc Hg).
  - destruct (indexOf_stored cols c) as (i & Hi & Hlt).
    { apply list_elem_of_In, filter_In. split; [by apply list_elem_of_In|by rewrite Hg]. }
    fold stored in Hi, Hlt. rewrite <- Hlen in Hlt.
    destruct (lookup_lt_is_Some_2 raw i Hlt) as [v Hv].
    assert (key_value stored raw c = Ok (rawKeyValue v)) as -> by (unfold key_value; by rewrite Hi, Hv).
    cbn [mbind res_bind].
    destruct (forallb _ keyCols); [|by rewrite IH].
    by destruct (res_map (key_value stored raw) keyCols).
Qed.

(** A row whose values can be read is turned into an event when every key
    column is stored; when one is generated, the scanner, which does not select
    it, indexes outside the row and panics. *)
Theorem scan_needs_stored_key s opts raw row :
  NewSnapshotter opts = Ok s -> distinct_names (tm_Columns (sn_meta s)) ->
  length raw = length (sn_scanCols s) ->
  fill_row (sn_scanCols s) raw (replicate (length (tm_Columns (sn_meta s))) VNil) = Ok row ->
  if forallb (fun c => negb (col_Generated c)) (sn_keyCols s)
  then exists k, scanRow s (Ok raw) = Ok (row, k)
  else scanRow s (Ok raw) = Err (ESnapPanic (-1)).
Proof.
  intros (_ & _ & _ & _ & _ & Hkeys & Hscan)%NewSnapshotter_spec Hd Hlen Hfill.
  pose proof (key_columns_of_table _ _ _ Hkeys) as Hk.
  pose proof (key_values_stored _ raw _ Hd Hk) as Hv. cbv zeta in Hv. rewrite <- Hscan in Hv.
  specialize (Hv Hlen). unfold scanRow. rewrite bool_decide_eq_true_2 by done. cbn [negb].
  rewrite Hfill. cbn [mbind res_bind].
  destruct (forallb _ (sn_keyCols s)); [|by rewrite Hv].
  destruct (res_map _ (sn_keyCols s)); [|done]. eauto.
Qed.

End Defects.
