(* ===== verification/LiveScan.v ===== *)
(** * Scanning a table while it changes

    The scan of [source/snapshot] judged against a server whose table changes
    between its chunks, and the stream that follows it from the position
    recorded before it: together they leave the table in a destination that
    orders writes by version, although no chunk saw the table as it was at any
    one moment. *)

From Stdlib Require Import Sorted.
From stdpp Require Import sorting.
From S2P Require Import Prelude GoStd SqlText Schema Cdc Transform Batcher Sink Checkpoint Runner Delivery Destination Convergence Snapshot.

Section LiveScan.
Context `{ScanLib} {W : Type} `{!ScanOps W}.

(** ** The server

    [moment w] counts the changes committed to the table by the time of [w];
    [rows_at] has its rows after so many of them, listed by their keys. The
    server compares the values of a column by [order], under which keys and
    cursors have ranks, below [size] for every key the table ever holds. *)
Variables (s : Snapshotter) (order : string -> value -> value -> comparison) (rank : list value -> nat) (size : nat)
  (rows_at : nat -> list (trow (V := value))) (moment : W -> nat) (emitted : W -> list ChangeEvent).

(** The rows as a query for the scanned columns returns them. *)
Definition table_at (i : nat) : list (list value) := map (project s) (rows_at i).

Definition past (k c : list value) : bool := rank c <? rank k.
#[local] Abbreviation chunk := (Z.to_nat (so_ChunkSize (sn_opts s))).

(** A step of the scan's surroundings that takes no event. *)
Definition quiet (w w' : W) : Prop := emitted w' = emitted w /\ moment w <= moment w'.

Class Live : Prop := {
  live_conn : forall w, exists w', db_Conn w = (w', Ok ()) /\ quiet w w';
  live_exec : forall q w, exists w', db_Exec q w = (w', Ok ()) /\ quiet w w';
  live_close : forall w, quiet w (conn_Close w);
  live_observe : forall n w, quiet w (scan_Observe n w);
  live_pause : forall d w, exists w', pause d w = (w', Ok ()) /\ quiet w w';
  live_send : forall ev w, exists w', out_Send ev w = (w', Ok ()) /\
    emitted w' = emitted w ++ [ev] /\ moment w <= moment w';
  live_order : forall c v w, order c (rawKeyValue v) w = order c v w /\ order c v (rawKeyValue w) = order c v w;
  (** A query is answered from the table as it is at one moment. *)
  live_query : forall text q bound limit w,
    spelled text = Some (Select q) -> asks (sn_meta s) q bound limit ->
    exists w' out, db_Query text (bound ++ limit_args limit) w = (w', Ok (mkRows (map Ok out) None)) /\
      answers order coalesced_value q bound (Z.to_nat <$> limit) (rows_at (moment w')) out /\ quiet w w'
}.

Class Keyed : Prop := {
  keyed_columns : keyed_table s;
  keyed_readable : forall i, readable s (table_at i);
  keyed_sorted : forall i, StronglySorted (fun a b => rank (row_key s a) < rank (row_key s b)) (table_at i);
  keyed_rank : forall i raw, raw ∈ table_at i -> rank (row_key s raw) < size;
  keyed_order : forall i raw c, raw ∈ table_at i -> length c = length (sn_keyCols s) ->
    beyond s order (row_key s raw) c = past (row_key s raw) c
}.

Context `{!Live, !Keyed}.

(** ** What a scan sends *)

(** The event is that of a row with this key, as it was at a moment between the
    two worlds. *)
Definition sent (w w' : W) (k : list value) (ev : ChangeEvent) : Prop :=
  exists raw i c m, moment w <= i <= moment w' /\ raw ∈ table_at i /\ row_key s raw = k /\
    ev = row_event s (row_of s raw) c m.

(** A row with this key is in the table all the time. *)
Definition lasting (w w' : W) (k : list value) : Prop :=
  forall i, moment w <= i <= moment w' -> exists raw, raw ∈ table_at i /\ row_key s raw = k.

Definition ahead (cursor : option (list value)) (k : list value) : Prop :=
  match cursor with None => True | Some c => rank c < rank k end.

(** The events between two worlds: each of a row that was there, and every row
    ahead of the cursor that stayed among them. *)
Definition covers (cursor : option (list value)) (w w' : W) (evs : list ChangeEvent) : Prop :=
  emitted w' = emitted w ++ evs /\ moment w <= moment w' /\
  Forall (fun ev => exists k, sent w w' k ev) evs /\
  (forall k, ahead cursor k -> lasting w w' k -> exists ev, ev ∈ evs /\ sent w w' k ev).

Lemma sent_widen w0 w w' w1 k ev :
  moment w0 <= moment w -> moment w' <= moment w1 -> sent w w' k ev -> sent w0 w1 k ev.
Proof. intros Hlo Hhi (raw & i & c & m & Hi & Hr). exists raw, i, c, m. split; [lia|done]. Qed.

Lemma quiet_trans w1 w2 w3 : quiet w1 w2 -> quiet w2 w3 -> quiet w1 w3.
Proof. intros [E1 M1] [E2 M2]. split; [by rewrite E2|lia]. Qed.

Lemma covers_before cursor w0 w w' evs : quiet w0 w -> covers cursor w w' evs -> covers cursor w0 w' evs.
Proof.
  intros [He Hm] (Hev & Hm' & Hall & Hlast). split; [by rewrite Hev, He|]. split; [lia|]. split.
  - eapply Forall_impl; [exact Hall|]. intros ev [k Hk]. exists k. eapply sent_widen; [..|exact Hk]; lia.
  - intros k Ha Hl. destruct (Hlast k Ha) as (ev & Hin & Hs).
    + intros i Hi. apply Hl. lia.
    + exists ev. split; [done|]. eapply sent_widen; [..|exact Hs]; lia.
Qed.

Lemma covers_after cursor w w' w1 evs : covers cursor w w' evs -> quiet w' w1 -> covers cursor w w1 evs.
Proof.
  intros (Hev & Hm' & Hall & Hlast) [He Hm]. split; [by rewrite He|]. split; [lia|]. split.
  - eapply Forall_impl; [exact Hall|]. intros ev [k Hk]. exists k. eapply sent_widen; [..|exact Hk]; lia.
  - intros k Ha Hl. destruct (Hlast k Ha) as (ev & Hin & Hs).
    + intros i Hi. apply Hl. lia.
    + exists ev. split; [done|]. eapply sent_widen; [..|exact Hs]; lia.
Qed.

(** A chunk, and what is sent after it. *)
Lemma covers_join cursor next w w1 w2 evs1 evs2 :
  emitted w1 = emitted w ++ evs1 -> moment w <= moment w1 ->
  Forall (fun ev => exists k, sent w w1 k ev) evs1 ->
  (forall k, ahead cursor k -> lasting w w1 k -> (exists ev, ev ∈ evs1 /\ sent w w1 k ev) \/ ahead (Some next) k) ->
  covers (Some next) w1 w2 evs2 -> covers cursor w w2 (evs1 ++ evs2).
Proof.
  intros He Hm Hall Hcut (He2 & Hm2 & Hall2 & Hlast2). split; [by rewrite He2, He, (assoc_L (++))|]. split; [lia|]. split.
  - apply Forall_app. split; (eapply Forall_impl; [eassumption|]); intros ev [k Hk]; exists k;
      (eapply sent_widen; [..|exact Hk]; lia).
  - intros k Ha Hl. destruct (Hcut k Ha) as [(ev & Hin & Hs)|Hn].
    + intros i Hi. apply Hl. lia.
    + exists ev. rewrite elem_of_app. split; [by left|]. eapply sent_widen; [..|exact Hs]; lia.
    + destruct (Hlast2 k Hn) as (ev & Hin & Hs); [intros i Hi; apply Hl; lia|].
      exists ev. rewrite elem_of_app. split; [by right|]. eapply sent_widen; [..|exact Hs]; lia.
Qed.

(** ** One chunk *)

Lemma limiter_quiet l rows w : exists w' l', limiter_wait l rows w = (w', l', Ok ()) /\ quiet w w'.
Proof.
  assert (quiet w w) as Hw by done. unfold limiter_wait. case_match; [eauto|]. case_match; [eauto|].
  edestruct (live_pause) as (w' & -> & ?). eauto.
Qed.

Lemma rows_after_sub cursor T raw :
  raw ∈ rows_after s past cursor T <-> raw ∈ T /\ ahead cursor (row_key s raw).
Proof.
  destruct cursor as [c|]; simpl; [|tauto].
  rewrite list_elem_of_In, filter_In, <- list_elem_of_In. unfold past. by rewrite Nat.ltb_lt.
Qed.

Lemma sorted_filter {A} (R : A -> A -> Prop) (P : A -> bool) (l : list A) :
  StronglySorted R l -> StronglySorted R (List.filter P l).
Proof.
  induction 1 as [|x l Hl IH Hx]; [constructor|]. simpl. destruct (P x); [|done]. constructor; [done|].
  rewrite Forall_forall in *. intros y Hy. apply Hx. by apply list_elem_of_In, filter_In in Hy as [?%list_elem_of_In _].
Qed.

Lemma rows_after_sorted cursor i :
  StronglySorted (fun a b => rank (row_key s a) < rank (row_key s b)) (rows_after s past cursor (table_at i)).
Proof. destruct cursor; [apply sorted_filter|]; apply keyed_sorted. Qed.

Lemma elem_of_take_rows (raw : list value) n l : raw ∈ take n l -> raw ∈ l.
Proof. intros (j & Hj & _)%elem_of_take. by eapply list_elem_of_lookup_2. Qed.

(** A row ahead of the cursor is in the chunk, or ahead of the chunk's last row. *)
Lemma chunk_cut cursor i k raw last_raw :
  raw ∈ table_at i -> row_key s raw = k -> ahead cursor k ->
  last (take chunk (rows_after s past cursor (table_at i))) = Some last_raw ->
  raw ∈ take chunk (rows_after s past cursor (table_at i)) \/ ahead (Some (row_key s last_raw)) k.
Proof.
  intros Hin <- Ha Hlast. assert (raw ∈ rows_after s past cursor (table_at i)) as Hr by (by apply rows_after_sub).
  pose proof (rows_after_sorted cursor i) as Hs. set (l := rows_after s past cursor (table_at i)) in *.
  rewrite <- (take_drop chunk l) in Hr, Hs. apply elem_of_app in Hr as [?|Hr]; [by left|right].
  apply last_Some_elem_of in Hlast. exact (StronglySorted_app_1_elem_of _ _ _ _ _ Hs Hlast Hr).
Qed.

Lemma rows_past cursor i :
  cursor_fits s cursor -> rows_after s (beyond s order) cursor (table_at i) = rows_after s past cursor (table_at i).
Proof.
  intros Hfit. destruct cursor as [c|]; [|done]. apply filter_ext_in. intros raw Hr%list_elem_of_In.
  by eapply keyed_order.
Qed.

Lemma table_key_length i raw : raw ∈ table_at i -> length (row_key s raw) = length (sn_keyCols s).
Proof.
  intros Hr. apply row_key_length. pose proof (keyed_readable i) as Hread. unfold readable in Hread.
  rewrite Forall_forall in Hread. by apply Hread.
Qed.

Lemma sorted_lookup {A} (f : A -> nat) l i j a b :
  StronglySorted (fun a b => f a < f b) l -> l !! i = Some a -> l !! j = Some b -> (f a <? f b) = bool_decide (i < j).
Proof.
  intros Hs. revert i j. induction Hs as [|x l Hl IH Hx]; intros i j Hi Hj; [done|].
  rewrite Forall_forall in Hx. destruct i as [|i], j as [|j]; cbn in Hi, Hj.
  - simplify_eq. rewrite bool_decide_eq_false_2 by lia. apply Nat.ltb_irrefl.
  - simplify_eq. rewrite bool_decide_eq_true_2 by lia. apply Nat.ltb_lt, Hx. by eapply list_elem_of_lookup_2.
  - simplify_eq. rewrite bool_decide_eq_false_2 by lia. apply Nat.ltb_ge.
    apply list_elem_of_lookup_2, Hx in Hi. lia.
  - rewrite (IH i j Hi Hj). apply bool_decide_ext. lia.
Qed.

Lemma table_ordered i : key_ordered s (beyond s order) (table_at i).
Proof.
  intros m n ra rb Ha Hb. rewrite (keyed_order i); [|by eapply list_elem_of_lookup_2|
    by eapply table_key_length, list_elem_of_lookup_2].
  exact (sorted_lookup (fun r => rank (row_key s r)) _ _ _ _ _ (keyed_sorted i) Ha Hb).
Qed.

Lemma readChunk_live n cursor w :
  (1 <= so_ChunkSize (sn_opts s))%Z -> cursor_fits s cursor ->
  exists w', readChunk (with_rows n s) cursor w =
    (w', let raws := take chunk (rows_after s past cursor (table_at (moment w'))) in
         Ok (map (row_of s) raws, default [] (row_key s <$> last raws))) /\ quiet w w'.
Proof.
  intros Hchunk Hfit. pose proof keyed_columns as Hk. unfold readChunk.
  destruct (live_query _ _ _ _ w (chunk_spelled s cursor (kt_some_column s Hk) (kt_some_key s Hk))
    (chunk_asks s cursor Hk Hchunk Hfit)) as (w' & out & Hq & Hans & He).
  rewrite <- chunk_args in Hq.
  apply next_chunk_answer in Hans; [|done|apply live_order|apply keyed_readable|apply table_ordered].
  fold (table_at (moment w')) in Hans. rewrite rows_past in Hans by done.
  change (chunkQuery (with_rows n s) cursor) with (chunkQuery s cursor).
  destruct (chunkQuery s cursor) as [q a]. cbn [fst snd] in Hq. rewrite Hq, Hans. exists w'. split; [|done].
  cbn [rows_read rows_Err]. rewrite scan_rows_readable; [done|]. apply Forall_take, Forall_forall.
  intros raw [Hin _]%rows_after_sub. pose proof (keyed_readable (moment w')) as Hr. unfold readable in Hr.
  rewrite Forall_forall in Hr. by apply Hr.
Qed.

Lemma send_live s' rows cursor n w :
  exists w', send_rows s' rows cursor n w = (w', Ok ()) /\
    emitted w' = emitted w ++ chunk_events s' rows cursor n /\ moment w <= moment w'.
Proof.
  revert w. induction rows as [|row rows IH]; intros w.
  - exists w. by rewrite app_nil_r.
  - simpl. edestruct live_send as (w1 & -> & He & Hm). destruct (IH w1) as (w' & -> & He' & Hm').
    exists w'. split; [done|]. split; [by rewrite He', He, <- (assoc_L (++))|lia].
Qed.

Lemma emitChunk_live n rows next w :
  exists w', emitChunk rows next (with_rows n s, w) = ((with_rows (u64 (n + zlen rows)) s, w'), Ok ()) /\
    emitted w' = emitted w ++ chunk_events s rows (encodeCursor next) (u64 (n + zlen rows)) /\ moment w <= moment w'.
Proof.
  unfold emitChunk. change (sn_rowsRead (with_rows n s)) with n.
  destruct (send_live (with_rows n s) rows (encodeCursor next) (u64 (n + zlen rows)) w) as (w' & -> & He & Hm).
  exists w'. split; [done|]. by rewrite He, chunk_events_with_rows.
Qed.

Lemma chunk_event_in rows cursor n ev :
  ev ∈ chunk_events s rows cursor n -> exists row c m, row ∈ rows /\ ev = row_event s row c m.
Proof.
  induction rows as [|row rows IH]; [by intros ?%not_elem_of_nil|]. cbn [chunk_events].
  intros [->|Hin]%elem_of_cons.
  - exists row. destruct rows; do 2 eexists; (split; [by left|done]).
  - destruct (IH Hin) as (row' & c & m & Hr & ->). exists row', c, m. split; [by right|done].
Qed.

Lemma chunk_event_of rows cursor n row :
  row ∈ rows -> exists c m, row_event s row c m ∈ chunk_events s rows cursor n.
Proof.
  induction rows as [|row' rows IH]; [by intros ?%not_elem_of_nil|]. cbn [chunk_events].
  intros [->|Hin]%elem_of_cons.
  - destruct rows; do 2 eexists; by left.
  - destruct (IH Hin) as (c & m & Hev). exists c, m. by right.
Qed.

(** Ranks that are left for a cursor to reach. *)
Definition room (cursor : option (list value)) : nat := match cursor with None => size | Some c => size - S (rank c) end.

(** The loop ends, and from any cursor it covers the table ahead of it. *)
Lemma scan_loop_live fuel l cursor n w :
  (1 <= so_ChunkSize (sn_opts s))%Z -> cursor_fits s cursor -> room cursor < fuel ->
  exists n' w' evs, scan_loop fuel l cursor (with_rows n s, w) = ((with_rows n' s, w'), Some (Ok ())) /\
    covers cursor w w' evs.
Proof.
  intros Hchunk. revert l cursor n w. induction fuel as [|fuel IH]; intros l cursor n w Hfit Hf; [lia|].
  cbn [scan_loop]. destruct (readChunk_live n cursor w Hchunk Hfit) as (w1 & -> & Hq1). cbv zeta.
  set (i := moment w1) in *. set (raws := take chunk (rows_after s past cursor (table_at i))).
  assert (forall k, ahead cursor k -> lasting w w1 k -> exists raw, raw ∈ table_at i /\ row_key s raw = k) as Hthere.
  { intros k _ Hl. apply Hl. subst i. destruct Hq1 as [_ ?]. lia. }
  destruct raws as [|raw0 raws0] eqn:Hraws.
  { exists n, w1, []. split; [done|]. destruct Hq1 as [He Hm]. split; [by rewrite app_nil_r|]. split; [done|].
    split; [constructor|]. intros k Ha Hl. destruct (Hthere k Ha Hl) as (raw & Hin & <-). exfalso.
    assert (raw ∈ rows_after s past cursor (table_at i)) as Hr by (by apply rows_after_sub). subst raws.
    destruct (rows_after s past cursor (table_at i)); [by apply not_elem_of_nil in Hr|].
    replace chunk with (S (pred chunk)) in Hraws by lia. done. }
  rewrite <- Hraws. set (rows := map (row_of s) raws).
  destruct rows as [|row rows'] eqn:Hrows; [subst rows; by rewrite Hraws in Hrows|]. rewrite <- Hrows. clear Hrows row rows'.
  set (next := default [] (row_key s <$> last raws)).
  destruct (emitChunk_live n rows next w1) as (w2 & -> & He2 & Hm2).
  set (evs := chunk_events s rows (encodeCursor next) (u64 (n + zlen rows))) in *.
  set (w3 := if so_Observe _ then _ else _).
  assert (quiet w2 w3) as Hq3 by (subst w3; case_match; [apply live_observe|done]).
  destruct (limiter_quiet l (zlen rows) w3) as (w4 & l' & -> & Hq4).
  pose proof (quiet_trans _ _ _ Hq3 Hq4) as [He4 Hm4].
  destruct Hq1 as [He1 Hm1].
  assert (emitted w4 = emitted w ++ evs) as He by (by rewrite He4, He2, He1).
  assert (exists last_raw, last raws = Some last_raw) as [last_raw Hlast].
  { destruct (last raws) eqn:E; [eauto|]. apply last_None in E. by rewrite E in Hraws. }
  assert (next = row_key s last_raw) as Hnext by (subst next; by rewrite Hlast).
  assert (forall raw, raw ∈ raws -> exists ev, ev ∈ evs /\ sent w w4 (row_key s raw) ev) as Hrow.
  { intros raw Hin. destruct (chunk_event_of rows (encodeCursor next) (u64 (n + zlen rows)) (row_of s raw)) as (c & m & Hev).
    { subst rows. by apply list_elem_of_fmap_2. }
    exists (row_event s (row_of s raw) c m). split; [done|]. exists raw, i, c, m. split; [subst i; lia|].
    split; [|done]. apply (rows_after_sub cursor). by eapply elem_of_take_rows. }
  assert (Forall (fun ev => exists k, sent w w4 k ev) evs) as Hsent.
  { apply Forall_forall. intros ev (row & c & m & Hr & ->)%chunk_event_in. subst rows.
    apply list_elem_of_fmap in Hr as (raw & -> & Hin). exists (row_key s raw), raw, i, c, m.
    split; [subst i; lia|]. split; [|done]. apply (rows_after_sub cursor). by eapply elem_of_take_rows. }
  assert (forall k, ahead cursor k -> lasting w w4 k ->
    (exists ev, ev ∈ evs /\ sent w w4 k ev) \/ length raws = chunk /\ ahead (Some next) k) as Hcut.
  { intros k Ha Hl. destruct (Hl i) as (raw & Hin & <-); [subst i; lia|].
    destruct (chunk_cut cursor i _ raw last_raw Hin eq_refl Ha Hlast) as [Hr|Hr]; [left; by apply Hrow|].
    destruct (decide (length raws = chunk)) as [Hc|Hc]; [right; by rewrite Hnext|].
    left. apply Hrow. subst raws. rewrite length_take in Hc. rewrite take_ge by lia. by apply rows_after_sub. }
  assert (length rows = length raws) as Hlen by (subst rows; by rewrite length_map).
  assert (length raws <= chunk) as Hle by (subst raws; rewrite length_take; lia).
  change (sn_opts (with_rows (u64 (n + zlen rows)) s)) with (sn_opts s).
  destruct (Z.ltb_spec (zlen rows) (so_ChunkSize (sn_opts s))) as [Hlt|Hge]; unfold zlen in *.
  - exists (u64 (n + zlen rows)), w4, evs. split; [done|]. split; [done|]. split; [lia|]. split; [done|].
    intros k Ha Hl. destruct (Hcut k Ha Hl) as [?|[Hc _]]; [done|]. lia.
  - destruct (IH l' (Some next) (u64 (n + zlen rows)) w4) as (n' & w' & evs' & Hloop & Hcov).
    { rewrite Hnext. pose proof (last_Some_elem_of _ _ Hlast) as Hin. apply elem_of_take_rows in Hin.
      apply rows_after_sub in Hin as [Hin _]. by eapply table_key_length. }
    { rewrite Hnext. pose proof (last_Some_elem_of _ _ Hlast) as Hin. apply elem_of_take_rows in Hin.
      apply rows_after_sub in Hin as [Hin Ha]. apply keyed_rank in Hin.
      destruct cursor as [c|]; cbn [room ahead] in *; lia. }
    exists n', w', (evs ++ evs'). split; [exact Hloop|]. eapply covers_join; [done|lia|done| |exact Hcov].
    intros k Ha Hl. destruct (Hcut k Ha Hl) as [?|[_ ?]]; [by left|by right].
Qed.

(** The whole scan ends, and covers the table ahead of where it began. *)
Lemma Events_live fuel cursor w :
  (1 <= so_ChunkSize (sn_opts s))%Z -> with_rows 0 s = s -> decodeCursor (so_Cursor (sn_opts s)) (length (sn_keyCols s)) = Ok cursor ->
  size < fuel ->
  exists n w' evs, Events fuel (s, w) = Some (set_done (with_rows n s), w') /\ covers cursor w w' evs.
Proof.
  intros Hchunk Hzero Hdec Hf. unfold Events, scan_run, scanConn.
  destruct (live_conn w) as (w1 & -> & Hq1). edestruct live_exec as (w2 & -> & Hq2). rewrite Hdec.
  destruct (scan_loop_live fuel (newLimiter (so_MaxRowsPerSec (sn_opts s)) w2) cursor 0 w2 Hchunk
    (decoded_fits _ _ _ Hdec)) as (n & w3 & evs & Hloop & Hcov).
  { destruct cursor; cbn [room]; lia. }
  rewrite Hzero in Hloop. rewrite Hloop. exists n, (conn_Close w3), evs. split; [done|].
  eapply covers_after; [|apply live_close]. eapply covers_before; [|exact Hcov]. by eapply quiet_trans.
Qed.

(** ** The scan and the stream after it *)

Section Converging.
Context (p : Plan) (evs : list ChangeEvent).

(** The event of a row as the scan sends it, whatever its cursor. *)
Definition row_ev (raw : list value) : ChangeEvent := row_event s (row_of s raw) "" 0.

(** The documents a table stands for. *)
Definition image_after (image : gmap string string) (changes : list ChangeEvent) : gmap string string :=
  foldl (replicate_event p) image changes.
Definition table_image (T : list (list value)) : gmap string string := image_after ∅ (map row_ev T).

Lemma docs_of_row_event row c m : docs_of p (row_event s row c m) = docs_of p (row_event s row "" 0).
Proof. done. Qed.

Lemma docs_of_row raw :
  transforms p (row_ev raw) ->
  exists k body, key p (Some (row_of s raw)) = Ok k /\
    docs_of p (row_ev raw) = [mkDoc k body (so_BaseSeq (sn_opts s)) false].
Proof.
  unfold transforms, docs_of, row_ev, row_event, Apply. cbn [ev_Operation ev_Before ev_After ev_Seq].
  destruct (checkWidth p _) as [[]|]; [|done]. cbn [mbind res_bind].
  destruct (key p (Some (row_of s raw))) as [k|] eqn:Hk; [|done]. cbn [mbind res_bind].
  destruct (encode p _) as [body|]; [|done]. intros _. by exists k, body.
Qed.

Lemma last_write_in k docs d : last_write k docs = Some d -> d ∈ docs /\ doc_Key d = k.
Proof.
  induction docs as [|x docs IH] using rev_ind; [done|]. rewrite last_write_snoc, elem_of_app, list_elem_of_singleton.
  case_bool_decide as Hk; [intros [= ->]; auto|]. intros Hl. destruct (IH Hl). auto.
Qed.

Lemma last_write_none k docs d : last_write k docs = None -> d ∈ docs -> doc_Key d <> k.
Proof.
  induction docs as [|x docs IH] using rev_ind; [by intros _ ?%not_elem_of_nil|].
  rewrite last_write_snoc, elem_of_app, list_elem_of_singleton. case_bool_decide as Hk; [done|].
  intros Hl [Hd| ->]; [by apply IH|done].
Qed.

(** What a destination that started empty holds was written. *)
Lemma puts_lookup docs k :
  match puts ∅ docs !! k with
  | Some (v, c) => exists d, d ∈ docs /\ doc_Key d = k /\ doc_Version d = v /\ content d = c
  | None => forall d, d ∈ docs -> doc_Key d <> k
  end.
Proof.
  induction docs as [|x docs IH] using rev_ind; unfold puts in *.
  { cbn [foldl]. rewrite lookup_empty. by intros d ?%not_elem_of_nil. }
  rewrite foldl_app. cbn [foldl]. rewrite put_lookup.
  case_bool_decide as Hk.
  - destruct (foldl put ∅ docs !! k) as [[v c]|]; [destruct (v <? doc_Version x)%Z|].
    + exists x. rewrite elem_of_app, list_elem_of_singleton. auto.
    + destruct IH as (d & Hd & ?). exists d. rewrite elem_of_app. auto.
    + exists x. rewrite elem_of_app, list_elem_of_singleton. auto.
  - destruct (foldl put ∅ docs !! k) as [[v c]|].
    + destruct IH as (d & Hd & ?). exists d. rewrite elem_of_app. auto.
    + intros d. rewrite elem_of_app, list_elem_of_singleton. intros [Hd| ->]; [by apply IH|done].
Qed.

Lemma elem_of_docs_all d l : d ∈ docs_all p l <-> exists ev, ev ∈ l /\ d ∈ docs_of p ev.
Proof.
  unfold docs_all. rewrite list_elem_of_In, in_concat. split.
  - intros (ds & Hds%list_elem_of_In & Hd%list_elem_of_In). apply list_elem_of_fmap in Hds as (ev & -> & Hev). eauto.
  - intros (ev & Hev & Hd). exists (docs_of p ev). split; apply list_elem_of_In; [by apply list_elem_of_fmap_2|done].
Qed.

(** A document no change writes keeps its content. *)
Lemma image_untouched image changes seen k :
  Forall (transforms p) changes -> seen `prefix_of` changes -> last_write k (docs_all p changes) = None ->
  image_after image seen !! k = image !! k.
Proof.
  intros Ht [rest ->] Hl. apply Forall_app in Ht as [Ht _]. unfold image_after.
  rewrite <- docs_all_effect, apply_docs_lookup by done. rewrite docs_all_app, last_write_app in Hl.
  destruct (last_write k (docs_all p rest)); [done|]. by rewrite Hl.
Qed.

(** Writes that were right at some moment, and miss nothing that stayed, become
    the table once the changes are applied to them. *)
Lemma backfilled image changes docs :
  Forall (transforms p) changes ->
  (forall d, d ∈ docs -> exists seen, seen `prefix_of` changes /\ content d <> None /\
    image_after image seen !! doc_Key d = content d) ->
  (forall k, (forall seen, seen `prefix_of` changes -> is_Some (image_after image seen !! k)) ->
    exists d, d ∈ docs /\ doc_Key d = k) ->
  image_after (visible (puts ∅ docs)) changes = image_after image changes.
Proof.
  intros Ht Hright Hall. apply map_eq. intros k. unfold image_after at 1 2.
  rewrite <- !docs_all_effect, !apply_docs_lookup by done.
  destruct (last_write k (docs_all p changes)) eqn:Hl; [done|]. unfold visible. rewrite lookup_omap.
  assert (forall seen, seen `prefix_of` changes -> image_after image seen !! k = image !! k) as Hsame
    by (intros; by eapply image_untouched).
  pose proof (puts_lookup docs k) as Hp. destruct (puts ∅ docs !! k) as [[v c]|]; cbn.
  - destruct Hp as (d & Hd & Hk & _ & <-). destruct (Hright d Hd) as (seen & Hs & _ & <-). by rewrite Hk, Hsame.
  - destruct (image !! k) as [body|] eqn:Hi; [|done]. destruct (Hall k) as (d & Hd & Hk).
    + intros seen Hs. by rewrite Hsame.
    + by destruct (Hp d Hd).
Qed.

(** ** The table's history

    The changes [evs] take the table's image from moment to moment; every row
    can be transformed, rows with one document key have one row key, and the
    scan's version and then those of the changes were issued in this order, as
    by one allocator. *)
Class History : Prop := {
  hist_rows : forall i raw, raw ∈ table_at i -> transforms p (row_ev raw);
  hist_keys : forall i j raw raw', raw ∈ table_at i -> raw' ∈ table_at j ->
    key p (Some (row_of s raw)) = key p (Some (row_of s raw')) -> row_key s raw = row_key s raw';
  hist_changes : forall i, i <= length evs ->
    table_image (table_at i) = image_after (table_image (table_at 0)) (take i evs);
  hist_moment : forall w, moment w <= length evs;
  hist_transforms : Forall (transforms p) evs;
  hist_versions : StronglySorted Z.lt (so_BaseSeq (sn_opts s) :: map ev_Seq evs)
}.
Context `{!History}.

Lemma hist_sorted : StronglySorted Z.lt (map ev_Seq evs).
Proof. pose proof hist_versions as Hv. by inversion Hv. Qed.

Lemma hist_base : Forall (fun ev => so_BaseSeq (sn_opts s) < ev_Seq ev)%Z evs.
Proof. pose proof hist_versions as Hv. inversion Hv; subst. by apply Forall_map. Qed.

Lemma sorted_inj {A} (f : A -> nat) l x y :
  StronglySorted (fun a b => f a < f b) l -> x ∈ l -> y ∈ l -> f x = f y -> x = y.
Proof.
  induction 1 as [|a l _ IH Ha]; [by intros ?%not_elem_of_nil|]. rewrite Forall_forall in Ha.
  rewrite !elem_of_cons. intros [->|Hx] [->|Hy] Hf; [done|apply Ha in Hy; lia|apply Ha in Hx; lia|by apply IH].
Qed.

Lemma same_row i raw raw' : raw ∈ table_at i -> raw' ∈ table_at i -> row_key s raw = row_key s raw' -> raw = raw'.
Proof. intros Hr Hr' Hk. eapply (sorted_inj (fun r => rank (row_key s r))); [apply keyed_sorted|done..|by rewrite Hk]. Qed.

Lemma row_events_transform i : Forall (transforms p) (map row_ev (table_at i)).
Proof. apply Forall_map, Forall_forall. apply hist_rows. Qed.

Lemma table_image_row i raw k body :
  raw ∈ table_at i -> docs_of p (row_ev raw) = [mkDoc k body (so_BaseSeq (sn_opts s)) false] ->
  table_image (table_at i) !! k = Some body.
Proof.
  intros Hin Hdoc. unfold table_image, image_after.
  rewrite <- docs_all_effect, apply_docs_lookup by apply row_events_transform.
  set (d := mkDoc k body _ false) in *.
  assert (d ∈ docs_all p (map row_ev (table_at i))) as Hd.
  { apply elem_of_docs_all. exists (row_ev raw). split; [by apply list_elem_of_fmap_2|]. rewrite Hdoc. by left. }
  destruct (last_write k _) as [d'|] eqn:Hl; [|by destruct (last_write_none _ _ _ Hl Hd)].
  apply last_write_in in Hl as [(ev & (raw' & -> & Hin')%list_elem_of_fmap & Hd')%elem_of_docs_all Hk].
  destruct (docs_of_row raw (hist_rows i raw Hin)) as (k1 & b1 & Hk1 & Hdoc1).
  destruct (docs_of_row raw' (hist_rows i raw' Hin')) as (k2 & b2 & Hk2 & Hdoc2).
  rewrite Hdoc1 in Hdoc. injection Hdoc as -> ->. rewrite Hdoc2 in Hd'. apply list_elem_of_singleton in Hd' as ->.
  cbn in Hk. subst k2. assert (raw = raw') as <-; [|rewrite Hdoc1 in Hdoc2; by injection Hdoc2 as ->].
  apply (same_row i); [done..|]. apply (hist_keys i i); [done..|by rewrite Hk1, Hk2].
Qed.

Lemma table_image_has i k :
  is_Some (table_image (table_at i) !! k) -> exists raw, raw ∈ table_at i /\ key p (Some (row_of s raw)) = Ok k.
Proof.
  unfold table_image, image_after. rewrite <- docs_all_effect, apply_docs_lookup by apply row_events_transform.
  destruct (last_write k _) as [d|] eqn:Hl; [|rewrite lookup_empty; by intros []]. intros _.
  apply last_write_in in Hl as [(ev & (raw & -> & Hin)%list_elem_of_fmap & Hd)%elem_of_docs_all Hk].
  destruct (docs_of_row raw (hist_rows i raw Hin)) as (k1 & b1 & Hk1 & Hdoc). rewrite Hdoc in Hd.
  apply list_elem_of_singleton in Hd as ->. cbn in Hk. subst k1. eauto.
Qed.

Lemma sent_doc w w' k ev :
  sent w w' k ev -> exists raw i key body, moment w <= i <= moment w' /\ raw ∈ table_at i /\ row_key s raw = k /\
    Transform.key p (Some (row_of s raw)) = Ok key /\ docs_of p ev = [mkDoc key body (so_BaseSeq (sn_opts s)) false] /\
    table_image (table_at i) !! key = Some body.
Proof.
  intros (raw & i & c & m & Hi & Hin & Hk & ->).
  destruct (docs_of_row raw (hist_rows i raw Hin)) as (key & body & Hkey & Hdoc).
  exists raw, i, key, body. do 4 (split; [done|]). split; [exact Hdoc|]. by eapply table_image_row.
Qed.

(** What a scan covered becomes, with the changes, the table; and it is below
    them all. *)
Lemma covered_image w w' total :
  covers None w w' total ->
  image_after (visible (puts ∅ (docs_all p total))) evs = table_image (table_at (length evs)).
Proof.
  intros (_ & Hm & Hsent & Hlast). pose proof (hist_moment w') as Hw'.
  assert (forall ev, ev ∈ total -> exists k, sent w w' k ev) as Hev by (by apply Forall_forall).
  rewrite (hist_changes (length evs)), firstn_all by done. apply backfilled; [apply hist_transforms| |].
  - intros d (ev & [k (raw & i & key & body & Hi & _ & _ & _ & Hdoc & Himg)%sent_doc]%Hev & Hd)%elem_of_docs_all.
    rewrite Hdoc in Hd. apply list_elem_of_singleton in Hd as ->. exists (take i evs).
    split; [by apply prefix_take|]. split; [done|]. rewrite <- hist_changes by lia. exact Himg.
  - intros k Hk. assert (forall i, i <= length evs -> is_Some (table_image (table_at i) !! k)) as Hthere.
    { intros i Hi. rewrite hist_changes by done. by apply Hk, prefix_take. }
    destruct (table_image_has (moment w) k) as (raw0 & Hin0 & Hkey0); [apply Hthere; lia|].
    destruct (Hlast (row_key s raw0)) as (ev & Hin & (raw & i & key & body & Hi & Hraw & Hrk & Hkey & Hdoc & _)%sent_doc).
    + done.
    + intros i Hi. destruct (table_image_has i k) as (raw & Hr & Hkey); [apply Hthere; lia|]. exists raw.
      split; [done|]. apply (hist_keys i (moment w)); [done..|by rewrite Hkey, Hkey0].
    + destruct (table_image_has i k) as (raw' & Hr' & Hkey'); [apply Hthere; lia|].
      assert (raw = raw') as ->.
      { apply (same_row i); [done..|]. rewrite Hrk. apply (hist_keys (moment w) i); [done..|by rewrite Hkey', Hkey0]. }
      rewrite Hkey in Hkey'. injection Hkey' as ->.
      exists (mkDoc k body (so_BaseSeq (sn_opts s)) false). split; [|done].
      apply elem_of_docs_all. exists ev. split; [done|]. rewrite Hdoc. by left.
Qed.

Lemma covered_below w w' total changes :
  covers None w w' total -> Forall (fun ev => so_BaseSeq (sn_opts s) < ev_Seq ev)%Z changes ->
  Forall (fun ev => below (puts ∅ (docs_all p total)) (ev_Seq ev)) changes.
Proof.
  intros (_ & _ & Hsent & _) Hchanges. rewrite Forall_forall in Hsent.
  assert (Forall (fun d => doc_Version d = so_BaseSeq (sn_opts s)) (docs_all p total)) as Hbase.
  { apply Forall_forall. intros d (ev & [k (? & ? & ? & ? & _ & _ & _ & _ & Hdoc & _)%sent_doc]%Hsent & Hd)%elem_of_docs_all.
    rewrite Hdoc in Hd. by apply list_elem_of_singleton in Hd as ->. }
  eapply Forall_impl; [exact Hchanges|]. intros ev Hlt. apply below_puts; [intros k v c Hk; by rewrite lookup_empty in Hk|].
  eapply Forall_impl; [exact Hbase|]. intros d Hd. cbn in Hd. by rewrite Hd.
Qed.

Lemma resumed_covers cursor old w0 w w' scanned :
  emitted w = emitted w0 ++ old -> moment w0 <= moment w ->
  Forall (fun ev => exists k, sent w0 w k ev) old ->
  (forall k, lasting w0 w k -> (exists ev, ev ∈ old /\ sent w0 w k ev) \/ ahead cursor k) ->
  covers cursor w w' scanned -> covers None w0 w' (old ++ scanned).
Proof.
  intros He Hm Hold Hcut Hcov. destruct cursor as [c|].
  - eapply covers_join; [done|done|done| |exact Hcov]. intros k _ Hl. by apply Hcut.
  - destruct Hcov as (He' & Hm' & Hall & Hlast). split; [by rewrite He', He, (assoc_L (++))|]. split; [lia|]. split.
    + apply Forall_app. split; (eapply Forall_impl; [eassumption|]); intros ev [k Hk]; exists k;
        (eapply sent_widen; [..|exact Hk]; lia).
    + intros k _ Hl. destruct (Hlast k I) as (ev & Hin & Hs); [intros i Hi; apply Hl; lia|].
      exists ev. rewrite elem_of_app. split; [by right|]. eapply sent_widen; [..|exact Hs]; lia.
Qed.


(** The same when the stream after the scan crashes and resumes from a recorded
    position, what follows it delivered again under newer versions. *)
Theorem scan_and_crash_converge w w' total before rest rest' acked :
  covers None w w' total -> evs = before ++ rest ->
  docs_all p before `prefix_of` acked -> acked `prefix_of` docs_all p evs ->
  Forall2 redelivered rest rest' -> StronglySorted Z.lt (map ev_Seq (evs ++ rest')) ->
  Forall (fun ev => so_BaseSeq (sn_opts s) < ev_Seq ev)%Z rest' ->
  visible (puts (puts (puts ∅ (docs_all p total)) acked) (docs_all p rest')) = table_image (table_at (length evs)).
Proof.
  intros Hcov Hsplit Hb Ha Hre Hs Hnew. rewrite <- (covered_image _ _ _ Hcov). unfold image_after.
  rewrite Hsplit in *. eapply recovery_replicates; [rewrite <- Hsplit; apply hist_transforms|done|done|done|].
  split; [done|]. apply Forall_app. split; (eapply covered_below; [exact Hcov|]); [rewrite <- Hsplit; apply hist_base|done].
Qed.

End Converging.
End LiveScan.
