(* ===== verification/Binlog.v ===== *)
(** * The binlog reader ([internal/source/binlog/streamer.go])

    Replication events turned into change events: which transactions are in the
    position an event carries, when table definitions are reloaded, and how rows
    written before a schema change are aligned. The replication client, GTID
    sets, the schema loader, the sequencer and the channel are operations. *)

From Stdlib Require Import Ascii.
From S2P Require Import Prelude GoStd Schema Cdc Snapshot.

(** ** GTID sets of [go-mysql] *)

(** [Update] adds the transactions a text names, in place. *)
Class GtidLib := {
  GTIDSet : Type;
  ParseMysqlGTIDSet : string -> option GTIDSet;
  Contain : GTIDSet -> GTIDSet -> bool;
  Update : GTIDSet -> string -> option GTIDSet;
  GTID_String : GTIDSet -> string
}.

(** What their documentation promises, with a set of transactions as the sets
    of their identifiers. *)
Class GtidLaws `{GtidLib} := {
  denote : GTIDSet -> gset string;
  contain_spec : forall a b, Contain a b = true <-> denote b ⊆ denote a;
  update_spec : forall s t s', Update s t = Some s' -> denote s' = denote s ∪ {[t]};
  parse_string : forall s, exists s', ParseMysqlGTIDSet (GTID_String s) = Some s' /\ denote s' = denote s
}.

(** ** Replication events *)

Inductive rows_type :=
  | WRITE_ROWS_EVENTv0 | WRITE_ROWS_EVENTv1 | WRITE_ROWS_EVENTv2
  | DELETE_ROWS_EVENTv0 | DELETE_ROWS_EVENTv1 | DELETE_ROWS_EVENTv2
  | UPDATE_ROWS_EVENTv0 | UPDATE_ROWS_EVENTv1 | UPDATE_ROWS_EVENTv2
  | OTHER_ROWS_EVENT.

Section Binlog.
Context `{GoLib}.

(** The fields the reader looks at; [re_names] is what [ColumnNameString]
    gives. *)
Record rows_event := mkRowsEvent {
  re_type : rows_type;
  re_timestamp : Z;
  re_schema : string;
  re_table : string;
  re_names : list string;
  re_rows : list (list value)
}.

(** A GTID event carries the transaction's identifier, or the failure to read
    it. *)
Inductive binlog_event :=
  | GTIDEvent (next : option string)
  | XIDEvent
  | QueryEvent (schema query : string)
  | RowsEvent (e : rows_event)
  | OtherEvent.

Definition operationFor (t : rows_type) : option (Operation * bool) :=
  match t with
  | WRITE_ROWS_EVENTv0 | WRITE_ROWS_EVENTv1 | WRITE_ROWS_EVENTv2 => Some (OperationInsert, false)
  | DELETE_ROWS_EVENTv0 | DELETE_ROWS_EVENTv1 | DELETE_ROWS_EVENTv2 => Some (OperationDelete, false)
  | UPDATE_ROWS_EVENTv0 | UPDATE_ROWS_EVENTv1 | UPDATE_ROWS_EVENTv2 => Some (OperationUpdate, true)
  | OTHER_ROWS_EVENT => None
  end.

(** ** The reader *)

(** An error of the replication client: the server's, with its code, or any
    other. *)
Inductive read_error := ServerError (code : Z) (message : string) | ReadFailed (cause : outside_error).

Inductive binlog_error :=
  | EHost | EServerID | EStartPosition | ESchemas | ESequencer | ETableName (table : string)
  | EStartGTID (text : string)
  | EPositionPurged (message : string)
  | ERead' (e : read_error)
  | EGTIDNext
  | EFold (tx : string)
  | ESchemaLoad (cause : string)
  | EReload (schema table cause : string)
  | EAlign (schema table : string) (width columns names : Z)
  | EVersion (cause : string)
  | ESend (cause : outside_error)
  (** An index out of range, which panics. *)
  | EBinlogPanic.

Definition errBinlogReadFailure : Z := 1236.

(** [explain]: the one failure a restart cannot fix. *)
Definition explain (e : read_error) : binlog_error :=
  match e with
  | ServerError code message =>
      if (code =? errBinlogReadFailure)%Z then EPositionPurged message else ERead' e
  | _ => ERead' e
  end.

(** [bo_Schemas] and [bo_Sequencer] say whether they are set. *)
Record BOptions := mkBOptions {
  bo_Host : string;
  bo_Port : Z;
  bo_ServerID : Z;
  bo_StartGTID : string;
  bo_Tables : list string;
  bo_Schemas : bool;
  bo_Sequencer : bool;
  bo_HeartbeatPeriod : Z;
  bo_ReadTimeout : Z;
  bo_Buffer : Z
}.

Context `{GtidLib}.

(** [st_schemas] is the cache of the schema store the reader shares. *)
Record Streamer := mkStreamer {
  sm_opts : BOptions;
  sm_watched : gmap string ();
  sm_schemas : gmap string TableMeta;
  sm_executed : option GTIDSet;
  sm_currentTx : string
}.

Definition default_to (v def : Z) : Z := if (v <=? 0)%Z then def else v.

Fixpoint watch (tables : list string) (watched : gmap string ()) : res binlog_error (gmap string ()) :=
  match tables with
  | [] => Ok watched
  | t :: tables => if Contains t "." then watch tables (<[ToLower t := ()]> watched) else Err (ETableName t)
  end.

Definition NewStreamer (o : BOptions) (schemas : gmap string TableMeta) : res binlog_error Streamer :=
  if bool_decide (bo_Host o = "") then Err EHost
  else if (bo_ServerID o =? 0)%Z then Err EServerID
  else if bool_decide (bo_StartGTID o = "") then Err EStartPosition
  else if negb (bo_Schemas o) then Err ESchemas
  else if negb (bo_Sequencer o) then Err ESequencer
  else
    let o := mkBOptions (bo_Host o) (if (bo_Port o =? 0)%Z then 3306 else bo_Port o)%Z (bo_ServerID o)
      (bo_StartGTID o) (bo_Tables o) (bo_Schemas o) (bo_Sequencer o)
      (default_to (bo_HeartbeatPeriod o) (5 * 10 ^ 9)) (default_to (bo_ReadTimeout o) (90 * 10 ^ 9))
      (default_to (bo_Buffer o) 1024) in
    watched ← watch (bo_Tables o) ∅;
    Ok (mkStreamer o watched schemas None "").

Definition set_schemas (c : gmap string TableMeta) (s : Streamer) : Streamer :=
  mkStreamer (sm_opts s) (sm_watched s) c (sm_executed s) (sm_currentTx s).
Definition set_executed (e : option GTIDSet) (s : Streamer) : Streamer :=
  mkStreamer (sm_opts s) (sm_watched s) (sm_schemas s) e (sm_currentTx s).
Definition set_currentTx (t : string) (s : Streamer) : Streamer :=
  mkStreamer (sm_opts s) (sm_watched s) (sm_schemas s) (sm_executed s) t.

(** [Position] and [positionForRows]. *)
Definition Position (s : Streamer) : string :=
  match sm_executed s with Some set => GTID_String set | None => "" end.

(** *** Definitions to reload *)

Definition is_ddl (lowered : string) : bool :=
  Contains lowered "alter" || Contains lowered "create" || Contains lowered "drop"
  || Contains lowered "rename" || Contains lowered "truncate".

(** Database and table of a watched name, around its first dot. *)
Definition split_name (watched : string) : string * string :=
  match CutByte "." watched with Some (schema, table) => (schema, table) | None => (watched, "") end.

(** [invalidate]: the first watched table, in the order of the map, whose name
    the statement contains. *)
Definition invalidate `{MapOrder} (dbName query : string) (s : Streamer) : Streamer :=
  let lowered := ToLower query in
  if negb (is_ddl lowered) then s
  else match List.find (fun w => Contains lowered (ToLower (split_name w).2)) (map fst (map_range (sm_watched s))) with
  | Some w => set_schemas (Invalidate (split_name w).1 (split_name w).2 (sm_schemas s)) s
  | None =>
      if Contains lowered "rename" || bool_decide (dbName = "")
      then set_schemas (InvalidateAll (sm_schemas s)) s else s
  end.

(** *** Rows *)

(** The loader of table definitions, the sequencer, and the channel. *)
Class ReaderOps (W : Type) := {
  schema_Load : string -> string -> eff W string TableMeta;
  seq_Next : eff W string Z;
  event_Send : ChangeEvent -> eff W outside_error ()
}.

(** [al_positions] is [None] where rows are taken as they are; a position of
    [-1] is [None]. *)
Record alignment := mkAlignment { al_meta : TableMeta; al_positions : option (list (option nat)) }.

Fixpoint place (values : list value) (positions : list (option nat)) (out : list value)
  : res binlog_error (list value) :=
  match values, positions with
  | v :: values, p :: positions =>
    match p with
    | None => place values positions out
    | Some pos =>
        if bool_decide (pos < length out) then place values positions (<[pos := v]> out)
        else Err EBinlogPanic
    end
  | _, _ => Ok out
  end.

(** [(a alignment) row]. *)
Definition align_row (a : alignment) (values : list value) : res binlog_error (list value) :=
  match al_positions a with
  | None => Ok values
  | Some positions => place values positions (replicate (length (tm_Columns (al_meta a))) VNil)
  end.

Context {W : Type} `{!ReaderOps W}.

(** The store's [Table] over the reader's cache. *)
Definition table_of (schemaName table : string) : eff (Streamer * W) string TableMeta := fun '(s, w) =>
  match Table schema_Load schemaName table (sm_schemas s, w) with
  | ((cache, w), r) => ((set_schemas cache s, w), r)
  end.

(** [(s *Streamer) alignment]. *)
Definition align (e : rows_event) (meta : TableMeta) : eff (Streamer * W) binlog_error alignment := fun '(s, w) =>
  match re_rows e with
  | [] => ((s, w), Ok (mkAlignment meta None))
  | first :: _ =>
    let width := length first in
    if bool_decide (width = length (tm_Columns meta)) then ((s, w), Ok (mkAlignment meta None))
    else
      let s := set_schemas (Invalidate (re_schema e) (re_table e) (sm_schemas s)) s in
      match table_of (re_schema e) (re_table e) (s, w) with
      | (sw, Err cause) => (sw, Err (EReload (re_schema e) (re_table e) cause))
      | (sw, Ok reloaded) =>
        if bool_decide (width = length (tm_Columns reloaded)) then (sw, Ok (mkAlignment reloaded None))
        else if negb (bool_decide (length (re_names e) = width)) then
          (sw, Err (EAlign (re_schema e) (re_table e) (Z.of_nat width) (zlen (tm_Columns reloaded)) (zlen (re_names e))))
        else
          (sw, Ok (mkAlignment reloaded
            (Some (map (fun name => col_Position <$> TableMeta_Column reloaded name) (re_names e)))))
      end
  end.

(** What all the events of one rows event share. *)
Record emission := mkEmission { em_align : alignment; em_timestamp : Z; em_gtid : string }.

Definition build (em : emission) (operation : Operation) (before after : Row) : eff W binlog_error ChangeEvent := fun w =>
  match seq_Next w with
  | (w, Err e) => (w, Err (EVersion e))
  | (w, Ok seq) =>
    (w, Ok (mkChangeEvent (Some (al_meta (em_align em))) operation before after (em_timestamp em) (em_gtid em) 0 seq "" 0))
  end.

(** [build] and [send]. *)
Definition emit (em : emission) (operation : Operation) (before after : Row) : eff W binlog_error () :=
  ev ← build em operation before after; eff_map_err ESend (event_Send ev).

Fixpoint emitUpdates (em : emission) (rows : list (list value)) : eff W binlog_error () :=
  match rows with
  | before :: after :: rows =>
      b ← eff_lift (align_row (em_align em) before);
      a ← eff_lift (align_row (em_align em) after);
      _ ← emit em OperationUpdate (Some b) (Some a);
      emitUpdates em rows
  | _ => mret ()
  end.

Fixpoint emitEach (em : emission) (operation : Operation) (rows : list (list value)) : eff W binlog_error () :=
  match rows with
  | [] => mret ()
  | row :: rows =>
      r ← eff_lift (align_row (em_align em) row);
      _ ← (if bool_decide (operation = OperationDelete) then emit em operation (Some r) None
           else emit em operation None (Some r));
      emitEach em operation rows
  end.

Definition is_watched (s : Streamer) (schemaName table : string) : bool :=
  bool_decide (sm_watched s = ∅) || bool_decide (is_Some (sm_watched s !! ToLower (schemaName +:+ "." +:+ table))).

Definition emitRows (e : rows_event) : eff (Streamer * W) binlog_error () := fun '(s, w) =>
  match operationFor (re_type e) with
  | None => ((s, w), Ok ())
  | Some (operation, isUpdate) =>
    if negb (is_watched s (re_schema e) (re_table e)) then ((s, w), Ok ())
    else match table_of (re_schema e) (re_table e) (s, w) with
    | (sw, Err cause) => (sw, Err (ESchemaLoad cause))
    | (sw, Ok meta) =>
      match align e meta sw with
      | (sw, Err err) => (sw, Err err)
      | ((s, w), Ok a) =>
        let em := mkEmission a (re_timestamp e * 10 ^ 9) (Position s) in
        let '(w, r) := (if isUpdate then emitUpdates em (re_rows e) else emitEach em operation (re_rows e)) w in
        ((s, w), r)
      end
    end
  end.

(** *** The loop *)

Context `{MapOrder}.

(** [handle]. *)
Definition handle_binlog (ev : binlog_event) : eff (Streamer * W) binlog_error () := fun '(s, w) =>
  match ev with
  | GTIDEvent None => ((s, w), Err EGTIDNext)
  | GTIDEvent (Some tx) => ((set_currentTx tx s, w), Ok ())
  | XIDEvent =>
    match sm_executed s with
    | Some set =>
      if bool_decide (sm_currentTx s = "") then ((s, w), Ok ())
      else match Update set (sm_currentTx s) with
      | None => ((s, w), Err (EFold (sm_currentTx s)))
      | Some set => ((set_currentTx "" (set_executed (Some set) s), w), Ok ())
      end
    | None => ((s, w), Ok ())
    end
  | QueryEvent schema query => ((invalidate schema query s, w), Ok ())
  | RowsEvent e => emitRows e (s, w)
  | OtherEvent => ((s, w), Ok ())
  end.

Fixpoint handle_all (evs : list binlog_event) : eff (Streamer * W) binlog_error () := fun sw =>
  match evs with
  | [] => (sw, Ok ())
  | ev :: evs =>
    match handle_binlog ev sw with
    | (sw, Err e) => (sw, Err e)
    | (sw, Ok _) => handle_all evs sw
    end
  end.

(** [run]: [started] is what [StartSyncGTID] answers, [evs] what [GetEvent]
    returns until it fails with [ending]. *)
Definition run_binlog (started : option read_error) (evs : list binlog_event) (ending : read_error)
  : eff (Streamer * W) binlog_error () := fun '(s, w) =>
  match ParseMysqlGTIDSet (bo_StartGTID (sm_opts s)) with
  | None => ((s, w), Err (EStartGTID (bo_StartGTID (sm_opts s))))
  | Some set =>
    let s := set_executed (Some set) s in
    match started with
    | Some e => ((s, w), Err (explain e))
    | None =>
      match handle_all evs (s, w) with
      | (sw, Err e) => (sw, Err e)
      | (sw, Ok _) => (sw, Err (explain ending))
      end
    end
  end.

End Binlog.

(** ** The position an event carries *)

Section PositionFacts.
Context `{GoLib} `{GtidLaws} `{MapOrder} {W : Type} `{!ReaderOps W}.

(** The events sent, which only a send changes. *)
Class ReaderLaws := {
  sent : W -> list ChangeEvent;
  load_sent : forall d t w, sent (schema_Load d t w).1 = sent w;
  seq_sent : forall w, sent (seq_Next w).1 = sent w;
  send_sent : forall ev w w', event_Send ev w = (w', Ok ()) -> sent w' = sent w ++ [ev]
}.
Context `{!ReaderLaws}.

(** A run that only sends events of one position. *)
Definition sends_at (position : string) (w w' : W) : Prop :=
  exists evs, sent w' = sent w ++ evs /\ Forall (fun ev => ev_GTID ev = position) evs.

Lemma sends_at_refl position w w' : sent w' = sent w -> sends_at position w w'.
Proof. intros Hw. exists []. split; [by rewrite app_nil_r|constructor]. Qed.

Lemma sends_at_trans position w1 w2 w3 :
  sends_at position w1 w2 -> sends_at position w2 w3 -> sends_at position w1 w3.
Proof.
  intros (a & Ha & Fa) (b & Hb & Fb). exists (a ++ b). split; [by rewrite Hb, Ha, (assoc_L (++))|].
  by apply Forall_app.
Qed.

Lemma emit_sends em op before after w w' :
  emit em op before after w = (w', Ok ()) -> sends_at (em_gtid em) w w'.
Proof.
  unfold emit. intros (ev & w1 & Hb & Hs)%eff_bind_inv. unfold build in Hb.
  pose proof (seq_sent w) as Hseq. destruct (seq_Next w) as [w2 [seq|]]; [|done]. injection Hb as <- <-.
  simpl in Hseq. unfold eff_map_err in Hs. destruct (event_Send _ w2) as [w3 [[]|]] eqn:HS; [|done].
  injection Hs as <-. apply send_sent in HS. eexists [_]. split; [by rewrite HS, Hseq|]. by constructor.
Qed.

Lemma eff_lift_inv {E A} (r : res E A) (w w' : W) a : eff_lift r w = (w', Ok a) -> r = Ok a /\ w' = w.
Proof. unfold eff_lift. by intros [= <- ->]. Qed.

Lemma emitEach_sends em op rows w w' :
  emitEach em op rows w = (w', Ok ()) -> sends_at (em_gtid em) w w'.
Proof.
  revert w. induction rows as [|row rows IH]; intros w Hr; cbn [emitEach] in Hr.
  - injection Hr as <-. by apply sends_at_refl.
  - apply eff_bind_inv in Hr as (r & w1 & [_ ->]%eff_lift_inv & Hr).
    apply eff_bind_inv in Hr as ([] & w2 & He & Hr).
    apply (sends_at_trans _ _ w2); [|by apply IH]. case_bool_decide; by eapply emit_sends.
Qed.

Lemma emitUpdates_sends em rows w w' :
  emitUpdates em rows w = (w', Ok ()) -> sends_at (em_gtid em) w w'.
Proof.
  remember (length rows) as n eqn:Hn. revert rows Hn w. induction n as [n IH] using lt_wf_ind; intros rows -> w Hr.
  destruct rows as [|b [|a rows]]; cbn [emitUpdates] in Hr; [injection Hr as <-; by apply sends_at_refl..|].
  apply eff_bind_inv in Hr as (rb & w1 & [_ ->]%eff_lift_inv & Hr).
  apply eff_bind_inv in Hr as (ra & w2 & [_ ->]%eff_lift_inv & Hr).
  apply eff_bind_inv in Hr as ([] & w3 & He & Hr).
  apply (sends_at_trans _ _ w3); [by eapply emit_sends|]. eapply (IH (length rows)); [simpl; lia|done|done].
Qed.

(** Everything but the cache of definitions stays as it was. *)
Definition same_position (s s' : Streamer) : Prop :=
  sm_executed s' = sm_executed s /\ sm_currentTx s' = sm_currentTx s.

Lemma table_of_frame d t s w s' w' r :
  table_of d t (s, w) = ((s', w'), r) -> same_position s s' /\ sent w' = sent w.
Proof.
  unfold table_of, Table. destruct (sm_schemas s !! _); [by intros [= <- <- _]|].
  pose proof (load_sent d t w) as Hl. destruct (schema_Load d t w) as [w1 [m|e]]; simpl in Hl.
  - destruct (publish _ m (sm_schemas s)) as [c m']. by intros [= <- <- _].
  - by intros [= <- <- _].
Qed.

Lemma align_frame e meta s w s' w' r :
  align e meta (s, w) = ((s', w'), r) -> same_position s s' /\ sent w' = sent w.
Proof.
  unfold align. destruct (re_rows e); [by intros [= <- <- _]|]. case_bool_decide; [by intros [= <- <- _]|].
  destruct (table_of _ _ (_, w)) as [[s1 w1] t] eqn:Ht. apply table_of_frame in Ht as [Hs Hw].
  destruct t as [m|]; [|by intros [= <- <- _]]. case_bool_decide; [by intros [= <- <- _]|].
  case_match; by intros [= <- <- _].
Qed.

Lemma emitRows_sends e s w s' w' :
  emitRows e (s, w) = ((s', w'), Ok ()) -> same_position s s' /\ sends_at (Position s) w w'.
Proof.
  unfold emitRows. destruct (operationFor (re_type e)) as [[op upd]|].
  2: { intros [= <- <-]. split; [done|by apply sends_at_refl]. }
  case_match; [intros [= <- <-]; split; [done|by apply sends_at_refl]|].
  destruct (table_of _ _ (s, w)) as [[s1 w1] [meta|]] eqn:Ht; [|done]. apply table_of_frame in Ht as [[He Hc] Hw1].
  destruct (align e meta (s1, w1)) as [[s2 w2] [a|]] eqn:Ha; [|done]. apply align_frame in Ha as [[He' Hc'] Hw2].
  intros Hr. assert (Position s2 = Position s) as Hp by (unfold Position; by rewrite He', He).
  rewrite Hp in Hr. set (em := mkEmission a _ (Position s)) in Hr.
  destruct ((if upd then emitUpdates em (re_rows e) else emitEach em op (re_rows e)) w2) as [w3 r] eqn:Hem.
  injection Hr as <- <- ->. split; [split; congruence|].
  assert (sent w2 = sent w) as Hw by congruence. unfold sends_at. rewrite <- Hw. change (Position s) with (em_gtid em).
  destruct upd; [by eapply emitUpdates_sends|by eapply emitEach_sends].
Qed.

Lemma invalidate_frame d q s : same_position s (invalidate d q s).
Proof. unfold invalidate. repeat case_match; done. Qed.

(** *** Transactions *)

(** What is read between two transaction identifiers: rows and queries that an
    [XIDEvent] commits, or a statement that commits itself, as DDL does. *)
Inductive transaction := Committed (id : string) (body : list binlog_event) | Statement (id schema query : string).

Definition tx_id (t : transaction) : string := match t with Committed id _ | Statement id _ _ => id end.
Definition is_statement (t : transaction) : bool := match t with Statement _ _ _ => true | _ => false end.

Definition opening (t : transaction) : list binlog_event :=
  match t with
  | Committed id body => GTIDEvent (Some id) :: body
  | Statement id schema query => [GTIDEvent (Some id); QueryEvent schema query]
  end.
Definition tx_log (t : transaction) : list binlog_event :=
  opening t ++ (if is_statement t then [] else [XIDEvent]).

Definition well_formed (t : transaction) : Prop :=
  tx_id t <> "" /\
  match t with
  | Committed _ body => Forall (fun e => match e with GTIDEvent _ | XIDEvent => False | _ => True end) body
  | Statement _ _ _ => True
  end.

(** What a server sends to a reader that starts from a set of transactions. *)
Definition server_log (executed : GTIDSet) (txs : list transaction) : list transaction :=
  filter (fun t => tx_id t ∉ denote executed) txs.

Lemma handle_all_app a b sw :
  handle_all (a ++ b) sw =
    match handle_all a sw with (sw, Err e) => (sw, Err e) | (sw, Ok _) => handle_all b sw end.
Proof.
  revert sw. induction a as [|ev a IH]; intros sw; [done|]. simpl.
  destruct (handle_binlog ev sw) as [sw1 [[]|]]; [apply IH|done].
Qed.

Lemma handle_body evs s w s' w' :
  Forall (fun e => match e with GTIDEvent _ | XIDEvent => False | _ => True end) evs ->
  handle_all evs (s, w) = ((s', w'), Ok ()) -> same_position s s' /\ sends_at (Position s) w w'.
Proof.
  intros Hb. revert s w. induction Hb as [|ev evs Hev Hb IH]; intros s w Hr; cbn [handle_all] in Hr.
  - injection Hr as <- <-. split; [done|by apply sends_at_refl].
  - destruct (handle_binlog ev (s, w)) as [[s1 w1] [[]|]] eqn:He; [|done].
    assert (same_position s s1 /\ sends_at (Position s) w w1) as [[Hf1 Hf2] Hs1].
    { destruct ev; try done; cbn [handle_binlog] in He.
      - injection He as <- <-. split; [apply invalidate_frame|by apply sends_at_refl].
      - by apply emitRows_sends in He.
      - injection He as <- <-. split; [done|by apply sends_at_refl]. }
    destruct (IH _ _ Hr) as [[Hf3 Hf4] Hs2]. assert (Position s1 = Position s) as Hp by (unfold Position; by rewrite Hf1).
    rewrite Hp in Hs2. split; [split; congruence|by eapply sends_at_trans].
Qed.

Lemma handle_opening t s w s' w' :
  well_formed t -> handle_all (opening t) (s, w) = ((s', w'), Ok ()) ->
  sm_executed s' = sm_executed s /\ sm_currentTx s' = tx_id t /\ sends_at (Position s) w w'.
Proof.
  intros [_ Hb] Hr. destruct t as [id body|id d q]; cbn [opening handle_all handle_binlog] in Hr.
  - destruct (handle_body _ _ _ _ _ Hb Hr) as [[Hf1 Hf2] Hs]. by rewrite Hf1, Hf2.
  - injection Hr as <- <-. destruct (invalidate_frame d q (set_currentTx id s)) as [Hf1 Hf2].
    rewrite Hf1, Hf2. split_and!; [done|done|by apply sends_at_refl].
Qed.

(** The position after a log: the committed transactions, without the
    statements that committed themselves. *)
Lemma handle_log txs s w s' w' set :
  Forall well_formed txs -> sm_executed s = Some set ->
  handle_all (concat (map tx_log txs)) (s, w) = ((s', w'), Ok ()) ->
  exists set', sm_executed s' = Some set' /\
    denote set' = denote set ∪ list_to_set (map tx_id (filter (fun t => is_statement t = false) txs)).
Proof.
  intros Hwf. revert s w set. induction Hwf as [|t txs Ht Hwf IH]; intros s w set Hset Hr.
  - injection Hr as <- <-. exists set. split; [done|]. rewrite filter_nil. set_solver.
  - cbn [map concat] in Hr. unfold tx_log in Hr at 1. rewrite handle_all_app, handle_all_app in Hr.
    destruct (handle_all (opening t) (s, w)) as [[s1 w1] [[]|]] eqn:Ho; [|done].
    apply (handle_opening t) in Ho as (He & Hc & _); [|done]. rewrite Hset in He.
    destruct (is_statement t) eqn:Hst; cbn [handle_all handle_binlog] in Hr.
    + rewrite filter_cons_False by congruence. by apply (IH _ _ _ He Hr).
    + rewrite He, Hc in Hr. rewrite bool_decide_eq_false_2 in Hr by (by destruct Ht).
      destruct (Update set (tx_id t)) as [set1|] eqn:HU; [|done]. apply update_spec in HU.
      edestruct (IH (set_currentTx "" (set_executed (Some set1) s1)) w1 set1) as (set' & Hs' & Hd); [done|exact Hr|]. exists set'. split; [done|].
      rewrite filter_cons_True by done. cbn [map list_to_set]. rewrite Hd, HU. set_solver.
Qed.

(** Which transactions of a log a position asks for again. *)
Lemma server_log_split set set0 pre post :
  NoDup (map tx_id (pre ++ post)) -> (forall t, t ∈ pre ++ post -> tx_id t ∉ denote set0) ->
  denote set = denote set0 ∪ list_to_set (map tx_id (filter (fun t => is_statement t = false) pre)) ->
  server_log set (pre ++ post) = filter (fun t => is_statement t = true) pre ++ post.
Proof.
  intros Hnd Hfresh Hd. unfold server_log. rewrite filter_app.
  assert (forall t, t ∈ pre ++ post -> tx_id t ∈ denote set <-> exists u, u ∈ pre /\ is_statement u = false /\ tx_id u = tx_id t) as Hin.
  { intros t Ht. rewrite Hd, elem_of_union, elem_of_list_to_set, list_elem_of_fmap. split.
    - intros [Hx|(u & Hu & Hf)]; [by destruct (Hfresh t Ht)|]. apply list_elem_of_filter in Hf as [? ?]. eauto.
    - intros (u & Hu & Hst & Heq). right. exists u. split; [done|]. by apply list_elem_of_filter. }
  assert (forall t u, t ∈ pre ++ post -> u ∈ pre ++ post -> tx_id t = tx_id u -> t = u) as Hinj.
  { intros t u (i & Hi)%list_elem_of_lookup (j & Hj)%list_elem_of_lookup Heq.
    assert (i = j) as ->; [|congruence]. eapply NoDup_lookup; [exact Hnd|by rewrite list_lookup_fmap, Hi|].
    by rewrite list_lookup_fmap, Hj; simpl; rewrite Heq. }
  f_equal.
  - apply filter_iff_in. intros t Ht. assert (t ∈ pre ++ post) as Ht' by (apply elem_of_app; by left).
    rewrite Hin by done. split.
    + intros Hn. destruct (is_statement t) eqn:E; [done|]. destruct Hn. by exists t.
    + intros Hst (u & Hu & Hu' & Heq). rewrite (Hinj u t) in Hu'; [congruence|apply elem_of_app; by left|done|done].
  - apply filter_all. intros t Ht. assert (t ∈ pre ++ post) as Ht' by (apply elem_of_app; by right).
    rewrite Hin by done. intros (u & Hu & _ & Heq). rewrite map_app in Hnd. apply NoDup_app in Hnd as (_ & Hdis & _).
    apply (Hdis (tx_id u)); [apply list_elem_of_fmap; eauto|]. rewrite Heq. apply list_elem_of_fmap. eauto.
Qed.


(** C6: The identifier of a statement that commits itself, as every DDL statement
    does, never enters the position: once such a statement has been purged from
    the source, no position the reader ever reaches lets it start again. *)
Theorem statement_never_in_position set s w txs s' w' t purged :
  sm_executed s = Some set -> Forall well_formed txs -> NoDup (map tx_id txs) ->
  (forall u, u ∈ txs -> tx_id u ∉ denote set) ->
  handle_all (concat (map tx_log txs)) (s, w) = ((s', w'), Ok ()) ->
  t ∈ txs -> is_statement t = true -> tx_id t ∈ purged ->
  exists set', sm_executed s' = Some set' /\ ~ purged ⊆ denote set'.
Proof.
  intros Hset Hwf Hnd Hfresh Hrun Ht Hst Hp.
  destruct (handle_log txs s w s' w' set Hwf Hset Hrun) as (set' & Hs' & Hd).
  exists set'. split; [done|]. intros Hsub. specialize (Hsub _ Hp).
  assert (server_log set' (txs ++ []) = filter (fun t => is_statement t = true) txs ++ []) as Hlog.
  { eapply server_log_split; rewrite ?app_nil_r; done. }
  rewrite !app_nil_r in Hlog. assert (t ∈ server_log set' txs) as Hin.
  { rewrite Hlog. by apply list_elem_of_filter. }
  by apply list_elem_of_filter in Hin as [Hn _].
Qed.

End PositionFacts.

(** ** Definitions and rows *)

Section RowFacts.
Context `{GoLib} `{GtidLib} `{MapOrder}.

(** A DDL statement that names two watched tables reloads the definition of
    one of them: the other stays as it was before the statement. *)
Theorem ddl_reloads_one_table dbName query s w1 w2 :
  let key w := cacheKey (split_name w).1 (split_name w).2 in
  is_ddl (ToLower query) = true ->
  is_Some (sm_watched s !! w1) -> Contains (ToLower query) (ToLower (split_name w1).2) = true ->
  key w1 <> key w2 -> is_Some (sm_schemas s !! key w1) -> is_Some (sm_schemas s !! key w2) ->
  is_Some (sm_schemas (invalidate dbName query s) !! key w1) \/
  is_Some (sm_schemas (invalidate dbName query s) !! key w2).
Proof.
  intros key Hddl [[] Hw1] Hc Hne Hs1 Hs2. unfold invalidate. rewrite Hddl. cbn [negb].
  destruct (List.find _ _) as [w|] eqn:F.
  - simpl. unfold Invalidate. change (cacheKey (split_name w).1 (split_name w).2) with (key w).
    destruct (decide (key w = key w1)) as [Heq|Hneq].
    + right. by rewrite lookup_delete_ne by congruence.
    + left. by rewrite lookup_delete_ne.
  - exfalso. pose proof (List.find_none _ _ F w1) as Hn. simpl in Hn. rewrite Hc in Hn.
    discriminate Hn. apply list_elem_of_In, list_elem_of_fmap. exists (w1, ()). split; [done|]. by apply map_range_in.
Qed.

Lemma place_length values positions out row :
  place values positions out = Ok row -> length row = length out.
Proof.
  revert positions out. induction values as [|v values IH]; intros [|p positions] out Hp; simpl in Hp; try by simplify_eq.
  destruct p as [p|]; [|by eapply IH]. case_bool_decide; [|done].
  apply IH in Hp. by rewrite length_insert in Hp.
Qed.

Lemma place_untouched values positions out row n :
  place values positions out = Ok row -> Some n ∉ positions -> row !! n = out !! n.
Proof.
  revert positions out. induction values as [|v values IH]; intros [|p positions] out Hp Hn; simpl in Hp; try by simplify_eq.
  apply not_elem_of_cons in Hn as [Hne Hn]. destruct p as [p|]; [|by eapply IH].
  case_bool_decide; [|done]. rewrite (IH _ _ Hp Hn), list_lookup_insert_ne; [done|congruence].
Qed.

Lemma place_placed values positions out row i n v :
  place values positions out = Ok row -> values !! i = Some v -> positions !! i = Some (Some n) ->
  (forall j, positions !! j = Some (Some n) -> j = i) -> row !! n = Some v.
Proof.
  revert positions out i. induction values as [|v0 values IH]; intros [|p positions] out i Hp Hv Hi Hu; try done.
  simpl in Hp. destruct i as [|i]; simpl in Hv, Hi.
  - injection Hv as ->. injection Hi as ->. case_bool_decide; [|done].
    rewrite (place_untouched _ _ _ _ n Hp); [by apply list_lookup_insert_eq|].
    intros (j & Hj)%list_elem_of_lookup. by specialize (Hu (S j) Hj).
  - assert (forall j, positions !! j = Some (Some n) -> j = i) as Hu' by (intros j Hj; specialize (Hu (S j) Hj); lia).
    destruct p as [p|]; [case_bool_decide; [|done]|]; by eapply IH.
Qed.

Context {W : Type} `{!ReaderOps W}.


End RowFacts.
