(* ===== verification/Http.v ===== *)
(** * Requests, time-outs and back-off

    What both destinations ask of the outside: an HTTP client, a timer that a
    cancelled context ends early, and a source of random numbers; and the
    back-off both compute in the same way. *)

From S2P Require Import Prelude GoStd.

Record request := mkRequest {
  rq_Method : string;
  rq_URL : string;
  rq_ContentType : option string;
  rq_Gzipped : bool;
  rq_Auth : option (string * string);
  (** The body before compression. *)
  rq_Body : option string
}.

(** [client.Do] and the reading of the whole response: the status and the
    payload, or the error of either. *)
Class HttpOps (W : Type) := {
  http_Do : request -> eff W string (Z * string)
}.

(** [rand.Int63n] and the wait for a timer or the end of the context. *)
Class TimerOps (W : Type) := {
  rand_Int63n : Z -> W -> W * Z;
  sleep : Z -> eff W string ()
}.

Class TimerLaws (W : Type) `{TimerOps W} : Prop := {
  rand_range : forall n w, (0 < n)%Z -> (0 <= (rand_Int63n n w).2 < n)%Z
}.

(** The delay before jitter: the base doubled for every attempt made, shifted
    as a [time.Duration] of 64 bits, and the maximum once that overflows. *)
Definition backoff (base max attempt : Z) : Z :=
  let delay := i64 (Z.shiftl base (attempt - 1)) in
  if ((max <? delay) || (delay <=? 0))%Z then max else delay.

Section Wait.
Context {W : Type} `{!TimerOps W}.

Definition wait_delay (base max attempt : Z) (w : W) : W * Z :=
  let delay := backoff base max attempt in
  let '(w, jitter) := rand_Int63n (delay / 2 + 1) w in (w, i64 (delay + jitter)).

Definition wait (base max attempt : Z) : eff W string () := fun w =>
  let '(w, delay) := wait_delay base max attempt w in sleep delay w.

Lemma backoff_range base max attempt :
  (0 < max)%Z -> (0 < backoff base max attempt <= max)%Z.
Proof.
  intros Hm. unfold backoff. case_match eqn:E; [lia|]. apply orb_false_iff in E as [? ?].
  bool_to_prop. lia.
Qed.

Lemma wait_delay_range `{!TimerLaws W} base max attempt w :
  (0 < max < 2 ^ 62)%Z ->
  (backoff base max attempt <= (wait_delay base max attempt w).2 <= max + max / 2)%Z.
Proof.
  intros Hm. pose proof (backoff_range base max attempt ltac:(lia)) as Hb. unfold wait_delay.
  set (d := backoff base max attempt) in *.
  pose proof (Z.div_pos d 2 ltac:(lia) ltac:(lia)).
  pose proof (rand_range (d / 2 + 1) w ltac:(lia)) as Hr.
  destruct (rand_Int63n _ w) as [w' j]. simpl in *.
  assert (d / 2 <= max / 2)%Z by (apply Z.div_le_mono; lia).
  pose proof (Z.div_le_upper_bound max 2 (2 ^ 62) ltac:(lia) ltac:(lia)).
  rewrite i64_small by (unfold i64_range; lia). lia.
Qed.

End Wait.

Definition clip (limit : nat) (s : string) : string :=
  if (Z.of_nat limit <? slen s)%Z then String.substring 0 limit s +:+ "..." else s.

Definition StatusUnauthorized : Z := 401.
Definition StatusForbidden : Z := 403.
Definition StatusNotFound : Z := 404.
Definition StatusConflict : Z := 409.
Definition StatusRequestEntityTooLarge : Z := 413.
Definition StatusTooManyRequests : Z := 429.
