(* ===== verification/Elasticsearch.v ===== *)
(** * The Elasticsearch sink ([internal/sink/elasticsearch/bulk.go])

    Encoding a batch as a bulk request, reading what became of each document,
    and retrying the ones a retry could help. The world is threaded with the
    sink's one mutable field, the counter that spreads requests over the
    addresses. *)

From Stdlib Require Import Ascii.
From S2P Require Import Prelude GoStd GoEncoding GoJson Cdc Sink Http.

Record Options := mkOptions {
  o_Addresses : list string;
  o_Index : string;
  o_Alias : string;
  o_Username : string;
  o_Password : string;
  o_Workers : Z;
  o_MaxAttempts : Z;
  o_BaseBackoff : Z;
  o_MaxBackoff : Z;
  o_Compress : bool;
  o_RequestTimeout : Z
}.

Inductive es_error :=
  | ENoAddress
  | ENoIndex
  | ENegativeWorkers
  | ENoKey
  | ENoBody (key : string)
  | ERequest (cause : string)
  | ETooLarge (key : string)
  | EStatus (status : Z) (payload : string)
  | ECredentials (status : Z) (payload : string)
  | EMalformed (status : Z) (payload : string)
  | EUnreadableResponse
  | EItemCount (got want : Z)
  | EItem (key : string)
  | ECapacity (n attempts : Z)
  | EWaiting (cause : string)
  | EOutOfFuel.

Record ESink := mkESink {
  s_opts : Options;
  s_indexAction : string;
  s_deleteAction : string
}.

Definition or_default (zero : Z -> bool) (value otherwise : Z) : Z :=
  if zero value then otherwise else value.
Definition not_positive (z : Z) : bool := (z <=? 0)%Z.

(** The text of an action line up to its document's key. *)
Definition action_prefix (action index : string) : string :=
  "{" +:+ dq +:+ action +:+ dq +:+ ":{" +:+ dq +:+ "_index" +:+ dq +:+ ":" +:+
  json_MarshalString index +:+ "," +:+ dq +:+ "_id" +:+ dq +:+ ":".

(** [New]. *)
Definition NewESink (opts : Options) : res es_error ESink :=
  match o_Addresses opts with
  | [] => Err ENoAddress
  | addresses =>
    if bool_decide (o_Index opts = "") then Err ENoIndex
    else if (o_Workers opts <? 0)%Z then Err ENegativeWorkers
    else
      let opts := mkOptions
        (map (TrimRightBy (fun c => bool_decide (c = "/"%char))) addresses)
        (o_Index opts) (o_Alias opts) (o_Username opts) (o_Password opts)
        (or_default (Z.eqb 0) (o_Workers opts) 1)
        (or_default not_positive (o_MaxAttempts opts) 5)
        (or_default not_positive (o_BaseBackoff opts) (200 * 10 ^ 6))
        (or_default not_positive (o_MaxBackoff opts) (30 * 10 ^ 9))
        (o_Compress opts)
        (or_default not_positive (o_RequestTimeout opts) (60 * 10 ^ 9)) in
      Ok (mkESink opts (action_prefix "index" (o_Index opts)) (action_prefix "delete" (o_Index opts)))
  end.

(** ** The bulk request *)

Definition escape_es (c : ascii) : string :=
  let b := byte_val c in
  if (b =? 34)%Z then String backslash (str1 quote_char)
  else if (b =? 92)%Z then String backslash (str1 backslash)
  else if (b <? 32)%Z then u00 b
  else str1 c.

(** [appendJSONString] of [bulk.go]. *)
Definition es_appendJSONString (s : string) : string :=
  String quote_char (str_concat_map escape_es s +:+ str1 quote_char).

Definition nl : string := str1 newline.

(** The end of an action line, after the key. *)
Definition action_suffix (version : Z) : string :=
  "," +:+ dq +:+ "version" +:+ dq +:+ ":" +:+ FormatUint version +:+
  "," +:+ dq +:+ "version_type" +:+ dq +:+ ":" +:+ dq +:+ "external" +:+ dq +:+ "}}".

Definition action_line (s : ESink) (d : Doc) : string :=
  (if doc_Deleted d then s_deleteAction s else s_indexAction s) +:+
  es_appendJSONString (doc_Key d) +:+ action_suffix (doc_Version d).

Fixpoint encodeBulk (s : ESink) (docs : list Doc) : res es_error string :=
  match docs with
  | [] => Ok ""
  | d :: docs =>
    if bool_decide (doc_Key d = "") then Err ENoKey
    else
      body ← (if doc_Deleted d then Ok ""
              else if bool_decide (doc_Body d = "") then Err (ENoBody (doc_Key d))
              else Ok (doc_Body d +:+ nl));
      rest ← encodeBulk s docs;
      Ok (action_line s d +:+ nl +:+ body +:+ rest)
  end.

(** ** The response *)

Record outcome := mkOutcome {
  out_applied : Z;
  out_stale : Z;
  out_rejected : list Rejection;
  out_retry : list Doc;
  out_retryable : bool
}.
Definition no_outcome : outcome := mkOutcome 0 0 [] [] false.
Definition retry_all : outcome := mkOutcome 0 0 [] [] true.

Record bulkItem := mkBulkItem {
  item_Status : Z;
  item_Type : string;
  item_Reason : string
}.

Definition decode_bulkItem (v : json) : option bulkItem :=
  members ← as_members v;
  status ← scalar_field 0%Z as_int "status" members;
  error ← struct_field "error" members;
  type ← scalar_field "" as_string "type" error;
  reason ← scalar_field "" as_string "reason" error;
  Some (mkBulkItem status type reason).

Definition decode_bulkResponse (payload : string) : option (list json) :=
  v ← json_Parse payload;
  members ← as_members v;
  _ ← scalar_field false as_bool "errors" members;
  list_field "items" members.

Section Elasticsearch.
Context `{!MapOrder}.

Definition parseItem (raw : json) : option bulkItem :=
  byAction ← as_map decode_bulkItem raw;
  '(_, item) ← map_first byAction;
  Some item.

(** What becomes of one document. *)
Definition classify_item (d : Doc) (item : bulkItem) (out : outcome) : outcome :=
  let st := item_Status item in
  let '(mkOutcome a s rej re able) := out in
  if ((200 <=? st) && (st <? 300))%Z then mkOutcome (a + 1) s rej re able
  else if (st =? StatusConflict)%Z then mkOutcome a (s + 1) rej re able
  else if (st =? StatusNotFound)%Z && doc_Deleted d then mkOutcome a (s + 1) rej re able
  else if ((st =? StatusTooManyRequests) || (500 <=? st))%Z then mkOutcome a s rej (re ++ [d]) able
  else mkOutcome a s
    (rej ++ [mkRejection d st (TrimSpace (item_Type item +:+ ": " +:+ item_Reason item))]) re able.

Fixpoint classify_items (docs : list Doc) (items : list json) (out : outcome)
  : outcome * option es_error :=
  match docs, items with
  | d :: docs, raw :: items =>
    match parseItem raw with
    | None => (no_outcome, Some (EItem (doc_Key d)))
    | Some item => classify_items docs items (classify_item d item out)
    end
  | _, _ => (out, None)
  end.

Definition classify (docs : list Doc) (payload : string) : outcome * option es_error :=
  match decode_bulkResponse payload with
  | None => (retry_all, Some EUnreadableResponse)
  | Some items =>
    if negb (zlen items =? zlen docs)%Z then (no_outcome, Some (EItemCount (zlen items) (zlen docs)))
    else classify_items docs items no_outcome
  end.

Definition es_snippet (payload : string) : string := clip 300 payload.

(** ** Requests *)

Context {W : Type} `{!HttpOps W, !TimerOps W}.
Variable s : ESink.

(** [nextAddress], on the value of the counter. *)
Definition nextAddress (counter : Z) : Z * string :=
  let addresses := o_Addresses (s_opts s) in
  match addresses with
  | [a] => (counter, a)
  | _ => (u64 (counter + 1), nth (Z.to_nat (counter mod zlen addresses)) addresses "")
  end.

Definition auth_of (opts : Options) : option (string * string) :=
  if bool_decide (o_Username opts = "") then None else Some (o_Username opts, o_Password opts).

Definition post (body : string) : eff (Z * W) string (Z * string) := fun '(counter, w) =>
  let '(counter, address) := nextAddress counter in
  let '(w, r) := http_Do (mkRequest "POST" (address +:+ "/_bulk") (Some "application/x-ndjson")
                            (o_Compress (s_opts s)) (auth_of (s_opts s)) (Some body)) w in
  ((counter, w), r).

Definition es_wait (attempt : Z) : eff (Z * W) string () := fun '(counter, w) =>
  let '(w, r) := wait (o_BaseBackoff (s_opts s)) (o_MaxBackoff (s_opts s)) attempt w in ((counter, w), r).

Section Halves.
(** How [Write] writes a batch shorter than the one at hand. *)
Variable write_shorter : list Doc -> Z * W -> (Z * W) * (Result * option es_error).

Definition add_part (out : outcome) (r : Result) : outcome :=
  mkOutcome (out_applied out + Applied r) (out_stale out + Stale r)
    (out_rejected out ++ Rejected r) (out_retry out) (out_retryable out).

(** [writeHalves]: the second half is written only after the first. *)
Definition writeHalves (docs : list Doc) (w : Z * W) : (Z * W) * (outcome * option es_error) :=
  let mid := length docs `div` 2 in
  let '(w, (r1, e1)) := write_shorter (take mid docs) w in
  let combined := add_part no_outcome r1 in
  match e1 with
  | Some e => (w, (combined, Some e))
  | None =>
    let '(w, (r2, e2)) := write_shorter (drop mid docs) w in
    (w, (add_part combined r2, e2))
  end.

(** [attempt]. *)
Definition attempt (docs : list Doc) (w : Z * W) : (Z * W) * (outcome * option es_error) :=
  match encodeBulk s docs with
  | Err e => (w, (no_outcome, Some e))
  | Ok body =>
    match post body w with
    | (w, Err cause) => (w, (retry_all, Some (ERequest cause)))
    | (w, Ok (status, payload)) =>
      if (status =? StatusRequestEntityTooLarge)%Z then
        if (1 <? zlen docs)%Z then writeHalves docs w
        else (w, (no_outcome, Some (ETooLarge (match docs with d :: _ => doc_Key d | [] => "" end))))
      else if ((status =? StatusTooManyRequests) || (500 <=? status))%Z then
        (w, (retry_all, Some (EStatus status (es_snippet payload))))
      else if ((status =? StatusUnauthorized) || (status =? StatusForbidden))%Z then
        (w, (no_outcome, Some (ECredentials status (es_snippet payload))))
      else if (400 <=? status)%Z then
        (w, (no_outcome, Some (EMalformed status (es_snippet payload))))
      else (w, classify docs payload)
    end
  end.

(** The loop of [Write], from attempt number [k] on. *)
Fixpoint attempts (n : nat) (k : Z) (pending : list Doc) (result : Result) (w : Z * W)
  : (Z * W) * (Result * option es_error) :=
  match n with
  | 0%nat => (w, (result, Some EOutOfFuel))
  | S n =>
    match attempt pending w with
    | (w, (out, Some e)) =>
      if negb (out_retryable out) || (o_MaxAttempts (s_opts s) <=? k)%Z then (w, (result, Some e))
      else
        match es_wait k w with
        | (w, Err cause) => (w, (result, Some (EWaiting cause)))
        | (w, Ok _) => attempts n (k + 1) pending result w
        end
    | (w, (out, None)) =>
      let result := mkResult (Applied result + out_applied out) (Stale result + out_stale out)
                      (Rejected result ++ out_rejected out) in
      match out_retry out with
      | [] => (w, (result, None))
      | retry =>
        if (o_MaxAttempts (s_opts s) <=? k)%Z then (w, (result, Some (ECapacity (zlen retry) k)))
        else
          match es_wait k w with
          | (w, Err cause) => (w, (result, Some (EWaiting cause)))
          | (w, Ok _) => attempts n (k + 1) retry result w
          end
      end
    end
  end.

End Halves.

(** [Write], with the fuel its splitting of batches takes. *)
Fixpoint Write_fuel (fuel : nat) (docs : list Doc) (w : Z * W) : (Z * W) * (Result * option es_error) :=
  match docs with
  | [] => (w, (zero_result, None))
  | _ =>
    match fuel with
    | 0%nat => (w, (zero_result, Some EOutOfFuel))
    | S fuel =>
      attempts (Write_fuel fuel) (Z.to_nat (o_MaxAttempts (s_opts s))) 1 docs zero_result w
    end
  end.

Definition Write (docs : list Doc) : Z * W -> (Z * W) * (Result * option es_error) :=
  Write_fuel (length docs) docs.

End Elasticsearch.

(** ** Accounting *)

Section Facts.
Context `{!MapOrder} {W : Type} `{!HttpOps W, !TimerOps W}.
Variable s : ESink.

(** An outcome that stands for every document of an attempt: each is counted,
    refused or left to retry. *)
Record outcome_of (docs : list Doc) (out : outcome) : Prop := {
  oo_total : (out_applied out + out_stale out + zlen (out_rejected out) + zlen (out_retry out))%Z = zlen docs;
  oo_applied : (0 <= out_applied out)%Z;
  oo_stale : (0 <= out_stale out)%Z;
  oo_members : map rej_Doc (out_rejected out) ++ out_retry out ⊆+ docs
}.

Lemma classify_item_of docs d item out :
  outcome_of docs out -> outcome_of (docs ++ [d]) (classify_item d item out).
Proof.
  intros [Ht Ha Hs Hm]. destruct out as [a st rej re able]. unfold classify_item. simpl in *.
  assert (zlen (docs ++ [d]) = zlen docs + 1)%Z as Hlen by (by rewrite zlen_app).
  assert (map rej_Doc rej ++ re ⊆+ docs ++ [d]) as Hkeep by (by apply submseteq_inserts_r).
  assert (forall x : Rejection, zlen [x] = 1%Z) as H1 by done.
  assert (zlen [d] = 1%Z) as H2 by done.
  repeat case_match; split; simpl; rewrite ?zlen_app, ?H1, ?H2; try lia; try done.
  - rewrite app_assoc. by apply submseteq_app.
  - rewrite map_app, <- app_assoc, (Permutation_app_comm (map rej_Doc [_])), app_assoc.
    by apply submseteq_app.
Qed.

Lemma classify_items_of docs items before out out' :
  length items = length docs -> outcome_of before out ->
  classify_items docs items out = (out', None) -> outcome_of (before ++ docs) out'.
Proof.
  revert items before out. induction docs as [|d docs IH]; intros [|raw items] before out Hlen Hout Hc;
    simpl in Hlen, Hc; try lia.
  - injection Hc as <-. by rewrite app_nil_r.
  - destruct (parseItem raw) as [item|]; [|done].
    rewrite cons_middle, app_assoc. eapply IH; [|by apply classify_item_of|exact Hc]. lia.
Qed.

Lemma outcome_of_nothing able : outcome_of [] (mkOutcome 0 0 [] [] able).
Proof. split; simpl; done || lia. Qed.

Lemma classify_of docs payload out : classify docs payload = (out, None) -> outcome_of docs out.
Proof.
  unfold classify. destruct (decode_bulkResponse payload) as [items|]; [|done].
  case_match eqn:Hlen; [done|]. apply negb_false_iff, Z.eqb_eq in Hlen. unfold zlen in Hlen. intros Hc.
  apply (classify_items_of docs items []) in Hc; [done|lia|apply outcome_of_nothing].
Qed.

Definition accounting (write : list Doc -> Z * W -> (Z * W) * (Result * option es_error)) : Prop :=
  forall docs w w' r, write docs w = (w', (r, None)) -> accounts_for docs r.

Lemma add_part_of docs1 docs2 out r :
  outcome_of docs1 out -> out_retry out = [] -> accounts_for docs2 r ->
  outcome_of (docs1 ++ docs2) (add_part out r) /\ out_retry (add_part out r) = [].
Proof.
  intros [Ht Ha Hs Hm] Hre [Hr1 Hr2 Hr3 Hr4]. unfold Total in Hr1. split; [|done].
  rewrite Hre in *. change (zlen []) with 0%Z in *. split; simpl; rewrite ?Hre, ?zlen_app; try lia.
  - change (zlen []) with 0%Z. lia.
  - rewrite app_nil_r in *. rewrite map_app. by apply submseteq_app.
Qed.

Lemma writeHalves_of write docs w w' out :
  accounting write -> writeHalves write docs w = (w', (out, None)) -> outcome_of docs out.
Proof.
  intros Hwr Hh. unfold writeHalves in Hh. rewrite <- (take_drop (length docs `div` 2) docs).
  destruct (write (take _ docs) w) as [w1 [r1 [e|]]] eqn:H1; [done|]. apply Hwr in H1.
  destruct (write (drop _ docs) w1) as [w2 [r2 [e|]]] eqn:H2; [done|]. apply Hwr in H2.
  injection Hh as _ <-.
  destruct (add_part_of [] (take (length docs `div` 2) docs) no_outcome r1) as [Ho1 Hn1];
    [apply outcome_of_nothing|done|done|].
  by eapply add_part_of in H2 as [? _].
Qed.

Lemma attempt_of write docs w w' out :
  accounting write -> attempt s write docs w = (w', (out, None)) -> outcome_of docs out.
Proof.
  intros Hwr Ha. unfold attempt in Ha. destruct (encodeBulk s docs) as [body|]; [|done].
  destruct (post s body w) as [w1 [[status payload]|]]; [|done].
  repeat (case_match; try done).
  - by eapply writeHalves_of.
  - injection Ha as _ Ha. by eapply classify_of.
Qed.

(** What is already settled of a batch, with what is still pending of it. *)
Record settles (docs : list Doc) (r : Result) (pending : list Doc) : Prop := {
  st_total : (Total r + zlen pending)%Z = zlen docs;
  st_applied : (0 <= Applied r)%Z;
  st_stale : (0 <= Stale r)%Z;
  st_members : map rej_Doc (Rejected r) ++ pending ⊆+ docs
}.

Lemma settles_step docs r pending out :
  settles docs r pending -> outcome_of pending out ->
  settles docs (mkResult (Applied r + out_applied out) (Stale r + out_stale out)
                  (Rejected r ++ out_rejected out)) (out_retry out).
Proof.
  intros [Ht Ha Hs Hm] [Ot Oa Os Om]. unfold Total in *. split; simpl; rewrite ?zlen_app; try lia.
  - unfold Total. simpl. rewrite zlen_app. lia.
  - rewrite map_app, <- app_assoc. etransitivity; [|exact Hm]. by apply submseteq_skips_l.
Qed.

Lemma attempts_of write n k docs pending r w w' r' :
  accounting write -> settles docs r pending ->
  attempts s write n k pending r w = (w', (r', None)) -> accounts_for docs r'.
Proof.
  intros Hwr. revert k pending r w. induction n as [|n IH]; intros k pending r w Hset Ha; simpl in Ha; [done|].
  destruct (attempt s write pending w) as [w1 [out [e|]]] eqn:Hat.
  - case_match; [done|]. destruct (es_wait s k w1) as [w2 [[]|]]; [|done]. by eapply IH.
  - apply attempt_of in Hat; [|done]. pose proof (settles_step _ _ _ _ Hset Hat) as Hset'.
    destruct (out_retry out) as [|d ds] eqn:Hre.
    + injection Ha as _ <-. destruct Hset' as [Ht ? ? Hm]. rewrite app_nil_r in Hm.
      split; try done. change (zlen []) with 0%Z in Ht. lia.
    + case_match; [done|]. destruct (es_wait s k w1) as [w2 [[]|]]; [|done]. by eapply IH.
Qed.

Lemma Write_fuel_accounting fuel : accounting (Write_fuel s fuel).
Proof.
  induction fuel as [|fuel IH]; intros docs w w' r Hw; (destruct docs as [|d ds]; [injection Hw as _ <-; by split|]).
  - done.
  - eapply attempts_of; [exact IH| |exact Hw]. split; simpl; done || lia.
Qed.


(** ** Termination *)

Definition in_fuel (x : (Z * W) * (Result * option es_error)) : Prop := x.2.2 <> Some EOutOfFuel.

Lemma classify_in_fuel docs payload out e : classify docs payload = (out, Some e) -> e <> EOutOfFuel.
Proof.
  unfold classify. destruct (decode_bulkResponse payload) as [items|]; [|by intros [= _ <-]].
  case_match; [by intros [= _ <-]|]. clear. generalize no_outcome. revert items.
  induction docs as [|d docs IH]; intros [|raw items] o Hc; simpl in Hc; try done.
  destruct (parseItem raw); [by eapply IH|]. by injection Hc as _ <-.
Qed.

Lemma encodeBulk_in_fuel docs e : encodeBulk s docs = Err e -> e <> EOutOfFuel.
Proof.
  revert e. induction docs as [|d docs IH]; intros e He; [done|]. simpl in He.
  repeat case_match; simplify_eq/=; try done; destruct (encodeBulk s docs); simplify_eq/=; by eapply IH.
Qed.

Lemma writeHalves_in_fuel write docs w w' out e :
  (forall docs' w, length docs' < length docs -> in_fuel (write docs' w)) -> 1 < length docs ->
  writeHalves write docs w = (w', (out, Some e)) -> e <> EOutOfFuel.
Proof.
  intros Hwr Hlen Ha. unfold writeHalves in Ha. destruct (halves_shorter docs Hlen) as [Hs1 Hs2].
  pose proof (Hwr _ w Hs1) as Hf1. destruct (write (take _ docs) w) as [w2 [r1 [e1|]]].
  - injection Ha as _ _ <-. by intros ->.
  - pose proof (Hwr _ w2 Hs2) as Hf2. destruct (write (drop _ docs) w2) as [w3 [r2 e2]].
    injection Ha as _ _ ->. by intros ->.
Qed.

Lemma attempt_in_fuel write docs w w' out e :
  (forall docs' w, length docs' < length docs -> in_fuel (write docs' w)) ->
  attempt s write docs w = (w', (out, Some e)) -> e <> EOutOfFuel.
Proof.
  intros Hwr Ha. unfold attempt in Ha.
  destruct (encodeBulk s docs) as [body|e0] eqn:He;
    [|injection Ha as _ _ <-; by eapply encodeBulk_in_fuel].
  destruct (post s body w) as [w1 [[status payload]|cause]]; [|by injection Ha as _ _ <-].
  case_match.
  - case_match eqn:Hlen; [|by injection Ha as _ _ <-]. apply Z.ltb_lt in Hlen. unfold zlen in Hlen.
    eapply writeHalves_in_fuel; [exact Hwr| |exact Ha]. lia.
  - repeat (case_match; [by injection Ha as _ _ <-|]). injection Ha as _ Ha. by eapply classify_in_fuel.
Qed.

Lemma attempts_in_fuel write n k pending r w :
  (forall docs' w, length docs' < length pending -> in_fuel (write docs' w)) ->
  (Z.of_nat n = o_MaxAttempts (s_opts s) - k + 1)%Z -> (k <= o_MaxAttempts (s_opts s))%Z ->
  accounting write ->
  in_fuel (attempts s write n k pending r w).
Proof.
  intros Hwr Hn Hk Hacc. revert k pending r w Hwr Hn Hk.
  induction n as [|n IH]; intros k pending r w Hwr Hn Hk; [lia|]. simpl.
  destruct (attempt s write pending w) as [w1 [out [e|]]] eqn:Hat.
  - apply attempt_in_fuel in Hat; [|done]. case_match eqn:Hstop; [by intros [= ->]|].
    apply orb_false_iff in Hstop as [_ Hlt]. apply Z.leb_gt in Hlt.
    destruct (es_wait s k w1) as [w2 [[]|]]; [|done]. apply IH; auto; lia.
  - apply attempt_of in Hat; [|done]. destruct (out_retry out) as [|d ds] eqn:Hre; [done|].
    case_match eqn:Hstop; [done|]. apply Z.leb_gt in Hstop.
    destruct (es_wait s k w1) as [w2 [[]|]]; [|done]. apply IH; [|lia|lia].
    intros docs' w' Hlt. apply Hwr. destruct Hat as [_ _ _ Hm]. rewrite Hre in Hm.
    apply submseteq_length in Hm. rewrite length_app in Hm. lia.
Qed.

(** C37: [Write] returns: a batch as long as its fuel is never split further than
    it lasts, and the attempts are bounded. *)
Theorem Write_terminates docs w :
  (1 <= o_MaxAttempts (s_opts s))%Z -> (Write s docs w).2.2 <> Some EOutOfFuel.
Proof.
  intros Hmax. unfold Write.
  assert (forall fuel docs w, length docs <= fuel -> in_fuel (Write_fuel s fuel docs w)) as Hfuel; [|by apply Hfuel].
  induction fuel as [|fuel IH]; intros ds w1 Hlen; (destruct ds as [|d ds]; [done|]); [simpl in Hlen; lia|].
  apply (attempts_in_fuel (Write_fuel s fuel)); try lia.
  - intros docs' w' Hlt. apply IH. simpl in *. lia.
  - apply Write_fuel_accounting.
Qed.

End Facts.

(** ** The bulk request read back *)

(** A reader of the newline-delimited bulk format, for one index: an action
    line, and for an index action the line of its document. *)
Definition read_action (index line : string) : option (string * string * Z) :=
  v ← json_Parse line;
  match v with
  | JObj [(action, JObj [("_index", JStr i); ("_id", JStr k);
                         ("version", JNum n); ("version_type", JStr "external")])] =>
      version ← ParseUint n 64;
      if bool_decide (i = index) then Some (action, k, version) else None
  | _ => None
  end.

Fixpoint read_bulk (index : string) (lines : list string) : option (list Doc) :=
  match lines with
  | [""] => Some []
  | line :: rest =>
    '(action, k, version) ← read_action index line;
    if bool_decide (action = "delete") then
      docs ← read_bulk index rest; Some (mkDoc k "" version true :: docs)
    else
      match rest with
      | body :: rest => docs ← read_bulk index rest; Some (mkDoc k body version false :: docs)
      | [] => None
      end
  | [] => None
  end.

(** A document as the request carries it: a delete has no body. *)
Definition sent (d : Doc) : Doc :=
  if doc_Deleted d then mkDoc (doc_Key d) "" (doc_Version d) true else d.

Definition ascii_byte (c : ascii) : bool := (byte_val c <? 128)%Z.

(** What a document must be to be sent: a key of ASCII bytes, a version of 64
    bits, and a body on one line. *)
Definition sendable (d : Doc) : Prop :=
  str_forall ascii_byte (doc_Key d) = true /\ u64_range (doc_Version d) /\
  free_of newline (doc_Body d) = true.

Lemma unquote_es key rest :
  str_forall ascii_byte key = true ->
  unquote (str_concat_map escape_es key +:+ String quote_char rest) = Some (key, rest).
Proof.
  apply unquote_concat_map. intros c r. all_bytes c; (discriminate || (intros _; reflexivity)).
Qed.

Lemma read_es_string n key rest :
  str_forall ascii_byte key = true ->
  read_value (S n) (es_appendJSONString key +:+ rest) = Some (JStr key, rest).
Proof.
  intros Hk. unfold es_appendJSONString. rewrite app_cons_str, app_assoc_str.
  change (('(t, r) ← unquote (str_concat_map escape_es key +:+ String quote_char rest); Some (JStr t, r))
          = Some (JStr key, rest)).
  by rewrite unquote_es.
Qed.

Definition action_text (action index key : string) (version : Z) : string :=
  action_prefix action index +:+ es_appendJSONString key +:+ action_suffix version.

Definition action_json (action index key : string) (version : Z) : json :=
  JObj [(action, JObj [("_index", JStr index); ("_id", JStr key);
                       ("version", JNum (FormatUint version)); ("version_type", JStr "external")])].

(** The members inside an action, up to its closing brace. *)
Definition action_members (index key : string) (version : Z) (rest : string) : string :=
  member_text "_index" (json_MarshalString index +:+
    String "," (member_text "_id" (es_appendJSONString key +:+
    String "," (member_text "version" (FormatUint version +:+
    String "," (member_text "version_type" (es_appendJSONString "external" +:+ String "}" rest))))))).

Lemma action_text_members action index key version :
  action_text action index key version =
    String "{" (member_text action (String "{" (action_members index key version "}"))).
Proof.
  unfold action_text, action_prefix, action_suffix, action_members, member_text, dq, str1.
  rewrite ?app_assoc_str, ?app_cons_str. cbn [String.append]. rewrite ?app_assoc_str. cbn [String.append].
  rewrite ?app_assoc_str. reflexivity.
Qed.

Lemma read_action_members n index key version rest :
  ValidString index = true -> str_forall ascii_byte key = true ->
  read_members (5 + n) (action_members index key version rest) =
    Some ([("_index", JStr index); ("_id", JStr key); ("version", JNum (FormatUint version));
           ("version_type", JStr "external")], rest).
Proof.
  intros Hi Hk. unfold action_members. change (5 + n) with (S (S (S (S (S n))))).
  rewrite (read_member_more _ _ _ (JStr index)) by (done || by apply read_string_value).
  rewrite (read_member_more _ _ _ (JStr key)) by (done || by apply read_es_string).
  rewrite (read_member_more _ _ _ (JNum (FormatUint version))) by (done || (apply read_value_uint; by left)).
  rewrite (read_member_last _ _ _ (JStr "external")) by (done || by apply read_es_string).
  done.
Qed.

Lemma read_action_value action index key version n :
  str_forall plain_byte action = true -> ValidString index = true -> str_forall ascii_byte key = true ->
  read_value (8 + n) (action_text action index key version) = Some (action_json action index key version, "").
Proof.
  intros Ha Hi Hk. rewrite action_text_members.
  change (8 + n) with (S (S (S (5 + n)))). rewrite read_object, read_member by done.
  unfold action_members at 1. rewrite read_object. fold (action_members index key version "}").
  by rewrite (read_action_members n).
Qed.

Lemma json_Parse_action action index key version :
  str_forall plain_byte action = true -> ValidString index = true -> str_forall ascii_byte key = true ->
  json_Parse (action_text action index key version) = Some (action_json action index key version).
Proof.
  intros Ha Hi Hk. unfold json_Parse.
  set (len := String.length (action_text action index key version)).
  assert (3 <= len) as Hlen.
  { subst len. rewrite action_text_members. unfold member_text. cbn [String.length].
    pose proof (slen_app action (String quote_char (String ":" (String "{" (action_members index key version "}")))))
      as Hlen. unfold slen in Hlen. cbn [String.length] in Hlen. lia. }
  replace (2 * len + 2) with (8 + (2 * len - 6)) by lia.
  rewrite read_action_value by done. done.
Qed.

Lemma read_action_text action index key version :
  str_forall plain_byte action = true -> ValidString index = true -> str_forall ascii_byte key = true ->
  u64_range version ->
  read_action index (action_text action index key version) = Some (action, key, version).
Proof.
  intros Ha Hi Hk Hv. unfold read_action. rewrite json_Parse_action by done.
  cbn [mbind option_bind action_json]. rewrite ParseUint_Format by done. simpl.
  by rewrite bool_decide_eq_true_2.
Qed.

Lemma read_bulk_cons index line rest :
  rest <> [] ->
  read_bulk index (line :: rest) =
    ('(action, k, version) ← read_action index line;
     if bool_decide (action = "delete") then
       docs ← read_bulk index rest; Some (mkDoc k "" version true :: docs)
     else
       match rest with
       | body :: rest => docs ← read_bulk index rest; Some (mkDoc k body version false :: docs)
       | [] => None
       end).
Proof. intros Hr. by destruct line, rest. Qed.

(** *** No line breaks inside a line *)

Lemma es_string_free s : free_of newline (es_appendJSONString s) = true.
Proof.
  unfold es_appendJSONString.
  change (free_of newline (str_concat_map escape_es s +:+ str1 quote_char) = true).
  rewrite free_app. unfold free_of at 1. rewrite str_forall_concat_map; [done|].
  intros c. all_bytes c; reflexivity.
Qed.

Lemma action_text_free action index key version :
  str_forall plain_byte action = true -> ValidString index = true ->
  free_of newline (action_text action index key version) = true.
Proof.
  intros Ha Hi. unfold action_text, action_prefix, action_suffix.
  assert (free_of newline action = true) as Hact.
  { unfold free_of. clear Hi. induction action as [|c l IH]; [done|]. simpl in *.
    apply andb_true_iff in Ha as [Hc Hl]. rewrite IH, andb_true_r by done. revert Hc. all_bytes c; done. }
  rewrite !free_app, Hact, json_MarshalString_free, es_string_free, (digits_free _ (FormatUint_digits _)) by done.
  reflexivity.
Qed.

(** ** Framing *)

Definition action_name (d : Doc) : string := if doc_Deleted d then "delete" else "index".

(** C36: A bulk request is read back as the documents it was made of: no key,
    version or body can break a line, end a string early or shift the lines
    that follow it. *)
Theorem encodeBulk_roundtrip opts s docs text :
  NewESink opts = Ok s -> ValidString (o_Index opts) = true -> Forall sendable docs ->
  encodeBulk s docs = Ok text ->
  read_bulk (o_Index opts) (SplitByte newline text) = Some (map sent docs).
Proof.
  intros Hs Hi Hdocs.
  assert (forall d, action_line s d = action_text (action_name d) (o_Index opts) (doc_Key d) (doc_Version d)) as Hline.
  { unfold NewESink in Hs. repeat case_match; simplify_eq/=. intros d. unfold action_line, action_name. simpl.
    by destruct (doc_Deleted d). }
  revert text. induction Hdocs as [|d docs (Hk & Hv & Hb) _ IH]; intros text He; [by injection He as <-|].
  simpl in He. case_match; [done|]. apply res_bind_ok in He as (body & Hbody & He).
  apply res_bind_ok in He as (rest & Hrest & [= <-]). specialize (IH rest Hrest).
  assert (str_forall plain_byte (action_name d) = true) as Hplain
    by (unfold action_name; by destruct (doc_Deleted d)).
  rewrite Hline. cbn [String.append nl str1].
  rewrite SplitByte_app_sep by (by apply action_text_free).
  rewrite read_bulk_cons by apply SplitByte_ne.
  rewrite read_action_text by done. cbn [mbind option_bind].
  unfold action_name, sent in *. destruct (doc_Deleted d) eqn:Hd.
  - injection Hbody as <-. rewrite app_nil_l_str, bool_decide_eq_true_2, IH by done. simpl. by rewrite Hd.
  - rewrite bool_decide_eq_false_2 by done. case_match; [done|]. injection Hbody as <-.
    rewrite app_assoc_str. cbn [String.append nl str1]. rewrite SplitByte_app_sep by done.
    rewrite IH. simpl. rewrite Hd. by destruct d; simplify_eq/=.
Qed.
