(* ===== verification/ElasticsearchAdmin.v ===== *)
(** * Administration of an Elasticsearch index ([internal/sink/elasticsearch])

    What the sink asks of its index besides writing to it: the comparison of the
    live mapping with the fields a stream writes ([validate.go]), the move of the
    readers' alias ([alias.go]) and the settings a bulk load replaces and puts
    back ([bulkload.go]). The world is threaded with the sink's request counter,
    as in [Elasticsearch]. What the server promises about its aliases and
    settings is stated as two classes of laws. *)

From Stdlib Require Import Ascii.
From S2P Require Import Prelude GoStd GoEncoding GoJson Schema Cdc Sink Http Elasticsearch.

(** ** Data *)

(** A field of the live mapping; its sub-fields have distinct names. *)
Inductive mappedField := mkMappedField {
  mf_Type : string;
  mf_Enabled : option bool;
  mf_Fields : list (string * mappedField)
}.
Definition no_field : mappedField := mkMappedField "" None [].

(** What [BeginBulkLoad] replaced. *)
Record LoadSettings := mkLoadSettings { ls_refreshInterval : string; ls_applied : bool }.
Definition no_settings : LoadSettings := mkLoadSettings "" false.

(** A field of the stream the index does not hold as it should. *)
Inductive mismatch :=
  | Missing (name : string)
  | Mistyped (name described want : string).

Inductive admin_error :=
  | EAdminRequest (cause : string)
  | EAdminStatus (status : Z) (payload : string)
  | EAdminUnreadable
  | EAliasIsIndex
  | ENothingToValidate
  | EIndexMissing
  | ENoMapping
  | EManyIndices (n : Z)
  | EMismatch (problems : list mismatch).

Inductive alias_action :=
  | RemoveAlias (index alias : string)
  | AddAlias (index alias : string).

(** ** Texts *)

Definition json_entry (name value : string) : string := dq +:+ name +:+ dq +:+ ":" +:+ value.

(** [json.Marshal] of one action, keys in order. *)
Definition marshal_action (a : alias_action) : string :=
  match a with
  | RemoveAlias index alias =>
    "{" +:+ json_entry "remove" ("{" +:+ json_entry "alias" (json_MarshalString alias) +:+ "," +:+
      json_entry "index" (json_MarshalString index) +:+ "}") +:+ "}"
  | AddAlias index alias =>
    "{" +:+ json_entry "add" ("{" +:+ json_entry "alias" (json_MarshalString alias) +:+ "," +:+
      json_entry "index" (json_MarshalString index) +:+ "," +:+ json_entry "is_write_index" "true" +:+ "}") +:+ "}"
  end.
Definition marshal_actions (actions : list alias_action) : string :=
  "{" +:+ json_entry "actions" ("[" +:+ Join (map marshal_action actions) "," +:+ "]") +:+ "}".

(** The body that sets [index.refresh_interval]. *)
Definition settings_body (value : string) : string :=
  "{" +:+ json_entry "index" ("{" +:+ json_entry "refresh_interval" value +:+ "}") +:+ "}".

Definition is_quote (c : ascii) : bool := bool_decide (c = quote_char).
Definition refreshDisabled (value : string) : bool := bool_decide (TrimBy is_quote value = "-1").
Definition orNull (value : string) : string := if bool_decide (value = "") then "null" else value.

(** ** Reading answers *)

(** [json.Unmarshal] into a [mappedField] that already holds [f]: a field given
    twice is decoded twice, the names of [fields] matched exactly. *)
Fixpoint decode_field (f : mappedField) (v : json) : option mappedField :=
  match v with
  | JNull => Some f
  | JObj members =>
    foldl (fun acc '(k, x) =>
      f ← acc;
      if EqualFold k "type" then
        match x with
        | JNull => Some f
        | JStr t => Some (mkMappedField t (mf_Enabled f) (mf_Fields f))
        | _ => None
        end
      else if EqualFold k "enabled" then
        match x with
        | JNull => Some (mkMappedField (mf_Type f) None (mf_Fields f))
        | JBool b => Some (mkMappedField (mf_Type f) (Some b) (mf_Fields f))
        | _ => None
        end
      else if EqualFold k "fields" then
        match x with
        | JNull => Some (mkMappedField (mf_Type f) (mf_Enabled f) [])
        | JObj subs =>
          fields ← foldl (fun acc '(name, y) =>
            fs ← acc; g ← decode_field no_field y;
            Some (filter (fun kv => kv.1 <> name) fs ++ [(name, g)])) (Some (mf_Fields f)) subs;
          Some (mkMappedField (mf_Type f) (mf_Enabled f) fields)
        | _ => None
        end
      else Some f) (Some f) members
  | _ => None
  end.

(** A map field of a struct: its occurrences are merged, and [null] empties it. *)
Definition map_field {A} (dec : json -> option A) (name : string) (members : list (string * json))
  : option (gmap string A) :=
  foldl (fun acc kv =>
    m ← acc;
    if EqualFold kv.1 name then
      match kv.2 with JNull => Some ∅ | v => new ← as_map dec v; Some (new ∪ m) end
    else Some m) (Some ∅) members.

Definition decode_mappings (v : json) : option (gmap string mappedField) :=
  entry ← as_members v;
  mappings ← struct_field "mappings" entry;
  map_field (decode_field no_field) "properties" mappings.

Definition decode_settings (raw : string) : option string :=
  entry ← raw_members raw;
  settings ← raw_struct_field "settings" entry;
  index ← raw_struct_field "index" settings;
  Some (raw_field "refresh_interval" index).

Definition parse_map {A} (dec : json -> option A) (payload : string) : option (gmap string A) :=
  v ← json_Parse payload; as_map dec v.

(** ** Comparing the mapping *)

Definition describe (f : mappedField) : string :=
  if negb (bool_decide (mf_Type f = "")) then mf_Type f
  else if bool_decide (mf_Enabled f = Some false) then "a disabled object"
  else "an object".

Definition typesCompatible (want : string) (actual : mappedField) : bool :=
  let ty := mf_Type actual in
  if bool_decide (ty = want) then true
  else if bool_decide (want = "object") then one_of ty [""; "object"; "nested"; "flattened"]
  else if bool_decide (want = "keyword") then
    bool_decide (ty = "text") && existsb (fun sub => bool_decide (mf_Type sub.2 = "keyword")) (mf_Fields actual)
  else if bool_decide (want = "unsigned_long") then false
  else if bool_decide (want = "long") then one_of ty ["unsigned_long"]
  else if bool_decide (want = "integer") then one_of ty ["long"; "unsigned_long"]
  else if bool_decide (want = "short") then one_of ty ["integer"; "long"; "unsigned_long"]
  else if bool_decide (want = "byte") then one_of ty ["short"; "integer"; "long"; "unsigned_long"]
  else if bool_decide (want = "float") then one_of ty ["double"]
  else false.

(** The problem of one expected field, if any. *)
Definition check_field (actual : gmap string mappedField) (name want : string) : list mismatch :=
  match actual !! name with
  | None => [Missing name]
  | Some field => if typesCompatible want field then [] else [Mistyped name (describe field) want]
  end.

(** ** Operations *)

Lemma map_first_singleton `{!MapOrder} {A} name (x : A) : map_first {[name := x]} = Some (name, x).
Proof.
  unfold map_first. pose proof (map_range_perm _ {[name := x]}) as Hp.
  rewrite map_to_list_singleton in Hp. by apply Permutation_singleton_r in Hp as ->.
Qed.

Section Admin.
Context `{!MapOrder} {W : Type} `{!HttpOps W}.
Variable s : ESink.
Local Abbreviation eff_admin := (eff (Z * W) admin_error).

(** [do]. *)
Definition es_do (method path : string) (body : option string) : eff_admin (Z * string) := fun '(counter, w) =>
  let '(counter, address) := nextAddress s counter in
  let '(w, r) := http_Do (mkRequest method (address +:+ path)
    (match body with Some _ => Some "application/json" | None => None end) false (auth_of (s_opts s)) body) w in
  ((counter, w), map_err EAdminRequest r).

(** The answer of a request that has to succeed. *)
Definition accepted (answer : Z * string) : eff_admin string :=
  if (300 <=? answer.1)%Z then eff_fail (EAdminStatus answer.1 (es_snippet answer.2)) else mret answer.2.

Definition es_index : string := o_Index (s_opts s).
Definition es_alias : string := o_Alias (s_opts s).

(** [aliasTargets], which [AliasTargets] exports. *)
Definition aliasTargets : eff_admin (list string) :=
  answer ← es_do "GET" ("/_alias/" +:+ es_alias) None;
  if (answer.1 =? StatusNotFound)%Z then mret []
  else
    payload ← accepted answer;
    match parse_map Some payload with
    | None => eff_fail EAdminUnreadable
    | Some byIndex => mret (sort_Strings (map fst (map_range byIndex)))
    end.

Definition alias_actions (current : list string) : list alias_action :=
  map (fun index => RemoveAlias index es_alias) (filter (fun index => index <> es_index) current)
    ++ [AddAlias es_index es_alias].

Definition PromoteAlias : eff_admin () :=
  if bool_decide (es_alias = "") then mret ()
  else if bool_decide (es_alias = es_index) then eff_fail EAliasIsIndex
  else
    current ← aliasTargets;
    if bool_decide (current = [es_index]) then mret ()
    else
      answer ← es_do "POST" "/_aliases" (Some (marshal_actions (alias_actions current)));
      _ ← accepted answer; mret ().

Definition putSettings (body : string) : eff_admin () :=
  answer ← es_do "PUT" ("/" +:+ es_index +:+ "/_settings") (Some body);
  _ ← accepted answer; mret ().

(** What is returned beside an error is never marked as applied, and so never
    used. *)
Definition BeginBulkLoad : eff_admin LoadSettings :=
  answer ← es_do "GET" ("/" +:+ es_index +:+ "/_settings") None;
  payload ← accepted answer;
  match raw_map decode_settings payload with
  | None => eff_fail EAdminUnreadable
  | Some byIndex =>
    let interval := match map_first byIndex with Some (_, raw) => raw | None => "" end in
    let interval := if refreshDisabled interval then "" else interval in
    _ ← putSettings (settings_body (dq +:+ "-1" +:+ dq));
    mret (mkLoadSettings interval true)
  end.

Definition EndBulkLoad (previous : LoadSettings) : eff_admin () :=
  if negb (ls_applied previous) then mret ()
  else
    _ ← putSettings (settings_body (orNull (ls_refreshInterval previous)));
    answer ← es_do "POST" ("/" +:+ es_index +:+ "/_refresh") None;
    _ ← accepted answer; mret ().

Definition ForceMerge : eff_admin () :=
  answer ← es_do "POST" ("/" +:+ es_index +:+ "/_forcemerge?max_num_segments=1") None;
  _ ← accepted answer; mret ().

Definition fetchMapping : eff_admin (gmap string mappedField) :=
  answer ← es_do "GET" ("/" +:+ es_index +:+ "/_mapping") None;
  if (answer.1 =? StatusNotFound)%Z then eff_fail EIndexMissing
  else
    payload ← accepted answer;
    match parse_map decode_mappings payload with
    | None => eff_fail EAdminUnreadable
    | Some byIndex =>
      if bool_decide (size byIndex = 0%nat) then eff_fail ENoMapping
      else if (1 <? Z.of_nat (size byIndex))%Z then eff_fail (EManyIndices (Z.of_nat (size byIndex)))
      else match map_first byIndex with Some (_, fields) => mret fields | None => eff_fail ENoMapping end
    end.

Definition ValidateMapping (expected : gmap string string) : eff_admin () :=
  if bool_decide (size expected = 0%nat) then eff_fail ENothingToValidate
  else
    actual ← fetchMapping;
    let names := sort_Strings (map fst (map_range expected)) in
    match concat (map (fun name => check_field actual name (default "" (expected !! name))) names) with
    | [] => mret ()
    | problems => eff_fail (EMismatch problems)
    end.

End Admin.

(** ** What the server promises

    Each class holds the documented effect of the requests above on the part of
    the server it names, with nobody else administering the index meanwhile. *)

(** An action on the indices an alias resolves to. *)
Definition acted (alias : string) (indices : gset string) (a : alias_action) : gset string :=
  match a with
  | RemoveAlias index alias' => if bool_decide (alias' = alias) then indices ∖ {[index]} else indices
  | AddAlias index alias' => if bool_decide (alias' = alias) then {[index]} ∪ indices else indices
  end.

(** Reading an alias shows the indices behind it; its actions are carried out
    together, and a request that was not confirmed was carried out or not. *)
Class AliasLaws (W : Type) `{!HttpOps W} (resolve : W -> string -> gset string) : Prop := {
  alias_get : forall rq addr alias w w' r,
    rq_Method rq = "GET" -> rq_URL rq = addr +:+ "/_alias/" +:+ alias -> http_Do rq w = (w', r) ->
    resolve w' alias = resolve w alias /\
    forall status payload, r = Ok (status, payload) ->
      (status = 404%Z -> resolve w alias = ∅) /\
      forall m, (status < 300)%Z -> parse_map Some payload = Some m -> dom m = resolve w alias;
  alias_post : forall rq addr actions w w' r alias,
    rq_Method rq = "POST" -> rq_URL rq = addr +:+ "/_aliases" ->
    rq_Body rq = Some (marshal_actions actions) -> http_Do rq w = (w', r) ->
    let after := foldl (acted alias) (resolve w alias) actions in
    (resolve w' alias = resolve w alias \/ resolve w' alias = after) /\
    forall status payload, r = Ok (status, payload) -> (status < 300)%Z -> resolve w' alias = after
}.

(** The refresh interval a setting's text declares: none, or the text inside
    its quotes. *)
Definition declared (raw : string) : option string :=
  if one_of raw [""; "null"] then None else Some (TrimBy is_quote raw).

(** The declared refresh interval of one index. *)
Class SettingsLaws (W : Type) `{!HttpOps W} (index : string) (interval : W -> option string) : Prop := {
  settings_get : forall rq addr w w' r,
    rq_Method rq = "GET" -> rq_URL rq = addr +:+ "/" +:+ index +:+ "/_settings" -> http_Do rq w = (w', r) ->
    interval w' = interval w /\
    forall status payload m, r = Ok (status, payload) -> (status < 300)%Z ->
      raw_map decode_settings payload = Some m ->
      exists name raw, m = {[name := raw]} /\ declared raw = interval w;
  settings_put : forall rq addr value w w' status payload,
    rq_Method rq = "PUT" -> rq_URL rq = addr +:+ "/" +:+ index +:+ "/_settings" ->
    rq_Body rq = Some (settings_body value) -> http_Do rq w = (w', Ok (status, payload)) ->
    (status < 300)%Z -> interval w' = declared value;
  refresh_frame : forall rq addr w w' r,
    rq_Method rq = "POST" -> rq_URL rq = addr +:+ "/" +:+ index +:+ "/_refresh" -> http_Do rq w = (w', r) ->
    interval w' = interval w
}.

Section AdminFacts.
Context `{!MapOrder} {W : Type} `{!HttpOps W}.
Variable s : ESink.

(** Every operation of this file is requests of one shape. *)
Lemma es_do_sent method path body c w c' w' r :
  es_do s method path body (c, w) = ((c', w'), r) ->
  exists rq addr r0, rq_Method rq = method /\ rq_URL rq = addr +:+ path /\ rq_Body rq = body /\
    http_Do rq w = (w', r0) /\ r = map_err EAdminRequest r0.
Proof.
  unfold es_do. destruct (nextAddress s c) as [c1 addr].
  destruct (http_Do _ w) as [w1 r0] eqn:Hq. intros [= <- <- <-].
  do 3 eexists. split_and!; [| | |exact Hq|reflexivity]; reflexivity.
Qed.

Lemma accepted_ok answer (st st' : Z * W) payload :
  accepted answer st = (st', Ok payload) -> st' = st /\ answer = (answer.1, payload) /\ (answer.1 < 300)%Z.
Proof.
  unfold accepted. destruct (300 <=? answer.1)%Z eqn:E; [done|]. intros [= <- <-].
  destruct answer; simpl in *. split_and!; [done|done|lia].
Qed.

Lemma accepted_same answer (st st' : Z * W) r : accepted answer st = (st', r) -> st' = st.
Proof. unfold accepted. case_match; by intros [= <- <-]. Qed.

(** *** Aliases *)

Section Aliases.
Context (resolve : W -> string -> gset string) `{!AliasLaws W resolve}.
Let alias := es_alias s.
Let index := es_index s.

Lemma aliasTargets_frame c w c' w' r :
  aliasTargets s (c, w) = ((c', w'), r) -> resolve w' alias = resolve w alias.
Proof.
  intros ([c1 w1] & x & Hdo & Hk)%eff_bind_cases.
  pose proof Hdo as (rq & addr & r0 & Hm & Hu & _ & Hq & ->)%es_do_sent.
  pose proof (alias_get rq addr alias w w1 r0 Hm Hu Hq) as [Hf _]. rewrite <- Hf. clear Hdo Hf.
  destruct r0 as [answer|e]; simpl in Hk; [|by destruct Hk as [[= -> ->] _]].
  case_match; [by injection Hk as <- <- <-|].
  apply eff_bind_cases in Hk as ([c2 w2] & y & Ha%accepted_same & Hk). injection Ha as -> ->.
  destruct y as [payload|]; [|by destruct Hk as [[= -> ->] _]].
  case_match; by injection Hk as <- <- <-.
Qed.

Lemma aliasTargets_read c w c' w' targets :
  aliasTargets s (c, w) = ((c', w'), Ok targets) -> list_to_set targets = resolve w alias.
Proof.
  intros ([status payload] & [c1 w1] & Hdo & Hk)%eff_bind_inv.
  apply es_do_sent in Hdo as (rq & addr & r0 & Hm & Hu & _ & Hq & Hr).
  destruct r0 as [a|]; [|done]. injection Hr as <-.
  destruct (alias_get rq addr alias w w1 _ Hm Hu Hq) as [_ Hread].
  destruct (Hread status payload eq_refl) as [H404 Hok]. unfold StatusNotFound in Hk. simpl in Hk.
  destruct (status =? 404)%Z eqn:E.
  - injection Hk as <- <- <-. rewrite H404 by lia. done.
  - apply eff_bind_inv in Hk as (p & [c2 w2] & (_ & Hp & Hlt)%accepted_ok & Hk).
    injection Hp as <-. destruct (parse_map Some payload) as [m|] eqn:Hm2; [|done].
    injection Hk as <- <- <-. rewrite <- (Hok m) by done.
    rewrite sort_Strings_perm. apply set_eq. intros k. rewrite elem_of_list_to_set, elem_of_dom, list_elem_of_fmap.
    split.
    + intros ([k' x] & -> & Hin). apply map_range_in in Hin. eauto.
    + intros [x Hx]. exists (k, x). by rewrite map_range_in.
Qed.

(** The actions leave the alias on the index alone. *)
Lemma alias_actions_sole current :
  foldl (acted alias) (list_to_set current) (alias_actions s current) = {[index]}.
Proof.
  unfold alias_actions. fold alias index. rewrite foldl_app. simpl. rewrite bool_decide_eq_true_2 by done.
  assert (forall l S, (forall x, x ∈ l -> x <> index) ->
    foldl (acted alias) S (map (fun i => RemoveAlias i alias) l) = S ∖ list_to_set l) as Hrm.
  { induction l as [|x l IH]; intros S Hne; simpl; [set_solver|].
    rewrite bool_decide_eq_true_2, IH by set_solver. set_solver. }
  rewrite Hrm.
  - apply set_eq. intros x. rewrite elem_of_union, elem_of_difference, !elem_of_list_to_set, list_elem_of_filter,
      elem_of_singleton. destruct (decide (x = index)); naive_solver.
  - by intros x [? _]%list_elem_of_filter.
Qed.

(** What moving the alias leaves of it. *)
Lemma PromoteAlias_moves c w c' w' r :
  alias <> "" -> PromoteAlias s (c, w) = ((c', w'), r) ->
  (resolve w' alias = resolve w alias \/ resolve w' alias = {[index]}) /\
  (r = Ok () -> resolve w' alias = {[index]}).
Proof.
  intros Hne. unfold PromoteAlias. fold alias index. rewrite bool_decide_eq_false_2 by done.
  case_bool_decide.
  { unfold eff_fail. intros [= <- <- <-]. by split; [left|]. }
  intros ([c1 w1] & x & Hcur & Hk)%eff_bind_cases. pose proof (aliasTargets_frame _ _ _ _ _ Hcur) as Hf.
  destruct x as [current|e]; [|by destruct Hk as [[= -> ->] ->]; split; [left|]].
  apply aliasTargets_read in Hcur. case_bool_decide as Hone.
  { injection Hk as <- <- <-. rewrite Hf, <- Hcur, Hone. simpl. rewrite union_empty_r_L. auto. }
  apply eff_bind_cases in Hk as ([c2 w2] & y & Hdo & Hk).
  apply es_do_sent in Hdo as (rq & addr & r0 & Hm & Hu & Hb & Hq & ->).
  destruct (alias_post rq addr _ w1 w2 r0 alias Hm Hu Hb Hq) as [Hany Hok].
  rewrite Hf, <- Hcur, alias_actions_sole in Hany, Hok. rewrite <- Hcur.
  destruct r0 as [[status payload]|e]; simpl in Hk; [|by destruct Hk as [[= -> ->] ->]].
  apply eff_bind_cases in Hk as ([c3 w3] & z & Ha & Hk).
  pose proof (accepted_same _ _ _ _ Ha) as [= -> ->].
  destruct z as [p|e]; [|by destruct Hk as [[= -> ->] ->]].
  injection Hk as <- <- <-. apply accepted_ok in Ha as (_ & _ & Hlt). eauto.
Qed.

End Aliases.

(** *** Bulk-load settings *)

Section Settings.
Context (interval : W -> option string) `{!SettingsLaws W (es_index s) interval}.

Lemma putSettings_declares value c w c' w' :
  putSettings s (settings_body value) (c, w) = ((c', w'), Ok ()) -> interval w' = declared value.
Proof.
  intros ([status payload] & [c1 w1] & Hdo & Hk)%eff_bind_inv.
  apply es_do_sent in Hdo as (rq & addr & r0 & Hm & Hu & Hb & Hq & Hr).
  destruct r0 as [a|]; [|done]. injection Hr as <-.
  apply eff_bind_inv in Hk as (p & st & (-> & _ & Hlt)%accepted_ok & Hk). injection Hk as <- <-.
  by apply (settings_put rq addr value w w1 status payload).
Qed.

Lemma declared_disabled raw : refreshDisabled raw = bool_decide (declared raw = Some "-1").
Proof.
  unfold refreshDisabled, declared, one_of. apply bool_decide_ext. case_bool_decide as Hin.
  - apply elem_of_cons in Hin as [->|Hin]; [|apply list_elem_of_singleton in Hin as ->]; by vm_compute.
  - split; [by intros ->|by intros [=]].
Qed.

Lemma declared_orNull raw : declared (orNull raw) = declared raw.
Proof. unfold orNull. by case_bool_decide; subst. Qed.

(** C24: A bulk load turns refreshing off, and ending it puts back the interval
    the index declared before; only an index that already declared refreshing
    off is left with none declared. *)
Theorem bulk_load_restores c w c1 w1 load c2 w2 c3 w3 :
  BeginBulkLoad s (c, w) = ((c1, w1), Ok load) ->
  EndBulkLoad s load (c2, w2) = ((c3, w3), Ok ()) ->
  interval w1 = Some "-1" /\
  interval w3 = (if bool_decide (interval w = Some "-1") then None else interval w).
Proof.
  intros Hbegin Hend. unfold BeginBulkLoad in Hbegin.
  apply eff_bind_inv in Hbegin as ([status payload] & [ca wa] & Hdo & Hk).
  apply es_do_sent in Hdo as (rq & addr & r0 & Hm & Hu & _ & Hq & Hr).
  destruct r0 as [a|]; [|done]. injection Hr as <-.
  destruct (settings_get rq addr w wa _ Hm Hu Hq) as [Hfr Hread].
  apply eff_bind_inv in Hk as (p & st & (-> & Hp & Hlt)%accepted_ok & Hk).
  injection Hp as <-. simpl in Hlt.
  destruct (raw_map decode_settings payload) as [m|] eqn:Hmap; [|done].
  destruct (Hread status payload m eq_refl Hlt Hmap) as (name & raw & -> & Hraw). clear Hread.
  rewrite map_first_singleton in Hk.
  apply eff_bind_inv in Hk as ([] & [cb wb] & Hput%putSettings_declares & Hk).
  injection Hk as <- <- <-. split; [by rewrite Hput|].
  unfold EndBulkLoad in Hend. simpl in Hend.
  apply eff_bind_inv in Hend as ([] & [cc wc] & Hput2%putSettings_declares & Hk).
  apply eff_bind_inv in Hk as (ans & [cd wd] & Hdo & Hk).
  apply es_do_sent in Hdo as (rq2 & addr2 & r2 & Hm2 & Hu2 & _ & Hq2 & _).
  apply eff_bind_inv in Hk as (p2 & st & (-> & _ & _)%accepted_ok & Hk). injection Hk as <- <-.
  rewrite (refresh_frame rq2 addr2 wc wd r2), Hput2, declared_orNull by done.
  rewrite declared_disabled, Hraw. by case_bool_decide.
Qed.

End Settings.

(** *** The mapping *)

Lemma check_field_ok actual name want :
  check_field actual name want = [] <-> exists f, actual !! name = Some f /\ typesCompatible want f = true.
Proof.
  unfold check_field. destruct (actual !! name) as [f|]; [|by split; [|intros (? & ? & _)]].
  destruct (typesCompatible want f) eqn:Ht; split; intros Hf; try done; [by exists f|].
  destruct Hf as (g & [= <-] & ?). congruence.
Qed.

(** What requests leave alone, the check of a mapping does. *)
Lemma ValidateMapping_frame {B} (f : W -> B) (expected : gmap string string) (st : Z * W) :
  (forall req w, f (http_Do req w).1 = f w) -> f (ValidateMapping s expected st).1.2 = f st.2.
Proof.
  intros Hf. destruct st as [counter w]. unfold ValidateMapping. case_bool_decide; [done|].
  assert (f (fetchMapping s (counter, w)).1.2 = f w) as Hfetch.
  { unfold fetchMapping, es_do. unfold mbind, eff_bind. destruct (nextAddress s counter) as [counter' address].
    match goal with |- context [http_Do ?q w] => specialize (Hf q w); destruct (http_Do q w) as [w1 [answer|e]] end;
      cbn in Hf |- *; [|done].
    destruct (answer.1 =? StatusNotFound)%Z; [done|]. unfold accepted. destruct (300 <=? answer.1)%Z; [done|]. cbn.
    by repeat case_match. }
  unfold mbind, eff_bind. destruct (fetchMapping s (counter, w)) as [[c' w'] [actual|e]]; cbn in Hfetch; [|done].
  by destruct (concat _).
Qed.


(** A mapping is accepted exactly when each field is there with a compatible
    type. *)
Lemma ValidateMapping_ok expected st st' :
  ValidateMapping s expected st = (st', Ok ()) <->
  expected <> ∅ /\ exists actual, fetchMapping s st = (st', Ok actual) /\
    map_Forall (fun name want => exists f, actual !! name = Some f /\ typesCompatible want f = true) expected.
Proof.
  unfold ValidateMapping. case_bool_decide as Hs.
  { apply map_size_empty_iff in Hs. split; [done|]. by intros [? _]. }
  assert (expected <> ∅) as Hne by (by intros ->).
  set (names := sort_Strings _).
  assert (forall actual, concat (map (fun name => check_field actual name (default "" (expected !! name))) names) = [] <->
    map_Forall (fun name want => exists f, actual !! name = Some f /\ typesCompatible want f = true) expected) as Hall.
  { intros actual. rewrite concat_nil_Forall, Forall_map, Forall_forall. unfold names.
    setoid_rewrite sort_Strings_perm. setoid_rewrite list_elem_of_fmap. split.
    - intros Hx name want Hl. apply check_field_ok. specialize (Hx name). rewrite Hl in Hx.
      apply Hx. exists (name, want). by rewrite map_range_in.
    - intros Hx name ([k want] & -> & Hl%map_range_in). simpl. rewrite Hl. by apply check_field_ok, Hx. }
  unfold mbind, eff_bind. destruct (fetchMapping s st) as [st1 [actual|e]].
  2:{ split; [done|]. by intros (_ & ? & ? & _). }
  specialize (Hall actual). destruct (concat _) as [|p ps].
  - split; [|by intros (_ & ? & [= <- <-] & _)].
    intros [= <-]. split; [done|]. exists actual. split; [done|]. by apply Hall.
  - split; [done|]. intros (_ & ? & [= <- <-] & Hf). by apply Hall in Hf.
Qed.

Definition integer_types : list string := ["byte"; "short"; "integer"; "long"; "unsigned_long"].

Lemma es_range_types want z : in_range (es_range want) z = true -> want ∈ integer_types.
Proof.
  unfold es_range, one_of, integer_types. intros Hz. case_all_in Hz; try done; bool_to_prop; set_solver.
Qed.

(** The types an integer type may be held in are itself and the wider ones. *)
Lemma compatible_wider want f :
  want ∈ integer_types -> typesCompatible want f = true ->
  exists narrower wider, integer_types = narrower ++ want :: wider /\ mf_Type f ∈ want :: wider.
Proof.
  unfold integer_types. intros Hin Hc. unfold typesCompatible, one_of in Hc. case_bool_decide as Heq.
  { apply list_elem_of_split in Hin as (l1 & l2 & ->). exists l1, l2. rewrite Heq. split; [done|left]. }
  repeat (apply elem_of_cons in Hin as [->|Hin]); [..|by apply elem_of_nil in Hin];
    simpl in Hc; try done; apply bool_decide_eq_true in Hc.
  - exists [], ["short"; "integer"; "long"; "unsigned_long"]. split; [done|by right].
  - exists ["byte"], ["integer"; "long"; "unsigned_long"]. split; [done|by right].
  - exists ["byte"; "short"], ["long"; "unsigned_long"]. split; [done|by right].
  - exists ["byte"; "short"; "integer"], ["unsigned_long"]. split; [done|by right].
Qed.

Lemma wider_range narrower want wider ty z :
  integer_types = narrower ++ want :: wider -> ty ∈ want :: wider -> in_range (es_range want) z = true ->
  in_range (es_range ty) z = true \/ ty = "unsigned_long" /\ (z < 0)%Z.
Proof.
  intros Hs Hty Hz. apply elem_of_cons in Hty as [->|Hty]; [by left|].
  assert (forall outer, range_includes (es_range outer) (es_range want) = true -> in_range (es_range outer) z = true) as Hinc
    by (intros outer Ho; by eapply range_includes_spec).
  assert (in_range (es_range "long") z = true -> in_range (es_range "unsigned_long") z = true \/ (z < 0)%Z) as Hsign.
  { replace (es_range "long") with (Some (signed_range 64)) by done.
    replace (es_range "unsigned_long") with (Some (0, 2 ^ 64 - 1)%Z) by done. simpl.
    rewrite !andb_true_iff, !Z.leb_le. lia. }
  unfold integer_types in Hs.
  destruct narrower as [|? [|? [|? [|? [|? more]]]]]; simplify_eq/=; try (by destruct more);
    repeat (apply elem_of_cons in Hty as [->|Hty]; [|]); try (by apply elem_of_nil in Hty);
    try (left; apply Hinc; reflexivity);
    destruct (Hsign (Hinc "long" eq_refl)) as [?|?]; auto.
Qed.

(** What an accepted mapping holds: every integer a field sends, except that a
    negative one may be sent to a field held as [unsigned_long]. *)
Lemma accepted_holds expected st st' :
  ValidateMapping s expected st = (st', Ok ()) ->
  exists actual, fetchMapping s st = (st', Ok actual) /\
    forall name want z, expected !! name = Some want -> in_range (es_range want) z = true ->
      exists f, actual !! name = Some f /\
        (in_range (es_range (mf_Type f)) z = true \/ mf_Type f = "unsigned_long" /\ (z < 0)%Z).
Proof.
  intros (_ & actual & Hf & Hall)%ValidateMapping_ok. exists actual. split; [done|].
  intros name want z Hl Hz. destruct (Hall name want Hl) as (f & Hlf & Hc). exists f. split; [done|].
  destruct (compatible_wider want f) as (narrower & wider & ? & ?); [by eapply es_range_types|done|].
  by eapply wider_range.
Qed.

End AdminFacts.
