(* ===== verification/Generate.v ===== *)
(** * The schema of a destination ([internal/schema/generate.go])

    The index mapping and the table definition that [generate-schema] prints for
    a stream, as texts. The mapping is read back by the decoder the sink checks a
    live index with, and declares exactly the types that check expects. *)

From Stdlib Require Import Ascii.
From S2P Require Import Prelude GoStd GoEncoding GoJson JsonLayout Schema Sink Http Elasticsearch ElasticsearchAdmin.

Record Generated := mkGenerated {
  g_Body : string;
  g_Warnings : list string
}.

(** A raw string of the source, its double quotes written as single ones. *)
Definition raw (s : string) : string :=
  str_concat_map (fun c => if ascii_dec c single_quote then dq else str1 c) s.
Definition nl : string := str1 newline.

(** ** The mapping of an Elasticsearch index *)

(** [%q] of a type's name, which is plain ([Map_plain]). *)
Definition quote_plain (s : string) : string := dq +:+ s +:+ dq.

Definition es_property (f : destinationField) : string :=
  if bool_decide (mapped_Elasticsearch (df_mapped f) = "object")
  then "      " +:+ json_MarshalString (df_name f) +:+ raw ": { 'type': 'object', 'enabled': false }"
  else "      " +:+ json_MarshalString (df_name f) +:+ raw ": { 'type': "
         +:+ quote_plain (mapped_Elasticsearch (df_mapped f)) +:+ " }".

Definition es_body (shards replicas : Z) (properties : list string) : string :=
  raw "{
  'settings': {
    'number_of_shards': " +:+ FormatInt shards +:+ raw ",
    'number_of_replicas': " +:+ FormatInt replicas +:+ raw "
  },
  'mappings': {
    'dynamic': 'strict',
    'properties': {
" +:+ Join properties ("," +:+ nl) +:+ raw "
    }
  }
}
".

Definition GenerateElasticsearch (meta : TableMeta) (include exclude key : list string)
    (rename : gmap string string) (shards replicas : Z) : res schema_error Generated :=
  fields ← resolveFields meta include exclude key rename;
  let properties := map es_property fields in
  let shards := if (shards <? 1)%Z then 1%Z else shards in
  let replicas := if (replicas <? 0)%Z then 1%Z else replicas in
  Ok (mkGenerated (es_body shards replicas properties)
    ["dynamic mapping is disabled: a column added to the source and included in the mapping needs this file regenerated and applied before it can be written";
     "apply this to a new index and move the read alias to it, so a rebuild is atomic and reversible"]).

(** ** The definition of a ClickHouse table *)

Definition backquote : ascii := "`"%char.
Definition quoteCH (name : string) : string :=
  "`" +:+ str_concat_map (fun c => if ascii_dec c backquote then String backslash "`" else str1 c) name +:+ "`".
Definition qualifyCH (table : string) : string := Join (map quoteCH (SplitByte "."%char table)) ".".

(** [%-*s]: padded with spaces on the right, counted in runes. *)
Definition padRight (width : nat) (s : string) : string :=
  s +:+ String.concat "" (repeat " " (width - length (runes s))).

Definition ch_column (width : nat) (name ty : string) : string :=
  "    " +:+ padRight (width + 2) (quoteCH name) +:+ " " +:+ ty.

(** The name a key column is ordered by, looked up as the key spells it. *)
Definition order_name (rename : gmap string string) (k : string) : string :=
  match rename !! k with
  | Some renamed => if bool_decide (renamed = "") then k else renamed
  | None => k
  end.

Definition ch_body (table : string) (columns orderBy : list string) : string :=
  "CREATE TABLE IF NOT EXISTS " +:+ qualifyCH table +:+ "
(
" +:+ Join columns ("," +:+ nl) +:+ "
)
ENGINE = ReplacingMergeTree(" +:+ VersionColumn +:+ ", " +:+ DeletedColumn +:+ ")
ORDER BY (" +:+ Join orderBy ", " +:+ ");
".

Definition GenerateClickHouse (meta : TableMeta) (include exclude key : list string)
    (rename : gmap string string) (table : string) : res schema_error Generated :=
  fields ← resolveFields meta include exclude key rename;
  if bool_decide (table = "") then Err ETableRequired
  else
    let width := foldl (fun w f => Nat.max w (String.length (df_name f))) 0 fields in
    let columns := map (fun f => ch_column width (df_name f) (mapped_ClickHouse (df_mapped f))) fields
                   ++ [ch_column width VersionColumn "UInt64"; ch_column width DeletedColumn "UInt8"] in
    match key with
    | [] => Err (EKeyRequired (TableMeta_Name meta))
    | _ =>
      Ok (mkGenerated (ch_body table columns (map (fun k => quoteCH (order_name rename k)) key))
        (map (fun f => df_name f +:+ " is Nullable, which costs a null mask and blocks some optimisations; consider a default instead")
             (filter (fun f => col_Nullable (df_column f) = true) fields)
         ++ ["readers must query this table with FINAL, or with a view that does, until background merges have collapsed duplicate versions";
             "the is_deleted engine parameter requires ClickHouse 23.2 or newer"]))
    end.

(** ** What the mapping declares *)

Definition es_types : list string :=
  ["boolean"; "byte"; "short"; "integer"; "long"; "unsigned_long"; "float"; "double"; "keyword"; "text";
   "binary"; "object"; "date"].

Lemma mapType_es c kind es ch : mapType c = Ok (kind, es, ch) -> es ∈ es_types.
Proof.
  unfold mapType, intTypes. intros H. apply (bool_decide_unpack _).
  repeat (case_match; try discriminate); injection H as _ <- _; reflexivity.
Qed.

Lemma Map_es c m : Map c = Ok m -> mapped_Elasticsearch m ∈ es_types.
Proof.
  unfold Map. destruct (col_Generated c); [done|].
  intros ([[kind es] ch] & H%mapType_es & [= <-])%res_bind_ok. done.
Qed.

(** What a field of a type is declared as. *)
Definition declared (ty : string) : json :=
  if bool_decide (ty = "object") then JObj [("type", JStr "object"); ("enabled", JBool false)]
  else JObj [("type", JStr ty)].
Definition declared_field (ty : string) : mappedField :=
  mkMappedField ty (if bool_decide (ty = "object") then Some false else None) [].

Lemma decode_declared ty : decode_field no_field (declared ty) = Some (declared_field ty).
Proof. unfold declared, declared_field. by case_bool_decide as Hty; [rewrite Hty|]. Qed.

(** The text of a declaration: its members with the white space around them. *)
Definition declaration (ty : string) : string :=
  "{" +:+
  (if bool_decide (ty = "object")
   then placed " " "type" (json_MarshalString "object") "" +:+ "," +:+ placed " " "enabled" "false" " "
   else placed " " "type" (json_MarshalString ty) " ")
  +:+ "}".

Lemma es_property_member f :
  mapped_Elasticsearch (df_mapped f) ∈ es_types ->
  es_property f = "      " +:+ member (df_name f) "" (" " +:+ declaration (mapped_Elasticsearch (df_mapped f))) "".
Proof.
  unfold es_property, member. destruct f as [c name [kind ty ch]]. cbn [df_name df_mapped mapped_Elasticsearch].
  intros Hty. rewrite app_nil_r_str. unfold es_types in Hty.
  repeat (apply elem_of_cons in Hty as [-> | Hty]; [reflexivity|]). by apply not_elem_of_nil in Hty.
Qed.

Lemma Reads_declaration ty : ty ∈ es_types -> Reads (declaration ty) (declared ty).
Proof.
  intros Hty. assert (ValidString ty = true) as Hv.
  { assert (Forall (fun t => ValidString t = true) es_types) as Hall by (repeat constructor).
    rewrite Forall_forall in Hall. by apply Hall. }
  unfold declaration, declared. case_bool_decide; apply Reads_object.
  - apply placed_cons; [done..|by apply Reads_string|]. apply placed_one; [done..|apply Reads_false].
  - apply placed_one; [done..|by apply Reads_string].
Qed.

(** The members of the mapping, as many as there are fields. *)
Lemma Reads_properties fields w :
  fields <> [] -> white w ->
  Forall (fun f => ValidString (df_name f) = true /\ mapped_Elasticsearch (df_mapped f) ∈ es_types) fields ->
  ReadsMembers (Join (map es_property fields) ("," +:+ nl) +:+ w)
    (map (fun f => (df_name f, declared (mapped_Elasticsearch (df_mapped f)))) fields).
Proof.
  intros Hne Hw Hall. induction Hall as [|f fields [Hname Hty] Hall IH]; [done|].
  assert (forall w, es_property f +:+ w = placed "      " (df_name f) (declaration (mapped_Elasticsearch (df_mapped f))) w) as Hp.
  { intros w'. rewrite es_property_member by done. unfold placed, member. by rewrite !app_assoc_str. }
  destruct fields as [|g fields].
  - change (Join (map es_property [f]) ("," +:+ nl)) with (es_property f). rewrite Hp.
    apply placed_one; [done..|by apply Reads_declaration].
  - change (Join (map es_property (f :: g :: fields)) ("," +:+ nl))
      with (es_property f +:+ "" +:+ "," +:+ nl +:+ Join (map es_property (g :: fields)) ("," +:+ nl)).
    rewrite <- (app_assoc_str (es_property f)), Hp, !app_assoc_str.
    apply placed_cons; [done..|by apply Reads_declaration|]. apply ReadsMembers_blank; [done|]. by apply IH.
Qed.

Definition es_settings (shards replicas : Z) : json :=
  JObj [("number_of_shards", JNum (FormatUint shards)); ("number_of_replicas", JNum (FormatUint replicas))].
Definition es_document (shards replicas : Z) (properties : list (string * json)) : json :=
  JObj [("settings", es_settings shards replicas);
        ("mappings", JObj [("dynamic", JStr "strict"); ("properties", JObj properties)])].

Lemma es_body_layout shards replicas properties :
  let w1 := nl +:+ "  " in let w2 := nl +:+ "    " in
  es_body shards replicas properties =
  ("{" +:+
    (placed w1 "settings" ("{" +:+
       (placed w2 "number_of_shards" (FormatInt shards) "" +:+ "," +:+
        placed w2 "number_of_replicas" (FormatInt replicas) w1) +:+ "}") "" +:+ "," +:+
     placed w1 "mappings" ("{" +:+
       (placed w2 "dynamic" (json_MarshalString "strict") "" +:+ "," +:+
        placed w2 "properties" ("{" +:+ (nl +:+ Join properties ("," +:+ nl) +:+ w2) +:+ "}") w1) +:+ "}") nl)
   +:+ "}") +:+ nl.
Proof. cbv zeta. unfold es_body, placed, member. rewrite !app_assoc_str. reflexivity. Qed.

Lemma Reads_es_body shards replicas properties kvs :
  (0 <= shards)%Z -> (0 <= replicas)%Z -> ReadsMembers (Join properties ("," +:+ nl) +:+ nl +:+ "    ") kvs ->
  json_Parse (es_body shards replicas properties) = Some (es_document shards replicas kvs).
Proof.
  intros Hs Hr Hp. pose proof (es_body_layout shards replicas properties) as ->.
  apply Reads_Parse; [|done]. rewrite !FormatInt_nonneg by done. apply Reads_object.
  apply placed_cons; [done..|apply Reads_object|apply placed_one; [done..|apply Reads_object]].
  - apply placed_cons; [done..|apply Reads_uint|]. apply placed_one; [done..|apply Reads_uint].
  - apply placed_cons; [done..|by apply Reads_string|]. apply placed_one; [done..|]. apply Reads_object.
    by apply ReadsMembers_blank.
Qed.

Lemma decode_document shards replicas kvs :
  decode_mappings (es_document shards replicas kvs) = as_map (decode_field no_field) (JObj kvs).
Proof.
  transitivity (new ← as_map (decode_field no_field) (JObj kvs); Some (new ∪ ∅)); [done|].
  destruct (as_map _ _) as [m|]; [|done]. cbn. by rewrite (right_id_L ∅ (∪)).
Qed.

Lemma decode_properties fields :
  as_map (decode_field no_field)
    (JObj (map (fun f => (df_name f, declared (mapped_Elasticsearch (df_mapped f)))) fields)) =
  Some (declared_field <$>
    foldl (fun m f => <[df_name f := mapped_Elasticsearch (df_mapped f)]> m) (∅ : gmap string string) fields).
Proof.
  unfold as_map. cbn [as_members mbind option_bind].
  assert (mapM (fun kv : string * json => x ← decode_field no_field kv.2; Some (kv.1, x))
    (map (fun f => (df_name f, declared (mapped_Elasticsearch (df_mapped f)))) fields) =
    Some (map (fun f => (df_name f, declared_field (mapped_Elasticsearch (df_mapped f)))) fields)) as ->.
  { induction fields as [|f fields IH]; [done|]. cbn -[decode_field declared] in *. rewrite decode_declared. cbn -[decode_field declared]. by rewrite IH. }
  cbn. f_equal. rewrite <- (fmap_empty declared_field). generalize (∅ : gmap string string).
  induction fields as [|f fields IH]; intros m; [done|]. cbn. rewrite <- IH. by rewrite fmap_insert.
Qed.

Definition valid_names (meta : TableMeta) (rename : gmap string string) : Prop :=
  Forall (fun c => ValidString (col_Name c) = true) (tm_Columns meta) /\
  map_Forall (fun _ renamed => ValidString renamed = true) rename.

Lemma resolved_names meta include exclude key rename fields :
  valid_names meta rename -> resolveFields meta include exclude key rename = Ok fields ->
  Forall (fun f => ValidString (df_name f) = true /\ mapped_Elasticsearch (df_mapped f) ∈ es_types) fields.
Proof.
  intros [Hcols Hren] Hf. apply Forall_forall. intros f Hin.
  destruct (resolved_field _ _ _ _ _ _ _ Hf Hin) as (Hc & -> & Hm). split; [|by eapply Map_es].
  rewrite Forall_forall in Hcols. unfold destination_name. destruct (rename !! _) as [r|] eqn:Hr; [|auto].
  case_bool_decide; [auto|]. by apply (Hren _ _ Hr).
Qed.

(** The generated mapping is read back as the types the stream writes. *)
Lemma GenerateElasticsearch_declares meta include exclude key rename shards replicas g :
  valid_names meta rename ->
  GenerateElasticsearch meta include exclude key rename shards replicas = Ok g ->
  exists expected created,
    ExpectedElasticsearchFields meta include exclude key rename = Ok expected /\ expected <> ∅ /\
    json_Parse (g_Body g) = Some created /\ decode_mappings created = Some (declared_field <$> expected).
Proof.
  intros Hn (fields & Hf & [= <-])%res_bind_ok. pose proof (resolved_some _ _ _ _ _ _ Hf) as Hne.
  unfold ExpectedElasticsearchFields. rewrite Hf. do 2 eexists. split; [done|]. split; [|split].
  - clear -Hne. destruct fields as [|f fields _] using rev_ind; [done|]. rewrite foldl_app. apply insert_non_empty.
  - cbn [g_Body]. apply Reads_es_body; [case_match; lia..|].
    apply Reads_properties; [done..|by eapply resolved_names].
  - rewrite decode_document. apply decode_properties.
Qed.

(** C22: The mapping generated for a stream is JSON in which every field the stream
    writes, and no other, is declared with the type that the check at startup
    expects, whatever the names and the settings. *)
Theorem generated_mapping_declares meta include exclude key rename shards replicas g :
  valid_names meta rename ->
  GenerateElasticsearch meta include exclude key rename shards replicas = Ok g ->
  exists expected created,
    ExpectedElasticsearchFields meta include exclude key rename = Ok expected /\ expected <> ∅ /\
    json_Parse (g_Body g) = Some created /\ decode_mappings created = Some (declared_field <$> expected).
Proof. apply GenerateElasticsearch_declares. Qed.

(** An index created from the generated mapping, and answered with the mappings
    it was created with, is accepted. *)
Theorem generated_index_accepted `{!MapOrder} {W : Type} `{!HttpOps W} (s : ESink)
    meta include exclude key rename shards replicas g expected created st st' payload index answered :
  valid_names meta rename ->
  GenerateElasticsearch meta include exclude key rename shards replicas = Ok g ->
  ExpectedElasticsearchFields meta include exclude key rename = Ok expected ->
  json_Parse (g_Body g) = Some created ->
  es_do s "GET" ("/" +:+ es_index s +:+ "/_mapping") None st = (st', Ok (200%Z, payload)) ->
  json_Parse payload = Some (JObj [(index, answered)]) ->
  decode_mappings answered = decode_mappings created ->
  ValidateMapping s expected st = (st', Ok ()).
Proof.
  intros Hn Hg He Hc Hdo Hp Hsame.
  destruct (GenerateElasticsearch_declares _ _ _ _ _ _ _ _ Hn Hg) as (expected' & created' & He' & Hne & Hc' & Hdec).
  rewrite He in He'. injection He' as <-. rewrite Hc in Hc'. injection Hc' as <-. rewrite Hdec in Hsame.
  apply ValidateMapping_ok. split; [done|]. exists (declared_field <$> expected). split.
  - unfold fetchMapping. unfold mbind at 1, eff_bind. rewrite Hdo. cbn -[parse_map].
    unfold mbind, eff_bind. cbn -[parse_map].
    assert (parse_map decode_mappings payload = Some {[index := declared_field <$> expected]}) as ->.
    { unfold parse_map. rewrite Hp. cbn. by rewrite Hsame. }
    rewrite map_size_singleton, map_first_singleton. done.
  - intros name want Hl. exists (declared_field want). rewrite lookup_fmap, Hl. split; [done|].
    unfold typesCompatible. cbn [mf_Type declared_field]. by rewrite bool_decide_eq_true_2.
Qed.

(** ** What the table is made of *)

Lemma resolved_selected meta include exclude key rename fields k c :
  resolveFields meta include exclude key rename = Ok fields -> k ∈ key ->
  TableMeta_Column meta k = Some c -> col_Generated c = false ->
  destination_name rename c ∈ map df_name fields.
Proof.
  intros (sel & Hsel & Hall)%resolveFields_spec Hk Hc Hg.
  apply SelectColumns_spec in Hsel as (_ & _ & _ & Hkey).
  destruct (list_elem_of_lookup_1 _ _ (Hkey k c Hk Hc Hg)) as (i & Hi).
  destruct (Forall2_lookup_l _ _ _ _ _ Hall Hi) as (f & Hf & _ & <- & _).
  apply list_elem_of_fmap. exists f. split; [done|by eapply list_elem_of_lookup_2].
Qed.

(** A key spelled as its columns are is ordered by columns of the table, under
    the names they were renamed to. *)
Theorem generated_order_is_columns meta include exclude key rename table g :
  GenerateClickHouse meta include exclude key rename table = Ok g ->
  Forall (fun k => exists c, TableMeta_Column meta k = Some c /\ col_Generated c = false /\ col_Name c = k) key ->
  exists fields width,
    resolveFields meta include exclude key rename = Ok fields /\
    g_Body g = ch_body table
      (map (fun f => ch_column width (df_name f) (mapped_ClickHouse (df_mapped f))) fields
       ++ [ch_column width VersionColumn "UInt64"; ch_column width DeletedColumn "UInt8"])
      (map (fun k => quoteCH (order_name rename k)) key) /\
    Forall (fun k => order_name rename k ∈ map df_name fields) key.
Proof.
  intros (fields & Hf & Hg)%res_bind_ok Hkey. case_bool_decide; [done|]. destruct key as [|k0 key0]; [done|].
  injection Hg as <-. do 2 eexists. split; [done|]. split; [done|].
  rewrite Forall_forall in Hkey. apply Forall_forall. intros k Hk. destruct (Hkey k Hk) as (c & Hc & Hg & <-).
  by eapply (resolved_selected _ _ _ _ _ _ _ _ Hf Hk).
Qed.

(** A quoted identifier as ClickHouse documents it: a backslash takes the next
    byte as it is, and a backquote ends the name. *)
Fixpoint identifier_rest (s : string) : option (string * string) :=
  match s with
  | "" => None
  | String c s1 =>
    if ascii_dec c backslash then
      match s1 with
      | "" => None
      | String d s2 => '(n, r) ← identifier_rest s2; Some (String d n, r)
      end
    else if ascii_dec c backquote then Some ("", s1)
    else '(n, r) ← identifier_rest s1; Some (String c n, r)
  end.
Definition read_identifier (s : string) : option (string * string) :=
  match s with
  | String c s => if ascii_dec c backquote then identifier_rest s else None
  | "" => None
  end.

(** A name without backslashes is read back from its quoted text. *)
Lemma quoteCH_read name rest :
  free_of backslash name = true -> read_identifier (quoteCH name +:+ rest) = Some (name, rest).
Proof.
  intros Hn. unfold quoteCH. rewrite !app_assoc_str.
  change (identifier_rest (str_concat_map (fun c => if ascii_dec c backquote then String backslash "`" else str1 c) name
    +:+ String backquote rest) = Some (name, rest)).
  induction name as [|c name IH]; [done|]. unfold free_of in *. simpl in Hn. apply andb_true_iff in Hn as [Hc Hn].
  apply negb_true_iff, bool_decide_eq_false in Hc. specialize (IH Hn). cbn [str_concat_map].
  destruct (ascii_dec c backquote) as [->|Hq]; cbn [String.append str1 identifier_rest].
  - by rewrite IH.
  - destruct (ascii_dec c backslash) as [|]; [done|]. destruct (ascii_dec c backquote); [done|]. by rewrite IH.
Qed.

(** A name that ends with a backslash escapes its own closing quote. *)
Example quoted_backslash_does_not_close :
  read_identifier (quoteCH (String "a" (str1 backslash)) +:+ " Int64") = None.
Proof. reflexivity. Qed.

(** ** Concrete tables *)

Definition sample_column (name : string) (position : nat) (ty : string) (nullable : bool) : Column :=
  mkColumn name position ty ty false nullable false "" "" 18 2 3 ["draft"; "paid"] [].
Definition orders : TableMeta :=
  mkTableMeta "shop" "orders"
    [sample_column "id" 0 "bigint" false; sample_column "status" 1 "enum" false;
     sample_column "total" 2 "decimal" false; sample_column "metadata" 3 "json" true] ["id"].

Definition generated_of (r : res schema_error Generated) : Generated :=
  match r with Ok g => g | Err _ => mkGenerated "" [] end.
Definition body_of (r : res schema_error Generated) : string := g_Body (generated_of r).
Definition body_lines (r : res schema_error Generated) : list string := SplitByte newline (body_of r).

Example orders_mapping :
  body_lines (GenerateElasticsearch orders [] [] ["id"] {["id" := "order_id"]} 0 (-1))
  = map raw
      ["{"; "  'settings': {"; "    'number_of_shards': 1,"; "    'number_of_replicas': 1"; "  },";
       "  'mappings': {"; "    'dynamic': 'strict',"; "    'properties': {";
       "      'order_id': { 'type': 'long' },"; "      'status': { 'type': 'keyword' },";
       "      'total': { 'type': 'keyword' },"; "      'metadata': { 'type': 'object', 'enabled': false }";
       "    }"; "  }"; "}"; ""].
Proof. vm_compute. reflexivity. Qed.

Example orders_table :
  body_lines (GenerateClickHouse orders [] [] ["id"] {["id" := "order_id"]} "analytics.orders")
  = ["CREATE TABLE IF NOT EXISTS `analytics`.`orders`"; "("; "    `order_id` Int64,";
        "    `status`   LowCardinality(String),"; "    `total`    Decimal(18, 2),"; "    `metadata` Nullable(String),";
        "    `_version` UInt64,"; "    `_is_deleted` UInt8"; ")";
        "ENGINE = ReplacingMergeTree(_version, _is_deleted)"; "ORDER BY (`order_id`);"; ""].
Proof. vm_compute. reflexivity. Qed.

(** A key configured in another case than the column's is resolved, and the table
    is ordered by a name that is none of its columns; a rename misses it too. *)
Example recased_key_orders_by_nothing :
  ResolveKey orders ["ID"] = Ok ["ID"] /\
  (exists g fields,
    GenerateClickHouse orders [] [] ["ID"] {["id" := "order_id"]} "orders" = Ok g /\
    resolveFields orders [] [] ["ID"] {["id" := "order_id"]} = Ok fields /\
    g_Body g = ch_body "orders"
      (map (fun f => ch_column 8 (df_name f) (mapped_ClickHouse (df_mapped f))) fields
       ++ [ch_column 8 VersionColumn "UInt64"; ch_column 8 DeletedColumn "UInt8"]) ["`ID`"] /\
    "ID" ∉ map df_name fields).
Proof.
  split; [reflexivity|]. do 2 eexists. split; [vm_compute; reflexivity|]. split; [vm_compute; reflexivity|].
  split; [vm_compute; reflexivity|]. by apply (bool_decide_unpack _).
Qed.

Lemma orders_names rename : map_Forall (fun _ renamed => ValidString renamed = true) rename -> valid_names orders rename.
Proof. intros Hr. split; [by repeat constructor|done]. Qed.

Lemma generated_mapping_declares_witness :
  exists expected created,
    ExpectedElasticsearchFields orders [] [] ["id"] ∅ = Ok expected /\ expected <> ∅ /\
    json_Parse (body_of (GenerateElasticsearch orders [] [] ["id"] ∅ 1 1)) = Some created /\
    decode_mappings created = Some (declared_field <$> expected).
Proof.
  apply (generated_mapping_declares orders [] [] ["id"] ∅ 1 1 
    (generated_of (GenerateElasticsearch orders [] [] ["id"] ∅ 1 1))).
  - apply orders_names. apply map_Forall_empty.
  - vm_compute. reflexivity.
Defined.
