(* ===== verification/Supervisor.v ===== *)
(** * Running streams ([internal/supervisor])

    The router of events to streams ([router.go]), the choice of a position all
    streams can start from, the state machine of the initial table scan
    ([snapshot.go]) and how a stream is built from its configuration
    ([build.go]); groups and readiness are in [Tasks], the order of a run in
    [Startup]. Connections, metrics and log lines are left out; what a stream's
    pipeline does with a scan is an operation, whose two sides are [Runner.Run]
    and [Snapshot.Events], and whose steps [Pipelines] has. *)

From Stdlib Require Import Ascii.
From S2P Require Import Prelude GoStd Schema Cdc Config Transform Batcher Sink Checkpoint Runner Destination Snapshot Binlog ElasticsearchAdmin.

(** ** router.go *)

Section Router.
Context `{GoLib}.

(** Channels by their numbers. *)
Record Router := mkRouter {
  ro_byTable : gmap string (list nat);
  ro_closed : bool;
  ro_channels : list nat
}.

Definition NewRouter : Router := mkRouter ∅ false [].

Definition Router_Add (r : Router) (table : string) (out : nat) : Router :=
  let key := ToLower table in
  mkRouter (<[key := default [] (ro_byTable r !! key) ++ [out]]> (ro_byTable r)) (ro_closed r)
    (ro_channels r ++ [out]).

Definition Tables `{MapOrder} (r : Router) : list string := map fst (map_range (ro_byTable r)).

(** A send that ends early when the context does, and the closing of a
    channel. *)
Class QueueOps (W : Type) := {
  queue_Send : nat -> ChangeEvent -> eff W outside_error ();
  queue_Close : nat -> W -> W
}.

Context {W : Type} `{!QueueOps W}.

Fixpoint send_all (targets : list nat) (ev : ChangeEvent) : eff W outside_error () := fun w =>
  match targets with
  | [] => (w, Ok ())
  | out :: targets =>
    match queue_Send out ev w with
    | (w, Err e) => (w, Err e)
    | (w, Ok _) => send_all targets ev w
    end
  end.

Definition Route (r : Router) (ev : ChangeEvent) : eff W outside_error () := fun w =>
  match ev_Meta ev with
  | None => (w, Ok ())
  | Some meta => send_all (default [] (ro_byTable r !! ToLower (TableMeta_Name meta))) ev w
  end.

(** [Close], which [closeOnce] makes idempotent. *)
Definition Router_Close (rw : Router * W) : Router * W :=
  let '(r, w) := rw in
  if ro_closed r then (r, w)
  else (mkRouter (ro_byTable r) true (ro_channels r), foldl (fun w out => queue_Close out w) w (ro_channels r)).

(** The loop of [startReader]: every event of the reader is routed, and the
    queues are closed however it ends. *)
Fixpoint route_events (r : Router) (evs : list ChangeEvent) : eff W outside_error () := fun w =>
  match evs with
  | [] => (w, Ok ())
  | ev :: evs =>
    match Route r ev w with
    | (w, Err e) => (w, Err e)
    | (w, Ok _) => route_events r evs w
    end
  end.

(** The wiring of [stream]: every stream's channel under its table. *)
Definition build_router (streams : list (string * nat)) : Router :=
  foldl (fun r s => Router_Add r s.1 s.2) NewRouter streams.

(** *** What reaches a stream *)

(** The contents of a queue, which only a send to it changes. *)
Class QueueLaws := {
  queued : W -> nat -> list ChangeEvent;
  send_queued : forall out ev w w', queue_Send out ev w = (w', Ok ()) ->
    forall c, queued w' c = queued w c ++ (if bool_decide (c = out) then [ev] else [])
}.

Context `{!QueueLaws}.

Lemma NoDup_map_filter {A B} (f : A -> B) (P : A -> bool) l : NoDup (map f l) -> NoDup (map f (List.filter P l)).
Proof.
  induction l as [|s l IH]; [constructor|]. simpl. intros [Hs Hnd]%NoDup_cons. destruct (P s); [|auto]. simpl.
  apply NoDup_cons. split; [|auto]. intros (x & Hx & Hin)%list_elem_of_fmap. apply Hs. apply list_elem_of_fmap.
  exists x. split; [done|]. apply list_elem_of_In, filter_In in Hin as [Hin _]. by apply list_elem_of_In.
Qed.

Lemma byTable_build streams key :
  default [] (ro_byTable (build_router streams) !! key) =
    map snd (List.filter (fun s => bool_decide (ToLower s.1 = key)) streams).
Proof.
  unfold build_router. induction streams as [|s streams IH] using rev_ind; [done|].
  rewrite foldl_app, List.filter_app, map_app. simpl. rewrite <- IH.
  case_bool_decide as Hk; simpl.
  - by rewrite Hk, lookup_insert_eq.
  - by rewrite lookup_insert_ne, app_nil_r.
Qed.

Lemma send_all_queued targets ev w w' c :
  NoDup targets -> send_all targets ev w = (w', Ok ()) ->
  queued w' c = queued w c ++ (if bool_decide (c ∈ targets) then [ev] else []).
Proof.
  intros Hnd. revert w. induction Hnd as [|out targets Hout Hnd IH]; intros w Hs; simpl in Hs.
  - injection Hs as <-. by rewrite bool_decide_eq_false_2, app_nil_r by apply not_elem_of_nil.
  - destruct (queue_Send out ev w) as [w1 [[]|]] eqn:E; [|done].
    rewrite (IH _ Hs), (send_queued _ _ _ _ E c), <- (assoc_L (++)). f_equal.
    destruct (decide (c = out)) as [->|Hne].
    + rewrite (bool_decide_eq_true_2 (out = out)), (bool_decide_eq_false_2 (out ∈ targets)) by done.
      by rewrite bool_decide_eq_true_2 by left.
    + rewrite (bool_decide_eq_false_2 (c = out)) by done. simpl.
      rewrite (bool_decide_ext (c ∈ out :: targets) (c ∈ targets)); [done|].
      rewrite elem_of_cons. naive_solver.
Qed.

(** Whether an event is of a table, by name without regard to case. *)
Definition of_table (table : string) (ev : ChangeEvent) : bool :=
  match ev_Meta ev with Some meta => EqualFold (TableMeta_Name meta) table | None => false end.

Lemma Route_queued streams ev w w' table c :
  NoDup (map snd streams) -> (table, c) ∈ streams ->
  Route (build_router streams) ev w = (w', Ok ()) ->
  queued w' c = queued w c ++ List.filter (of_table table) [ev].
Proof.
  intros Hnd Hc. unfold Route, of_table. cbn [List.filter]. destruct (ev_Meta ev) as [meta|].
  2: { intros [= <-]. by rewrite app_nil_r. }
  rewrite byTable_build. intros Hs.
  set (P := fun s : string * nat => bool_decide (ToLower s.1 = ToLower (TableMeta_Name meta))) in *.
  assert (NoDup (map snd (List.filter P streams))) as Hnd' by by apply NoDup_map_filter.
  rewrite (send_all_queued _ _ _ _ c Hnd' Hs). f_equal. unfold EqualFold.
  rewrite (bool_decide_ext _ (ToLower (TableMeta_Name meta) = ToLower table)); [by case_bool_decide|].
  rewrite list_elem_of_fmap. split.
  - intros ([t c'] & -> & Hin). apply list_elem_of_In, filter_In in Hin as [Hin HP]. apply list_elem_of_In in Hin.
    assert (t = table) as ->.
    { clear -Hnd Hc Hin. induction streams as [|s streams IH]; [by apply not_elem_of_nil in Hin|].
      simpl in Hnd. apply NoDup_cons in Hnd as [Hs Hnd]. simpl in *.
      apply elem_of_cons in Hc as [<-|Hc], Hin as [Hin|Hin]; try (by simplify_eq); [| |auto]; simpl in *.
      - destruct Hs. apply list_elem_of_fmap. by exists (t, c').
      - subst s. destruct Hs. apply list_elem_of_fmap. by exists (table, c'). }
    unfold P in HP. by apply bool_decide_eq_true in HP.
  - intros Heq. exists (table, c). split; [done|]. apply list_elem_of_In, filter_In.
    split; [by apply list_elem_of_In|]. unfold P. by apply bool_decide_eq_true_2.
Qed.

(** Every stream receives exactly the events of its table, in the order they
    were read and once each, whatever other streams share the reader. *)
Theorem route_delivers streams evs w w' table c :
  NoDup (map snd streams) -> (table, c) ∈ streams ->
  route_events (build_router streams) evs w = (w', Ok ()) ->
  queued w' c = queued w c ++ List.filter (of_table table) evs.
Proof.
  intros Hnd Hc. revert w. induction evs as [|ev evs IH]; intros w Hr; cbn [route_events] in Hr.
  - injection Hr as <-. by rewrite app_nil_r.
  - destruct (Route _ ev w) as [w1 [[]|]] eqn:E; [|done].
    rewrite (IH _ Hr), (Route_queued _ _ _ _ _ _ Hnd Hc E), <- (assoc_L (++)), <- List.filter_app. done.
Qed.

End Router.

(** ** A position for all streams

    Positions are GTID sets of [go-mysql]: what is used of them is whether one
    contains another. *)

Inductive position_error := ENoPosition | EUnreadablePosition (stream position : string) | EDiverged.

Section Positions.
Context `{MapOrder} `{GtidLib}.

Fixpoint parse_positions (positions : list (string * string)) (parsed : gmap string GTIDSet)
  : res position_error (gmap string GTIDSet) :=
  match positions with
  | [] => Ok parsed
  | (stream, text) :: positions =>
    match ParseMysqlGTIDSet text with
    | None => Err (EUnreadablePosition stream text)
    | Some set => parse_positions positions (<[stream := set]> parsed)
    end
  end.

(** Whether every other stream's set contains the candidate. *)
Definition contained_in_all (parsed : gmap string GTIDSet) (stream : string) (candidate : GTIDSet) : bool :=
  forallb (fun o => bool_decide (o.1 = stream) || Contain o.2 candidate) (map_range parsed).

Definition sharedStartPosition (positions : gmap string string) : res position_error string :=
  if bool_decide (positions = ∅) then Err ENoPosition
  else
    parsed ← parse_positions (map_range positions) ∅;
    match List.find (fun c => contained_in_all parsed c.1 c.2) (map_range parsed) with
    | Some (stream, _) => Ok (default "" (positions !! stream))
    | None => Err EDiverged
    end.

Lemma parse_positions_ok l parsed out :
  NoDup (map fst l) -> parse_positions l parsed = Ok out ->
  forall s, out !! s = (match list_find (fun x => x.1 = s) l with
                        | Some (_, (_, text)) => ParseMysqlGTIDSet text
                        | None => parsed !! s end).
Proof.
  revert parsed. induction l as [|[stream text] l IH]; intros parsed Hnd Hp s; simpl in *; [by injection Hp as <-|].
  apply NoDup_cons in Hnd as [Hs Hnd]. destruct (ParseMysqlGTIDSet text) as [set|] eqn:E; [|done].
  rewrite (IH _ Hnd Hp s). case_decide as Hd; simpl in *.
  - subst s. destruct (list_find _ l) as [[i [s' t]]|] eqn:F; simpl.
    + apply list_find_Some in F as (Hi & Heq & _). simpl in Heq. subst s'. destruct Hs.
      apply list_elem_of_fmap. exists (stream, t). split; [done|]. by eapply list_elem_of_lookup_2.
    + by rewrite E, lookup_insert_eq.
  - destruct (list_find _ l) as [[i [s' t]]|]; simpl; [done|]. by rewrite lookup_insert_ne.
Qed.

Lemma map_range_NoDup {A} (m : gmap string A) : NoDup (map fst (map_range m)).
Proof.
  apply (NoDup_Permutation_proper _ (map fst (map_to_list m))); [|apply NoDup_fst_map_to_list].
  by rewrite (map_range_perm A m).
Qed.

(** What the streams' positions parse to. *)
Definition position_of (positions : gmap string string) (s : string) : option GTIDSet :=
  text ← positions !! s; ParseMysqlGTIDSet text.

Lemma parsed_positions positions parsed :
  parse_positions (map_range positions) ∅ = Ok parsed -> forall s, parsed !! s = position_of positions s.
Proof.
  intros Hp s. rewrite (parse_positions_ok _ _ _ (map_range_NoDup positions) Hp s). unfold position_of.
  destruct (list_find _ (map_range positions)) as [[i [s' t]]|] eqn:F; simpl.
  - apply list_find_Some in F as (Hi & Heq & _). simpl in Heq. subst s'.
    apply list_elem_of_lookup_2, map_range_in in Hi. by rewrite Hi.
  - rewrite lookup_empty. destruct (positions !! s) as [t|] eqn:E; [|done]. exfalso.
    apply list_find_None in F. rewrite Forall_forall in F. by apply (F (s, t)); [apply map_range_in|].
Qed.

(** A stream whose position every other stream has reached. *)
Definition behind_all (positions : gmap string string) (s : string) : Prop :=
  exists set, position_of positions s = Some set /\
    forall o other, o <> s -> position_of positions o = Some other -> Contain other set = true.

Lemma contained_in_all_spec parsed positions s set :
  (forall s, parsed !! s = position_of positions s) -> parsed !! s = Some set ->
  contained_in_all parsed s set = true <-> behind_all positions s.
Proof.
  intros Hp Hs. unfold contained_in_all, behind_all. rewrite forallb_forall. split.
  - intros Hall. exists set. split; [by rewrite <- Hp|]. intros o other Hne Ho. rewrite <- Hp in Ho.
    specialize (Hall (o, other)). simpl in Hall. rewrite bool_decide_eq_false_2 in Hall by done.
    apply Hall. apply list_elem_of_In. by apply map_range_in.
  - intros (set' & Hs' & Hall) [o other] Hin%list_elem_of_In%map_range_in. simpl.
    rewrite <- Hp, Hs in Hs'. injection Hs' as <-. case_bool_decide; [done|]. simpl.
    eapply Hall; [done|]. by rewrite <- Hp.
Qed.

Lemma parse_positions_all l parsed out :
  parse_positions l parsed = Ok out -> Forall (fun x => is_Some (ParseMysqlGTIDSet x.2)) l.
Proof.
  revert parsed. induction l as [|[s text] l IH]; intros parsed; cbn; [constructor|].
  destruct (ParseMysqlGTIDSet text) as [set|] eqn:E; [|done]. intros Hp%IH. constructor; [by exists set|done].
Qed.

Lemma sharedStart_readable positions p o text :
  sharedStartPosition positions = Ok p -> positions !! o = Some text -> is_Some (ParseMysqlGTIDSet text).
Proof.
  unfold sharedStartPosition. case_bool_decide; [done|].
  destruct (parse_positions (map_range positions) ∅) as [parsed|e] eqn:Hp; cbn [mbind res_bind]; [|done].
  intros _ Ho. apply parse_positions_all in Hp. rewrite Forall_forall in Hp. apply (Hp (o, text)). by apply map_range_in.
Qed.

Lemma sharedStart_ok positions p :
  sharedStartPosition positions = Ok p -> exists s, positions !! s = Some p /\ behind_all positions s.
Proof.
  unfold sharedStartPosition. case_bool_decide; [done|].
  destruct (parse_positions (map_range positions) ∅) as [parsed|e] eqn:Hp; cbn [mbind res_bind]; [|done].
  pose proof (parsed_positions _ _ Hp) as Hall.
  destruct (List.find _ (map_range parsed)) as [[s set]|] eqn:F; [|done]. intros [= <-].
  apply List.find_some in F as [Hin%list_elem_of_In%map_range_in Hc]. simpl in Hc.
  apply (contained_in_all_spec parsed positions s set Hall Hin) in Hc as Hb. exists s. split; [|done].
  rewrite Hall in Hin. unfold position_of in Hin. by destruct (positions !! s).
Qed.

(** The shared start is the position of a stream that every other stream has
    already reached, so reading from it repeats changes for some streams and
    skips none for any; it is found exactly when there is such a stream. *)
Theorem sharedStart_behind_all positions :
  positions <> ∅ -> (forall s text, positions !! s = Some text -> is_Some (ParseMysqlGTIDSet text)) ->
  match sharedStartPosition positions with
  | Ok p => exists s, positions !! s = Some p /\ behind_all positions s
  | Err e => e = EDiverged /\ forall s, ~ behind_all positions s
  end.
Proof.
  intros Hne Hparse. destruct (sharedStartPosition positions) as [p|e] eqn:Hstart; [by apply sharedStart_ok|].
  revert Hstart. unfold sharedStartPosition. rewrite bool_decide_eq_false_2 by done.
  destruct (parse_positions (map_range positions) ∅) as [parsed|e'] eqn:Hp; cbn [mbind res_bind].
  - pose proof (parsed_positions _ _ Hp) as Hall.
    destruct (List.find _ (map_range parsed)) as [[s set]|] eqn:F; [done|].
    intros [= <-]. split; [done|]. intros s Hb. pose proof Hb as (set & Hs & _). rewrite <- Hall in Hs.
    apply (contained_in_all_spec parsed positions s set Hall Hs) in Hb.
    pose proof (List.find_none _ _ F (s, set)) as Hn. simpl in Hn. rewrite Hn in Hb; [done|].
    apply list_elem_of_In. by apply map_range_in.
  - exfalso. assert (forall l acc, Forall (fun x => is_Some (ParseMysqlGTIDSet x.2)) l ->
        is_ok (parse_positions l acc) = true) as Hok.
    { induction l as [|[s t] l IH]; intros acc Hl; [done|]. apply Forall_cons in Hl as [[set Hs] Hl].
      simpl in *. rewrite Hs. by apply IH. }
    specialize (Hok (map_range positions) ∅). rewrite Hp in Hok. discriminate Hok.
    apply Forall_forall. intros [s t] Hin%map_range_in. by eapply Hparse.
Qed.

End Positions.

(** ** snapshot.go: the initial scan *)

Definition seqBlockSize : Z := 10000.

Section Backfill.
Context `{ScanLib}.

(** A stream's runtime, as far as the scan uses it; [sr_alloc] is the only part
    that changes. *)
Record StreamRuntime := mkStreamRuntime {
  sr_cfg : Stream;
  sr_meta : TableMeta;
  sr_alloc : Allocator
}.

Definition set_alloc (a : Allocator) (rt : StreamRuntime) : StreamRuntime :=
  mkStreamRuntime (sr_cfg rt) (sr_meta rt) a.

(** The source, the destination's administration, and the scan of a stream
    through its pipeline: [rt.runner.Run(ctx, scanner.Events(ctx))] with the
    error of the first, [scanner.Err()] and [scanner.Done()]; [context_Err] is
    [ctx.Err()]. *)
Class BackfillOps (W : Type) := {
  source_gtid : eff W string string;
  source_rows : TableMeta -> W -> W * option Z;
  replica_Open : string -> eff W string ();
  replica_Close : W -> W;
  pipe_Scan : string -> Snapshotter -> W -> W * (res string () * option string * bool);
  sink_AliasTargets : string -> eff W string (list string);
  sink_BeginBulkLoad : string -> eff W string LoadSettings;
  sink_EndBulkLoad : string -> LoadSettings -> eff W string ();
  sink_ForceMerge : string -> eff W string ();
  sink_PromoteAlias : string -> eff W string ();
  context_Err : eff W string ()
}.

Inductive sup_error :=
  | ESupLoad (e : store_error)
  | ESupSave (e : store_error)
  | ESourcePosition (cause : string)
  | ENoTransactions
  | EAllocate (e : alloc_error)
  | EReplica (cause : string)
  | ESupKey (e : schema_error)
  | EScanner (e : snap_error)
  | EPipeline (cause : string)
  | ETableScan (cause : string)
  | EContext
  | EAlias (cause : string).

Context {W : Type} `{!StoreOps W, !ClockOps W, !BackfillOps W}.

Definition currentPosition : eff W sup_error string := fun w =>
  match source_gtid w with
  | (w, Err e) => (w, Err (ESourcePosition e))
  | (w, Ok gtid) =>
    let gtid := ReplaceByte (ascii_of_nat 10) "" gtid in
    (w, if bool_decide (TrimSpace gtid = "") then Err ENoTransactions else Ok gtid)
  end.

(** No row count, or a negative one, is zero. *)
Definition estimateRows (meta : TableMeta) (w : W) : W * Z :=
  let '(w, rows) := source_rows meta w in
  (w, match rows with Some n => if (n <? 0)%Z then 0%Z else n | None => 0%Z end).

Definition start_snapshot (stream position : string) (baseSeq total : Z) (c : Checkpoint) : Checkpoint :=
  mkCheckpoint stream (cp_GTIDSet c) (cp_SnapshotDone c) position (cp_SnapshotCursor c)
    baseSeq (cp_SnapshotRowsDone c) total (cp_SeqWatermark c)
    (cp_LastEventTsMs c) (cp_LastError c) (cp_SchemaVersion c) (cp_UpdatedAt c).
Definition start_streaming (stream position : string) (c : Checkpoint) : Checkpoint :=
  mkCheckpoint stream position true (cp_SnapshotStartGTID c) (cp_SnapshotCursor c)
    (cp_SnapshotBaseSeq c) (cp_SnapshotRowsDone c) (cp_SnapshotRowsTotal c) (cp_SeqWatermark c)
    (cp_LastEventTsMs c) (cp_LastError c) (cp_SchemaVersion c) (cp_UpdatedAt c).
Definition finish_snapshot (stream : string) (c : Checkpoint) : Checkpoint :=
  mkCheckpoint stream (cp_GTIDSet c) true (cp_SnapshotStartGTID c) (cp_SnapshotCursor c)
    (cp_SnapshotBaseSeq c) (cp_SnapshotRowsDone c) (cp_SnapshotRowsDone c) (cp_SeqWatermark c)
    (cp_LastEventTsMs c) (cp_LastError c) (cp_SchemaVersion c) (cp_UpdatedAt c).

Definition stream_name (rt : StreamRuntime) : string := st_Name (sr_cfg rt).

Definition startWithoutSnapshot (rt : StreamRuntime) (cp : Checkpoint) : eff W sup_error string := fun w =>
  if negb (bool_decide (cp_GTIDSet cp = "")) then (w, Ok (cp_GTIDSet cp))
  else match currentPosition w with
  | (w, Err e) => (w, Err e)
  | (w, Ok position) =>
    match store_Save (start_streaming (stream_name rt) position cp) w with
    | (w, Err e) => (w, Err (ESupSave e))
    | (w, Ok _) => (w, Ok position)
    end
  end.

Definition markScanStarted (cp : Checkpoint) : eff (StreamRuntime * W) sup_error Checkpoint := fun '(rt, w) =>
  if negb (bool_decide (cp_SnapshotStartGTID cp = "")) then ((rt, w), Ok cp)
  else match currentPosition w with
  | (w, Err e) => ((rt, w), Err e)
  | (w, Ok position) =>
    match Next (sr_alloc rt, w) with
    | ((a, w), Err e) => ((set_alloc a rt, w), Err (EAllocate e))
    | ((a, w), Ok baseSeq) =>
      let rt := set_alloc a rt in
      let '(w, total) := estimateRows (sr_meta rt) w in
      let cp := start_snapshot (stream_name rt) position baseSeq total cp in
      match store_Save cp w with
      | (w, Err e) => ((rt, w), Err (ESupSave e))
      | (w, Ok _) => ((rt, w), Ok cp)
      end
    end
  end.

Definition newScanner (rt : StreamRuntime) (cp : Checkpoint) : res sup_error Snapshotter :=
  key ← map_err ESupKey (ResolveKey (sr_meta rt) (m_Key (st_Mapping (sr_cfg rt))));
  map_err EScanner (NewSnapshotter (mkSOptions true (Some (sr_meta rt)) key
    (sc_ChunkSize (st_Snapshot (sr_cfg rt))) (sc_MaxRateRowsPerSec (st_Snapshot (sr_cfg rt)))
    (cp_SnapshotCursor cp) (cp_SnapshotBaseSeq cp) true)).

(** Whether the sink is Elasticsearch and has an alias for readers. *)
Definition has_alias (rt : StreamRuntime) : bool :=
  bool_decide (si_Type (st_Sink (sr_cfg rt)) = SinkElasticsearch) && negb (bool_decide (si_Alias (st_Sink (sr_cfg rt)) = "")).

Definition beginBulkLoad (rt : StreamRuntime) : eff W string LoadSettings := fun w =>
  if negb (has_alias rt) then (w, Ok no_settings)
  else match sink_AliasTargets (stream_name rt) w with
  | (w, Err e) => (w, Err e)
  | (w, Ok targets) =>
    if existsb (fun index => bool_decide (index = si_Index (st_Sink (sr_cfg rt)))) targets then (w, Ok no_settings)
    else sink_BeginBulkLoad (stream_name rt) w
  end.

(** [scan]: what a failed preparation or a failed restoration leaves is only
    reported. Whether the scan reached the end is the second part. *)
Definition scan (rt : StreamRuntime) (scanner : Snapshotter) : eff W sup_error bool := fun w =>
  let '(w, load) := match beginBulkLoad rt w with (w, Ok l) => (w, l) | (w, Err _) => (w, no_settings) end in
  let restore w := if ls_applied load then (sink_EndBulkLoad (stream_name rt) load w).1 else w in
  match pipe_Scan (stream_name rt) scanner w with
  | (w, (Err e, _, _)) => (restore w, Err (EPipeline e))
  | (w, (Ok _, Some e, _)) => (restore w, Err (ETableScan e))
  | (w, (Ok _, None, false)) => (restore w, Ok false)
  | (w, (Ok _, None, true)) =>
    let w := if ls_applied load then (sink_ForceMerge (stream_name rt) w).1 else w in
    (restore w, Ok true)
  end.

Definition promoteAlias (rt : StreamRuntime) : eff W sup_error () := fun w =>
  if negb (has_alias rt) then (w, Ok ())
  else match sink_AliasTargets (stream_name rt) w with
  | (w, Err e) => (w, Err (EAlias e))
  | (w, Ok _) => eff_map_err EAlias (sink_PromoteAlias (stream_name rt)) w
  end.

Definition finishScan (rt : StreamRuntime) : eff W sup_error string := fun w =>
  match store_Load (stream_name rt) w with
  | (w, Err e) => (w, Err (ESupLoad e))
  | (w, Ok cp) =>
    match store_Save (finish_snapshot (stream_name rt) cp) w with
    | (w, Err e) => (w, Err (ESupSave e))
    | (w, Ok _) =>
      match promoteAlias rt w with
      | (w, Err e) => (w, Err e)
      | (w, Ok _) => (w, Ok (cp_SnapshotStartGTID cp))
      end
    end
  end.

(** [runScan]; [snapshotDSN] is [source.snapshot_dsn], and the replica is closed
    on every way out. *)
Definition runScan (snapshotDSN : string) (rt : StreamRuntime) (cp : Checkpoint) : eff W sup_error string := fun w =>
  let replica := negb (bool_decide (snapshotDSN = "")) in
  match (if replica then replica_Open snapshotDSN w else (w, Ok ())) with
  | (w, Err e) => (w, Err (EReplica e))
  | (w, Ok _) =>
    let '(w, outcome) :=
      match newScanner rt cp with
      | Err e => (w, Err e)
      | Ok scanner =>
        match scan rt scanner w with
        | (w, Err e) => (w, Err e)
        | (w, Ok false) =>
          match context_Err w with
          | (w, Err _) => (w, Err EContext)
          | (w, Ok _) => (w, Ok "")
          end
        | (w, Ok true) => finishScan rt w
        end
      end in
    (if replica then replica_Close w else w, outcome)
  end.

Definition snapshotIfNeeded (snapshotDSN : string) : eff (StreamRuntime * W) sup_error string := fun '(rt, w) =>
  match store_Load (stream_name rt) w with
  | (w, Err (StoreFailed e)) => ((rt, w), Err (ESupLoad (StoreFailed e)))
  | (w, loaded) =>
    let cp := match loaded with Ok cp => cp | Err _ => zero_checkpoint end in
    if cp_SnapshotDone cp && negb (bool_decide (cp_GTIDSet cp = "")) then ((rt, w), Ok (cp_GTIDSet cp))
    else if negb (sc_Enabled (st_Snapshot (sr_cfg rt))) then
      let '(w, outcome) := startWithoutSnapshot rt cp w in ((rt, w), outcome)
    else match markScanStarted cp (rt, w) with
    | (rtw, Err e) => (rtw, Err e)
    | ((rt, w), Ok cp) => let '(w, outcome) := runScan snapshotDSN rt cp w in ((rt, w), outcome)
    end
  end.

(** [backfill]: the streams one after the other, with the position of each. *)
Fixpoint backfill (snapshotDSN : string) (runtimes : list StreamRuntime) (positions : gmap string string) (w : W)
  : list StreamRuntime * W * res sup_error (gmap string string) :=
  match runtimes with
  | [] => ([], w, Ok positions)
  | rt :: runtimes =>
    match snapshotIfNeeded snapshotDSN (rt, w) with
    | ((rt, w), Err e) => (rt :: runtimes, w, Err e)
    | ((rt, w), Ok position) =>
      let '(rts, w, outcome) := backfill snapshotDSN runtimes (<[stream_name rt := position]> positions) w in
      (rt :: rts, w, outcome)
    end
  end.

(** The allocator every streamed change of every stream takes its version from
    ([stream] passes [runtimes[0].alloc] to the reader). *)
Definition shared_sequencer (runtimes : list StreamRuntime) : option Allocator := sr_alloc <$> head runtimes.

End Backfill.

(** ** What the initial scan achieves *)

Section BackfillFacts.
Context `{ScanLib} {W : Type} `{!StoreOps W, !StoreLaws W, !ClockOps W, !BackfillOps W}.

(** Nothing here but the store and the pipeline touches the checkpoints. A scan
    that stopped short without an error was stopped by its context, and a context
    that has ended has ended. *)
Class BackfillLaws : Prop := {
  gtid_frame : forall w, view (source_gtid w).1 = view w;
  rows_frame : forall m w, view (source_rows m w).1 = view w;
  close_frame : forall w, view (replica_Close w) = view w;
  targets_frame : forall s w, view (sink_AliasTargets s w).1 = view w;
  promote_frame : forall s w, view (sink_PromoteAlias s w).1 = view w;
  scan_stopped : forall s sn w w', pipe_Scan s sn w = (w', (Ok (), None, false)) -> is_ok (context_Err w').2 = false;
  context_ended : forall s l w, is_ok (context_Err w).2 = false -> is_ok (context_Err (sink_EndBulkLoad s l w).1).2 = false
}.
Context `{!BackfillLaws}.

Lemma saved_view cp w w' :
  store_Save cp w = (w', Ok ()) -> exists c, saved_as store_key cp c /\ view w' !! store_key (cp_Stream cp) = Some c.
Proof.
  intros (c & Hc & Hv)%save_ok. exists c. split; [done|]. by rewrite Hv, lookup_insert_eq.
Qed.

Lemma saved_as_fields cp c :
  saved_as store_key cp c -> cp_GTIDSet c = cp_GTIDSet cp /\ cp_SnapshotDone c = cp_SnapshotDone cp /\
    cp_SnapshotStartGTID c = cp_SnapshotStartGTID cp /\ cp_SnapshotBaseSeq c = cp_SnapshotBaseSeq cp /\
    cp_SeqWatermark c = cp_SeqWatermark cp.
Proof.
  intros (t & n & _ & [-> | ->]); split_and!; try done; unfold default_version; by case_match.
Qed.

Lemma promoteAlias_view rt w : view (promoteAlias rt w).1 = view w.
Proof.
  unfold promoteAlias. case_match; [done|]. pose proof (targets_frame (stream_name rt) w) as Ht.
  destruct (sink_AliasTargets _ w) as [w1 [?|]]; [|done]. unfold eff_map_err.
  pose proof (promote_frame (stream_name rt) w1). destruct (sink_PromoteAlias _ w1) as [w2 ?]. simpl in *. congruence.
Qed.

(** What [finishScan] leaves in the stream's row once it has saved it. *)
Lemma finishScan_view rt w w' outcome :
  finishScan rt w = (w', outcome) -> (forall e, outcome <> Err (ESupLoad e) /\ outcome <> Err (ESupSave e)) ->
  exists cp c, view w !! store_key (stream_name rt) = Some cp /\ view w' !! store_key (stream_name rt) = Some c /\
    cp_SnapshotDone c = true /\ cp_GTIDSet c = cp_GTIDSet cp /\ cp_SnapshotStartGTID c = cp_SnapshotStartGTID cp /\
    forall p, outcome = Ok p -> p = cp_SnapshotStartGTID cp.
Proof.
  unfold finishScan. intros Hf Hout. destruct (store_Load _ w) as [w1 [cp|e]] eqn:HL.
  2: { injection Hf as <- <-. by destruct (proj1 (Hout e)). }
  destruct (store_Save _ w1) as [w2 [[]|e]] eqn:HS.
  2: { injection Hf as <- <-. by destruct (proj2 (Hout e)). }
  apply load_ok in HL. apply saved_view in HS as (c & (Hg & Hd & Hst & _)%saved_as_fields & Hv). simpl in *.
  pose proof (promoteAlias_view rt w2) as Hp. exists cp, c.
  destruct (promoteAlias rt w2) as [w3 [[]|e]]; injection Hf as <- <-; simpl in Hp;
    (split_and!; [done|by rewrite Hp|done|done|done|]); by intros p [= <-].
Qed.

Lemma TrimSpace_empty : TrimSpace "" = "".
Proof. done. Qed.

Lemma startWithoutSnapshot_view rt cp w w' p :
  startWithoutSnapshot rt cp w = (w', Ok p) ->
  cp_GTIDSet cp <> "" /\ w' = w /\ p = cp_GTIDSet cp \/
  exists c, view w' !! store_key (stream_name rt) = Some c /\ cp_GTIDSet c = p /\ p <> "".
Proof.
  unfold startWithoutSnapshot. case_bool_decide as Hg; simpl; [|by intros [= <- <-]; left].
  unfold currentPosition. destruct (source_gtid w) as [w1 [g|]]; [|done].
  case_bool_decide as Ht; [done|]. destruct (store_Save _ w1) as [w2 [[]|]] eqn:HS; [|done].
  intros [= <- <-]. right. apply saved_view in HS as (c & (Hgc & _)%saved_as_fields & Hv).
  exists c. split_and!; [done|done|]. intros E. by rewrite E, TrimSpace_empty in Ht.
Qed.

(** A scan that did not end, and did not fail, was stopped. *)
Lemma scan_unfinished rt sn w w' : scan rt sn w = (w', Ok false) -> is_ok (context_Err w').2 = false.
Proof.
  unfold scan. destruct (match beginBulkLoad rt w with (w, Ok l) => _ | _ => _ end) as [w1 load].
  destruct (pipe_Scan _ sn w1) as [w2 [[[[]|] [|]] [|]]] eqn:Hp; try done. intros [= <-].
  apply scan_stopped in Hp. case_match; [by apply context_ended|done].
Qed.

Lemma runScan_view dsn rt cp w w' p :
  runScan dsn rt cp w = (w', Ok p) ->
  exists c, view w' !! store_key (stream_name rt) = Some c /\ cp_SnapshotDone c = true /\ p = cp_SnapshotStartGTID c.
Proof.
  unfold runScan. destruct (if negb _ then replica_Open dsn w else (w, Ok ())) as [w1 [[]|]]; [|done].
  destruct (newScanner rt cp) as [sn|]; [|done]. destruct (scan rt sn w1) as [w2 [[]|]] eqn:Hsc; try done.
  2: { apply scan_unfinished in Hsc. by destruct (context_Err w2) as [? [|]]. }
  destruct (finishScan rt w2) as [w3 outcome] eqn:Hf. intros [= <- ->].
  destruct (finishScan_view _ _ _ _ Hf) as (c0 & c & _ & Hv & Hd & _ & Hs & Hp); [done|].
  exists c. rewrite Hs. split_and!; [|done|by apply Hp]. case_match; [by rewrite close_frame|done].
Qed.

(** C33: No stream is streamed from a position its row does not hold: it is where
    the stream had got to, or, once the row says that the snapshot is done,
    where the source stood before the scan began; with snapshots enabled, the
    row always says so. *)
Theorem streaming_starts_recorded dsn rt w rt' w' p :
  snapshotIfNeeded dsn (rt, w) = ((rt', w'), Ok p) ->
  exists c, view w' !! store_key (stream_name rt) = Some c /\
    (p = cp_GTIDSet c /\ p <> "" \/ cp_SnapshotDone c = true /\ p = cp_SnapshotStartGTID c) /\
    (sc_Enabled (st_Snapshot (sr_cfg rt)) = true -> cp_SnapshotDone c = true).
Proof.
  unfold snapshotIfNeeded. pose proof (load_frame (stream_name rt) w) as Hfr.
  destruct (store_Load (stream_name rt) w) as [w1 loaded] eqn:HL. simpl in Hfr.
  set (cp := match loaded with Ok cp => cp | Err _ => zero_checkpoint end).
  assert (cp_GTIDSet cp <> "" -> view w1 !! store_key (stream_name rt) = Some cp) as Hcp.
  { destruct loaded as [c|]; [|done]. intros _. rewrite Hfr. by apply load_ok in HL. }
  intros Hrun. assert (exists l, loaded = l /\ (
      if cp_SnapshotDone cp && negb (bool_decide (cp_GTIDSet cp = "")) then ((rt, w1), Ok (cp_GTIDSet cp))
      else if negb (sc_Enabled (st_Snapshot (sr_cfg rt))) then
        let '(w, outcome) := startWithoutSnapshot rt cp w1 in ((rt, w), outcome)
      else match markScanStarted cp (rt, w1) with
      | (rtw, Err e) => (rtw, Err e)
      | ((rt, w), Ok cp) => let '(w, outcome) := runScan dsn rt cp w in ((rt, w), outcome)
      end) = ((rt', w'), Ok p)) as (_ & _ & Hr).
  { eexists. split; [done|]. destruct loaded as [|[|]]; done. }
  clear Hrun. destruct (cp_SnapshotDone cp) eqn:Hd, (bool_decide_reflect (cp_GTIDSet cp = "")) as [Hg|Hg];
    cbn [andb negb] in Hr.
  2: { injection Hr as <- <- <-. exists cp. split_and!; [by apply Hcp|by left|done]. }
  all: destruct (sc_Enabled _) eqn:He; cbn [negb] in Hr.
  1,3,5: destruct (markScanStarted cp (rt, w1)) as [[rt1 w2] [cp1|]] eqn:HM; [|done];
    destruct (runScan dsn rt1 cp1 w2) as [w3 outcome] eqn:HR; injection Hr as <- <- ->;
    assert (stream_name rt1 = stream_name rt) as <- by (unfold markScanStarted in HM; repeat case_match; simplify_eq; done);
    apply runScan_view in HR as (c & Hv & Hdone & Hp); exists c; split_and!; [done|by right|done].
  all: destruct (startWithoutSnapshot rt cp w1) as [w2 outcome] eqn:HS; injection Hr as <- <- ->;
    apply startWithoutSnapshot_view in HS as [(Hne & -> & ->)|(c & Hv & <- & Hne)];
    [exists cp; split_and!; [by apply Hcp|by left|done]|exists c; split_and!; [done|by left|done]].
Qed.

(** A rescan that is over does not stay over: the row still holds the
    position from before it, so the next start takes that position as if
    nothing was left to do, without moving the readers' alias when that failed
    and although the scan was to be followed by the position it began at. *)
Theorem rescan_position_forgotten dsn rt w w' outcome cp rt2 w2 :
  view w !! store_key (stream_name rt) = Some cp -> cp_GTIDSet cp <> "" ->
  finishScan rt w = (w', outcome) -> (forall e, outcome <> Err (ESupLoad e) /\ outcome <> Err (ESupSave e)) ->
  stream_name rt2 = stream_name rt -> is_ok (store_Load (stream_name rt) w').2 = true ->
  w2 = (store_Load (stream_name rt) w').1 ->
  snapshotIfNeeded dsn (rt2, w') = ((rt2, w2), Ok (cp_GTIDSet cp)).
Proof.
  intros Hcp Hg Hf Hout Hn HL ->. destruct (finishScan_view _ _ _ _ Hf Hout) as (cp' & c & Hcp' & Hv & Hd & Hgc & _).
  assert (cp' = cp) as -> by congruence. unfold snapshotIfNeeded. rewrite Hn.
  destruct (store_Load _ w') as [w1 [c'|]] eqn:HL'; [|done]. apply load_ok in HL'.
  assert (c' = c) as -> by congruence. rewrite Hd, Hgc. by rewrite bool_decide_eq_false_2.
Qed.

Lemma markScanStarted_cfg cp rt w rt' w' r :
  markScanStarted cp (rt, w) = ((rt', w'), r) -> sr_cfg rt' = sr_cfg rt.
Proof. unfold markScanStarted. intros Hm. repeat case_match; by simplify_eq. Qed.

Lemma snapshotIfNeeded_cfg dsn rt w rt' w' r : snapshotIfNeeded dsn (rt, w) = ((rt', w'), r) -> sr_cfg rt' = sr_cfg rt.
Proof.
  unfold snapshotIfNeeded. destruct (store_Load _ w) as [w1 loaded].
  assert (forall cp x, (if cp_SnapshotDone cp && negb (bool_decide (cp_GTIDSet cp = "")) then ((rt, w1), Ok (cp_GTIDSet cp))
      else if negb (sc_Enabled (st_Snapshot (sr_cfg rt))) then
        let '(w, outcome) := startWithoutSnapshot rt cp w1 in ((rt, w), outcome)
      else match markScanStarted cp (rt, w1) with
      | (rtw, Err e) => (rtw, Err e)
      | ((rt, w), Ok cp) => let '(w, outcome) := runScan dsn rt cp w in ((rt, w), outcome)
      end) = ((rt', w'), x) -> sr_cfg rt' = sr_cfg rt) as Hbody.
  { intros cp x. destruct (_ && _); [by intros [= <-]|]. destruct (negb _).
    - destruct (startWithoutSnapshot rt cp w1) as [w2 y]. by intros [= <-].
    - destruct (markScanStarted cp (rt, w1)) as [[rt1 w2] [cp'|e]] eqn:HM; pose proof (markScanStarted_cfg _ _ _ _ _ _ HM) as Hc.
      + destruct (runScan dsn rt1 cp' w2). by intros [= <-].
      + by intros [= <-]. }
  destruct loaded as [cp|[]]; [apply Hbody|apply Hbody|]. by intros [= <-].
Qed.

(** A scan that is started anew takes its version from the allocator. *)
Lemma markScanStarted_fresh cp rt w rt' w' cp' :
  cp_SnapshotStartGTID cp = "" -> markScanStarted cp (rt, w) = ((rt', w'), Ok cp') ->
  exists w1 a w2 position, currentPosition w = (w1, Ok position) /\
    Next (sr_alloc rt, w1) = ((a, w2), Ok (cp_SnapshotBaseSeq cp')) /\
    rt' = set_alloc a rt /\ cp_SeqWatermark cp' = cp_SeqWatermark cp /\
    exists c, saved_as store_key cp' c /\ view w' !! store_key (stream_name rt) = Some c.
Proof.
  intros Hs. unfold markScanStarted. rewrite Hs. simpl.
  destruct (currentPosition w) as [w1 [position|]]; [|done].
  destruct (Next (sr_alloc rt, w1)) as [[a w2] [v|]] eqn:HN; [|done].
  destruct (estimateRows _ w2) as [w3 total]. destruct (store_Save _ w3) as [w4 [[]|]] eqn:HS; [|done].
  intros [= <- <- <-]. exists w1, a, w2, position. split_and!; try done. by apply saved_view in HS.
Qed.

(** Its save takes the watermark back to what was loaded before the version was
    taken, which the block that version came from makes up for: the steps of the
    allocator allow it. *)
Lemma markScanStarted_guarded cp rt w rt' w' cp' l peak floor :
  let stream := al_stream (sr_alloc rt) in let w1 := (currentPosition w).1 in
  cp_SnapshotStartGTID cp = "" -> markScanStarted cp (rt, w) = ((rt', w'), Ok cp') ->
  (al_end (sr_alloc rt) < al_next (sr_alloc rt))%Z ->
  alloc_inv stream (mkAllocState (sr_alloc rt) w1 l peak floor) -> clock_above stream floor w1 ->
  exists w2 v, Next (sr_alloc rt, w1) = ((sr_alloc rt', w2), Ok v) /\ cp_SnapshotBaseSeq cp' = v /\
    guarded stream (sr_alloc rt') w' (Z.max (Z.max peak (watermark stream w2)) (watermark stream w')) floor.
Proof.
  intros stream w1 Hs HM Hex Hinv Hclock. destruct (markScanStarted_fresh _ _ _ _ _ _ Hs HM) as (w0 & a & w2 & p & Hp & HN & -> & _).
  unfold w1 in *. rewrite Hp in *. simpl in *. exists w2, (cp_SnapshotBaseSeq cp'). split_and!; [done|done|].
  by eapply reserved_guards.
Qed.

(** C31: The changes of a second stream are lost when both streams are new: every
    change takes its version from the first stream's allocator, whose block was
    reserved before the second stream's scan took its own version, so the rest
    of that block is below what the scan wrote and the destination drops it. *)
Theorem second_stream_changes_stale cpA rtA wA rtA' wA' cA cpB rtB wB rtB' wB' cB a0 a w aw v st d old :
  cp_SnapshotStartGTID cpB = "" ->
  markScanStarted cpA (rtA, wA) = ((rtA', wA'), Ok cA) ->
  markScanStarted cpB (rtB, wB) = ((rtB', wB'), Ok cB) ->
  (al_end (sr_alloc rtB) < al_next (sr_alloc rtB))%Z -> (0 <= al_end (sr_alloc rtB) < 2 ^ 64 - 1)%Z ->
  (al_end (sr_alloc rtA') < seqFloor (clock (store_Load (al_stream (sr_alloc rtB)) (currentPosition wB).1).1))%Z ->
  shared_sequencer [rtA'; rtB'] = Some a0 -> al_end a = al_end a0 -> (al_next a <= al_end a)%Z ->
  Next (a, w) = (aw, Ok v) ->
  st !! doc_Key d = Some (cp_SnapshotBaseSeq cB, old) -> doc_Version d = v ->
  put st d = st.
Proof.
  intros HB _ HmB Hfresh Hend Hlater [= <-] Hblock Hleft Hv Hst Hd.
  destruct (markScanStarted_fresh _ _ _ _ _ _ HB HmB) as (w1 & b & w2 & position & Hpos & HN & _).
  rewrite Hpos in Hlater. simpl in Hlater. rewrite Next_reserved in Hv by done. injection Hv as _ <-.
  eapply put_stale; [done|]. rewrite Hd.
  rewrite Next_exhausted in HN by done.
  destruct (reserve (sr_alloc rtB, w1)) as [[b' w3] [[]|]] eqn:HR; [|done].
  injection HN as _ _ HN. rewrite <- HN. apply reserve_floor in HR as [Hfl _]; [|done]. lia.
Qed.

End BackfillFacts.

(** ** Building a stream *)

Section Build.
Context `{ScanLib} `{!ErrorText} `{MapOrder} `{ConfigLib}.

(** [dialectFor]. *)
Definition dialectFor (sinkType : string) : option Dialect :=
  if bool_decide (sinkType = SinkElasticsearch) then Some DialectElasticsearch
  else if bool_decide (sinkType = SinkClickHouse) then Some DialectClickHouse
  else None.

(** [buildRunner]: the sink, the dead letter queue and the store are set. *)
Definition buildRunner (stream : Stream) (plan : Plan) (shutdownGrace : Z) : res runner_error Runner :=
  NewRunner (mkRunnerOptions (st_Name stream) (Some plan) true true true
    (mkLimits (ba_MaxRows (st_Batch stream)) (ba_MaxBytes (st_Batch stream)) (ba_FlushInterval (st_Batch stream)))
    shutdownGrace).

(** The spans a decoded file holds are the ones [ParseDuration] returns. *)
Definition decoded_spans (d : Decoded) : Prop :=
  forall name s, d_Streams d !! name = Some (Some s) -> (0 <= ba_FlushInterval (st_Batch s))%Z.

(** C39: What a configuration that was accepted asks for can be built: every
    stream has a dialect, its runner starts with an empty batch, and its scanner
    is refused for nothing but its table or a missing base version. *)
Theorem accepted_stream_builds raw lookup c name s plan grace rt cp :
  Parse raw lookup = Ok c -> c_Streams c !! name = Some s ->
  (forall d, yaml_Decode (expandEnv raw lookup).1 = Some d -> decoded_spans d) ->
  sr_cfg rt = s -> cp_SnapshotBaseSeq cp <> 0%Z ->
  is_Some (dialectFor (si_Type (st_Sink s))) /\
  (exists r, buildRunner s plan grace = Ok r /\ b_pending (r_batcher r) = [] /\ r_stream r = name) /\
  match newScanner rt cp with
  | Ok sn => sn_meta sn = sr_meta rt /\ so_Cursor (sn_opts sn) = cp_SnapshotCursor cp
  | Err (ESupKey _) => True
  | Err (EScanner (ESnapKeyColumn _ _)) | Err (EScanner ESnapKey) => True
  | Err _ => False
  end.
Proof.
  intros Hp Hs Hspans Hrt Hbase. destruct (Parse_accepted _ _ _ _ _ Hp Hs) as [Hacc Hname].
  destruct (Parse_stream _ _ _ _ _ Hp Hs) as (_ & d & s0 & Hd & Hs0 & Heq).
  destruct Hacc as [(Hne & _) _ Hrows Hbytes Hint Hchunk _ Hsink]. split_and!.
  - unfold dialectFor. destruct Hsink as [-> | ->]; vm_compute; eauto.
  - assert (0 <= ba_FlushInterval (st_Batch s))%Z as Hpos.
    { pose proof (Hspans d Hd name s0 Hs0). rewrite Heq.
      change (0 <= setDuration (ba_FlushInterval (st_Batch s0)) (500 * millisecond))%Z.
      unfold setDuration, millisecond. destruct (_ =? 0)%Z; lia. }
    unfold buildRunner, NewRunner. cbn. rewrite bool_decide_eq_false_2 by done.
    unfold NewBatcher. cbn. rewrite (proj2 (Z.ltb_ge _ _)) by lia.
    rewrite (proj2 (Z.eqb_neq _ _)) by done. rewrite (proj2 (Z.leb_gt (ba_FlushInterval (st_Batch s)) 0)) by lia. cbn. eauto.
  - unfold newScanner. rewrite Hrt. destruct (ResolveKey _ _) as [key|e]; cbn [map_err mbind res_bind]; [|done].
    unfold NewSnapshotter. cbn. case_bool_decide; [done|].
    rewrite (proj2 (Z.ltb_ge _ _)) by lia. rewrite (proj2 (Z.eqb_neq _ _)) by done.
    destruct (res_map _ key) as [cols|e] eqn:E; [done|]. cbn.
    assert (forall l e, res_map (key_column (sr_meta rt)) l = Err e -> exists n t, e = ESnapKeyColumn n t) as Hcol.
    { clear. induction l as [|n l IH]; intros e He; [done|]. cbn [res_map] in He.
      destruct (key_column (sr_meta rt) n) eqn:K; cbn [mbind res_bind] in He.
      2: { injection He as <-. unfold key_column in K. case_match; [done|]. injection K as <-. eauto. }
      destruct (res_map _ l) eqn:E; [done|]. injection He as <-. by eapply IH. }
    destruct (Hcol _ _ E) as (n & t & ->). done.
Qed.

End Build.
