(* ===== verification/Tasks.v ===== *)
(** * The tasks of a running supervisor ([internal/supervisor/group.go], [health.go], [stream.go])

    The group of tasks a run waits for, as a step relation over what its
    goroutines do; the end of a pipeline's task and of the reader's; the state
    each stream publishes and the readiness made of it. *)

From S2P Require Import Prelude GoStd Checkpoint Snapshot.

(** ** group.go *)

Inductive task := Running | Returned (outcome : option outside_error).

Record group := mkGroup {
  gr_tasks : list task;
  gr_first : option outside_error;
  gr_cancelled : bool
}.

(** The context of the group ends with its parent's. *)
Definition newGroup (parent_done : bool) : group := mkGroup [] None parent_done.
Definition group_cancel (g : group) : group := mkGroup (gr_tasks g) (gr_first g) true.

(** [run]: the task is started, and what happens when it returns. *)
Definition group_run (g : group) : group := mkGroup (gr_tasks g ++ [Running]) (gr_first g) (gr_cancelled g).
Definition task_returns (i : nat) (outcome : option outside_error) (g : group) : group :=
  let tasks := <[i := Returned outcome]> (gr_tasks g) in
  match outcome with
  | None => mkGroup tasks (gr_first g) (gr_cancelled g)
  | Some e => group_cancel (mkGroup tasks (match gr_first g with None => Some e | first => first end) (gr_cancelled g))
  end.

(** [wait] goes on when every task has returned. *)
Definition returned (t : task) : bool := match t with Returned _ => true | Running => false end.
Definition waited (g : group) : bool := forallb returned (gr_tasks g).
Definition group_wait (g : group) : group * option outside_error := (group_cancel g, gr_first g).

(** What can happen: tasks are started, they return in any order, and the run's
    own context may end. A task returns the cancellation of its context only
    after that context has ended. *)
Inductive event := Started | Ended (i : nat) (outcome : option outside_error) | ParentDone.

Inductive group_step : event -> group -> group -> Prop :=
  | step_run g : group_step Started g (group_run g)
  | step_return i outcome g :
      gr_tasks g !! i = Some Running -> (outcome = Some Canceled -> gr_cancelled g = true) ->
      group_step (Ended i outcome) g (task_returns i outcome g)
  | step_parent g : group_step ParentDone g (group_cancel g).

Inductive group_steps : list event -> group -> Prop :=
  | steps_none : group_steps [] (newGroup false)
  | steps_snoc evs ev g g' : group_steps evs g -> group_step ev g g' -> group_steps (evs ++ [ev]) g'.

Definition failure (ev : event) : option outside_error := match ev with Ended _ outcome => outcome | _ => None end.

Lemma omap_snoc {A B} (f : A -> option B) l x : omap f (l ++ [x]) = omap f l ++ match f x with Some y => [y] | None => [] end.
Proof. rewrite omap_app. cbn. by destruct (f x). Qed.

Lemma head_snoc {A} (l : list A) x : head (l ++ [x]) = match head l with Some y => Some y | None => Some x end.
Proof. by destruct l. Qed.

(** The first error is the first that happened, it ends the context, and the
    errors that were returned are the tasks'. *)
Lemma group_first evs g :
  group_steps evs g ->
  gr_first g = head (omap failure evs) /\ (is_Some (gr_first g) -> gr_cancelled g = true) /\
  forall e, e ∈ omap failure evs <-> exists i, gr_tasks g !! i = Some (Returned (Some e)).
Proof.
  induction 1 as [|evs ev g g' _ (Hf & Hc & Ht) Hstep].
  { split; [done|]. split; [by intros []|]. intros e. split; [by intros ?%elem_of_nil|]. by intros [i Hi]. }
  rewrite omap_snoc. destruct Hstep as [g|i outcome g Hi Hcan|g].
  - cbn. rewrite app_nil_r. split; [done|]. split; [done|]. intros e. rewrite Ht. split; intros [i Hi]; exists i.
    + by apply lookup_app_l_Some.
    + by apply lookup_snoc_Some in Hi as [[_ Hi]|[_ [=]]].
  - assert (i < length (gr_tasks g)) as Hlt by (by eapply lookup_lt_Some).
    assert (forall j o, i <> j -> <[i := Returned o]> (gr_tasks g) !! j = gr_tasks g !! j) as Hne
      by (intros; by rewrite list_lookup_insert_ne).
    assert (forall o, <[i := Returned o]> (gr_tasks g) !! i = Some (Returned o)) as Heq
      by (intros; by rewrite list_lookup_insert_eq).
    destruct outcome as [e|]; cbn; [|rewrite app_nil_r]; (split; [|split; [done|intros e']]).
    + rewrite head_snoc, <- Hf. by destruct (gr_first g).
    + rewrite elem_of_app, list_elem_of_singleton, Ht. split.
      * intros [[j Hj]| ->]; [|by exists i]. exists j. rewrite Hne; [done|]. intros <-. by rewrite Hi in Hj.
      * intros [j Hj]. destruct (decide (i = j)) as [<-|Hij]; [rewrite Heq in Hj; injection Hj; auto|].
        rewrite Hne in Hj by done. left. by exists j.
    + done.
    + rewrite Ht. split; intros [j Hj]; exists j; destruct (decide (i = j)) as [<-|Hij];
        try (by rewrite Hi in Hj); try (by rewrite Heq in Hj); by rewrite Hne in *.
  - cbn. by rewrite app_nil_r.
Qed.

(** While the run's own context has not ended, the group's has only after an
    error, and then the first error is not a cancellation. *)
Lemma group_no_parent evs g :
  group_steps evs g -> ParentDone ∉ evs -> gr_first g <> Some Canceled /\ (gr_cancelled g = true -> is_Some (gr_first g)).
Proof.
  induction 1 as [|evs ev g g' _ IH Hstep]; [done|]. rewrite not_elem_of_app. intros [Hp Hev].
  destruct (IH Hp) as [Hfirst Hcan]. destruct Hstep as [g|i outcome g Hi Hout|g]; [done| |by destruct Hev; left].
  destruct outcome as [e|]; [|done]. cbn. destruct (gr_first g) as [f|] eqn:Hf; [done|].
  split; [|done]. intros [= ->]. by destruct (Hcan (Hout eq_refl)).
Qed.

(** ** stream.go: the tasks *)

(** [streamState]. *)
Record streamState := mkStreamState { ss_streaming : bool; ss_lastEvent : Z; ss_lastError : option outside_error }.

Definition fresh_state : streamState := mkStreamState false zero_time None.
Definition state_set (streaming : bool) (err : option outside_error) (s : streamState) : streamState :=
  mkStreamState streaming (ss_lastEvent s) err.
Definition state_observed (at_ : Z) (s : streamState) : streamState :=
  mkStreamState (ss_streaming s) at_ (ss_lastError s).

(** [startPipeline], before its task and after [Run] has returned [err]: the
    stream's state, what the task returns, and whether the cause is recorded in
    the stream's checkpoint. *)
Definition pipeline_started (s : streamState) : streamState := state_set true None s.
Definition pipeline_failed (err : option outside_error) : bool :=
  match err with Some (Failed _) => true | _ => false end.
Definition pipeline_ended (err : option outside_error) (s : streamState) : streamState * option outside_error :=
  (state_set false err s, if pipeline_failed err then err else None).

(** [startReader], from how routing ended and the reader's error; the causes are
    recorded for every stream in the second case only. *)
Definition reader_ended (routed : res outside_error ()) (reader : option outside_error) : option outside_error :=
  match routed with Err e => Some e | Ok _ => reader end.

(** [stream], from what [wait] returned. *)
Definition stream_result (first : option outside_error) : option outside_error :=
  match first with Some Canceled => None | first => first end.

(** C27: A run that nobody stopped reports what went wrong first: it ends without
    an error only when every task did, and otherwise with the error that happened
    before all others, never with a cancellation this error caused. *)
Theorem stream_reports_first evs g :
  group_steps evs g -> waited g = true -> ParentDone ∉ evs ->
  stream_result (group_wait g).2 = head (omap failure evs) /\
  (stream_result (group_wait g).2 = None <-> forall i t, gr_tasks g !! i = Some t -> t = Returned None).
Proof.
  intros Hg Hw Hp. destruct (group_first _ _ Hg) as (Hf & _ & Ht). destruct (group_no_parent _ _ Hg Hp) as [Hfirst _].
  assert (stream_result (group_wait g).2 = gr_first g) as -> by (cbn; by destruct (gr_first g) as [[]|]).
  split; [done|]. rewrite Hf. split.
  - intros Hn i t Hi. destruct t as [|[e|]]; [| |done].
    + unfold waited in Hw. rewrite forallb_forall in Hw. apply list_elem_of_lookup_2, list_elem_of_In, Hw in Hi. done.
    + assert (e ∈ omap failure evs) as He by (apply Ht; by exists i). by destruct (omap failure evs); [apply elem_of_nil in He|].
  - intros Hall. destruct (omap failure evs) as [|e l] eqn:Hl; [done|].
    destruct (proj1 (Ht e)) as [i Hi]; [by left|]. by apply Hall in Hi.
Qed.

(** When the run is stopped, what fails while it stops can go unreported: the
    reader returns the cancellation first, and the error of a pipeline that could
    not write what it held does not reach the caller. *)
Theorem shutdown_hides_failure cause :
  exists evs g, group_steps evs g /\ waited g = true /\
    gr_tasks g !! 0 = Some (Returned (pipeline_ended (Some (Failed cause)) fresh_state).2) /\
    gr_tasks g !! 1 = Some (Returned (reader_ended (Err Canceled) None)) /\
    stream_result (group_wait g).2 = None.
Proof.
  pose proof steps_none as Hg.
  do 2 (eapply steps_snoc in Hg; [|apply step_run]).
  eapply steps_snoc in Hg; [|apply step_parent].
  eapply steps_snoc in Hg; [|by apply (step_return 1 (Some Canceled))].
  eapply steps_snoc in Hg; [|by apply (step_return 0 (Some (Failed cause)))].
  eexists _, _. split; [exact Hg|]. by repeat split.
Qed.

(** ** health.go *)

Definition readinessLagLimit : Z := 5 * 60 * 10 ^ 9.

Inductive ready_error :=
  | NotStarted
  | StreamFailed (name : string) (cause : outside_error)
  | NotStreaming (name : string)
  | Behind (name : string) (ago : Z).

(** One stream's part of [ready], at a moment. *)
Definition stream_ready (now : Z) (rt : string * streamState) : res ready_error () :=
  let '(name, s) := rt in
  match ss_lastError s with
  | Some (Failed cause) => Err (StreamFailed name (Failed cause))
  | _ =>
    if negb (ss_streaming s) then Err (NotStreaming name)
    else if is_zero_time (ss_lastEvent s) then Ok ()
    else
      let behind := time_Sub now (ss_lastEvent s) in
      if (readinessLagLimit <? behind)%Z then Err (Behind name behind) else Ok ()
  end.

Fixpoint all_ready (now : Z) (runtimes : list (string * streamState)) : res ready_error () :=
  match runtimes with
  | [] => Ok ()
  | rt :: runtimes => _ ← stream_ready now rt; all_ready now runtimes
  end.

Definition ready (now : Z) (runtimes : list (string * streamState)) : res ready_error () :=
  match runtimes with [] => Err NotStarted | _ => all_ready now runtimes end.

Lemma all_ready_spec now runtimes :
  all_ready now runtimes = Ok () <-> Forall (fun rt => stream_ready now rt = Ok ()) runtimes.
Proof.
  induction runtimes as [|rt rts IH]; [done|]. rewrite Forall_cons, <- IH. cbn [all_ready].
  destruct (stream_ready now rt) as [[]|e]; cbn; [tauto|]. split; [done|by intros []].
Qed.

(** The run reports itself ready only when every stream is streaming without
    an error and none of them has been quiet for longer than the limit since its
    last change; a stream whose pipeline has ended makes it unready for good. *)
Theorem ready_means_streaming now runtimes :
  ready now runtimes = Ok () <->
  runtimes <> [] /\ forall name s, (name, s) ∈ runtimes ->
    ss_streaming s = true /\ pipeline_failed (ss_lastError s) = false /\
    (ss_lastEvent s = zero_time \/ time_Sub now (ss_lastEvent s) <= readinessLagLimit)%Z.
Proof.
  assert (forall name s, stream_ready now (name, s) = Ok () <->
    ss_streaming s = true /\ pipeline_failed (ss_lastError s) = false /\
    (ss_lastEvent s = zero_time \/ time_Sub now (ss_lastEvent s) <= readinessLagLimit)%Z) as Hone.
  { intros name [streaming last err]. unfold stream_ready, is_zero_time. cbn [ss_streaming ss_lastEvent ss_lastError].
    destruct err as [[|cause]|]; cbn [pipeline_failed]; [|split; [done|by intros (_ & ? & _)]|];
      (destruct streaming; cbn [negb]; [|by split; [|intros []]]);
      destruct (Z.eqb_spec last zero_time); try (split; [by auto|done]);
      destruct (Z.ltb_spec readinessLagLimit (time_Sub now last)); split; try done; try (intros; lia);
      intros _; (split; [done|]); (split; [done|]); by right. }
  unfold ready. destruct runtimes as [|rt rts]; [split; [done|by intros []]|].
  rewrite all_ready_spec, Forall_forall. split.
  - intros Hall. split; [done|]. intros name s Hin. apply (Hone name). by apply Hall.
  - intros [_ Hall] [name s] Hin. apply Hone. by eapply Hall.
Qed.
