(* ===== verification/Telemetry.v ===== *)
(** * Metrics and health ([internal/telemetry], [streamObserver] of [internal/supervisor/health.go])

    The series a stream registers and what each report adds to them, the
    observer that passes a runner's reports on, and the endpoints. Prometheus and
    [net/http] are interfaces, floats abstract. *)

From Stdlib Require Import Ascii.
From S2P Require Import Prelude GoStd Cdc Checkpoint Runner Snapshot Tasks Generate Config.

(** ** metrics.go *)

(** A [float64]: of an integer, and [time.Duration.Seconds]. *)
Class FloatLib := {
  float : Type;
  float_of : Z -> float;
  Seconds : Z -> float;
  negative : float -> bool
}.

(** A series: its metric, its stream, and the value of its own label or none. *)
Record series := mkSeries { se_name : string; se_stream : string; se_label : string }.
#[export] Instance series_eq_dec : EqDecision series.
Proof. solve_decision. Defined.

(** A registry, which refuses a metric it has under the same name and stream, and
    the operations of the metrics. *)
Class PromOps `{!FloatLib} (W : Type) := {
  prom_Register : string -> string -> W -> W * bool;
  gauge_Set : series -> float -> W -> W;
  counter_Add : series -> float -> W -> W;
  histogram_Observe : series -> float -> W -> W
}.

Definition binlog_lag : string := "changeflow_binlog_lag_seconds".
Definition events_total : string := "changeflow_events_total".
Definition documents_written : string := "changeflow_documents_written_total".
Definition documents_stale : string := "changeflow_documents_stale_total".
Definition sink_errors : string := "changeflow_sink_errors_total".
Definition write_duration : string := "changeflow_sink_write_duration_seconds".
Definition batch_size : string := "changeflow_batch_size_rows".
Definition queue_depth : string := "changeflow_queue_depth".
Definition dead_lettered : string := "changeflow_dead_lettered_total".
Definition checkpoint_age : string := "changeflow_checkpoint_age_seconds".
Definition snapshot_done : string := "changeflow_snapshot_rows_done".
Definition snapshot_total : string := "changeflow_snapshot_rows_estimated".
Definition snapshot_running : string := "changeflow_snapshot_running".

(** In the order they are registered. *)
Definition metric_names : list string :=
  [binlog_lag; events_total; documents_written; documents_stale; sink_errors; write_duration; batch_size;
   queue_depth; dead_lettered; checkpoint_age; snapshot_done; snapshot_total; snapshot_running].

Section Metrics.
Context `{!FloatLib} {W : Type} `{!PromOps W}.

(** [promauto.mustRegister], which panics. *)
Fixpoint register_all (names : list string) (stream : string) (w : W) : W * option string :=
  match names with
  | [] => (w, None)
  | name :: names =>
    match prom_Register name stream w with
    | (w, false) => (w, Some name)
    | (w, true) => register_all names stream w
    end
  end.

(** A [*Metrics]: nil, or that of a stream. *)
Definition Metrics : Type := option string.

(** [telemetry.New]; the error is the metric it panics at. *)
Definition NewMetrics (stream : string) : eff W string Metrics := fun w =>
  match register_all metric_names stream w with
  | (w, Some name) => (w, Err name)
  | (w, None) => (w, Ok (Some stream))
  end.

Definition on_metrics (m : Metrics) (f : string -> W -> W) (w : W) : W := match m with Some stream => f stream w | None => w end.
Definition plain (name stream : string) : series := mkSeries name stream "".

Definition m_Event (m : Metrics) (operation : Operation) : W -> W :=
  on_metrics m (fun stream => counter_Add (mkSeries events_total stream (Operation_String operation)) (float_of 1)).
Definition m_Lag (m : Metrics) (seconds : float) : W -> W :=
  on_metrics m (fun stream => gauge_Set (plain binlog_lag stream) (if negative seconds then float_of 0 else seconds)).
Definition m_Batch (m : Metrics) (rows : Z) : W -> W :=
  on_metrics m (fun stream => histogram_Observe (plain batch_size stream) (float_of rows)).
Definition m_Write (m : Metrics) (applied stale rejected elapsed : Z) (failed : bool) : W -> W :=
  on_metrics m (fun stream w =>
    let w := histogram_Observe (plain write_duration stream) (Seconds elapsed) w in
    let w := counter_Add (plain documents_written stream) (float_of applied) w in
    let w := counter_Add (plain documents_stale stream) (float_of stale) w in
    let w := if (0 <? rejected)%Z then counter_Add (mkSeries sink_errors stream "permanent") (float_of rejected) w else w in
    if failed then counter_Add (mkSeries sink_errors stream "retryable") (float_of 1) w else w).
Definition m_DeadLettered (m : Metrics) (n : Z) : W -> W :=
  on_metrics m (fun stream => counter_Add (plain dead_lettered stream) (float_of n)).
Definition m_QueueDepth (m : Metrics) (n : Z) : W -> W :=
  on_metrics m (fun stream => gauge_Set (plain queue_depth stream) (float_of n)).
Definition m_CheckpointAge (m : Metrics) (d : Z) : W -> W :=
  on_metrics m (fun stream => gauge_Set (plain checkpoint_age stream) (Seconds d)).
Definition m_SnapshotProgress (m : Metrics) (done estimated : Z) : W -> W :=
  on_metrics m (fun stream w => gauge_Set (plain snapshot_total stream) (float_of estimated)
    (gauge_Set (plain snapshot_done stream) (float_of done) w)).
Definition m_SnapshotRunning (m : Metrics) (running : bool) : W -> W :=
  on_metrics m (fun stream => gauge_Set (plain snapshot_running stream) (float_of (if running then 1 else 0))).

(** ** health.go: the observer

    What a runner reports goes to the metrics; a lag also is the moment of the
    stream's last change. *)
Definition observer (m : Metrics) (now : Z) (r : report) (sw : streamState * W) : streamState * W :=
  let '(s, w) := sw in
  match r with
  | ReportEvent o => (s, m_Event m o w)
  | ReportLag d => (state_observed now s, m_Lag m (Seconds d) w)
  | ReportBatch rows => (s, m_Batch m rows w)
  | ReportWrite applied stale rejected elapsed failed => (s, m_Write m applied stale rejected elapsed failed w)
  | ReportDeadLettered n => (s, m_DeadLettered m n w)
  end.

(** [supervisor.New]: the metrics of every stream of a run. *)
Fixpoint register_streams (names : list string) : eff W string (list Metrics) :=
  match names with
  | [] => mret []
  | name :: names => m ← NewMetrics name; rest ← register_streams names; mret (m :: rest)
  end.

End Metrics.

(** ** server.go *)

(** [Server]: the address, and the listener once there is one. *)
Record Server := mkServer { sr_addr : string; sr_listening : option string }.
Definition NewServer (addr : string) : Server := mkServer addr None.

Inductive telemetry_error := EListen (addr cause : string) | EServe (cause : string) | EShutDown (cause : string).

(** How serving ends. *)
Inductive serving := ContextEnded | ServerClosed | ServeFailed (cause : string).

(** [Shutdown], on what [http.Server.Shutdown] answers; a closed server is no
    error. *)
Definition server_Shutdown (s : Server) (closing : option string) : res telemetry_error () :=
  match sr_listening s with
  | None => Ok ()
  | Some _ => match closing with Some cause => Err (EShutDown cause) | None => Ok () end
  end.

(** [Start]: listening, then serving until one of the ends. *)
Definition server_Start (s : Server) (listen : res string string) (ending : serving) (closing : option string)
  : Server * res telemetry_error () :=
  match listen with
  | Err cause => (s, Err (EListen (sr_addr s) cause))
  | Ok at_ =>
    let s := mkServer (sr_addr s) (Some at_) in
    (s, match ending with
        | ContextEnded => server_Shutdown s closing
        | ServerClosed => Ok ()
        | ServeFailed cause => Err (EServe cause)
        end)
  end.

Definition Addr (s : Server) : string := default (sr_addr s) (sr_listening s).

(** The endpoints: what stands under a path, with the readiness of the run when it
    is asked for, and the metrics' text. *)
Definition ready_text (ready : option (res string ())) : Z * string :=
  match ready with
  | Some (Err e) => (503%Z, "not ready: " +:+ e +:+ nl)
  | _ => (200%Z, "ok" +:+ nl)
  end.
Definition respond (exposition : string) (ready : option (res string ())) (path : string) : Z * string :=
  if bool_decide (path = "/metrics") then (200%Z, exposition)
  else if bool_decide (path = "/healthz") then (200%Z, "ok" +:+ nl)
  else if bool_decide (path = "/readyz") then ready_text ready
  else (404%Z, "404 page not found" +:+ nl).

(** [serveTelemetry]: whether a server is started, and what its end adds to the
    log; the run does not wait for it. *)
Definition serveTelemetry (r : Runtime) (listen : res string string) (ending : serving) (closing : option string)
  : option telemetry_error :=
  if negb (MetricsEnabled r) then None
  else match (server_Start (NewServer (rt_MetricsAddr r)) listen ending closing).2 with
  | Err e => Some e
  | Ok _ => None
  end.

(** ** What the series count *)

Section Counting.
Context `{!FloatLib} {W : Type} `{!PromOps W}.

(** Integers are exact in a [float64] up to [2^53]; a series is changed by nothing
    but the operations on it. *)
Class PromLaws := {
  registered : W -> gset (string * string);
  gauge : W -> series -> option float;
  total : W -> series -> Z;
  register_spec : forall name stream w,
    prom_Register name stream w = (w, false) /\ (name, stream) ∈ registered w \/
    (name, stream) ∉ registered w /\ (prom_Register name stream w).2 = true /\
    registered (prom_Register name stream w).1 = {[(name, stream)]} ∪ registered w;
  set_gauge : forall s v w s', gauge (gauge_Set s v w) s' = if bool_decide (s' = s) then Some v else gauge w s';
  set_total : forall s v w s', total (gauge_Set s v w) s' = total w s';
  add_gauge : forall s v w s', gauge (counter_Add s v w) s' = gauge w s';
  add_total : forall s n w s', (0 <= n)%Z -> (total w s + n <= 2 ^ 53)%Z ->
    total (counter_Add s (float_of n) w) s' = (total w s' + if bool_decide (s' = s) then n else 0)%Z;
  observe_gauge : forall s v w s', gauge (histogram_Observe s v w) s' = gauge w s';
  observe_total : forall s v w s', total (histogram_Observe s v w) s' = total w s';
  total_range : forall w s, (0 <= total w s)%Z
}.
Context `{!PromLaws}.

Lemma register_all_spec names stream w :
  NoDup names -> (forall name, name ∈ names -> (name, stream) ∉ registered w) ->
  (register_all names stream w).2 = None /\
  forall k, k ∈ registered (register_all names stream w).1 <-> k ∈ registered w \/ k.2 = stream /\ k.1 ∈ names.
Proof.
  revert w. induction names as [|name names IH]; intros w Hnd Hfree; cbn [register_all].
  { split; [done|]. intros k. split; [by left|]. by intros [|[_ ?%elem_of_nil]]. }
  apply NoDup_cons in Hnd as [Hname Hnd].
  destruct (register_spec name stream w) as [[_ Hin]|(_ & Hok & Hreg)]; [by destruct (Hfree name); [left|]|].
  destruct (prom_Register name stream w) as [w1 ok]. cbn in Hok, Hreg. subst ok.
  destruct (IH w1 Hnd) as [Hnone Hall].
  { intros n Hn. rewrite Hreg, elem_of_union, elem_of_singleton. intros [[= ->]|Hr]; [done|]. by apply (Hfree n); [right|]. }
  split; [done|]. intros [a b]. rewrite Hall, Hreg, elem_of_union, elem_of_singleton, elem_of_cons. cbn. split.
  - intros [[[= -> ->]|Hr]|[-> Hr]]; auto.
  - intros [Hr|[-> [->|Hr]]]; auto.
Qed.

(** The metrics of the streams of a run are registered without a panic: their
    names differ, and so do the streams'. *)
Theorem streams_register names w :
  NoDup names -> (forall k, k ∈ registered w -> k.2 ∉ names) ->
  exists w', register_streams names w = (w', Ok (map Some names)).
Proof.
  revert w. induction names as [|name names IH]; intros w Hnd Hfree; [by exists w|]. apply NoDup_cons in Hnd as [Hname Hnd].
  cbn [register_streams]. unfold mbind, eff_bind, NewMetrics.
  destruct (register_all_spec metric_names name w) as [Hnone Hall].
  { apply (bool_decide_unpack _). vm_compute. exact I. }
  { intros n _ Hn. apply Hfree in Hn. apply Hn. by left. }
  destruct (register_all metric_names name w) as [w1 x]. cbn in Hnone, Hall. subst x.
  destruct (IH w1 Hnd) as [w2 Hw2].
  { intros k [Hk|[-> _]]%Hall; [|done]. apply Hfree in Hk. intros Hin. apply Hk. by right. }
  rewrite Hw2. by exists w2.
Qed.

Lemma label_ne name stream l l' : l <> l' -> mkSeries name stream l <> mkSeries name stream l'.
Proof. congruence. Qed.

(** A write adds to the series of its stream what it reports, the refused documents
    as permanent errors and a failure as one to retry, and to no other series. *)
Theorem write_counts stream applied stale rejected elapsed failed w :
  (0 <= applied)%Z -> (0 <= stale)%Z -> (0 <= rejected)%Z ->
  (forall s, total w s + applied + stale + rejected + 1 <= 2 ^ 53)%Z ->
  forall s, (total (m_Write (Some stream) applied stale rejected elapsed failed w) s = total w s +
    (if bool_decide (s = plain documents_written stream) then applied else 0) +
    (if bool_decide (s = plain documents_stale stream) then stale else 0) +
    (if bool_decide (s = mkSeries sink_errors stream "permanent") then rejected else 0) +
    (if bool_decide (s = mkSeries sink_errors stream "retryable") then if failed then 1 else 0 else 0))%Z.
Proof.
  intros Ha Hs Hr Hroom s. unfold m_Write, on_metrics.
  set (w1 := histogram_Observe _ _ w). assert (forall s, total w1 s = total w s) as H1 by (intros; apply observe_total).
  set (w2 := counter_Add _ _ w1).
  assert (forall s, total w2 s = (total w s + if bool_decide (s = plain documents_written stream) then applied else 0)%Z) as H2'.
  { intros t. unfold w2. rewrite add_total, H1; [done..|rewrite H1; specialize (Hroom (plain documents_written stream)); lia]. }
  set (w3 := counter_Add _ _ w2).
  assert (forall s, total w3 s = (total w2 s + if bool_decide (s = plain documents_stale stream) then stale else 0)%Z) as H3.
  { intros t. unfold w3. rewrite add_total; [done..|].
    rewrite H2', bool_decide_eq_false_2 by done. specialize (Hroom (plain documents_stale stream)). lia. }
  set (w4 := if (0 <? rejected)%Z then _ else w3).
  assert (forall s, total w4 s = (total w3 s + if bool_decide (s = mkSeries sink_errors stream "permanent") then rejected else 0)%Z) as H4.
  { intros t. unfold w4. destruct (Z.ltb_spec 0 rejected).
    - rewrite add_total; [done..|]. rewrite H3, H2', !bool_decide_eq_false_2 by done.
      specialize (Hroom (mkSeries sink_errors stream "permanent")). lia.
    - assert (rejected = 0%Z) as -> by lia. case_bool_decide; lia. }
  assert (total (if failed then counter_Add (mkSeries sink_errors stream "retryable") (float_of 1) w4 else w4) s =
    total w4 s + if bool_decide (s = mkSeries sink_errors stream "retryable") then if failed then 1 else 0 else 0)%Z as ->.
  { destruct failed; [|case_bool_decide; lia]. rewrite add_total; [done..|].
    rewrite H4, H3, H2', !bool_decide_eq_false_2 by done. specialize (Hroom (mkSeries sink_errors stream "retryable")). lia. }
  rewrite H4, H3, H2'. lia.
Qed.

(** Every call the program makes on the metrics. *)
Inductive metrics_call :=
  | CallReport (now : Z) (r : report)
  | CallQueueDepth (n : Z)
  | CallSnapshotProgress (done estimated : Z)
  | CallSnapshotRunning (running : bool).

Definition perform (m : Metrics) (sw : streamState * W) (c : metrics_call) : streamState * W :=
  match c with
  | CallReport now r => observer m now r sw
  | CallQueueDepth n => (sw.1, m_QueueDepth m n sw.2)
  | CallSnapshotProgress done estimated => (sw.1, m_SnapshotProgress m done estimated sw.2)
  | CallSnapshotRunning running => (sw.1, m_SnapshotRunning m running sw.2)
  end.

Lemma perform_age m sw c stream : gauge (perform m sw c).2 (plain checkpoint_age stream) = gauge sw.2 (plain checkpoint_age stream).
Proof.
  destruct sw as [s w], m as [stream'|]; [|by destruct c as [now []| | |]].
  destruct c as [now []|n|done_ estimated|running]; cbn; unfold on_metrics;
    repeat (case_match || rewrite ?add_gauge, ?observe_gauge, ?set_gauge, ?bool_decide_eq_false_2 by done); done.
Qed.

(** The age of the checkpoint, on which an alert of a stream that does not advance
    is based, is never set: however long a run lasts, its series holds what it
    held when it was registered. *)
Theorem checkpoint_age_never_set m calls sw stream :
  gauge (foldl (perform m) sw calls).2 (plain checkpoint_age stream) = gauge sw.2 (plain checkpoint_age stream).
Proof. revert sw. induction calls as [|c calls IH]; intros sw; [done|]. cbn [foldl]. by rewrite IH, perform_age. Qed.

(** A lag that was set is not negative, when the clock of the source is ahead. *)
Theorem lag_not_negative stream d w v :
  negative (float_of 0) = false -> gauge (m_Lag (Some stream) d w) (plain binlog_lag stream) = Some v -> negative v = false.
Proof.
  intros Hzero. unfold m_Lag, on_metrics. rewrite set_gauge, bool_decide_eq_true_2 by done. intros [= <-].
  by destruct (negative d) eqn:Hd.
Qed.

End Counting.

(** The readiness endpoint answers with success exactly when the run is ready. *)
Theorem readyz_means_streaming (text : ready_error -> string) exposition now runtimes :
  (respond exposition (Some (map_err text (ready now runtimes))) "/readyz").1 = 200%Z <->
  runtimes <> [] /\ forall name s, (name, s) ∈ runtimes ->
    ss_streaming s = true /\ pipeline_failed (ss_lastError s) = false /\
    (ss_lastEvent s = zero_time \/ time_Sub now (ss_lastEvent s) <= readinessLagLimit)%Z.
Proof.
  rewrite <- ready_means_streaming. unfold respond. rewrite !bool_decide_eq_false_2, bool_decide_eq_true_2 by done.
  destruct (ready now runtimes) as [[]|e]; [done|]. by split.
Qed.

(** A port in use does not end a run that serves metrics: it is one line of the
    log. *)
Theorem busy_port_logged r cause ending closing :
  MetricsEnabled r = true ->
  serveTelemetry r (Err cause) ending closing = Some (EListen (rt_MetricsAddr r) cause).
Proof. intros Hr. unfold serveTelemetry. by rewrite Hr. Qed.
