(* ===== verification/ClickHouse.v ===== *)
(** * The ClickHouse sink ([internal/sink/clickhouse/insert.go])

    Encoding a batch as rows, inserting it over HTTP, and narrowing a refused
    batch down to the rows at fault. *)

From Stdlib Require Import Ascii.
From S2P Require Import Prelude GoStd GoEncoding GoJson Schema Cdc Sink Http Elasticsearch.

(** [net/url]: parsing the DSN, what the sink reads of it, and the URL of a
    request with its query. *)
Class UrlOps := {
  url : Type;
  url_Parse : string -> option url;
  url_Scheme : url -> string;
  url_User : url -> option (string * string);
  url_Database : url -> string;
  url_WithoutUser : url -> url;
  url_WithQuery : url -> list (string * string) -> string
}.

Inductive ch_error :=
  | ENoDSN
  | ENoTable
  | EWorkers
  | EBadDSN
  | EScheme (scheme : string)
  | ERowNoBody (key : string)
  | ERowNotObject (key : string)
  | EInsert (rows : Z) (cause : string)
  | EInsertStatus (status attempts : Z) (payload : string)
  | EStillRefused (rows depth : Z)
  | EWait (cause : string).

Record ch_Options := mkChOptions {
  c_DSN : string;
  c_Table : string;
  c_Workers : Z;
  c_MaxAttempts : Z;
  c_BaseBackoff : Z;
  c_MaxBackoff : Z;
  c_Compress : bool;
  c_RequestTimeout : Z
}.

Section ClickHouse.
Context `{!UrlOps}.

Record CSink := mkCSink {
  cs_opts : ch_Options;
  cs_endpoint : url;
  cs_user : string;
  cs_password : string;
  cs_database : string
}.

(** [New]. *)
Definition NewCSink (opts : ch_Options) : res ch_error CSink :=
  if bool_decide (c_DSN opts = "") then Err ENoDSN
  else if bool_decide (c_Table opts = "") then Err ENoTable
  else if (c_Workers opts <? 0)%Z then Err EWorkers
  else
    let opts := mkChOptions (c_DSN opts) (c_Table opts)
      (or_default (Z.eqb 0) (c_Workers opts) 1)
      (or_default not_positive (c_MaxAttempts opts) 5)
      (or_default not_positive (c_BaseBackoff opts) (200 * 10 ^ 6))
      (or_default not_positive (c_MaxBackoff opts) (30 * 10 ^ 9))
      (c_Compress opts)
      (or_default not_positive (c_RequestTimeout opts) (120 * 10 ^ 9)) in
    match url_Parse (c_DSN opts) with
    | None => Err EBadDSN
    | Some endpoint =>
      if negb (one_of (url_Scheme endpoint) ["http"; "https"]) then Err (EScheme (url_Scheme endpoint))
      else
        let '(user, password, endpoint) :=
          match url_User endpoint with
          | Some (u, p) => (u, p, url_WithoutUser endpoint)
          | None => ("", "", endpoint)
          end in
        Ok (mkCSink opts endpoint user password (url_Database endpoint))
    end.

(** ** Rows *)

Definition is_blank (c : ascii) : bool :=
  let b := byte_val c in ((b =? 32) || (b =? 9) || (b =? 13) || (b =? 10))%Z.

(** A text without its last byte, and that byte. *)
Fixpoint split_last (s : string) : option (string * ascii) :=
  match s with
  | "" => None
  | String c "" => Some ("", c)
  | String c s' => '(t, l) ← split_last s'; Some (String c t, l)
  end.

(** The two columns every row ends with. *)
Definition row_suffix (d : Doc) : string :=
  dq +:+ VersionColumn +:+ dq +:+ ":" +:+ FormatUint (doc_Version d) +:+ "," +:+
  dq +:+ DeletedColumn +:+ dq +:+ ":" +:+ (if doc_Deleted d then "1" else "0") +:+ "}" +:+ nl.

Definition encode_row (d : Doc) : res ch_error string :=
  if bool_decide (doc_Body d = "") then Err (ERowNoBody (doc_Key d))
  else
    let trimmed := TrimRightBy is_blank (doc_Body d) in
    match trimmed, split_last trimmed with
    | String "{" _, Some (front, "}"%char) =>
        if (slen trimmed <? 2)%Z then Err (ERowNotObject (doc_Key d))
        else Ok (front +:+ (if (2 <? slen trimmed)%Z then "," else "") +:+ row_suffix d)
    | _, _ => Err (ERowNotObject (doc_Key d))
    end.

Fixpoint encodeRows (docs : list Doc) : res ch_error string :=
  match docs with
  | [] => Ok ""
  | d :: docs => row ← encode_row d; rest ← encodeRows docs; Ok (row +:+ rest)
  end.

Definition dedupToken (docs : list Doc) : string :=
  match docs with
  | [] => ""
  | d :: _ =>
      doc_Key d +:+ "-" +:+ FormatUint (doc_Version d) +:+ "-" +:+
      FormatUint (List.last (map doc_Version docs) 0%Z) +:+ "-" +:+ FormatInt (zlen docs)
  end.

Definition retryableStatus (status : Z) : bool :=
  ((status =? StatusTooManyRequests) || (500 <=? status))%Z.

Definition ch_snippet (payload : string) : string := clip 300 (TrimSpace payload).

Context {W : Type} `{!HttpOps W, !TimerOps W}.
Variable s : CSink.

Definition qualifiedTable : string :=
  if negb (bool_decide (cs_database s = "")) && negb (Contains (c_Table (cs_opts s)) ".")
  then cs_database s +:+ "." +:+ c_Table (cs_opts s)
  else c_Table (cs_opts s).

Definition insert_query (token : string) : list (string * string) :=
  [("query", "INSERT INTO " +:+ qualifiedTable +:+ " FORMAT JSONEachRow")] ++
  (if bool_decide (token = "") then [] else [("insert_deduplication_token", token)]) ++
  [("async_insert", "0")].

Definition ch_post (body token : string) : eff W string (Z * string) :=
  http_Do (mkRequest "POST" (url_WithQuery (cs_endpoint s) (insert_query token)) None
    (c_Compress (cs_opts s))
    (if bool_decide (cs_user s = "") then None else Some (cs_user s, cs_password s)) (Some body)).

Definition ch_wait : Z -> eff W string () :=
  wait (c_BaseBackoff (cs_opts s)) (c_MaxBackoff (cs_opts s)).

(** How the attempts at one batch end. *)
Inductive insert_end :=
  | Inserted
  | RefusedBy (status : Z) (payload : string)
  | FailedWith (e : ch_error).

(** The loop of [write]: attempt number [k], with [n] more allowed after it. *)
Fixpoint insert_attempts (n : nat) (k : Z) (docs : list Doc) (body : string) (w : W) : W * insert_end :=
  let again (w : W) :=
    match n with
    | 0%nat => None
    | S n => Some (match ch_wait k w with
                   | (w, Err cause) => (w, FailedWith (EWait cause))
                   | (w, Ok _) => insert_attempts n (k + 1) docs body w
                   end)
    end in
  match ch_post body (dedupToken docs) w with
  | (w, Err cause) =>
      match again w with Some r => r | None => (w, FailedWith (EInsert (zlen docs) cause)) end
  | (w, Ok (status, payload)) =>
      if (status <? 300)%Z then (w, Inserted)
      else if retryableStatus status then
        match again w with
        | Some r => r
        | None => (w, FailedWith (EInsertStatus status k (ch_snippet payload)))
        end
      else (w, RefusedBy status payload)
  end.

Definition maxIsolationDepth : Z := 12.

(** [isolate]: a row refused by itself is rejected; a longer batch is written
    half by half one level deeper, unless that is as deep as it goes. *)
Definition isolate (deeper : option (list Doc -> W -> W * (Result * option ch_error)))
    (docs : list Doc) (status : Z) (payload : string) (w : W) : W * (Result * option ch_error) :=
  match docs with
  | [d] =>
      (w, (mkResult 0 0 [mkRejection d status
             ("status " +:+ FormatInt status +:+ ": " +:+ ch_snippet payload)], None))
  | _ =>
    match deeper with
    | None => (w, (zero_result, Some (EStillRefused (zlen docs) maxIsolationDepth)))
    | Some write_half =>
      let mid := length docs `div` 2 in
      let '(w, (r1, e1)) := write_half (take mid docs) w in
      match e1 with
      | Some e => (w, (add_result zero_result r1, Some e))
      | None =>
        let '(w, (r2, e2)) := write_half (drop mid docs) w in
        (w, (add_result (add_result zero_result r1) r2, e2))
      end
    end
  end.

(** [write] at the depth that leaves room for [splits] more levels. *)
Fixpoint ch_write (splits : nat) (docs : list Doc) (w : W) : W * (Result * option ch_error) :=
  match encodeRows docs with
  | Err e => (w, (zero_result, Some e))
  | Ok body =>
    match insert_attempts (Z.to_nat (c_MaxAttempts (cs_opts s) - 1)) 1 docs body w with
    | (w, Inserted) => (w, (mkResult (zlen docs) 0 [], None))
    | (w, FailedWith e) => (w, (zero_result, Some e))
    | (w, RefusedBy status payload) =>
        isolate (match splits with 0%nat => None | S splits => Some (ch_write splits) end)
          docs status payload w
    end
  end.

(** [Write]: the first call is at depth 1. *)
Definition ch_Write (docs : list Doc) (w : W) : W * (Result * option ch_error) :=
  match docs with
  | [] => (w, (zero_result, None))
  | _ => ch_write (Z.to_nat (maxIsolationDepth - 1)) docs w
  end.

(** ** Accounting *)

Lemma add_zero_result r : add_result zero_result r = r.
Proof. by destruct r. Qed.

Lemma isolate_accounts deeper docs status payload w w' r :
  (forall write, deeper = Some write ->
     forall ds w w' r, write ds w = (w', (r, None)) -> accounts_for ds r) ->
  isolate deeper docs status payload w = (w', (r, None)) -> accounts_for docs r.
Proof.
  intros Hd Hi. unfold isolate in Hi. destruct deeper as [write|].
  - specialize (Hd write eq_refl). set (mid := length docs `div` 2) in Hi.
    destruct (write (take mid docs) w) as [w1 [r1 e1]] eqn:H1.
    destruct (write (drop mid docs) w1) as [w2 [r2 e2]] eqn:H2.
    rewrite add_zero_result in Hi.
    destruct (decide (length docs = 1)) as [Hone|Hmore].
    + destruct docs as [|d [|]]; [done| |done]. injection Hi as _ <-. by split.
    + assert (match e1 with Some e => (w1, (r1, Some e)) | None => (w2, (add_result r1 r2, e2)) end
              = (w', (r, None))) as Hi' by (destruct docs as [|d [|]]; [done|by destruct Hmore|done]).
      destruct e1; [done|]. simplify_eq. eapply accounts_halves; by eapply Hd.
  - destruct docs as [|d [|]]; [done| |done]. injection Hi as _ <-. by split.
Qed.

Lemma ch_write_accounts splits docs w w' r :
  ch_write splits docs w = (w', (r, None)) -> accounts_for docs r.
Proof.
  revert docs w w' r. induction splits as [|splits IH]; intros docs w w' r Hw; cbn [ch_write] in Hw;
    (destruct (encodeRows docs) as [body|]; [|done]);
    (destruct (insert_attempts _ _ docs body w) as [w1 [|status payload|e]]; [| |done]);
    try (injection Hw as _ <-; split; [unfold Total; simpl; change (zlen []) with 0%Z; lia|apply zlen_nonneg|done|
         apply submseteq_nil_l]).
  - by eapply isolate_accounts in Hw.
  - eapply isolate_accounts in Hw; [done|]. by intros write [= <-].
Qed.

(** Without an error, every row of a batch was inserted or refused by itself:
    what the runner relies on before it records a position. *)
Theorem ch_Write_accounts docs w w' r : ch_Write docs w = (w', (r, None)) -> accounts_for docs r.
Proof.
  unfold ch_Write. destruct docs; [intros [= _ <-]; by split|]. apply ch_write_accounts.
Qed.

(** ** Rows: lemmas *)

Lemma split_last_app s0 c : split_last (s0 +:+ str1 c) = Some (s0, c).
Proof.
  induction s0 as [|a s0 IH]; [done|]. rewrite app_cons_str.
  assert (s0 +:+ str1 c <> "") as Hne by (by destruct s0).
  destruct (s0 +:+ str1 c) as [|b t] eqn:E; [done|].
  change (split_last (String a (String b t))) with ('(t, l) ← split_last (String b t); Some (String a t, l)).
  by rewrite IH.
Qed.

Lemma TrimRightBy_keep P s0 c : P c = false -> TrimRightBy P (s0 +:+ str1 c) = s0 +:+ str1 c.
Proof.
  intros Hc. unfold TrimRightBy. rewrite str_rev_app. change (str_rev (str1 c)) with (str1 c).
  cbn [String.append str1 TrimLeftBy]. rewrite Hc.
  change (str_rev (str1 c +:+ str_rev s0) = s0 +:+ str1 c).
  by rewrite str_rev_app, str_rev_involutive.
Qed.

Definition object_body (inner : string) : string := "{" +:+ inner +:+ "}".

(** The row of a document whose body is an object: the object's members and
    the two columns the engine deduplicates and filters by, on one line. *)
Definition row_line (inner : string) (d : Doc) : string :=
  "{" +:+ inner +:+ (if bool_decide (inner = "") then "" else ",") +:+
  dq +:+ VersionColumn +:+ dq +:+ ":" +:+ FormatUint (doc_Version d) +:+ "," +:+
  dq +:+ DeletedColumn +:+ dq +:+ ":" +:+ (if doc_Deleted d then "1" else "0") +:+ "}".

Lemma encode_row_object inner d :
  doc_Body d = object_body inner -> encode_row d = Ok (row_line inner d +:+ nl).
Proof.
  intros Hb. unfold encode_row. rewrite Hb, bool_decide_eq_false_2 by done.
  assert (object_body inner = String "{" inner +:+ str1 "}") as -> by done.
  cbv zeta. rewrite TrimRightBy_keep by done.
  pose proof (split_last_app (String "{" inner) "}") as Hsplit. rewrite app_cons_str in *. rewrite Hsplit.
  assert (slen (String "{" (inner +:+ str1 "}")) = 2 + slen inner)%Z as ->.
  { rewrite <- (app_cons_str "{"), slen_app. unfold slen. cbn [String.length str1]. lia. }
  pose proof (slen_nonneg inner). rewrite (proj2 (Z.ltb_ge _ 2)) by lia.
  f_equal. unfold row_line, row_suffix. rewrite ?app_assoc_str, ?app_cons_str. cbn [String.append].
  f_equal. f_equal. f_equal. destruct (decide (inner = "")) as [->|Hne]; [done|].
  rewrite bool_decide_eq_false_2 by done. rewrite (proj2 (Z.ltb_lt 2 _)); [done|].
  assert (slen inner <> 0)%Z by (by intros ?%slen_zero). lia.
Qed.

(** A batch of documents with object bodies becomes one row per document, in
    order, each on a line of its own: no body moves the version or the deleted
    flag to another row. *)
Theorem encodeRows_lines docs inners :
  Forall2 (fun d inner => doc_Body d = object_body inner /\ free_of newline inner = true) docs inners ->
  exists text, encodeRows docs = Ok text /\
    SplitByte newline text = zip_with row_line inners docs ++ [""].
Proof.
  induction 1 as [|d inner docs inners [Hb Hf] _ (text & Ht & Hs)]; [by exists ""|].
  cbn [encodeRows zip_with]. rewrite (encode_row_object inner) by done. unfold mbind, res_bind. rewrite Ht.
  eexists. split; [done|]. rewrite app_assoc_str. unfold nl. change (str1 newline +:+ text) with (String newline text).
  rewrite SplitByte_app_sep, Hs; [done|].
  unfold row_line. rewrite !free_app, Hf, (digits_free _ (FormatUint_digits _)).
  by destruct (bool_decide _), (doc_Deleted d).
Qed.

(** ** Narrowing *)

Lemma halves_log n splits : n <= 2 ^ S splits -> n `div` 2 <= 2 ^ splits /\ n - n `div` 2 <= 2 ^ splits.
Proof.
  intros Hn. rewrite Nat.pow_succ_r' in Hn. pose proof (Nat.div_mod n 2 ltac:(lia)).
  pose proof (Nat.mod_upper_bound n 2 ltac:(lia)). lia.
Qed.

Definition gave_up (e : option ch_error) : Prop := exists rows depth, e = Some (EStillRefused rows depth).

Lemma insert_attempts_failed n k docs body w w' e :
  insert_attempts n k docs body w = (w', FailedWith e) -> ~ gave_up (Some e).
Proof.
  revert k w. induction n as [|n IH]; intros k w Hi [rows [depth [= ->]]]; cbn [insert_attempts] in Hi.
  - repeat case_match; done.
  - assert (forall w1, match ch_wait k w1 with
        | (w, Err cause) => (w, FailedWith (EWait cause))
        | (w, Ok _) => insert_attempts n (k + 1) docs body w
        end <> (w', FailedWith (EStillRefused rows depth))) as Hagain.
    { intros w1 Ha. destruct (ch_wait k w1) as [w2 [[]|]]; [|done]. eapply IH; [exact Ha|by repeat eexists]. }
    destruct (ch_post body _ w) as [w1 [[status payload]|cause]]; [|by eapply Hagain].
    destruct (status <? 300)%Z; [done|]. destruct (retryableStatus status); [by eapply Hagain|done].
Qed.

Lemma encodeRows_failed docs e : encodeRows docs = Err e -> ~ gave_up (Some e).
Proof.
  revert e. induction docs as [|d docs IH]; intros e He [rows [depth [= ->]]]; [done|]. cbn in He.
  destruct (encode_row d) as [row|e'] eqn:Hd.
  - destruct (encodeRows docs) as [rest|e']; [done|]. injection He as ->. eapply IH; [done|by repeat eexists].
  - injection He as ->. unfold encode_row in Hd. by repeat case_match.
Qed.

Lemma ch_write_narrows splits docs w :
  docs <> [] -> length docs <= 2 ^ splits -> ~ gave_up (ch_write splits docs w).2.2.
Proof.
  revert docs w. induction splits as [|splits IH]; intros docs w Hne Hlen; cbn [ch_write];
    (destruct (encodeRows docs) as [body|e] eqn:He; [|by eapply encodeRows_failed]);
    (destruct (insert_attempts _ _ docs body w) as [w1 [|status payload|e]] eqn:Hi;
       [by intros (? & ? & ?) | | by eapply insert_attempts_failed]).
  - destruct docs as [|d [|]]; [done|by intros (? & ? & ?)|simpl in Hlen; lia].
  - unfold isolate. set (mid := length docs `div` 2).
    destruct (decide (length docs = 1)) as [Hone|Hmore].
    { destruct docs as [|d [|]]; [done|by intros (? & ? & ?)|done]. }
    destruct (halves_log _ _ Hlen) as [Hl1 Hl2].
    assert (1 < length docs) as Hlong by (destruct docs as [|d [|]]; simpl in *; done || lia).
    pose proof (halves_shorter docs Hlong) as [Hs1 Hs2].
    assert (take mid docs <> [] /\ drop mid docs <> []) as [Hn1 Hn2].
    { split; intros E%(f_equal length); rewrite ?length_take, ?length_drop in *; simpl in E; subst mid; lia. }
    pose proof (IH (take mid docs) w1 Hn1 ltac:(rewrite length_take; subst mid; lia)) as G1.
    destruct (ch_write splits (take mid docs) w1) as [w2 [r1 e1]].
    pose proof (IH (drop mid docs) w2 Hn2 ltac:(rewrite length_drop; subst mid; lia)) as G2.
    destruct (ch_write splits (drop mid docs) w2) as [w3 [r2 e2]].
    destruct docs as [|d [|]]; [done|simpl in Hlong; lia|]. by destruct e1.
Qed.

(** A batch of up to 2048 rows is always narrowed down to single rows: the
    sink never gives up on one with rows left to separate. *)
Theorem ch_Write_narrows docs w : (zlen docs <= 2048)%Z -> ~ gave_up (ch_Write docs w).2.2.
Proof.
  intros Hlen. unfold ch_Write. destruct docs as [|d docs]; [by intros (? & ? & ?)|].
  apply ch_write_narrows; [done|]. unfold zlen in Hlen.
  change (Z.to_nat (maxIsolationDepth - 1)) with 11. change (2 ^ 11) with 2048. lia.
Qed.

(** ** Rows at fault *)

(** A server that takes every batch cut out of [docs] unless it holds a row it
    refuses. *)
Definition judges (refused : Doc -> bool) (docs : list Doc) : Prop :=
  forall pre ds post w, docs = pre ++ ds ++ post -> ds <> [] ->
    exists body w' payload, encodeRows ds = Ok body /\
      ch_post body (dedupToken ds) w = (w', Ok (if existsb refused ds then 400 else 200, payload)%Z).

Lemma judges_part refused docs pre ds post :
  docs = pre ++ ds ++ post -> judges refused docs -> judges refused ds.
Proof.
  intros -> Hj pre' ds' post' w -> Hne. apply (Hj (pre ++ pre') ds' (post' ++ post) w); [|done].
  by rewrite <- !app_assoc.
Qed.

(** What isolating a batch leaves: the refused rows, in order, and a count of
    the others. *)
Definition isolated (refused : Doc -> bool) (docs : list Doc) (r : Result) : Prop :=
  map rej_Doc (Rejected r) = filter (fun d => refused d = true) docs /\
  Applied r = zlen (filter (fun d => refused d = false) docs).

Lemma isolated_app refused docs1 docs2 r1 r2 :
  isolated refused docs1 r1 -> isolated refused docs2 r2 ->
  isolated refused (docs1 ++ docs2) (add_result r1 r2).
Proof.
  intros [H1 A1] [H2 A2]. split; simpl.
  - by rewrite map_app, filter_app, H1, H2.
  - by rewrite filter_app, zlen_app, A1, A2.
Qed.

Lemma none_refused (refused : Doc -> bool) (docs : list Doc) :
  existsb refused docs = false ->
  filter (fun d => refused d = true) docs = [] /\ filter (fun d => refused d = false) docs = docs.
Proof.
  induction docs as [|d docs IH]; [done|]. simpl. intros [Hd Hds]%orb_false_iff.
  destruct (IH Hds) as [E1 E2]. rewrite !filter_cons, Hd, E1, E2. done.
Qed.

Lemma ch_write_isolates refused splits docs w :
  docs <> [] -> length docs <= 2 ^ splits -> judges refused docs ->
  exists w' r, ch_write splits docs w = (w', (r, None)) /\ isolated refused docs r.
Proof.
  revert docs w. induction splits as [|splits IH]; intros docs w Hne Hlen Hj; cbn [ch_write];
    destruct (Hj [] docs [] w) as (body & w1 & payload & -> & Hp); try (by rewrite ?app_nil_r).
  all: assert (forall n, insert_attempts n 1 docs body w =
      (w1, if existsb refused docs then RefusedBy 400 payload else Inserted)) as ->
    by (intros [|n]; cbn [insert_attempts]; rewrite Hp; by destruct (existsb refused docs)).
  all: destruct (existsb refused docs) eqn:Hex;
    [|destruct (none_refused _ _ Hex) as [E1 E2]; eexists _, _; split; [done|]; split; simpl; by rewrite ?E1, ?E2].
  - destruct docs as [|d [|]]; [done| |simpl in Hlen; lia]. simpl in Hex. rewrite orb_false_r in Hex.
    eexists _, _. split; [done|]. split; simpl; by rewrite filter_cons, Hex.
  - destruct (decide (length docs = 1)) as [Hone|Hmore].
    { destruct docs as [|d [|]]; [done| |done]. simpl in Hex. rewrite orb_false_r in Hex.
      eexists _, _. split; [done|]. split; simpl; by rewrite filter_cons, Hex. }
    destruct (halves_log _ _ Hlen) as [Hl1 Hl2]. unfold isolate. set (mid := length docs `div` 2).
    assert (1 < length docs) as Hlong by (destruct docs as [|d [|]]; simpl in *; done || lia).
    pose proof (halves_shorter docs Hlong) as [Hs1 Hs2]. fold mid in Hs1, Hs2, Hl1, Hl2.
    rewrite length_take in Hs1. rewrite length_drop in Hs2.
    destruct (IH (take mid docs) w1) as (w2 & r1 & E1 & I1).
    { intros E%(f_equal length). rewrite length_take in E. simpl in E. lia. }
    { rewrite length_take. lia. }
    { by apply (judges_part _ docs [] _ (drop mid docs)); [rewrite take_drop|]. }
    destruct (IH (drop mid docs) w2) as (w3 & r2 & E2 & I2).
    { intros E%(f_equal length). rewrite length_drop in E. simpl in E. lia. }
    { rewrite length_drop. lia. }
    { apply (judges_part _ docs (take mid docs) _ []); [by rewrite app_nil_r, take_drop|done]. }
    exists w3, (add_result r1 r2). split.
    + rewrite E1, E2, add_zero_result. by destruct docs as [|d [|]].
    + rewrite <- (take_drop mid docs). by apply isolated_app.
Qed.

(** C38: One bad row costs only itself: against a server that refuses a batch
    exactly when it holds a bad row, every good row of a batch of up to 2048 is
    inserted and the bad ones, and no others, are reported as refused, in
    order. *)
Theorem ch_Write_isolates refused docs w :
  (zlen docs <= 2048)%Z -> judges refused docs ->
  exists w' r, ch_Write docs w = (w', (r, None)) /\ isolated refused docs r.
Proof.
  intros Hlen Hj. unfold ch_Write. destruct docs as [|d docs].
  - eexists _, _. split; [done|]. by split.
  - apply ch_write_isolates; [done| |done]. unfold zlen in Hlen.
    change (Z.to_nat (maxIsolationDepth - 1)) with 11. change (2 ^ 11) with 2048. lia.
Qed.

End ClickHouse.
