(* ===== verification/Wiring.v ===== *)
(** * A stream and its destination ([internal/supervisor/build.go])

    The sink a stream's configuration asks for, the check of its destination
    before anything is written, and what the administration of an Elasticsearch
    index means for the initial scan of [Supervisor]. *)

From Stdlib Require Import Ascii.
From S2P Require Import Prelude GoStd Schema Cdc Config Transform Sink Checkpoint Runner Snapshot Binlog Http Elasticsearch ElasticsearchAdmin Supervisor ClickHouse.

Section Wiring.
Context `{!MapOrder} `{!UrlOps}.

Inductive built_sink :=
  | ElasticSink (s : ESink)
  | ColumnSink (s : CSink).

Inductive wiring_error :=
  | EWiringType (sinkType : string)
  | EWiringElastic (e : es_error)
  | EWiringClickHouse (e : ch_error)
  | EWiringSchema (e : schema_error)
  | EWiringMapping (e : admin_error).

Definition es_options (k : SinkConfig) : Options :=
  mkOptions (si_Addresses k) (si_Index k) (si_Alias k) "" "" (si_Workers k) 0 0 0 true 0.
Definition ch_options (k : SinkConfig) : ch_Options :=
  mkChOptions (si_DSN k) (si_Table k) (si_Workers k) 0 0 0 true 0.

Definition buildSink (stream : Stream) : res wiring_error built_sink :=
  let k := st_Sink stream in
  if bool_decide (si_Type k = SinkElasticsearch) then
    s ← map_err EWiringElastic (NewESink (es_options k)); Ok (ElasticSink s)
  else if bool_decide (si_Type k = SinkClickHouse) then
    s ← map_err EWiringClickHouse (NewCSink (ch_options k)); Ok (ColumnSink s)
  else Err (EWiringType (si_Type k)).

Context {W : Type} `{!HttpOps W}.

Definition validateDestination (stream : Stream) (destination : built_sink) (meta : TableMeta)
  : eff (Z * W) wiring_error () :=
  match destination with
  | ColumnSink _ => mret ()
  | ElasticSink s =>
    let m := st_Mapping stream in
    key ← eff_lift (map_err EWiringSchema (ResolveKey meta (m_Key m)));
    expected ← eff_lift (map_err EWiringSchema
      (ExpectedElasticsearchFields meta (m_Include m) (m_Exclude m) key (m_Rename m)));
    eff_map_err EWiringMapping (ValidateMapping s expected)
  end.

(** ** What is written fits where it goes *)

Lemma expected_lookup fields f :
  NoDup (map df_name fields) -> f ∈ fields ->
  foldl (fun m f => <[df_name f := mapped_Elasticsearch (df_mapped f)]> m) (∅ : gmap string string) fields !! df_name f
  = Some (mapped_Elasticsearch (df_mapped f)).
Proof.
  induction fields as [|g fields IH] using rev_ind; [by intros _ ?%not_elem_of_nil|].
  rewrite map_app, foldl_app. intros (Hnd & Hd & _)%NoDup_app. simpl. rewrite elem_of_app, list_elem_of_singleton.
  intros [Hf | ->]; [|apply lookup_insert_eq].
  rewrite lookup_insert_ne; [by apply IH|]. intros Heq.
  apply (Hd (df_name f)); [apply list_elem_of_In, in_map, list_elem_of_In, Hf|]. rewrite <- Heq. by left.
Qed.


(** ** The alias of a stream *)

Lemma buildSink_options stream s :
  buildSink stream = Ok (ElasticSink s) ->
  o_Index (s_opts s) = si_Index (st_Sink stream) /\ o_Alias (s_opts s) = si_Alias (st_Sink stream).
Proof.
  unfold buildSink. case_bool_decide; [|case_bool_decide; [|done]].
  - unfold NewESink, es_options. simpl. destruct (si_Addresses _); [done|].
    case_bool_decide; [done|]. case_match; [done|]. by intros [= <-].
  - by destruct (map_err _ _).
Qed.

Context `{ScanLib} `{!StoreOps W, !StoreLaws W, !ClockOps W, !BackfillOps W, !BackfillLaws (W := W)}.

(** The supervisor's operations on a stream's alias are those of its sink, at
    whatever value its request counter has. *)
Class Administers (s : ESink) (stream : string) : Prop := {
  targets_as : forall w, exists c text, let '(st, r) := aliasTargets s (c, w) in
    sink_AliasTargets stream w = (st.2, map_err text r);
  promote_as : forall w, exists c text, let '(st, r) := PromoteAlias s (c, w) in
    sink_PromoteAlias stream w = (st.2, map_err text r)
}.

Variables (rt : StreamRuntime) (s : ESink).
Hypothesis Hbuilt : buildSink (sr_cfg rt) = Ok (ElasticSink s).
Hypothesis Halias : has_alias rt = true.
Context `{!Administers s (stream_name rt)}.

Lemma has_alias_es : es_alias s <> "".
Proof using Hbuilt Halias.
  destruct (buildSink_options _ _ Hbuilt) as [_ Ha]. unfold es_alias. rewrite Ha.
  apply andb_true_iff in Halias as [_ Hne]. by apply negb_true_iff, bool_decide_eq_false in Hne.
Qed.

(** A promotion of the supervisor is one of the sink, from some world. *)
Lemma promoteAlias_sink w w' :
  promoteAlias rt w = (w', Ok ()) ->
  exists c w1 st, PromoteAlias s (c, w1) = (st, Ok ()) /\ st.2 = w'.
Proof using All.
  unfold promoteAlias. rewrite Halias. simpl.
  destruct (sink_AliasTargets _ w) as [w1 [ts|]]; [|done]. unfold eff_map_err.
  destruct (promote_as w1) as (c & text & Hp).
  destruct (PromoteAlias s (c, w1)) as [st r] eqn:HP. rewrite Hp.
  destruct r as [[]|]; [|done]. intros [= <-]. by exists c, w1, st.
Qed.

(** C21: A scan that the supervisor finished without an error leaves the readers'
    alias on the stream's index alone, whatever it pointed at before. *)
Theorem finished_scan_moves_readers resolve `{!AliasLaws W resolve} w w' position :
  finishScan rt w = (w', Ok position) ->
  resolve w' (si_Alias (st_Sink (sr_cfg rt))) = {[si_Index (st_Sink (sr_cfg rt))]}.
Proof using All.
  unfold finishScan. destruct (store_Load _ w) as [w1 [cp|]]; [|done].
  destruct (store_Save _ w1) as [w2 [[]|]]; [|done].
  destruct (promoteAlias rt w2) as [w3 [[]|]] eqn:Hp; [|done]. intros [= <- _].
  apply promoteAlias_sink in Hp as (c & w4 & [c' w5] & Hp & Heq). simpl in Heq. subst w5.
  destruct (buildSink_options _ _ Hbuilt) as [<- <-].
  destruct (PromoteAlias_moves s resolve _ _ _ _ _ has_alias_es Hp) as [_ Hok]. by apply Hok.
Qed.

(** When the alias is the index, no scan is finished. *)
Lemma runScan_refused dsn rt1 cp w w' p :
  o_Alias (s_opts s) = o_Index (s_opts s) -> sr_cfg rt1 = sr_cfg rt -> runScan dsn rt1 cp w <> (w', Ok p).
Proof using All.
  intros Hsame Hcfg. unfold runScan. destruct (if negb _ then replica_Open dsn w else (w, Ok ())) as [w1 [[]|]]; [|done].
  destruct (newScanner rt1 cp) as [sn|]; [|done]. destruct (scan rt1 sn w1) as [w2 [[]|]] eqn:Hsc; try done.
  2: { apply scan_unfinished in Hsc. by destruct (context_Err w2) as [? [|]]. }
  destruct (finishScan rt1 w2) as [w3 outcome] eqn:Hf. intros [= _ ->].
  unfold finishScan in Hf. destruct (store_Load _ w2) as [w4 [c|]]; [|done].
  destruct (store_Save _ w4) as [w5 [[]|]]; [|done].
  assert (promoteAlias rt1 w5 = promoteAlias rt w5) as E
    by (unfold promoteAlias, has_alias, stream_name; by rewrite Hcfg).
  rewrite E in Hf. destruct (promoteAlias rt w5) as [w6 [[]|]] eqn:Hp; [|done].
  apply promoteAlias_sink in Hp as (c' & w7 & st & Hp & _).
  unfold PromoteAlias in Hp. rewrite bool_decide_eq_false_2 in Hp by apply has_alias_es.
  by rewrite bool_decide_eq_true_2 in Hp.
Qed.

(** A stream whose alias is its index, which validation accepts, is scanned to
    the end and then never streamed: with no position of changes recorded yet,
    every start ends in an error. *)
Theorem alias_is_index_never_streams dsn w rt' w' position :
  si_Alias (st_Sink (sr_cfg rt)) = si_Index (st_Sink (sr_cfg rt)) ->
  sc_Enabled (st_Snapshot (sr_cfg rt)) = true ->
  (forall cp, view w !! store_key (stream_name rt) = Some cp -> cp_GTIDSet cp = "") ->
  snapshotIfNeeded dsn (rt, w) <> ((rt', w'), Ok position).
Proof using All.
  intros Hsame Hen Hnone. unfold snapshotIfNeeded.
  destruct (store_Load (stream_name rt) w) as [w1 loaded] eqn:HL.
  assert (forall c, loaded = Ok c -> cp_GTIDSet c = "") as Hcp.
  { intros c ->. apply load_ok in HL. by apply Hnone. }
  assert (forall c, cp_GTIDSet c = "" -> match markScanStarted c (rt, w1) with
    | (rtw, Err e) => (rtw, Err e)
    | ((rt, w), Ok cp) => let '(w, outcome) := runScan dsn rt cp w in ((rt, w), outcome)
    end <> ((rt', w'), Ok position)) as Hscan.
  { intros c _ Hr. destruct (markScanStarted c (rt, w1)) as [[rt1 w2] [c1|]] eqn:HM; [|done].
    apply markScanStarted_cfg in HM. destruct (runScan dsn rt1 c1 w2) as [w3 outcome] eqn:HR.
    injection Hr as <- <- ->. destruct (buildSink_options _ _ Hbuilt). eapply runScan_refused in HR; [done|congruence|done]. }
  destruct loaded as [c|[|e]]; [..|done]; cbv zeta.
  - specialize (Hcp c eq_refl). rewrite Hcp, bool_decide_eq_true_2, andb_false_r, Hen by done. by apply Hscan.
  - rewrite Hen. by apply Hscan.
Qed.

End Wiring.
