(* ===== verification/Startup.v ===== *)
(** * Starting and stopping a run ([internal/supervisor/supervisor.go], [build.go])

    The streams a run is asked for, the claiming, building and validating of
    each, what is given back at the end, and the order of the whole. Log lines
    and metrics are left out; contexts appear only as errors. *)

From Stdlib Require Import Ascii.
From S2P Require Import Prelude GoStd Address Sql Schema TableLoader Preflight Cdc Config Transform Batcher Sink Checkpoint CheckpointTable Runner DeadLetters Snapshot Binlog Http Elasticsearch ElasticsearchAdmin Supervisor Tasks ClickHouse Wiring.

Section Startup.
Context `{ScanLib} `{!ErrorText} `{!MapOrder} `{!UrlOps}.

(** [time.LoadLocation]. *)
Class ZoneOps := { LoadLocation : string -> option Location }.
Context `{!ZoneOps}.

(** ** What is started *)

Inductive startup_error :=
  | EStartDeadLetters
  | EStartStream (name : string)
  | EStartNoStreams
  | EStartSource (e : source_error)
  | EStartZone (zone : string)
  | EStartLock (e : mysql_error)
  | EStartTable (e : load_error)
  | EStartDialect (sinkType : string)
  | EStartPlan (e : transform_error)
  | EStartSink (e : wiring_error)
  | EStartDlq (e : dlq_error)
  | EStartAlloc (e : alloc_error)
  | EStartRunner (e : runner_error)
  | EStartOpen (what cause : string)
  | EStartStore (e : mysql_error)
  | EStartScan (e : sup_error)
  | EStartPosition (e : position_error)
  | EStartAddress (e : address_error)
  | EStartReader (e : binlog_error)
  | EStartTasks (e : outside_error)
  | EStartPanic.

(** The streams of a run: the one asked for, or all of them by name. *)
Definition selectStreams (cfg : Config) (streamName : string) : res startup_error (list Stream) :=
  if negb (bool_decide (streamName = "")) then
    match Config_Stream cfg streamName with Some s => Ok [s] | None => Err (EStartStream streamName) end
  else match StreamNames cfg with
  | [] => Err EStartNoStreams
  | names => Ok (omap (fun name => c_Streams cfg !! name) names)
  end.

Record SupervisorT := mkSupervisor { sv_cfg : Config; sv_streams : list Stream; sv_dlqDir : string }.

Definition NewSupervisor (cfg : Config) (streamName dlqDir : string) : res startup_error SupervisorT :=
  if bool_decide (dlqDir = "") then Err EStartDeadLetters
  else streams ← selectStreams cfg streamName; Ok (mkSupervisor cfg streams dlqDir).

(** [streamRuntime]: what is built so far of a stream. *)
Record StreamRun := mkStreamRun {
  rn_cfg : Stream;
  rn_lock : option StreamLock;
  rn_meta : option TableMeta;
  rn_plan : option Plan;
  rn_sink : option built_sink;
  rn_dlq : option Writer;
  rn_alloc : option Allocator;
  rn_runner : option Runner;
  rn_events : Z
}.

Definition new_run (stream : Stream) : StreamRun := mkStreamRun stream None None None None None None None 0.
Definition set_lock (l : StreamLock) (r : StreamRun) : StreamRun :=
  mkStreamRun (rn_cfg r) (Some l) (rn_meta r) (rn_plan r) (rn_sink r) (rn_dlq r) (rn_alloc r) (rn_runner r) (rn_events r).
Definition set_meta (m : TableMeta) (r : StreamRun) : StreamRun :=
  mkStreamRun (rn_cfg r) (rn_lock r) (Some m) (rn_plan r) (rn_sink r) (rn_dlq r) (rn_alloc r) (rn_runner r) (rn_events r).
Definition set_plan (p : Plan) (r : StreamRun) : StreamRun :=
  mkStreamRun (rn_cfg r) (rn_lock r) (rn_meta r) (Some p) (rn_sink r) (rn_dlq r) (rn_alloc r) (rn_runner r) (rn_events r).
Definition set_sink (k : built_sink) (r : StreamRun) : StreamRun :=
  mkStreamRun (rn_cfg r) (rn_lock r) (rn_meta r) (rn_plan r) (Some k) (rn_dlq r) (rn_alloc r) (rn_runner r) (rn_events r).
Definition set_dlq (d : Writer) (r : StreamRun) : StreamRun :=
  mkStreamRun (rn_cfg r) (rn_lock r) (rn_meta r) (rn_plan r) (rn_sink r) (Some d) (rn_alloc r) (rn_runner r) (rn_events r).
Definition set_runner (a : Allocator) (k : Runner) (buffer : Z) (r : StreamRun) : StreamRun :=
  mkStreamRun (rn_cfg r) (rn_lock r) (rn_meta r) (rn_plan r) (rn_sink r) (rn_dlq r) (Some a) (Some k) buffer.

Context {W : Type} `{!SqlOps W, !ConnOps W, !HttpOps W, !OsOps W}.
Variable store : MySQLStore.

(** ** build.go: one stream

    The state is the stream's runtime, the cache of definitions and the world. *)
Definition building := (StreamRun * (gmap string TableMeta * W))%type.

Definition outside {E A} (f : E -> startup_error) (m : eff W E A) : eff building startup_error A := fun '(r, (cache, w)) =>
  let '(w, x) := m w in ((r, (cache, w)), map_err f x).
Definition from_cache {E A} (f : E -> startup_error) (m : eff (gmap string TableMeta * W) E A)
  : eff building startup_error A := fun '(r, cw) => let '(cw, x) := m cw in ((r, cw), map_err f x).
Definition update (f : StreamRun -> StreamRun) : eff building startup_error () := fun '(r, cw) => ((f r, cw), Ok ()).
Definition pure {E A} (f : E -> startup_error) (x : res E A) : eff building startup_error A := eff_lift (map_err f x).

(** [validateDestination]; a new sink has sent no request yet. *)
Definition check_destination (stream : Stream) (sink : built_sink) (meta : TableMeta) : eff W wiring_error () := fun w =>
  let '((_, w), x) := validateDestination stream sink meta (0%Z, w) in (w, x).

(** [buildStream], once the stream is claimed. *)
Definition build_claimed (cfg : Config) (dlqDir : string) (stream : Stream) (zone : Location) : eff building startup_error () :=
  meta ← from_cache EStartTable (Table Load (Stream_Schema stream) (Stream_TableName stream));
  _ ← update (set_meta meta);
  dialect ← eff_lift (match dialectFor (si_Type (st_Sink stream)) with
                      | Some d => Ok d | None => Err (EStartDialect (si_Type (st_Sink stream))) end);
  plan ← pure EStartPlan (Compile (Some meta) (st_Mapping stream) dialect (Some zone) (m_OnZeroDate (st_Mapping stream)));
  _ ← update (set_plan plan);
  sink ← pure EStartSink (buildSink stream);
  _ ← update (set_sink sink);
  _ ← outside EStartSink (check_destination stream sink meta);
  dlq ← pure EStartDlq (NewWriter (mkDlqOptions dlqDir (st_Name stream) 0 false));
  _ ← update (set_dlq dlq);
  alloc ← pure EStartAlloc (NewAllocator (st_Name stream) seqBlockSize);
  runner ← pure EStartRunner (buildRunner stream plan (rt_ShutdownGrace (c_Runtime cfg)));
  update (set_runner alloc runner (rt_BufferSize (c_Runtime cfg))).

Definition buildStream (cfg : Config) (dlqDir : string) (stream : Stream) (zone : Location) : eff building startup_error () :=
  lock ← outside EStartLock (Lock store (st_Name stream));
  _ ← update (set_lock lock);
  build_claimed cfg dlqDir stream zone.

(** [prepare]: the runtimes built so far are returned with the error. *)
Fixpoint prepare_streams (cfg : Config) (dlqDir : string) (zone : Location) (streams : list Stream)
    (cw : gmap string TableMeta * W) : (gmap string TableMeta * W) * list StreamRun * res startup_error () :=
  match streams with
  | [] => (cw, [], Ok ())
  | stream :: streams =>
    match buildStream cfg dlqDir stream zone (new_run stream, cw) with
    | ((r, cw), Err e) => (cw, [r], Err e)
    | ((r, cw), Ok _) =>
      let '(cw, rs, x) := prepare_streams cfg dlqDir zone streams cw in (cw, r :: rs, x)
    end
  end.

Definition prepare (s : SupervisorT) (cw : gmap string TableMeta * W)
  : (gmap string TableMeta * W) * list StreamRun * res startup_error () :=
  let zone := src_TimeZone (c_Source (sv_cfg s)) in
  match LoadLocation zone with
  | None => (cw, [], Err (EStartZone zone))
  | Some zone => prepare_streams (sv_cfg s) (sv_dlqDir s) zone (sv_streams s) cw
  end.

(** [release]: an error is only logged, and the next stream released. *)
Definition release_dlq (r : StreamRun) (w : W) : W :=
  match rn_dlq r with Some d => (Close_ (d, w)).1.2 | None => w end.
Definition release_lock (r : StreamRun) (w : W) : W * option mysql_error :=
  match rn_lock r with
  | Some l => let '((_, w), x) := Release (l, w) in (w, match x with Err e => Some e | Ok _ => None end)
  | None => (w, None)
  end.
Fixpoint release (rs : list StreamRun) (w : W) : W * list mysql_error :=
  match rs with
  | [] => (w, [])
  | r :: rs =>
    let '(w, warning) := release_lock r (release_dlq r w) in
    let '(w, warnings) := release rs w in
    (w, match warning with Some e => e :: warnings | None => warnings end)
  end.

(** [Run], on connections that are open; the work is [backfill] and then
    [stream], given what was prepared. What was claimed is released however the
    run ends. *)
Definition Run (s : SupervisorT) (work : list StreamRun -> gmap string TableMeta -> eff W startup_error ()) (w : W)
  : W * res startup_error () * list mysql_error :=
  match checkSource (src_ServerID (c_Source (sv_cfg s))) w with
  | (w, Err e) => (w, Err (EStartSource e), [])
  | (w, Ok _) =>
    let '((cache, w), runs, prepared) := prepare s (∅, w) in
    let '(w, outcome) := match prepared with Err e => (w, Err e) | Ok _ => work runs cache w end in
    let '(w, warnings) := release runs w in
    (w, outcome, warnings)
  end.


(** ** What is claimed, and given back *)

(** What the rest of a run does leaves the advisory locks of the server alone. *)
Class LockFrame (lkey : string -> string) `{!LockLaws W lkey} : Prop := {
  frame_query : forall stmt args w, holder (sql_Query stmt args w).1 = holder w;
  frame_http : forall req w, holder (http_Do req w).1 = holder w;
  frame_close : forall h w, holder (file_Close h w).1 = holder w
}.

Context (lkey : string -> string) `{!LockLaws W lkey} `{!LockFrame lkey}.

(** A step of the building that takes no lock. *)
Definition framed {A} (m : eff building startup_error A) : Prop :=
  forall r c w r' c' w' x, m (r, (c, w)) = ((r', (c', w')), x) ->
    holder w' = holder w /\ rn_cfg r' = rn_cfg r /\ rn_lock r' = rn_lock r.

Lemma framed_bind {A B} (m : eff building startup_error A) (k : A -> eff building startup_error B) :
  framed m -> (forall a, framed (k a)) -> framed (m ≫= k).
Proof.
  intros Hm Hk r c w r' c' w' x Hx. apply eff_bind_cases in Hx as ([r1 [c1 w1]] & y & Hx1 & Hx2).
  destruct (Hm _ _ _ _ _ _ _ Hx1) as (E1 & E2 & E3). destruct y as [a|e].
  - destruct (Hk a _ _ _ _ _ _ _ Hx2) as (F1 & F2 & F3). by rewrite F1, F2, F3.
  - by destruct Hx2 as [[= -> -> ->] _].
Qed.

Lemma framed_lift {A} (x : res startup_error A) : framed (eff_lift x).
Proof. by intros r c w r' c' w' y [= <- <- <- _]. Qed.

Lemma framed_outside {E A} (f : E -> startup_error) (m : eff W E A) :
  (forall w, holder (m w).1 = holder w) -> framed (outside f m).
Proof.
  intros Hm r c w r' c' w' x. unfold outside. specialize (Hm w). destruct (m w) as [w1 y]. cbn in Hm.
  by intros [= <- <- <- _].
Qed.

Lemma framed_update f : (forall r, rn_cfg (f r) = rn_cfg r /\ rn_lock (f r) = rn_lock r) -> framed (update f).
Proof. intros Hf r c w r' c' w' x [= <- <- <- _]. by destruct (Hf r). Qed.

Lemma Load_frame schema table w : holder (Load schema table w).1 = holder w.
Proof.
  unfold Load, loadPrimaryKey. pose proof (frame_query columns_query [SText schema; SText table] w) as Hq1.
  destruct (sql_Query columns_query _ w) as [w1 [rows|e]]; [|done]. cbn in Hq1.
  pose proof (frame_query key_query [SText schema; SText table] w1) as Hq2.
  destruct (mapM scan_column rows) as [[|c columns]|]; [done| |done].
  destruct (sql_Query key_query _ w1) as [w2 [keys|e]]; cbn in Hq2; [|by rewrite <- Hq1].
  cbn. destruct (mapM scan_key_column keys); cbn; by rewrite <- Hq1.
Qed.

Lemma framed_cache {E} (f : E -> startup_error) load schema table :
  (forall s t w, holder (load s t w).1 = holder w) -> framed (from_cache f (Table (E := E) load schema table)).
Proof.
  intros Hl r c w r' c' w' x. unfold from_cache, Table. specialize (Hl schema table w).
  destruct (c !! cacheKey schema table); [by intros [= <- <- <- _]|].
  destruct (load schema table w) as [w1 [m|e]]; cbn in Hl.
  - destruct (publish _ m c). by intros [= <- <- <- _].
  - by intros [= <- <- <- _].
Qed.

Lemma check_frame stream sink meta w : holder (check_destination stream sink meta w).1 = holder w.
Proof.
  unfold check_destination, validateDestination. destruct sink as [s|s]; [|done].
  unfold mbind, eff_bind, eff_lift. destruct (map_err _ (ResolveKey _ _)) as [key|e]; [|done].
  destruct (map_err _ (ExpectedElasticsearchFields _ _ _ _ _)) as [expected|e]; [|done]. unfold eff_map_err.
  pose proof (ValidateMapping_frame s holder expected (0%Z, w) frame_http) as Hv.
  by destruct (ValidateMapping s expected (0%Z, w)) as [[c w1] x].
Qed.

Lemma build_claimed_framed cfg dir stream zone : framed (build_claimed cfg dir stream zone).
Proof.
  unfold build_claimed, pure.
  repeat (((apply framed_bind; [|intros ?]) || apply framed_lift || (apply framed_update; by intros ?))
          || (apply framed_cache; apply Load_frame) || (apply framed_outside; apply check_frame)).
Qed.

(** A stream as [prepare] hands it on: built in all its parts, each from those
    before it, with its destination checked. *)
Record prepared (r : StreamRun) : Prop := {
  pr_meta : exists meta, rn_meta r = Some meta /\
    exists plan dialect zone, rn_plan r = Some plan /\ dialectFor (si_Type (st_Sink (rn_cfg r))) = Some dialect /\
      Compile (Some meta) (st_Mapping (rn_cfg r)) dialect (Some zone) (m_OnZeroDate (st_Mapping (rn_cfg r))) = Ok plan /\
    exists sink w w', rn_sink r = Some sink /\ buildSink (rn_cfg r) = Ok sink /\
      check_destination (rn_cfg r) sink meta w = (w', Ok ());
  pr_rest : is_Some (rn_dlq r) /\ is_Some (rn_alloc r) /\ is_Some (rn_runner r)
}.

Lemma pure_ok {E A} (f : E -> startup_error) (x : res E A) b b' (a : A) :
  pure f x b = (b', Ok a) -> b' = b /\ x = Ok a.
Proof. unfold pure, eff_lift. destruct x; [|done]. by intros [= <- <-]. Qed.

Lemma build_claimed_ok cfg dir stream zone r c w r' c' w' :
  rn_cfg r = stream -> build_claimed cfg dir stream zone (r, (c, w)) = ((r', (c', w')), Ok ()) -> prepared r'.
Proof.
  intros Hcfg Hb. unfold build_claimed in Hb.
  apply eff_bind_inv in Hb as (meta & [r1 [c1 w1]] & Hmeta & Hb).
  assert (r1 = r) as ->. { unfold from_cache in Hmeta. destruct (Table Load _ _ (c, w)) as [[c2 w2] y]. by injection Hmeta. }
  apply eff_bind_inv in Hb as (? & ? & [= <- <-] & Hb).
  apply eff_bind_inv in Hb as (dialect & ? & Hd & Hb).
  assert (dialectFor (si_Type (st_Sink stream)) = Some dialect) as Hdial.
  { unfold eff_lift in Hd. destruct (dialectFor _); [|done]. by injection Hd as <- ->. }
  injection Hd as <- _.
  apply eff_bind_inv in Hb as (plan & ? & [-> Hplan]%pure_ok & Hb).
  apply eff_bind_inv in Hb as (? & ? & [= <- <-] & Hb).
  apply eff_bind_inv in Hb as (sink & ? & [-> Hsink]%pure_ok & Hb).
  apply eff_bind_inv in Hb as (? & ? & [= <- <-] & Hb).
  apply eff_bind_inv in Hb as (? & [r2 [c2 w2]] & Hcheck & Hb). unfold outside in Hcheck.
  destruct (check_destination stream sink meta w1) as [w3 [[]|e]] eqn:Hdest; [|done]. injection Hcheck as <- <- <- _.
  apply eff_bind_inv in Hb as (dlq & ? & [-> _]%pure_ok & Hb).
  apply eff_bind_inv in Hb as (? & ? & [= <- <-] & Hb).
  apply eff_bind_inv in Hb as (alloc & ? & [-> _]%pure_ok & Hb).
  apply eff_bind_inv in Hb as (runner & ? & [-> _]%pure_ok & Hb).
  injection Hb as <- _ _. rewrite <- Hcfg in *. constructor; cbn.
  - exists meta. split; [done|]. exists plan, dialect, zone. do 3 (split; [done|]). by exists sink, w1, w3.
  - eauto.
Qed.

(** What a prepared runtime claims of the locks before it. *)
Definition claims_one (r : StreamRun) (h h' : gmap string Z) : Prop :=
  match rn_lock r with
  | None => h' = h
  | Some l => exists conn, lk_conn l = Some conn /\ lk_name l = lock_name (st_Name (rn_cfg r)) /\
      h !! lkey (lk_name l) = None /\ (forall k, h !! k <> Some conn) /\ h' = <[lkey (lk_name l) := conn]> h
  end.
Fixpoint claims (rs : list StreamRun) (h h' : gmap string Z) : Prop :=
  match rs with [] => h' = h | r :: rs => exists h1, claims_one r h h1 /\ claims rs h1 h' end.

Lemma buildStream_claims cfg dir stream zone c w r' c' w' x :
  buildStream cfg dir stream zone (new_run stream, (c, w)) = ((r', (c', w')), x) ->
  rn_cfg r' = stream /\ claims_one r' (holder w) (holder w') /\
  (x = Ok () -> is_Some (rn_lock r') /\ prepared r').
Proof.
  unfold buildStream. intros Hb. apply eff_bind_cases in Hb as ([r1 [c1 w1]] & y & Hlock & Hb).
  unfold outside in Hlock. destruct (Lock store (st_Name stream) w) as [w2 z] eqn:HL. injection Hlock as <- <- <- <-.
  pose proof (Lock_spec store lkey _ _ _ _ HL) as Hspec. destruct z as [l|e]; cbn [map_err] in Hb.
  2:{ destruct Hb as [[= -> -> ->] ->]. split; [done|]. by split. }
  destruct Hspec as (Hnone & conn & Hfresh & Hconn & Hname & Hh).
  change (build_claimed cfg dir stream zone (set_lock l (new_run stream), (c, w2)) = ((r', (c', w')), x)) in Hb.
  destruct (build_claimed_framed _ _ _ _ _ _ _ _ _ _ _ Hb) as (Hsame & Hcfg & Hl). cbn in Hcfg, Hl.
  split; [done|]. split.
  - unfold claims_one. rewrite Hl. exists conn. rewrite Hcfg, Hname. repeat (split; [done|]). by rewrite Hsame.
  - intros ->. split; [by rewrite Hl|]. eapply build_claimed_ok; [|exact Hb]. done.
Qed.

Lemma prepare_streams_claims cfg dir zone streams c w c' w' rs x :
  prepare_streams cfg dir zone streams (c, w) = ((c', w'), rs, x) ->
  claims rs (holder w) (holder w') /\
  (x = Ok () -> map rn_cfg rs = streams /\ Forall (fun r => is_Some (rn_lock r) /\ prepared r) rs).
Proof.
  revert c w c' w' rs x. induction streams as [|stream streams IH]; intros c w c' w' rs x; cbn [prepare_streams].
  { by intros [= <- <- <- <-]. }
  destruct (buildStream cfg dir stream zone (new_run stream, (c, w))) as [[r1 [c1 w1]] [[]|e]] eqn:Hb;
    destruct (buildStream_claims _ _ _ _ _ _ _ _ _ _ Hb) as (Hcfg & Hone & Hok).
  - destruct (prepare_streams cfg dir zone streams (c1, w1)) as [[[c2 w2] rs2] y] eqn:Hp. intros [= <- <- <- <-].
    destruct (IH _ _ _ _ _ _ Hp) as [Hclaims Hrest]. split; [by exists (holder w1)|].
    intros ->. destruct (Hrest eq_refl) as [Hmap Hall]. split; [by cbn; rewrite Hcfg, Hmap|]. constructor; auto.
  - intros [= <- <- <- <-]. split; [|done]. by exists (holder w1).
Qed.

(** *** Giving back *)

Lemma claims_insert rs k c h h2 :
  claims rs (<[k := c]> h) h2 -> h !! k = None -> (forall k', h !! k' <> Some c) ->
  h2 !! k = Some c /\ (forall k', h2 !! k' = Some c -> k' = k) /\ claims rs h (delete k h2).
Proof.
  revert h. induction rs as [|r rs IH]; intros h; cbn [claims].
  - intros -> Hk Hc. split; [by rewrite lookup_insert_eq|]. split; [|by rewrite delete_insert_id].
    intros k' [[-> _]|[_ Hk']]%lookup_insert_Some; [done|]. by apply Hc in Hk'.
  - intros (h1 & Hone & Hrest) Hk Hc. unfold claims_one in Hone. destruct (rn_lock r) as [l|] eqn:Hl.
    + destruct Hone as (conn & Hconn & Hname & Hnone & Hfresh & ->).
      apply lookup_insert_None in Hnone as [Hnone Hne].
      assert (conn <> c) as Hcc by (intros ->; apply (Hfresh k); by rewrite lookup_insert_eq).
      rewrite insert_insert_ne in Hrest by done.
      destruct (IH (<[lkey (lk_name l) := conn]> h)) as (Hh2 & Honly & Hcl); [exact Hrest|by rewrite lookup_insert_ne| |].
      { intros k' [[_ E]|[_ Hk']]%lookup_insert_Some; [done|]. by apply Hc in Hk'. }
      split; [done|]. split; [done|]. exists (<[lkey (lk_name l) := conn]> h). split; [|done].
      unfold claims_one. rewrite Hl. exists conn. repeat (split; [done|]). split; [|done].
      intros k' Hk'. apply (Hfresh k'). rewrite lookup_insert_ne; [done|]. intros ->. by rewrite Hk in Hk'.
    + subst h1. destruct (IH h Hrest Hk Hc) as (Hh2 & Honly & Hcl). split; [done|]. split; [done|].
      exists h. split; [|done]. unfold claims_one. by rewrite Hl.
Qed.

Lemma release_claims rs h w w' :
  claims rs h (holder w) -> release rs w = (w', []) -> holder w' = h.
Proof.
  revert w. induction rs as [|r rs IH]; intros w; cbn [claims release]; [by intros Hh [= <-]|].
  intros (h1 & Hone & Hrest) Hrel.
  assert (holder (release_dlq r w) = holder w) as Hdlq.
  { unfold release_dlq. destruct (rn_dlq r) as [d|]; [|done]. unfold Close_. destruct (wr_file d) as [hd|]; [|done].
    pose proof (frame_close hd w) as Hc. by destruct (file_Close hd w). }
  set (w1 := release_dlq r w) in *. rewrite <- Hdlq in Hrest. clearbody w1.
  destruct (release_lock r w1) as [w2 warning] eqn:Hlock. destruct (release rs w2) as [w3 warnings] eqn:Hrs.
  destruct warning as [e|]; [done|]. injection Hrel as -> ->. unfold release_lock in Hlock. unfold claims_one in Hone.
  destruct (rn_lock r) as [l|] eqn:Hl.
  - destruct Hone as (conn & Hconn & Hname & Hnone & Hfresh & ->).
    destruct (claims_insert _ _ _ _ _ Hrest Hnone Hfresh) as (Hheld & Honly & Hcl).
    destruct (Release (l, w1)) as [[l' w2'] [[]|e]] eqn:HR; [|done]. injection Hlock as ->.
    destruct (Release_spec lkey l conn w1 l' w2 Hconn Hheld Honly HR) as [Hh _].
    rewrite <- Hh in Hcl. by eapply IH.
  - injection Hlock as ->. subst h1. by eapply IH.
Qed.

(** Every lock of the runtimes is held once they are prepared. *)
Lemma claims_held rs h h2 :
  claims rs h h2 -> forall r l, r ∈ rs -> rn_lock r = Some l ->
  exists conn, lk_conn l = Some conn /\ h2 !! lkey (lock_name (st_Name (rn_cfg r))) = Some conn.
Proof.
  revert h. induction rs as [|r0 rs IH]; intros h; [by intros _ r l ?%elem_of_nil|].
  intros (h1 & Hone & Hrest) r l [->|Hin]%elem_of_cons Hl; [|by eapply IH].
  unfold claims_one in Hone. rewrite Hl in Hone. destruct Hone as (conn & Hconn & Hname & Hnone & Hfresh & ->).
  destruct (claims_insert _ _ _ _ _ Hrest Hnone Hfresh) as (Hheld & _). exists conn. by rewrite <- Hname.
Qed.

(** ** The contract of a run *)

Lemma prepare_claims s c w c' w' rs x :
  prepare s (c, w) = ((c', w'), rs, x) ->
  claims rs (holder w) (holder w') /\
  (x = Ok () -> map rn_cfg rs = sv_streams s /\ Forall (fun r => is_Some (rn_lock r) /\ prepared r) rs).
Proof.
  unfold prepare. destruct (LoadLocation _) as [zone|]; [apply prepare_streams_claims|]. by intros [= <- <- <- <-].
Qed.

Lemma checkSource_frame id w : holder (checkSource id w).1 = holder w.
Proof.
  unfold checkSource, preflight_Run, GlobalVars, Grants, mbind, eff_bind.
  pose proof (frame_query "SHOW GLOBAL VARIABLES" [] w) as Hq1. destruct (sql_Query "SHOW GLOBAL VARIABLES" [] w) as [w1 [rows|e]]; cbn in Hq1; [|done].
  destruct (mapM scan_pair rows) as [pairs|]; [|done].
  pose proof (frame_query "SHOW GRANTS FOR CURRENT_USER()" [] w1) as Hq2.
  destruct (sql_Query "SHOW GRANTS FOR CURRENT_USER()" [] w1) as [w2 [rows2|e]]; cbn in Hq2; [|by rewrite <- Hq1].
  rewrite <- Hq1, <- Hq2. destruct (mapM scan_line rows2) as [lines|]; [|done]. cbn [mret eff_ret].
  destruct (report_OK _); [|done]. cbn [negb]. by case_bool_decide.
Qed.

(** C15: Work begins only on streams that are this run's alone: either the run comes
    to its scans and its streaming with a source that has passed its checks, and
    with every stream it was asked for holding its lock, its definition loaded
    and compiled and its destination found fit; or it fails before any work,
    whatever the work would have been. *)
Theorem Run_prepares s work w w' outcome warnings :
  Run s work w = (w', outcome, warnings) ->
  (exists runs cache w0 w1,
     Run s work w = (let '(w2, y) := work runs cache w0 in let '(w3, ws) := release runs w2 in (w3, y, ws)) /\
     checkSource (src_ServerID (c_Source (sv_cfg s))) w = (w1, Ok ()) /\
     map rn_cfg runs = sv_streams s /\
     forall r, r ∈ runs -> prepared r /\
       exists l conn, rn_lock r = Some l /\ lk_conn l = Some conn /\
         holder w0 !! lkey (lock_name (st_Name (rn_cfg r))) = Some conn) \/
  exists e, outcome = Err e /\ forall work', Run s work' w = (w', outcome, warnings).
Proof.
  unfold Run. destruct (checkSource _ w) as [w1 [[]|e]] eqn:Hcheck; [|intros [= <- <- <-]; right; by eexists].
  destruct (prepare s (∅, w1)) as [[[cache w2] runs] [[]|e]] eqn:Hp.
  - intros _. left. exists runs, cache, w2, w1. split; [done|]. split; [done|].
    destruct (prepare_claims _ _ _ _ _ _ _ Hp) as [Hclaims Hok]. destruct (Hok eq_refl) as [Hmap Hall].
    split; [done|]. intros r Hin. rewrite Forall_forall in Hall. destruct (Hall r Hin) as [[l Hl] Hprep]. split; [done|].
    destruct (claims_held _ _ _ Hclaims r l Hin Hl) as (conn & Hc & Hh). by exists l, conn.
  - destruct (release runs w2) as [w3 ws]. intros [= <- <- <-]. right. by eexists.
Qed.

(** C14: A run leaves the locks as it found them: whatever fails on the way, in the
    checks, while a stream is claimed or built, or in the work itself, when
    nothing went wrong with releasing, every lock the run took is free again and
    nobody else's was touched. *)
Theorem Run_releases s work w w' outcome :
  (forall runs cache w, holder (work runs cache w).1 = holder w) ->
  Run s work w = (w', outcome, []) -> holder w' = holder w.
Proof.
  intros Hwork. unfold Run. pose proof (checkSource_frame (src_ServerID (c_Source (sv_cfg s))) w) as Hcheck.
  destruct (checkSource _ w) as [w1 [[]|e]]; cbn in Hcheck; [|by intros [= <- _]].
  destruct (prepare s (∅, w1)) as [[[cache w2] runs] x] eqn:Hp.
  destruct (prepare_claims _ _ _ _ _ _ _ Hp) as [Hclaims _].
  destruct (match x with Err e => (w2, Err e) | Ok _ => work runs cache w2 end) as [w3 y] eqn:Hw.
  assert (holder w3 = holder w2) as Hw3.
  { destruct x as [[]|e]; [|by injection Hw as <- _]. pose proof (Hwork runs cache w2) as Hf. by rewrite Hw in Hf. }
  destruct (release runs w3) as [w4 ws] eqn:Hr. intros [= <- _ ->]. rewrite <- Hw3 in Hclaims.
  rewrite <- Hcheck. by eapply release_claims.
Qed.

End Startup.
