(* ===== verification/Tail.v ===== *)
(** * Printing a source's changes ([internal/tail/tail.go])

    The events of a replication stream printed as lines, with the values of rows
    as texts, and captured as files with a manifest. The replication client and
    what it decodes of an event are arguments; what is printed is part of the
    state. *)

From Stdlib Require Import Ascii.
From S2P Require Import Prelude GoStd GoEncoding GoJson Cdc Transform Snapshot Binlog DeadLetters Generate.

(** [os.WriteFile]. *)
Class FixtureOps (W : Type) := { os_WriteFile : string -> string -> eff W string () }.

(** [time.Time.Format] in the time's own zone, and the name [go-mysql] gives a
    type of rows event. *)
Class TailLib := {
  time_Format : string -> Z -> string;
  EventType_String : rows_type -> string
}.

(** [strings.Fields] on ASCII text. *)
Fixpoint Fields_from (word : string) (s : string) : list string :=
  match s with
  | "" => if bool_decide (word = "") then [] else [word]
  | String c s =>
    if is_space c then (if bool_decide (word = "") then [] else [word]) ++ Fields_from "" s
    else Fields_from (word +:+ str1 c) s
  end.
Definition strings_Fields : string -> list string := Fields_from "".

Section Tail.
Context `{GoLib} `{!TailLib}.

Definition collapse (s : string) : string := Join (strings_Fields s) " ".

(** ** Events *)

(** What [go-mysql] decodes of a table map: the names are [ColumnNameString]'s,
    the labels those of its maps for a column that is an enumeration or a set. *)
Record table_map := mkTableMap {
  tb_Schema : string;
  tb_Table : string;
  tb_names : list string;
  tb_PrimaryKey : list nat;
  tb_enum : nat -> option (list string);
  tb_set : nat -> option (list string)
}.

Inductive tail_event :=
  | TFormatDescription
  | TGTID (next : option string)
  | TXID
  | TTableMap (schema table : string)
  | TRows (type : rows_type) (meta : table_map) (rows : list (list value))
  | TQuery (query : string)
  | TOther.

(** An event with the bytes it came as. *)
Record raw_event := mkRawEvent { rv_event : tail_event; rv_RawData : string }.

(** ** Values as texts *)

(** [toInt]: every integer type but [uint]. *)
Definition toInt (v : value) : option Z :=
  match v with
  | VInt Uint _ => None
  | VInt _ n => Some (i64 n)
  | _ => None
  end.

Definition enumLabel (labels : list string) (v : value) : option string :=
  if bool_decide (labels = []) then None
  else
    idx ← toInt v;
    if (idx =? 0)%Z then Some "''"
    else if ((1 <=? idx) && (idx <=? zlen labels))%Z then labels !! Z.to_nat (idx - 1)
    else None.

Definition setLabels (labels : list string) (v : value) : option string :=
  if bool_decide (labels = []) then None
  else bits ← toInt v; Some ("{" +:+ Join (set_members 0 bits labels) "," +:+ "}").

Definition text_or_hex (s : string) : string := if ValidString s then s else "0x" +:+ hex_EncodeToString s.

Definition RFC3339Nano : string := "2006-01-02T15:04:05.999999999Z07:00".

Definition formatScalar (v : value) : string :=
  match v with
  | VNil => "NULL"
  | VDecimal d =>
    let places := i32 (- decimal_Exponent d) in
    decimal_StringFixed d (if (places <? 0)%Z then 0 else places)
  | VBytes x | VString x => text_or_hex x
  | VTime t => time_Format RFC3339Nano t
  | _ => Sprint v
  end.

Definition formatValue (meta : table_map) (col : nat) (v : value) : string :=
  match v with
  | VNil => "NULL"
  | _ =>
    match tb_enum meta col ≫= fun labels => enumLabel labels v with
    | Some s => s
    | None =>
      match tb_set meta col ≫= fun labels => setLabels labels v with
      | Some s => s
      | None => formatScalar v
      end
    end
  end.

(** ** Rows as lines *)

Definition keyIndexes (meta : table_map) : list nat * bool :=
  match tb_PrimaryKey meta with
  | [] => ([0], false)
  | key => (key, true)
  end.

(** One pass of the loop of [formatKey]; an index past the row or the names is
    passed over. *)
Definition key_piece (meta : table_map) (row : list value) (n i : nat) : string :=
  match row !! i, tb_names meta !! i with
  | Some v, Some name => (if bool_decide (0 < n) then " " else "") +:+ name +:+ "=" +:+ formatValue meta i v
  | _, _ => ""
  end.

Definition formatKey (meta : table_map) (row : list value) : string :=
  let '(idx, isKey) := keyIndexes meta in
  String.concat "" (imap (key_piece meta row) idx) +:+ (if isKey then "" else " (no primary key)").

Fixpoint row_pieces (meta : table_map) (i : nat) (names : list string) (row : list value) : string :=
  match names, row with
  | name :: names, v :: row =>
    (if bool_decide (0 < i) then " " else "") +:+ name +:+ "=" +:+ formatValue meta i v +:+ row_pieces meta (S i) names row
  | _, _ => ""
  end.
Definition formatRow (meta : table_map) (row : list value) : string := row_pieces meta 0 (tb_names meta) row.

Fixpoint diff_parts (meta : table_map) (i : nat) (names : list string) (before after : list value) : list string :=
  match names, before, after with
  | name :: names, b :: before, a :: after =>
    let was := formatValue meta i b in
    let now := formatValue meta i a in
    if bool_decide (was = now) then diff_parts meta (S i) names before after
    else (name +:+ ": " +:+ was +:+ " -> " +:+ now) :: diff_parts meta (S i) names before after
  | _, _, _ => []
  end.
Definition formatDiff (meta : table_map) (before after : list value) : string :=
  Join (diff_parts meta 0 (tb_names meta) before after) ", ".

Inductive tail_error :=
  | ETailPosition (text : string)
  | ETailStart (position : string) (cause : read_error)
  | ETailDir (cause : string)
  | ETailRead (cause : read_error)
  | ETailNames
  | ETailFixture (name cause : string).

Definition tail_table (meta : table_map) : string := tb_Schema meta +:+ "." +:+ tb_Table meta.

Fixpoint update_lines (meta : table_map) (gtid : string) (rows : list (list value)) : list string :=
  match rows with
  | before :: after :: rows =>
    let diff := formatDiff meta before after in
    let diff := if bool_decide (diff = "") then "(no visible column change)" else diff in
    ("update " +:+ tail_table meta +:+ " " +:+ formatKey meta before +:+ " " +:+ diff +:+ gtid +:+ nl)
      :: update_lines meta gtid rows
  | _ => []
  end.

(** What [printRows] prints, line by line; [gtid] is the transaction's, or
    nothing. *)
Definition row_lines (type : rows_type) (meta : table_map) (rows : list (list value)) (gtid : string)
  : res tail_error (list string) :=
  let gtid := if bool_decide (gtid = "") then "" else "  gtid=" +:+ gtid in
  if bool_decide (tb_names meta = []) then Err ETailNames
  else match operationFor type with
  | Some (OperationInsert, _) =>
    Ok (map (fun row => "insert " +:+ tail_table meta +:+ " " +:+ formatRow meta row +:+ gtid +:+ nl) rows)
  | Some (OperationDelete, _) =>
    Ok (map (fun row => "delete " +:+ tail_table meta +:+ " " +:+ formatKey meta row +:+ gtid +:+ nl) rows)
  | Some (OperationUpdate, _) => Ok (update_lines meta gtid rows)
  | _ => Ok []
  end.

(** ** A run *)

Record fixture := mkFixture { fx_File : string; fx_Type : string; fx_Table : string }.

Record tail_config := mkTailConfig {
  tc_Host : string;
  tc_Port : Z;
  tc_User : string;
  tc_Password : string;
  tc_ServerID : Z;
  tc_Tables : list string;
  tc_CaptureDir : string;
  tc_Duration : Z;
  tc_StartGTID : string
}.

(** [None] is the nil map of no filter. *)
Definition parseFilters (tables : list string) : option (gset string) :=
  match tables with [] => None | _ => Some (list_to_set (map ToLower tables)) end.

Record tailer := mkTailer {
  tl_want : option (gset string);
  tl_gtid : string;
  tl_rowEvents : Z;
  tl_captured : list fixture
}.

Definition tracked (t : tailer) (schema table : string) : bool :=
  match tl_want t with
  | None => true
  | Some want => bool_decide (ToLower (schema +:+ "." +:+ table) ∈ want)
  end.

Definition set_gtid (gtid : string) (t : tailer) : tailer := mkTailer (tl_want t) gtid (tl_rowEvents t) (tl_captured t).
Definition count_rows (t : tailer) : tailer := mkTailer (tl_want t) (tl_gtid t) (tl_rowEvents t + 1) (tl_captured t).
Definition add_fixture (f : fixture) (t : tailer) : tailer :=
  mkTailer (tl_want t) (tl_gtid t) (tl_rowEvents t) (tl_captured t ++ [f]).

(** [%04d]. *)
Definition four_digits (n : Z) : string :=
  let digits := FormatUint n in String.concat "" (repeat "0" (4 - String.length digits)) +:+ digits.
Definition fixture_name (n : Z) (kind : string) : string := four_digits n +:+ "-" +:+ kind +:+ ".bin".

(** [json.MarshalIndent] of the list, an empty table being left out. *)
Definition fixture_json (f : fixture) : string :=
  "  {" +:+ nl +:+ "    " +:+ json_MarshalString "file" +:+ ": " +:+ json_MarshalString (fx_File f) +:+ "," +:+ nl
  +:+ "    " +:+ json_MarshalString "type" +:+ ": " +:+ json_MarshalString (fx_Type f)
  +:+ (if bool_decide (fx_Table f = "") then ""
       else "," +:+ nl +:+ "    " +:+ json_MarshalString "table" +:+ ": " +:+ json_MarshalString (fx_Table f))
  +:+ nl +:+ "  }".
Definition manifest_json (captured : list fixture) : string :=
  "[" +:+ nl +:+ Join (map fixture_json captured) ("," +:+ nl) +:+ nl +:+ "]".

Context {W : Type} `{!OsOps W, !FixtureOps W}.

(** The tailer, what was printed, and the world. *)
Abbreviation tailing := (eff (tailer * (string * W)) tail_error).

Definition tail_print (text : string) : tailing () := fun '(t, (out, w)) => ((t, (out +:+ text, w)), Ok ()).

Definition capture (dir raw kind table : string) : tailing () := fun '(t, (out, w)) =>
  if bool_decide (dir = "") then ((t, (out, w)), Ok ())
  else
    let name := fixture_name (zlen (tl_captured t)) kind in
    match os_WriteFile (path_Join dir name) raw w with
    | (w, Err e) => ((t, (out, w)), Err (ETailFixture name e))
    | (w, Ok _) => ((add_fixture (mkFixture name kind table) t, (out, w)), Ok ())
    end.

Definition printRows (type : rows_type) (meta : table_map) (rows : list (list value)) : tailing () := fun '(t, ow) =>
  match row_lines type meta rows (tl_gtid t) with
  | Err e => ((t, ow), Err e)
  | Ok lines => tail_print (String.concat "" lines) (t, ow)
  end.

Definition tail_rows (dir raw : string) (type : rows_type) (meta : table_map) (rows : list (list value)) : tailing () := fun '(t, ow) =>
  if negb (tracked t (tb_Schema meta) (tb_Table meta)) then ((t, ow), Ok ())
  else (_ ← printRows type meta rows; capture dir raw (ToLower (EventType_String type)) (tail_table meta)) (count_rows t, ow).

(** [handle]. *)
Definition tail_handle (dir : string) (ev : raw_event) : tailing () := fun '(t, ow) =>
  match rv_event ev with
  | TFormatDescription => capture dir (rv_RawData ev) "format_description" "" (t, ow)
  | TGTID (Some gtid) => ((set_gtid gtid t, ow), Ok ())
  | TGTID None => ((t, ow), Ok ())
  | TXID => ((set_gtid "" t, ow), Ok ())
  | TTableMap schema table =>
    if tracked t schema table then capture dir (rv_RawData ev) "table_map" (schema +:+ "." +:+ table) (t, ow)
    else ((t, ow), Ok ())
  | TRows type meta rows => tail_rows dir (rv_RawData ev) type meta rows (t, ow)
  | TQuery query =>
    let q := TrimSpace query in
    if negb (bool_decide (q = "")) && negb (EqualFold q "BEGIN")
    then tail_print ("query  " +:+ collapse q +:+ nl) (t, ow) else ((t, ow), Ok ())
  | TOther => ((t, ow), Ok ())
  end.

Fixpoint tail_events (dir : string) (evs : list raw_event) : tailing () :=
  match evs with
  | [] => mret ()
  | ev :: evs => _ ← tail_handle dir ev; tail_events dir evs
  end.

(** [writeManifest]: a failed write is ignored. *)
Definition writeManifest (dir : string) (t : tailer) (w : W) : W :=
  match tl_captured t with
  | [] => w
  | captured => (os_WriteFile (path_Join dir "manifest.json") (manifest_json captured) w).1
  end.

(** What the replication client does: whether it starts, the events it gives and
    how they end; [None] is the context's end. *)
Record feed := mkFeed { fd_start : option read_error; fd_events : list raw_event; fd_ending : option read_error }.

Definition stopped_line (t : tailer) : string :=
  nl +:+ "stopped: " +:+ FormatInt (tl_rowEvents t) +:+ " row events seen, "
  +:+ FormatInt (zlen (tl_captured t)) +:+ " fixtures captured" +:+ nl.

Definition tail_loop (dir : string) (f : feed) : tailing () := fun s =>
  match tail_events dir (fd_events f) s with
  | (s, Err e) => (s, Err e)
  | ((t, ow), Ok _) =>
    match fd_ending f with
    | None => tail_print (stopped_line t) (t, ow)
    | Some e => ((t, ow), Err (ETailRead e))
    end
  end.

Context `{GtidLib}.

Definition Tail (cfg : tail_config) (f : feed) : eff (string * W) tail_error () := fun '(out, w) =>
  match ParseMysqlGTIDSet (tc_StartGTID cfg) with
  | None => ((out, w), Err (ETailPosition (tc_StartGTID cfg)))
  | Some _ =>
    match fd_start f with
    | Some e => ((out, w), Err (ETailStart (tc_StartGTID cfg) e))
    | None =>
      let out := out +:+ "streaming from " +:+ tc_StartGTID cfg +:+ " as server_id=" +:+ FormatUint (tc_ServerID cfg) +:+ nl +:+ nl in
      let t := mkTailer (parseFilters (tc_Tables cfg)) "" 0 [] in
      let dir := tc_CaptureDir cfg in
      if bool_decide (dir = "") then
        let '((_, ow), r) := tail_loop dir f (t, (out, w)) in (ow, r)
      else match os_MkdirAll dir w with
      | (w, Err e) => ((out, w), Err (ETailDir e))
      | (w, Ok _) =>
        let '((t, (out, w)), r) := tail_loop dir f (t, (out, w)) in
        ((out, writeManifest dir t w), r)
      end
    end
  end.

End Tail.

(** ** Names of fixtures *)

Definition digit_value (s : string) : option N := N.of_uint <$> DecimalString.NilEmpty.uint_of_string s.

Lemma digit_value_zeros k s : digit_value (String.concat "" (repeat "0" k) +:+ s) = digit_value s.
Proof.
  unfold digit_value. induction k as [|k IH]; [done|]. cbn [repeat]. rewrite concat_cons, app_assoc_str.
  cbn [String.append DecimalString.NilEmpty.uint_of_string]. rewrite <- IH.
  by destruct (DecimalString.NilEmpty.uint_of_string _).
Qed.

Lemma digit_value_Format n : (0 <= n)%Z -> digit_value (FormatUint n) = Some (Z.to_N n).
Proof.
  intros Hn. unfold digit_value, FormatUint. rewrite DecimalString.NilEmpty.usu. cbn.
  by rewrite DecimalN.Unsigned.of_to.
Qed.

Lemma four_digits_inj m n : (0 <= m)%Z -> (0 <= n)%Z -> four_digits m = four_digits n -> m = n.
Proof.
  intros Hm Hn Heq. assert (digit_value (four_digits m) = digit_value (four_digits n)) as Hv by by rewrite Heq.
  unfold four_digits in Hv. rewrite !digit_value_zeros, !digit_value_Format in Hv by done.
  injection Hv as Hv. lia.
Qed.

Lemma four_digits_digits n : str_forall is_digit (four_digits n) = true.
Proof.
  unfold four_digits. rewrite str_forall_app, FormatUint_digits, andb_true_r.
  induction (4 - String.length (FormatUint n)) as [|k IH]; [done|]. cbn [repeat]. by rewrite concat_cons, str_forall_app, IH.
Qed.

Lemma fixture_name_inj m n kind kind' :
  (0 <= m)%Z -> (0 <= n)%Z -> fixture_name m kind = fixture_name n kind' -> m = n.
Proof.
  intros Hm Hn Heq. apply four_digits_inj; [done..|].
  assert (SplitByte "-" (fixture_name m kind) = SplitByte "-" (fixture_name n kind')) as Hs by by rewrite Heq.
  assert (forall n k, SplitByte "-" (fixture_name n k) = four_digits n :: SplitByte "-" (k +:+ ".bin")) as Hsplit.
  { intros k s. apply (SplitByte_app_sep "-"%char (four_digits k)). by apply digits_without, four_digits_digits. }
  rewrite !Hsplit in Hs. by injection Hs.
Qed.

Lemma fixture_not_manifest n kind : fixture_name n kind <> "manifest.json".
Proof.
  intros Heq. pose proof (four_digits_digits n) as Hd. unfold fixture_name in Heq.
  destruct (four_digits n) as [|c s]; [done|]. injection Heq as -> _. cbn in Hd. done.
Qed.

(** ** What a run captures and counts *)

Section Captures.
Context `{GoLib} `{!TailLib} `{GtidLib} {W : Type} `{!OsOps W, !FixtureOps W}.

(** A file name without a directory in it. *)
Definition simple_name (s : string) : Prop := free_of "/" s = true /\ HasPrefix s "." = false /\ s <> "".

(** Files by path: a write that succeeds leaves its data and no write touches
    another file; different names in a directory are different paths. *)
Class FixtureLaws := {
  files : W -> string -> option string;
  write_ok : forall path data w w', os_WriteFile path data w = (w', Ok ()) -> files w' path = Some data;
  write_others : forall path data w p, p <> path -> files (os_WriteFile path data w).1 p = files w p;
  join_names : forall dir a b, simple_name a -> simple_name b -> path_Join dir a = path_Join dir b -> a = b;
  type_names : forall type, free_of "/" (ToLower (EventType_String type)) = true
}.
Context `{!FixtureLaws}.

Lemma fixture_simple n kind : free_of "/" kind = true -> simple_name (fixture_name n kind).
Proof.
  intros Hk. unfold simple_name, fixture_name. pose proof (four_digits_digits n) as Hd.
  rewrite !free_app, Hk, (digits_without "/" (four_digits n)) by done. split; [done|].
  destruct (four_digits n) as [|c s]; [done|]. split; [|done]. cbn in Hd. apply andb_true_iff in Hd as [Hc _].
  clear Hk. by all_bytes c.
Qed.

(** The kind and the table an event is captured under. *)
Definition kind_of (want : option (gset string)) (ev : raw_event) : option (string * string) :=
  let watches := tracked (mkTailer want "" 0 []) in
  match rv_event ev with
  | TFormatDescription => Some ("format_description", "")
  | TTableMap schema table => if watches schema table then Some ("table_map", schema +:+ "." +:+ table) else None
  | TRows type meta _ =>
    if watches (tb_Schema meta) (tb_Table meta) then Some (ToLower (EventType_String type), tail_table meta) else None
  | _ => None
  end.
Definition is_row_event (want : option (gset string)) (ev : raw_event) : bool :=
  match rv_event ev with
  | TRows _ meta _ => tracked (mkTailer want "" 0 []) (tb_Schema meta) (tb_Table meta)
  | _ => false
  end.

(** The events a run captures, with the fixture of each. *)
Definition captures (want : option (gset string)) (evs : list raw_event) : list (string * (string * string)) :=
  omap (fun ev => pair (rv_RawData ev) <$> kind_of want ev) evs.
Definition fixture_of (i : nat) (c : string * (string * string)) : fixture :=
  mkFixture (fixture_name (Z.of_nat i) c.2.1) c.2.1 c.2.2.
Definition row_events (want : option (gset string)) (evs : list raw_event) : Z :=
  Z.of_nat (length (List.filter (is_row_event want) evs)).

Lemma kind_simple want ev kind table : kind_of want ev = Some (kind, table) -> free_of "/" kind = true.
Proof.
  unfold kind_of. destruct (rv_event ev); try done; try case_match; intros [= <- _]; try done. apply type_names.
Qed.

Lemma captured_simple want evs i c : captures want evs !! i = Some c -> free_of "/" c.2.1 = true.
Proof.
  intros Hi. apply list_elem_of_lookup_2, list_elem_of_omap in Hi as (ev & _ & Hk).
  destruct (kind_of want ev) as [[kind table]|] eqn:Hkind; [|done]. injection Hk as <-. by eapply kind_simple.
Qed.

(** The state of a run that has taken the events so far. *)
Record run_state (dir : string) (want : option (gset string)) (evs : list raw_event) (t : tailer) (w : W) : Prop := {
  rs_want : tl_want t = want;
  rs_rows : tl_rowEvents t = row_events want evs;
  rs_captured : tl_captured t = imap fixture_of (captures want evs);
  rs_files : forall i c, captures want evs !! i = Some c ->
    files w (path_Join dir (fixture_name (Z.of_nat i) c.2.1)) = Some c.1
}.

Lemma capture_step dir raw kind table t out w t' out' w' :
  dir <> "" -> capture dir raw kind table (t, (out, w)) = ((t', (out', w')), Ok ()) ->
  t' = add_fixture (mkFixture (fixture_name (zlen (tl_captured t)) kind) kind table) t /\
  files w' (path_Join dir (fixture_name (zlen (tl_captured t)) kind)) = Some raw /\
  forall p, p <> path_Join dir (fixture_name (zlen (tl_captured t)) kind) -> files w' p = files w p.
Proof.
  intros Hdir. unfold capture. rewrite bool_decide_eq_false_2 by done.
  set (path := path_Join dir _). pose proof (write_others path raw w) as Hothers.
  destruct (os_WriteFile path raw w) as [w1 [[]|e]] eqn:Hw; [|done]. intros [= <- _ <-].
  split; [done|]. split; [by eapply write_ok|done].
Qed.

(** One event: counted when its rows are watched, captured as its kind. *)
Lemma handle_step dir ev t out w t' out' w' :
  dir <> "" -> tail_handle dir ev (t, (out, w)) = ((t', (out', w')), Ok ()) ->
  tl_want t' = tl_want t /\
  tl_rowEvents t' = (tl_rowEvents t + if is_row_event (tl_want t) ev then 1 else 0)%Z /\
  match kind_of (tl_want t) ev with
  | None => tl_captured t' = tl_captured t /\ w' = w
  | Some (kind, table) =>
    let name := fixture_name (zlen (tl_captured t)) kind in
    tl_captured t' = tl_captured t ++ [mkFixture name kind table] /\
    files w' (path_Join dir name) = Some (rv_RawData ev) /\
    forall p, p <> path_Join dir name -> files w' p = files w p
  end.
Proof.
  intros Hdir. unfold tail_handle, is_row_event, kind_of.
  assert (forall schema table, tracked (mkTailer (tl_want t) "" 0 []) schema table = tracked t schema table) as Hsame by done.
  destruct (rv_event ev) as [|[gtid|]| |schema table|type meta rows|query|].
  - intros Hc. apply capture_step in Hc as (-> & Hf & Ho); [|done]. cbn. by rewrite Z.add_0_r.
  - intros [= <- _ <-]. cbn. by rewrite Z.add_0_r.
  - intros [= <- _ <-]. by rewrite Z.add_0_r.
  - intros [= <- _ <-]. cbn. by rewrite Z.add_0_r.
  - rewrite Hsame. destruct (tracked t schema table); [|intros [= <- _ <-]; by rewrite Z.add_0_r].
    intros Hc. apply capture_step in Hc as (-> & Hf & Ho); [|done]. cbn. by rewrite Z.add_0_r.
  - rewrite Hsame. unfold tail_rows. destruct (tracked t _ _); cbn [negb]; [|intros [= <- _ <-]; by rewrite Z.add_0_r].
    intros ([] & [t1 [out1 w1]] & Hp & Hc)%eff_bind_inv. unfold printRows in Hp.
    destruct (row_lines _ _ _ _) as [lines|]; [|done]. injection Hp as <- _ <-.
    apply capture_step in Hc as (-> & Hf & Ho); done.
  - intros Hq. assert (t' = t /\ w' = w) as [-> ->]; [|by rewrite Z.add_0_r].
    revert Hq. cbv zeta. destruct (negb _ && negb _); by intros [= <- _ <-].
  - intros [= <- _ <-]. by rewrite Z.add_0_r.
Qed.

Lemma captures_snoc want seen ev :
  captures want (seen ++ [ev]) = captures want seen ++ match kind_of want ev with Some k => [(rv_RawData ev, k)] | None => [] end.
Proof. unfold captures. rewrite omap_app. cbn. by destruct (kind_of want ev). Qed.

Lemma row_events_snoc want seen ev :
  row_events want (seen ++ [ev]) = (row_events want seen + if is_row_event want ev then 1 else 0)%Z.
Proof. unfold row_events. rewrite List.filter_app, length_app. cbn. destruct (is_row_event want ev); cbn; lia. Qed.

Lemma run_step dir want seen ev t out w t' out' w' :
  dir <> "" -> run_state dir want seen t w -> tail_handle dir ev (t, (out, w)) = ((t', (out', w')), Ok ()) ->
  run_state dir want (seen ++ [ev]) t' w'.
Proof.
  intros Hdir [Hwant Hrows Hcap Hfiles] Hh. apply handle_step in Hh as (Hw' & Hr' & Hk); [|done].
  rewrite Hwant in *. constructor; [done|by rewrite Hr', Hrows, row_events_snoc|..]; rewrite captures_snoc.
  - destruct (kind_of want ev) as [[kind table]|]; [|rewrite app_nil_r; by destruct Hk as [-> _]].
    destruct Hk as (-> & _). rewrite imap_app. cbn. rewrite Hcap. unfold fixture_of at 3. cbn.
    unfold zlen. by rewrite length_imap, Nat.add_0_r.
  - intros i c. destruct (kind_of want ev) as [[kind table]|] eqn:Hkind.
    2:{ rewrite app_nil_r. destruct Hk as [_ ->]. apply Hfiles. }
    destruct Hk as (_ & Hf & Ho). intros [Hi|[Hlen Hi]]%lookup_app_Some.
    + rewrite Ho; [by apply Hfiles|]. pose proof (lookup_lt_Some _ _ _ Hi) as Hlt.
      intros Hpath%join_names; [|apply fixture_simple|by eapply fixture_simple, kind_simple].
      * apply fixture_name_inj in Hpath; [|lia|apply zlen_nonneg]. rewrite Hcap in Hpath. unfold zlen in Hpath.
        rewrite length_imap in Hpath. lia.
      * by eapply captured_simple.
    + apply list_lookup_singleton_Some in Hi as [Hz <-].
      assert (Z.of_nat i = zlen (tl_captured t)) as -> by (rewrite Hcap; unfold zlen; rewrite length_imap; lia). done.
Qed.

Lemma run_states dir want evs seen t out w t' out' w' :
  dir <> "" -> run_state dir want seen t w -> tail_events dir evs (t, (out, w)) = ((t', (out', w')), Ok ()) ->
  run_state dir want (seen ++ evs) t' w'.
Proof.
  intros Hdir. revert seen t out w. induction evs as [|ev evs IH]; intros seen t out w Hs.
  { intros [= <- _ <-]. by rewrite app_nil_r. }
  intros ([] & [t1 [out1 w1]] & Hh & He)%eff_bind_inv. pose proof (run_step _ _ _ _ _ _ _ _ _ _ Hdir Hs Hh) as Hs1.
  rewrite (cons_middle ev seen evs), (assoc_L (++)). by eapply IH.
Qed.

(** C20: What a capture leaves is the stream it saw: when a run is stopped, each event
    of a kind that is captured, of a watched table where it has one, lies in a
    file of its own as the bytes it came as, under its number in the order of
    arrival; the manifest that is then written lists the files in that order, and
    the last line states how many there are and how many events changed rows. *)
Theorem Tail_captures cfg f out w out' w' :
  tc_CaptureDir cfg <> "" -> fd_ending f = None -> Tail cfg f (out, w) = ((out', w'), Ok ()) ->
  let want := parseFilters (tc_Tables cfg) in
  let caps := captures want (fd_events f) in
  exists shown w1,
    out' = shown +:+ stopped_line (mkTailer want "" (row_events want (fd_events f)) (imap fixture_of caps)) /\
    (forall i c, caps !! i = Some c -> files w' (path_Join (tc_CaptureDir cfg) (fixture_name (Z.of_nat i) c.2.1)) = Some c.1) /\
    w' = match caps with
         | [] => w1
         | _ => (os_WriteFile (path_Join (tc_CaptureDir cfg) "manifest.json") (manifest_json (imap fixture_of caps)) w1).1
         end.
Proof.
  intros Hdir Hend. unfold Tail. destruct (ParseMysqlGTIDSet _); [|done]. destruct (fd_start f); [done|].
  rewrite bool_decide_eq_false_2 by done. destruct (os_MkdirAll _ w) as [w1 [[]|]]; [|done].
  unfold tail_loop. rewrite Hend.
  match goal with |- context [tail_events ?d ?l ?s] => destruct (tail_events d l s) as [[t [out2 w2]] [[]|]] eqn:He end; [|done].
  intros [= <- <-]. apply (run_states _ (parseFilters (tc_Tables cfg)) _ []) in He as [Hwant Hrows Hcap Hfiles]; [|done|].
  2:{ constructor; [done..|]. by intros i c Hi. }
  cbn [app] in *. exists out2, w2. split; [|split].
  - unfold stopped_line. cbn. by rewrite Hrows, Hcap.
  - intros i c Hi. unfold writeManifest. destruct (tl_captured t); [by apply Hfiles|]. rewrite write_others; [by apply Hfiles|].
    intros Hpath. apply join_names in Hpath; [by apply fixture_not_manifest in Hpath| |done].
    by eapply fixture_simple, captured_simple.
  - unfold writeManifest. rewrite Hcap. by destruct (captures _ _).
Qed.

End Captures.

(** ** What a line shows *)

Section Lines.
Context `{GoLib} `{!TailLib}.

Lemma Join_empty l sep : Forall (fun s => s <> "") l -> Join l sep = "" -> l = [].
Proof.
  intros Hl. destruct Hl as [|s l Hs Hl]; [done|]. unfold Join. destruct s as [|c s]; [done|].
  by destruct l.
Qed.

Lemma diff_part_full name was now : name +:+ ": " +:+ was +:+ " -> " +:+ now <> "".
Proof. by destruct name. Qed.

Lemma diff_parts_empty meta i names before after :
  diff_parts meta i names before after = [] <->
  forall k name b a, names !! k = Some name -> before !! k = Some b -> after !! k = Some a ->
    formatValue meta (i + k) b = formatValue meta (i + k) a.
Proof.
  revert i before after. induction names as [|name names IH]; intros i [|b before] [|a after]; cbn [diff_parts];
    try (split; [intros _ [|k] ? ? ? ? ? ?; discriminate|done]).
  case_bool_decide as Heq.
  - rewrite IH. split.
    + intros Hall [|k] n vb va; cbn.
      * intros [= <-] [= <-] [= <-]. by rewrite Nat.add_0_r.
      * intros. rewrite <- Nat.add_succ_comm. by eapply Hall.
    + intros Hall k n vb va Hn Hb Ha. rewrite Nat.add_succ_comm. by apply (Hall (S k) n).
  - split; [done|]. intros Hall. destruct Heq. specialize (Hall 0 name b a eq_refl eq_refl eq_refl).
    by rewrite Nat.add_0_r in Hall.
Qed.

(** An update is printed as one without a visible change exactly when every named
    column shows the same text before and after. *)
Theorem formatDiff_empty meta before after :
  formatDiff meta before after = "" <->
  forall k name b a, tb_names meta !! k = Some name -> before !! k = Some b -> after !! k = Some a ->
    formatValue meta k b = formatValue meta k a.
Proof.
  rewrite <- (diff_parts_empty meta 0). unfold formatDiff. split; [|by intros ->].
  apply Join_empty. generalize 0, (tb_names meta), before, after. clear.
  intros i names. revert i. induction names as [|name names IH]; intros i [|b before] [|a after]; try constructor.
  cbn [diff_parts]. case_bool_decide; [apply IH|]. constructor; [apply diff_part_full|apply IH].
Qed.

Context `{GtidLib} {W : Type} `{!OsOps W, !FixtureOps W}.

(** The transaction rows are printed under, after an event. *)
Definition transaction_after (gtid : string) (ev : raw_event) : string :=
  match rv_event ev with TGTID (Some gtid) => gtid | TXID => "" | _ => gtid end.

Lemma handle_gtid dir ev t ow t' ow' :
  tail_handle dir ev (t, ow) = ((t', ow'), Ok ()) -> tl_gtid t' = transaction_after (tl_gtid t) ev.
Proof.
  assert (forall raw kind table (s s' : tailer * (string * W)),
    capture dir raw kind table s = (s', Ok ()) -> tl_gtid s'.1 = tl_gtid s.1) as Hcap.
  { intros raw kind table [t1 [o1 w1]] s'. unfold capture. case_bool_decide; [by intros [= <-]|].
    destruct (os_WriteFile _ _ w1) as [w2 [[]|]]; [|done]. by intros [= <-]. }
  unfold tail_handle, transaction_after. destruct ow as [out w].
  destruct (rv_event ev) as [|[gtid|]| |schema table|type meta rows|query|]; try (by intros [= <- _]).
  - apply Hcap.
  - destruct (tracked t schema table); [apply Hcap|by intros [= <- _]].
  - unfold tail_rows. destruct (negb _); [by intros [= <- _]|].
    intros ([] & [t1 [out1 w1]] & Hp & Hc)%eff_bind_inv. apply Hcap in Hc. unfold printRows in Hp.
    destruct (row_lines _ _ _ _) as [lines|]; [|done]. injection Hp as <- _ _. done.
  - cbv zeta. destruct (negb _ && negb _); by intros [= <- _].
Qed.

(** Every line of a row names the transaction the row is part of: the one of the
    last identifier before it, if no commit stands between. *)
Theorem events_gtid dir evs t ow t' ow' :
  tail_events dir evs (t, ow) = ((t', ow'), Ok ()) -> tl_gtid t' = fold_left transaction_after evs (tl_gtid t).
Proof.
  revert t ow. induction evs as [|ev evs IH]; intros t ow; [by intros [= <- _]|].
  intros ([] & [t1 ow1] & Hh & He)%eff_bind_inv. apply handle_gtid in Hh. apply IH in He. by rewrite He, Hh.
Qed.

End Lines.
