(* ===== verification/Commands.v ===== *)
(** * The command line ([cmd/changeflow])

    What the subcommands do around the packages they call: the report of a
    stream's state ([status.go]), asking for a new scan ([resnapshot.go]), the
    schema of a destination ([schema.go]), the check of a configuration
    ([validate.go]), of a server and of the position [tail] starts from
    ([diagnose.go], [mysql.go]). Flags and help texts are Cobra's; what is
    printed is part of the state, errors are constructors. *)

From Stdlib Require Import Ascii.
From S2P Require Import Prelude GoStd GoEncoding GoJson Sql SqlTable Schema TableLoader Preflight Config Checkpoint Snapshot Supervisor Startup Tail CheckpointTable DeadLetters Generate Address.

(** ** Standard library *)

(** [strconv.Quote], whose tables of printable runes are not modelled. *)
Class QuoteOps := { strconv_Quote : string -> string }.

(** The process and the driver: reading a file, the environment, the memory
    limit, opening, checking and closing a database. *)
Class ProcessOps (W : Type) := {
  os_ReadFile : string -> eff W string string;
  os_LookupEnv : string -> option string;
  memory_limit : Z;
  sql_Open : string -> eff W string ();
  sql_Ping : eff W string ();
  sql_Close : W -> W
}.

(** [time.Duration.String]. *)
Fixpoint trim_zeros (digits : list ascii) : list ascii :=
  match digits with
  | "0"%char :: rest => trim_zeros rest
  | _ => digits
  end.

(** [fmtFrac]: the last [prec] digits without trailing zeros, behind a point. *)
Definition frac_text (v : Z) (prec : nat) : string :=
  let digits := FormatUint (v mod 10 ^ Z.of_nat prec) in
  let padded := String.concat "" (repeat "0" (prec - String.length digits)) +:+ digits in
  match trim_zeros (rev (String.list_ascii_of_string padded)) with
  | [] => ""
  | kept => "." +:+ String.string_of_list_ascii (rev kept)
  end.

Definition with_frac (v : Z) (prec : nat) (unit : string) : string :=
  FormatUint (v / 10 ^ Z.of_nat prec) +:+ frac_text v prec +:+ unit.

Definition micro : string := String (ascii_of_nat 194) (str1 (ascii_of_nat 181)) +:+ "s".

Definition duration_String (d : Z) : string :=
  let sign := if (d <? 0)%Z then "-" else "" in
  let u := Z.abs d in
  if (u =? 0)%Z then "0s"
  else if (u <? 10 ^ 3)%Z then sign +:+ FormatUint u +:+ "ns"
  else if (u <? 10 ^ 6)%Z then sign +:+ with_frac u 3 micro
  else if (u <? 10 ^ 9)%Z then sign +:+ with_frac u 6 "ms"
  else
    let secs := (u / 10 ^ 9)%Z in
    let mins := (secs / 60)%Z in
    let hours := (mins / 60)%Z in
    sign +:+ (if (0 <? hours)%Z then FormatUint hours +:+ "h" else "")
      +:+ (if (0 <? mins)%Z then FormatUint (mins mod 60) +:+ "m" else "")
      +:+ FormatUint (secs mod 60) +:+ frac_text u 9 +:+ "s".

Example duration_texts :
  map duration_String [0; 999; 1500; 2000000; 61500000000; 3600000000000; -1000000; 90061001000000]%Z =
  ["0s"; "999ns"; "1.5" +:+ micro; "2ms"; "1m1.5s"; "1h0m0s"; "-1ms"; "25h1m1.001s"].
Proof. vm_compute. reflexivity. Qed.

(** ** The state of a command *)

Inductive command_error :=
  | ECmdConfigFile (path cause : string)
  | ECmdConfig (e : config_error)
  | ECmdStream (name : string)
  | ECmdOpen (cause : string)
  | ECmdConnect (cause : string)
  | ECmdStore (e : mysql_error)
  | ECmdLetters (e : dlq_error)
  | ECmdTable (e : load_error)
  | ECmdSchema (e : schema_error)
  | ECmdSinkType (sinkType : string)
  | ECmdUnconfirmed (name table : string)
  | ECmdRunning (name : string)
  | ECmdNeverRun (name : string)
  | ECmdMemory
  | ECmdPreflight (e : preflight_error)
  | ECmdChecks (failures : Z)
  | ECmdServerID (id : Z)
  | ECmdGtid (e : sql_error)
  | ECmdGtidRow
  | ECmdNoTransactions
  | ECmdNoDsn
  | ECmdDsn (cause : string)
  | ECmdNet (net : string)
  | ECmdAddress (e : address_error)
  | ECmdTail (e : tail_error)
  | ECmdStart (e : startup_error)
  (** An empty slice indexed, which panics. *)
  | ECmdPanic.

Section Commands.
Context `{!MapOrder} `{ConfigLib} `{!QuoteOps} `{!SqlTime} {W : Type}.
Context `{!SqlOps W, !ConnOps W, !OsOps W, !ProcessOps W, !ClockOps W}.

(** What was printed, and the world. *)
Abbreviation command := (eff (string * W) command_error).

Definition print (text : string) : command () := fun '(out, w) => ((out +:+ text, w), Ok ()).
Definition outside {E A} (f : E -> command_error) (m : eff W E A) : command A := fun '(out, w) =>
  let '(w, x) := m w in ((out, w), map_err f x).
Definition pure {E A} (f : E -> command_error) (x : res E A) : command A := eff_lift (map_err f x).

(** [defer]: what is done however the function ends; its own error is dropped. *)
Definition deferring {A} (cleanup : W -> W) (m : command A) : command A := fun ow =>
  let '((out, w), x) := m ow in ((out, cleanup w), x).

(** [config.Load]. *)
Definition Config_Load (path : string) : command Config :=
  raw ← outside (ECmdConfigFile path) (os_ReadFile path);
  pure ECmdConfig (Parse raw (os_LookupEnv)).

(** [open], and the body that runs on the database until it is closed. *)
Definition connected {A} (body : command A) : command A := fun ow =>
  match outside ECmdConnect sql_Ping ow with
  | ((out, w), Err e) => ((out, sql_Close w), Err e)
  | (ow, Ok _) => deferring sql_Close body ow
  end.
Definition with_db {A} (dsn : string) (body : command A) : command A :=
  _ ← outside ECmdOpen (sql_Open dsn); connected body.

Definition configured (cfg : Config) (name : string) : command Stream :=
  eff_lift (match Config_Stream cfg name with Some s => Ok s | None => Err (ECmdStream name) end).

(** ** status.go *)

Definition lagText (cp : Checkpoint) (now : Z) : string :=
  match LagAt cp now with
  | None => "-"
  | Some d => duration_String (duration_Round d (10 ^ 6))
  end.

Definition snapshotText (cp : Checkpoint) : string :=
  if cp_SnapshotDone cp then "done"
  else if (0 <? cp_SnapshotRowsTotal cp)%Z
  then FormatUint (u64 (100 * cp_SnapshotRowsDone cp) / cp_SnapshotRowsTotal cp) +:+ "%"
  else "pending".

(** [(t statusTable) format], applied: a line of four or of five columns. *)
Definition four (a b c d : string) : string :=
  padRight 28 a +:+ " " +:+ padRight 10 b +:+ " " +:+ padRight 12 c +:+ " " +:+ d +:+ nl.
Definition five (a b c d e : string) : string :=
  padRight 28 a +:+ " " +:+ padRight 10 b +:+ " " +:+ padRight 12 c +:+ " " +:+ padRight 8 d +:+ " " +:+ e +:+ nl.

Definition status_header (dlqDir : string) : command () :=
  print (if bool_decide (dlqDir = "") then four "STREAM" "LAG" "SNAPSHOT" "POSITION"
         else five "STREAM" "LAG" "SNAPSHOT" "REFUSED" "POSITION").

Definition refused (dlqDir name : string) : command Z := fun '(out, w) =>
  match Count dlqDir name w with
  | (w, (_, Some e)) => ((out, w), Err (ECmdLetters e))
  | (w, (n, None)) => ((out, w), Ok n)
  end.

Definition status_row (dlqDir name lag snapshot position : string) : command () :=
  if bool_decide (dlqDir = "") then print (four name lag snapshot position)
  else n ← refused dlqDir name; print (five name lag snapshot (FormatInt n) position).

Definition not_started (dlqDir name : string) : command () := status_row dlqDir name "-" "not started" "-".

(** One pass of the loop over the streams. *)
Definition status_stream (store : MySQLStore) (dlqDir : string) (now : Z) (name : string) : command () := fun '(out, w) =>
  match MySQL_Load store name w with
  | (w, Err ENotFound) => not_started dlqDir name (out, w)
  | (w, Err e) => ((out, w), Err (ECmdStore e))
  | (w, Ok cp) =>
    (_ ← status_row dlqDir name (lagText cp now) (snapshotText cp) (cp_GTIDSet cp);
     if bool_decide (cp_LastError cp = "") then mret ()
     else print (padRight 28 "" +:+ " stopped: " +:+ cp_LastError cp +:+ nl)) (out, w)
  end.

Fixpoint each {A} (f : A -> command ()) (l : list A) : command () :=
  match l with [] => mret () | x :: l => _ ← f x; each f l end.

Definition show_streams (store : MySQLStore) (dlqDir : string) (names : list string) : command () :=
  _ ← status_header dlqDir;
  match names with
  | [] => eff_fail ECmdPanic
  | first :: _ => fun '(out, w) =>
    match MySQL_Load store first w with
    | (w, Err ENotInitialized) => each (not_started dlqDir) names (out, w)
    | (w, _) => each (status_stream store dlqDir (clock w)) names (out, w)
    end
  end.

Definition showStatus (path dlqDir : string) : command () :=
  cfg ← Config_Load path;
  with_db (cs_DSN (c_Checkpoint cfg)) (
    store ← pure ECmdStore (NewMySQLStore true (cs_Table (c_Checkpoint cfg)));
    show_streams store dlqDir (StreamNames cfg)).

(** ** resnapshot.go *)

Definition rebuild_advice (stream : Stream) : string :=
  let k := st_Sink stream in
  if bool_decide (si_Type k = SinkElasticsearch) && negb (bool_decide (si_Alias k = "")) then
    "  point sink.index at a new index before starting, and the read alias " +:+ strconv_Quote (si_Alias k) +:+ nl
    +:+ "  will be moved to it once the scan finishes" +:+ nl
  else if bool_decide (si_Type k = SinkClickHouse) then
    "  point sink.table at a new table before starting, then swap it in with" +:+ nl
    +:+ "  EXCHANGE TABLES once the scan finishes" +:+ nl
  else "".

(** What is done under the stream's lock. *)
Definition rescan (store : MySQLStore) (name : string) (stream : Stream) : command () := fun '(out, w) =>
  match MySQL_Load store name w with
  | (w, Err (ENotFound | ENotInitialized)) => ((out, w), Err (ECmdNeverRun name))
  | (w, Err e) => ((out, w), Err (ECmdStore e))
  | (w, Ok cp) =>
    (_ ← outside ECmdStore (MySQL_Save store (ClearSnapshot cp));
     _ ← print ("stream " +:+ name +:+ " will scan " +:+ st_Table stream +:+ " again on next start" +:+ nl);
     _ ← (if (0 <? cp_SnapshotRowsDone cp)%Z
          then print ("  the previous scan had read " +:+ FormatUint (cp_SnapshotRowsDone cp) +:+ " rows" +:+ nl)
          else mret ());
     print (rebuild_advice stream)) (out, w)
  end.

(** [defer lock.Release(ctx)]. *)
Definition released (lock : StreamLock) (w : W) : W := (Release (lock, w)).1.2.

Definition locked_rescan (store : MySQLStore) (name : string) (stream : Stream) : command () := fun '(out, w) =>
  match Lock store name w with
  | (w, Err (EStreamLocked _)) => ((out, w), Err (ECmdRunning name))
  | (w, Err e) => ((out, w), Err (ECmdStore e))
  | (w, Ok lock) => deferring (released lock) (rescan store name stream) (out, w)
  end.

Definition resnapshot (path name : string) (confirm : bool) : command () :=
  cfg ← Config_Load path;
  stream ← configured cfg name;
  if negb confirm then eff_fail (ECmdUnconfirmed name (st_Table stream))
  else with_db (cs_DSN (c_Checkpoint cfg)) (
    store ← pure ECmdStore (NewMySQLStore true (cs_Table (c_Checkpoint cfg)));
    locked_rescan store name stream).

(** ** schema.go *)

(** The generator of a stream's destination, once its table and key are known. *)
Definition generate (stream : Stream) (meta : TableMeta) (key : list string) (shards replicas : Z)
  : res command_error Generated :=
  let m := st_Mapping stream in
  let k := st_Sink stream in
  if bool_decide (si_Type k = SinkElasticsearch) then
    map_err ECmdSchema (GenerateElasticsearch meta (m_Include m) (m_Exclude m) key (m_Rename m) shards replicas)
  else if bool_decide (si_Type k = SinkClickHouse) then
    map_err ECmdSchema (GenerateClickHouse meta (m_Include m) (m_Exclude m) key (m_Rename m) (si_Table k))
  else Err (ECmdSinkType (si_Type k)).

(** The warnings go to the standard error, which is not modelled. *)
Definition generateSchema (path name : string) (shards replicas : Z) : command () :=
  cfg ← Config_Load path;
  stream ← configured cfg name;
  with_db (src_DSN (c_Source cfg)) (
    meta ← outside ECmdTable (Load (Stream_Schema stream) (Stream_TableName stream));
    key ← pure ECmdSchema (ResolveKey meta (m_Key (st_Mapping stream)));
    generated ← eff_lift (generate stream meta key shards replicas);
    print (g_Body generated)).

(** ** validate.go *)

Definition stream_line (name : string) (s : Stream) : string :=
  "  " +:+ padRight 28 name +:+ " " +:+ st_Table s +:+ " -> " +:+ si_Type (st_Sink s) +:+ nl.

Definition validateConfig (path : string) : command () :=
  cfg ← Config_Load path;
  if negb (CheckMemoryLimit cfg memory_limit) then eff_fail ECmdMemory
  else
    _ ← print ("configuration is valid: " +:+ FormatInt (Z.of_nat (size (c_Streams cfg))) +:+ " stream(s), about "
               +:+ ByteSize_String (EstimatedMemory cfg) +:+ " of buffers and in-flight batches" +:+ nl);
    print (String.concat "" (omap (fun name => stream_line name <$> c_Streams cfg !! name) (StreamNames cfg))).

End Commands.

(** ** What a command leaves alone *)

(** Reading files and opening databases does not change what [obs] sees; nor do
    pinned connections, nor counting records. *)
Class QuietProcess {W X : Type} `{!ProcessOps W} (obs : W -> X) : Prop := {
  quiet_read : forall path w, obs (os_ReadFile path w).1 = obs w;
  quiet_open : forall dsn w, obs (sql_Open dsn w).1 = obs w;
  quiet_ping : forall w, obs (sql_Ping w).1 = obs w
}.
Class QuietFiles {W X : Type} `{!OsOps W} (obs : W -> X) : Prop := {
  quiet_glob : forall pattern w, obs (path_Glob pattern w).1 = obs w;
  quiet_contents : forall path w, obs (os_Read path w).1 = obs w
}.
Class QuietConn {W X : Type} `{!ConnOps W} (obs : W -> X) : Prop := {
  quiet_conn_open : forall w, obs (conn_Open w).1 = obs w;
  quiet_conn_row : forall c stmt args w, obs (conn_QueryRow c stmt args w).1 = obs w;
  quiet_conn_exec : forall c stmt args w, obs (conn_Exec c stmt args w).1 = obs w;
  quiet_conn_close : forall c w, obs (conn_Close c w).1 = obs w
}.

Section Keeps.
Context {W X : Type} (obs : W -> X).
Abbreviation command := (eff (string * W) command_error).

Definition keeps {A} (m : command A) : Prop := forall out w, obs (m (out, w)).1.2 = obs w.

Lemma keeps_ret {A} (a : A) : keeps (mret a).
Proof. done. Qed.
Lemma keeps_lift {A} (x : res command_error A) : keeps (eff_lift x).
Proof. done. Qed.
Lemma keeps_print text : keeps (print text).
Proof. done. Qed.
Lemma keeps_then {A B} (m : command A) (k : A -> command B) : keeps m -> (forall a, keeps (k a)) -> keeps (m ≫= k).
Proof.
  intros Hm Hk out w. unfold mbind, eff_bind. specialize (Hm out w).
  destruct (m (out, w)) as [[out1 w1] [a|e]]; [|done]. cbn in Hm. by rewrite Hk.
Qed.
Lemma keeps_outside {E A} (f : E -> command_error) (m : eff W E A) : (forall w, obs (m w).1 = obs w) -> keeps (outside f m).
Proof. intros Hm out w. unfold outside. specialize (Hm w). by destruct (m w). Qed.
Lemma keeps_deferring {A} cleanup (m : command A) : (forall w, obs (cleanup w) = obs w) -> keeps m -> keeps (deferring cleanup m).
Proof. intros Hc Hm out w. unfold deferring. specialize (Hm out w). destruct (m (out, w)) as [[out1 w1] x]. cbn. by rewrite Hc. Qed.
Lemma keeps_each {A} (f : A -> command ()) l : (forall x, keeps (f x)) -> keeps (each f l).
Proof. intros Hf. induction l as [|x l IH]; [done|]. by apply keeps_then. Qed.

Context `{!ProcessOps W, !OsOps W, !QuietProcess obs, !QuietFiles obs}.

Lemma keeps_Config_Load `{!MapOrder} `{ConfigLib} path : keeps (Config_Load path).
Proof. apply keeps_then; [apply keeps_outside, quiet_read|by intros]. Qed.

Lemma keeps_with_db {A} dsn (body : command A) : (forall w, obs (sql_Close w) = obs w) -> keeps body -> keeps (with_db dsn body).
Proof.
  intros Hc Hb. apply keeps_then; [apply keeps_outside, quiet_open|]. intros _ out w. unfold connected, outside.
  pose proof (quiet_ping w) as Hp. destruct (sql_Ping w) as [w1 [[]|e]]; cbn in *; [|by rewrite Hc].
  rewrite <- Hp. by apply keeps_deferring.
Qed.

End Keeps.

Section Facts.
Context `{!MapOrder} `{ConfigLib} `{!QuoteOps} `{!SqlTime} {W : Type}.
Context `{!SqlOps W, !ConnOps W, !OsOps W, !ProcessOps W, !ClockOps W}.

Section Quiet.
Context {X : Type} (obs : W -> X) `{!QuietProcess obs, !QuietFiles obs, !QuietConn obs}.
Context (quiet_close : forall w, obs (sql_Close w) = obs w).

Lemma Count_quiet dir name w : obs (Count dir name w).1 = obs w.
Proof.
  assert (forall paths total w, obs (count_files paths total w).1 = obs w) as Hfiles.
  { induction paths as [|path paths IH]; intros total w1; [done|]. cbn [count_files]. unfold countLines.
    pose proof (quiet_contents path w1) as Hc. destruct (os_Read path w1) as [w2 [content|e]]; cbn in Hc; [|done].
    destruct (count_text content) as [n [|]]; [by rewrite IH|done]. }
  unfold Count, Files. case_bool_decide; [apply Hfiles|]. unfold mbind, eff_bind, eff_map_err. case_bool_decide.
  all: match goal with |- context [path_Glob ?p ?v] => pose proof (quiet_glob p v) as Hg; destruct (path_Glob p v) as [w1 [paths|e]] end;
    cbn in *; by rewrite ?Hfiles.
Qed.

Lemma Lock_quiet store name w : obs (Lock store name w).1 = obs w.
Proof.
  unfold Lock. destruct (validateStream name); [done|]. pose proof (quiet_conn_open w) as Ho.
  destruct (conn_Open w) as [w1 [c|e]]; [|done]. cbn in Ho. cbv zeta.
  match goal with |- context [conn_QueryRow c get_lock ?a w1] =>
    pose proof (quiet_conn_row c get_lock a w1) as Hq; destruct (conn_QueryRow c get_lock a w1) as [w2 [row|e]] end;
    cbn in *; [|by rewrite (quiet_conn_close (obs := obs)), Hq].
  repeat case_match; cbn; rewrite ?(quiet_conn_close (obs := obs)), ?(quiet_conn_row (obs := obs)); congruence.
Qed.

Lemma Release_quiet lock w : obs (Release (lock, w)).1.2 = obs w.
Proof.
  unfold Release. destruct (lk_conn lock) as [c|]; [|done].
  pose proof (quiet_conn_exec c release_lock [SText (lk_name lock)] w) as He.
  destruct (conn_Exec c release_lock _ w) as [w1 r1]. pose proof (quiet_conn_close c w1) as Hc.
  destruct (conn_Close c w1) as [w2 r2]. cbn in *. congruence.
Qed.

Lemma status_row_keeps dlqDir name lag snapshot position : keeps obs (status_row dlqDir name lag snapshot position).
Proof.
  unfold status_row. case_bool_decide; [done|]. apply keeps_then; [|done].
  intros out w. unfold refused. pose proof (Count_quiet dlqDir name w) as Hc.
  destruct (Count dlqDir name w) as [w1 [n [e|]]]; exact Hc.
Qed.

End Quiet.

(** ** [status] *)

Section Status.
Context (store : MySQLStore) (ckey : string -> string).
Context `{!TableLaws W (my_table store) ckey}.
Context `{!QuietProcess (rows : W -> gmap string row), !QuietFiles (rows : W -> gmap string row)}.

(** Cells of their widths, and a last one that ends the line. *)
Definition table_line (cells : list (nat * string)) (last : string) : string :=
  foldr (fun c line => padRight c.1 c.2 +:+ " " +:+ line) (last +:+ nl) cells.

(** The line of a stream: with a directory of refused records, a column more. *)
Definition stream_row (dlqDir name lag snapshot refused position : string) : string :=
  table_line ([(28, name); (10, lag); (12, snapshot)] ++ (if bool_decide (dlqDir = "") then [] else [(8, refused)])) position.

(** How far a stream is behind: the time since its last event, to the nearest
    millisecond, within what a duration holds. *)
Definition lag_shown (ts now : Z) (text : string) : Prop :=
  if bool_decide (ts = 0%Z) then text = "-"
  else (- 2 ^ 63 <= now - ts * 10 ^ 6 < 2 ^ 63 - 10 ^ 6)%Z ->
    exists ms, text = duration_String (ms * 10 ^ 6) /\ (0 <= ms)%Z /\
      (2 * Z.abs (ms * 10 ^ 6 - Z.max 0 (now - ts * 10 ^ 6)) <= 10 ^ 6)%Z.

(** How far its scan is: the part of the rows that were estimated, in percent. *)
Definition progress_shown (finished rows_done total : Z) (text : string) : Prop :=
  if bool_decide (finished = 1%Z) then text = "done"
  else if bool_decide (total <= 0)%Z then text = "pending"
  else (0 <= 100 * rows_done < 2 ^ 64)%Z ->
    exists p, text = FormatUint p +:+ "%" /\ (p * total <= 100 * rows_done < (p + 1) * total)%Z.

(** What is printed for a stream of its row, if it has one, and of the number of
    its refused records. *)
Definition stream_shown (dlqDir : string) (now : Z) (name : string) (held : option row) (n : Z) (text : string) : Prop :=
  match held with
  | None => text = stream_row dlqDir name "-" "not started" (FormatInt n) "-"
  | Some r => exists lag snapshot,
      lag_shown (row_number r "last_event_ts_ms") now lag /\
      progress_shown (row_number r "snapshot_done") (row_number r "snapshot_rows_done") (row_number r "snapshot_rows_total") snapshot /\
      text = stream_row dlqDir name lag snapshot (FormatInt n) (row_text r "gtid_set") +:+
        (if bool_decide (row_text r "last_error" = "") then ""
         else padRight 28 "" +:+ " stopped: " +:+ row_text r "last_error" +:+ nl)
  end.

(** The number of a stream's refused records, as they were counted. *)
Definition counted (dlqDir name : string) (n : Z) : Prop :=
  dlqDir = "" \/ exists w w', Count dlqDir name w = (w', (n, None)).

Lemma lagText_shown r now : lag_shown (row_number r "last_event_ts_ms") now (lagText (row_checkpoint r) now).
Proof.
  unfold lag_shown, lagText, LagAt. cbn [row_checkpoint cp_LastEventTsMs]. set (ts := row_number r "last_event_ts_ms").
  case_bool_decide as Hts; [by rewrite Hts|]. rewrite (proj2 (Z.eqb_neq _ _)) by done. intros Hrange.
  assert (time_Sub now (ts * 10 ^ 6) = now - ts * 10 ^ 6)%Z as -> by (unfold time_Sub; lia).
  set (d := (now - ts * 10 ^ 6)%Z) in *.
  assert ((if (d <? 0)%Z then 0 else d) = Z.max 0 d)%Z as -> by (case_match; bool_to_prop; lia).
  pose proof (Z.mod_pos_bound (Z.max 0 d) (10 ^ 6) eq_refl). pose proof (Z.div_mod (Z.max 0 d) (10 ^ 6) ltac:(lia)).
  unfold duration_Round. rewrite (proj2 (Z.leb_gt (10 ^ 6) 0)), (proj2 (Z.ltb_ge _ _)) by lia.
  set (q := (Z.max 0 d / 10 ^ 6)%Z) in *. set (m := (Z.max 0 d mod 10 ^ 6)%Z) in *.
  assert (0 <= q)%Z by (apply Z.div_pos; lia).
  destruct (Z.ltb_spec (m + m) (10 ^ 6)).
  - exists q. split; [f_equal; lia|lia].
  - destruct (Z.ltb_spec (Z.max 0 d + 10 ^ 6 - m) (2 ^ 63)); [|lia]. exists (q + 1)%Z. split; [f_equal; lia|lia].
Qed.

Lemma snapshotText_shown r :
  progress_shown (row_number r "snapshot_done") (row_number r "snapshot_rows_done") (row_number r "snapshot_rows_total")
    (snapshotText (row_checkpoint r)).
Proof.
  unfold progress_shown, snapshotText. cbn [row_checkpoint cp_SnapshotDone cp_SnapshotRowsTotal cp_SnapshotRowsDone].
  case_bool_decide; [done|]. case_bool_decide as Ht; [by rewrite (proj2 (Z.ltb_ge _ _))|].
  rewrite (proj2 (Z.ltb_lt _ _)) by lia. intros Hrange. rewrite u64_small by done. eexists. split; [done|].
  set (t := row_number r "snapshot_rows_total") in *. set (n := (100 * _)%Z) in *.
  pose proof (Z.mod_pos_bound n t). pose proof (Z.div_mod n t). lia.
Qed.

Lemma status_row_prints dlqDir name lag snapshot position out w out' w' :
  status_row dlqDir name lag snapshot position (out, w) = ((out', w'), Ok ()) ->
  exists n, counted dlqDir name n /\ out' = out +:+ stream_row dlqDir name lag snapshot (FormatInt n) position.
Proof.
  unfold status_row, stream_row, counted. case_bool_decide; [intros [= <- _]; exists 0%Z; split; [by left|done]|].
  intros (n & [out1 w1] & Hr & Hp)%eff_bind_inv. injection Hp as <- _. unfold refused in Hr.
  destruct (Count dlqDir name w) as [w2 [k [e|]]] eqn:Hc; [done|]. injection Hr as <- _ <-. exists k. split; [right; eauto|done].
Qed.

Lemma not_started_prints dlqDir now name out w out' w' :
  not_started dlqDir name (out, w) = ((out', w'), Ok ()) ->
  rows w' = rows w /\ exists n text, counted dlqDir name n /\ stream_shown dlqDir now name None n text /\ out' = out +:+ text.
Proof.
  intros Hs. split; [|apply status_row_prints in Hs as (n & ? & ->); exists n; eexists; by split_and!].
  pose proof (status_row_keeps rows dlqDir name "-" "not started" "-" out w) as Hk.
  unfold not_started in Hs. by rewrite Hs in Hk.
Qed.

Lemma status_stream_prints dlqDir now name out w out' w' :
  status_stream store dlqDir now name (out, w) = ((out', w'), Ok ()) ->
  rows w' = rows w /\ exists n text, counted dlqDir name n /\
    stream_shown dlqDir now name (rows w !! ckey name) n text /\ out' = out +:+ text.
Proof.
  unfold status_stream. destruct (MySQL_Load store name w) as [w1 r] eqn:HL. apply (Load_table store ckey) in HL as [Hrows Hr].
  rewrite <- Hrows. destruct r as [cp|e].
  - destruct Hr as (row & Hrow & ->). rewrite <- Hrows in Hrow. rewrite Hrow.
    intros ([] & [out1 w2] & Hrow1 & Hprint)%eff_bind_inv.
    pose proof (status_row_keeps rows dlqDir name (lagText (row_checkpoint row) now) (snapshotText (row_checkpoint row))
      (cp_GTIDSet (row_checkpoint row)) out w1) as Hk.
    rewrite Hrow1 in Hk. cbn in Hk. apply status_row_prints in Hrow1 as (n & Hn & ->).
    revert Hprint. case_bool_decide as He; intros [= <- <-]; (split; [exact Hk|]); exists n; eexists; (split; [done|]);
      (split; [exists (lagText (row_checkpoint row) now), (snapshotText (row_checkpoint row));
        split; [apply lagText_shown|split; [apply snapshotText_shown|reflexivity]]|]); cbn [row_checkpoint cp_LastError] in He.
    + by rewrite bool_decide_eq_true_2, app_nil_r_str.
    + by rewrite bool_decide_eq_false_2, app_assoc_str.
  - destruct e; try discriminate. rewrite <- Hrows in Hr. rewrite Hr. apply not_started_prints.
Qed.

(** What is printed for streams whose rows are [found]. *)
Inductive streams_shown (dlqDir : string) (now : Z) (found : string -> option row) : list string -> string -> Prop :=
  | shown_none : streams_shown dlqDir now found [] ""
  | shown_more name names n text rest :
      counted dlqDir name n -> stream_shown dlqDir now name (found name) n text ->
      streams_shown dlqDir now found names rest -> streams_shown dlqDir now found (name :: names) (text +:+ rest).

Lemma each_prints (step : string -> eff (string * W) command_error ()) dlqDir now found names out w out' w' :
  (forall name out w out' w', step name (out, w) = ((out', w'), Ok ()) ->
    rows w' = rows w /\ exists n text, counted dlqDir name n /\ stream_shown dlqDir now name (found (rows w) name) n text /\
      out' = out +:+ text) ->
  each step names (out, w) = ((out', w'), Ok ()) ->
  rows w' = rows w /\ exists text, streams_shown dlqDir now (found (rows w)) names text /\ out' = out +:+ text.
Proof.
  intros Hstep. revert out w. induction names as [|name names IH]; intros out w; cbn [each].
  { intros [= <- <-]. split; [done|]. exists "". split; [constructor|by rewrite app_nil_r_str]. }
  intros ([] & [out1 w1] & Hfirst & Hrest)%eff_bind_inv. apply Hstep in Hfirst as (Hr1 & n & text & Hn & Ht & ->).
  apply IH in Hrest as (Hr2 & rest & Hrest & ->). split; [congruence|]. rewrite Hr1 in Hrest.
  exists (text +:+ rest). split; [by econstructor|by rewrite app_assoc_str].
Qed.


End Status.
(** ** [resnapshot] *)

Section Rescan.
Context (table : string) (timeout : Z) (ckey lkey : string -> string).
Context `{!TableLaws W table ckey, !LockLaws W lkey}.
Context `{!QuietProcess (rows : W -> gmap string row), !QuietConn (rows : W -> gmap string row), !QuietProcess holder}.
Context (close_rows : forall w, rows (sql_Close w) = rows w).

Abbreviation store := (mkMySQLStore table timeout).

(** What a row is after a new scan was asked for: nothing of its scan is left, it
    has kept everything else, a version is filled in where there was none, and
    its time is anew. *)
Definition without_scan (old new : row) : Prop :=
  (row_number new "snapshot_done" = 0%Z /\ row_text new "snapshot_start_gtid" = "" /\ row_text new "snapshot_cursor" = "" /\
   row_number new "snapshot_base_seq" = 0%Z /\ row_number new "snapshot_rows_done" = 0%Z /\ row_number new "snapshot_rows_total" = 0%Z) /\
  (row_text new "stream" = row_text old "stream" /\ row_text new "gtid_set" = row_text old "gtid_set" /\
   row_number new "seq_watermark" = row_number old "seq_watermark" /\
   row_number new "last_event_ts_ms" = row_number old "last_event_ts_ms" /\ row_text new "last_error" = row_text old "last_error") /\
  row_number new "schema_version" = (if (row_number old "schema_version" =? 0)%Z then 1 else row_number old "schema_version")%Z /\
  is_Some (parseTimestamp (column_value new "updated_at")).

Lemma stored_without_scan t old :
  time_readable t -> without_scan old (stored t (default_version (ClearSnapshot (row_checkpoint old))) (Some old)).
Proof.
  intros Ht. set (cp := default_version _). set (new := stored t cp (Some old)).
  assert (forall {A} (f : Checkpoint -> A), f (row_checkpoint new) =
    f (set_Stream (row_text old "stream") (set_UpdatedAt (default zero_time (parseTimestamp t)) cp))) as Hf
    by (intros; unfold new; by rewrite stored_checkpoint).
  assert (row_number new "snapshot_done" = 0%Z) as Hdone.
  { assert (cp_SnapshotDone cp = false) as Hc by (unfold cp, default_version; by case_match).
    unfold row_number, new. rewrite stored_columns. transitivity (if cp_SnapshotDone cp then 1 else 0)%Z; [reflexivity|by rewrite Hc]. }
  assert (column_value new "updated_at" = t) as Htime by (unfold new; by rewrite stored_columns).
  assert (cp = set_SchemaVersion (if (row_number old "schema_version" =? 0)%Z then 1 else row_number old "schema_version")%Z
    (ClearSnapshot (row_checkpoint old))) as Hcp.
  { unfold cp, default_version. cbn [ClearSnapshot row_checkpoint cp_SchemaVersion].
    by destruct (row_number old "schema_version" =? 0)%Z. }
  unfold without_scan. rewrite Hdone, Htime. clearbody cp. subst cp. split_and!; try done.
  - exact (Hf _ cp_SnapshotStartGTID).
  - exact (Hf _ cp_SnapshotCursor).
  - exact (Hf _ cp_SnapshotBaseSeq).
  - exact (Hf _ cp_SnapshotRowsDone).
  - exact (Hf _ cp_SnapshotRowsTotal).
  - exact (Hf _ cp_Stream).
  - exact (Hf _ cp_GTIDSet).
  - exact (Hf _ cp_SeqWatermark).
  - exact (Hf _ cp_LastEventTsMs).
  - exact (Hf _ cp_LastError).
  - exact (Hf _ cp_SchemaVersion).
Qed.

(** The row of a stream has lost its scan, and no other row is touched. *)
Definition cleared (name : string) (w w' : W) : Prop :=
  exists old new, rows w !! ckey name = Some old /\ without_scan old new /\ rows w' = <[ckey name := new]> (rows w).

(** Only a save can have changed the table although it failed. *)
Definition left_alone (name : string) (w w' : W) (e : command_error) : Prop :=
  rows w' = rows w \/ (exists cause, e = ECmdStore (ESql cause)) /\ cleared name w w'.

Lemma Save_cleared name w w' old r :
  rows w !! ckey name = Some old ->
  MySQL_Save store (ClearSnapshot (row_checkpoint old)) w = (w', r) ->
  match r with
  | Ok _ => cleared name w w'
  | Err e => rows w' = rows w \/ (exists cause, e = ESql cause) /\ cleared name w w'
  end.
Proof.
  intros Hold HS. destruct (rows_keyed _ _ _ Hold) as (n & Hn & Hkey). cbn in Hn.
  assert (row_text old "stream" = n) as Htext by (unfold row_text, column_value; by rewrite Hn).
  assert (forall cause, r = Err cause -> rows w' = rows w \/ exists c, cause = ESql c) as Hcause.
  { revert HS. unfold MySQL_Save. destruct (validateStream _); [intros [= <- <-]; by left|].
    unfold eff_map_err. destruct (sql_Exec _ _ w) as [w1 [[]|e]]; intros [= <- <-]; [done|].
    intros cause [= <-]. right. by exists e. }
  apply (Save_table store ckey) in HS. cbn [my_table] in HS.
  assert (match r with Ok _ => False | Err _ => rows w' = rows w end \/ cleared name w w') as [Hr|Hr].
  { destruct HS as [[Hne Hr]|(t & Ht & Hr)]; [left; by destruct r as [[]|]|right].
    exists old. eexists. split; [done|]. split; [by apply stored_without_scan|]. rewrite Hr. cbn [ClearSnapshot row_checkpoint cp_Stream].
    by rewrite Htext, <- Hkey, Hold. }
  - destruct r; [done|by left].
  - destruct r as [|e]; [done|]. destruct (Hcause e eq_refl) as [|]; [by left|by right].
Qed.

Lemma rescan_clears name stream out w out' w' r :
  rescan store name stream (out, w) = ((out', w'), r) ->
  match r with Ok _ => cleared name w w' | Err e => left_alone name w w' e /\ out' = out end.
Proof.
  unfold rescan. destruct (MySQL_Load store name w) as [w1 x] eqn:HL.
  apply (Load_table store ckey) in HL as [Hrows Hx]. cbn [my_table] in Hrows, Hx. destruct x as [cp|e].
  2:{ intros Hr. assert (out' = out /\ w' = w1 /\ is_ok r = false) as (-> & -> & Hr') by (destruct e; by injection Hr as <- <- <-).
      destruct r; [done|]. split; [by left|done]. }
  destruct Hx as (old & Hold & ->). rewrite <- Hrows in Hold. intros Hr.
  apply eff_bind_cases in Hr as ([o1 w2] & y & Hsave & Hrest). unfold outside in Hsave.
  destruct (MySQL_Save _ _ w1) as [w3 z] eqn:HS. injection Hsave as -> -> <-.
  apply (Save_cleared name) in HS; [|done]. unfold cleared in *. rewrite Hrows in HS.
  destruct z as [[]|e]; cbn [map_err] in Hrest.
  - assert (w' = w2 /\ r = Ok ()) as [-> ->]; [|exact HS].
    revert Hrest. unfold mbind, eff_bind, print. cbn. destruct (0 <? _)%Z; by intros [= _ <- <-].
  - destruct Hrest as [[= -> ->] ->]. split; [|done]. destruct HS as [HS|[[cause ->] HS]]; [by left|right].
    split; [by exists cause|done].
Qed.

Lemma locked_rescan_clears name stream out w out' w' r :
  locked_rescan store name stream (out, w) = ((out', w'), r) ->
  match r with
  | Ok _ => holder w !! lkey (lock_name name) = None /\ cleared name w w'
  | Err e => left_alone name w w' e /\ out' = out
  end.
Proof.
  unfold locked_rescan. destruct (Lock store name w) as [w1 x] eqn:HL.
  pose proof (Lock_quiet (rows : W -> gmap string row) store name w) as Hq. rewrite HL in Hq. cbn in Hq.
  apply (Lock_spec store lkey) in HL. destruct x as [lock|e].
  2:{ intros Hr. assert (out' = out /\ w' = w1 /\ is_ok r = false) as (-> & -> & Hr') by (destruct e; by injection Hr as <- <- <-).
      destruct r; [done|]. split; [by left|done]. }
  destruct HL as [Hfree _]. unfold deferring. destruct (rescan store name stream (out, w1)) as [[o2 w2] y] eqn:HR.
  intros [= <- <- <-]. apply rescan_clears in HR.
  pose proof (Release_quiet (rows : W -> gmap string row) lock w2 : rows (released lock w2) = rows w2) as Hrel. unfold left_alone, cleared in *. cbn beta.
  destruct y; rewrite Hrel, <- Hq; tauto.
Qed.

Lemma with_db_cases {A} dsn (body : eff (string * W) command_error A) out w out' w' r :
  with_db dsn body (out, w) = ((out', w'), r) ->
  (exists e, r = Err e /\ rows w' = rows w /\ out' = out /\ (forall cause, e <> ECmdStore cause)) \/
  exists w1 w2, rows w1 = rows w /\ holder w1 = holder w /\ body (out, w1) = ((out', w2), r) /\ rows w' = rows w2.
Proof.
  unfold with_db. intros Hr. apply eff_bind_cases in Hr as ([o1 w1] & x & Hopen & Hr). unfold outside in Hopen.
  pose proof (quiet_open (obs := (rows : W -> gmap string row)) dsn w) as Hrows. pose proof (quiet_open (obs := holder) dsn w) as Hheld.
  destruct (sql_Open dsn w) as [w2 [[]|e]]; cbn in *; injection Hopen as <- <- <-.
  2:{ destruct Hr as [[= -> ->] ->]. left. by eexists. }
  unfold connected, outside in Hr. pose proof (quiet_ping (obs := (rows : W -> gmap string row)) w2) as Hrows2.
  pose proof (quiet_ping (obs := holder) w2) as Hheld2. destruct (sql_Ping w2) as [w3 [[]|e]]; cbn in *.
  2:{ injection Hr as <- <- <-. left. eexists. split; [done|]. by rewrite close_rows, Hrows2, Hrows. }
  right. unfold deferring in Hr. destruct (body (out, w3)) as [[o4 w4] y] eqn:Hb. injection Hr as <- <- <-.
  exists w3, w4. by rewrite Hrows2, Hrows, Hheld2, Hheld, close_rows.
Qed.

(** C29: Asking for a new scan succeeds only for a stream that is not running and has
    run before: then its row loses its scan and nothing else, and no other row
    is touched. A refusal, for want of a confirmation, of the stream's lock or of
    a row, leaves the table as it was and prints nothing; only a save that
    reports an error may have been carried out. *)
Theorem resnapshot_clears path name confirm out w out' w' r :
  (forall ow cfg, Config_Load path (out, w) = (ow, Ok cfg) ->
    NewMySQLStore true (cs_Table (c_Checkpoint cfg)) = Ok (mkMySQLStore table timeout)) ->
  resnapshot path name confirm (out, w) = ((out', w'), r) ->
  match r with
  | Ok _ => confirm = true /\ holder w !! lkey (lock_name name) = None /\ cleared name w w'
  | Err e => left_alone name w w' e /\ out' = out
  end.
Proof.
  intros Hstore Hr. unfold resnapshot in Hr.
  apply eff_bind_cases in Hr as ([o1 w1] & x & Hload & Hr).
  assert (o1 = out /\ rows w1 = rows w /\ holder w1 = holder w) as (-> & Hrows & Hheld).
  { unfold Config_Load, outside, mbind, eff_bind in Hload.
    pose proof (quiet_read (obs := (rows : W -> gmap string row)) path w) as Hq1. pose proof (quiet_read (obs := holder) path w) as Hq2.
    destruct (os_ReadFile path w) as [w2 [raw|e]]; cbn in *; by injection Hload as <- <- <-. }
  destruct x as [cfg|e]; [|destruct Hr as [[= -> ->] ->]; split; [by left|done]].
  specialize (Hstore _ _ Hload). unfold left_alone, cleared. rewrite <- Hrows, <- Hheld. clear Hload Hrows Hheld.
  apply eff_bind_cases in Hr as (? & y & [= <- <-] & Hr).
  destruct (Config_Stream cfg name) as [stream|]; [|destruct Hr as [[= -> ->] ->]; split; [by left|done]].
  destruct confirm; [|injection Hr as <- <- <-; split; [by left|done]]. cbn [negb] in Hr.
  apply with_db_cases in Hr as [(e & -> & Hrows & -> & _)|(w2 & w3 & Hrows & Hheld & Hr & Hrows')]; [split; [by left|done]|].
  rewrite Hrows', <- Hrows, <- Hheld. unfold pure in Hr. rewrite Hstore in Hr.
  apply (locked_rescan_clears name stream) in Hr. by destruct r.
Qed.

(** *** The start after it *)

Context `{Snapshot.ScanLib} `{!BackfillOps W}.
#[local] Instance next_store : StoreOps W := MySQL_ops store.

Lemma cleared_loaded name w w' w2 loaded :
  cleared name w w' -> store_Load name w' = (w2, loaded) ->
  match loaded with
  | Ok cp => rows w2 = rows w' /\ cp_SnapshotDone cp = false /\ cp_SnapshotStartGTID cp = "" /\ cp_SnapshotCursor cp = "" /\
      exists old, rows w !! ckey name = Some old /\ cp_GTIDSet cp = row_text old "gtid_set"
  | Err e => e <> ErrNotFound
  end.
Proof.
  intros (old & new & Hold & Hnew & Hrows). cbn. unfold eff_map_err.
  destruct (MySQL_Load store name w') as [w1 x] eqn:HL. intros [= <- <-].
  apply (Load_table store ckey) in HL as [Hsame Hx]. cbn [my_table] in Hsame, Hx. rewrite Hrows, lookup_insert_eq in Hx.
  destruct x as [cp|[]]; cbn [map_err to_store_error]; try done.
  destruct Hx as (row & [= <-] & ->). split; [done|].
  destruct Hnew as ((Hd & Hst & Hc & _) & (_ & Hg & _) & _). cbn. rewrite Hd, Hst, Hc, Hg. split_and!; eauto.
Qed.

(** After that, a start of the stream scans its table from the beginning, under a
    position and a version taken anew, when its snapshot is enabled. When it is
    not, the start goes on from the position the row kept, and scans nothing,
    although the command announced a scan. *)
Theorem cleared_stream_starts dsn rt w w' rt' w2 position :
  cleared (stream_name rt) w w' -> snapshotIfNeeded dsn (rt, w') = ((rt', w2), Ok position) ->
  if sc_Enabled (st_Snapshot (sr_cfg rt)) then
    exists w3 w4 cp cp', cp_SnapshotCursor cp = "" /\ cp_SnapshotStartGTID cp = "" /\
      markScanStarted cp (rt, w3) = ((rt', w4), Ok cp') /\ runScan dsn rt' cp' w4 = (w2, Ok position)
  else forall old, rows w !! ckey (stream_name rt) = Some old -> row_text old "gtid_set" <> "" ->
    rt' = rt /\ rows w2 = rows w' /\ position = row_text old "gtid_set".
Proof.
  intros Hclear. unfold snapshotIfNeeded. destruct (store_Load (stream_name rt) w') as [w3 loaded] eqn:HL.
  apply (cleared_loaded _ w) in HL; [|done]. destruct loaded as [cp|[]]; try done.
  destruct HL as (Hrows & Hdone & Hstart & Hcursor & Hgtid). rewrite Hdone. cbn [andb].
  destruct (sc_Enabled _); cbn [negb].
  - destruct (markScanStarted cp (rt, w3)) as [[rt1 w4] [cp'|e]] eqn:HM; [|done].
    destruct (runScan dsn rt1 cp' w4) as [w5 y] eqn:HR. intros [= <- <- ->]. by exists w3, w4, cp, cp'.
  - destruct (startWithoutSnapshot rt cp w3) as [w4 y] eqn:HS. intros [= <- <- ->] old Hold Hne.
    destruct Hgtid as (old' & Hold' & Hgtid). assert (old' = old) as -> by congruence.
    unfold startWithoutSnapshot in HS. rewrite Hgtid, bool_decide_eq_false_2 in HS by done. by injection HS as <- <-.
Qed.

End Rescan.
End Facts.
