(* ===== verification/Diagnose.v ===== *)
(** * Checking and watching a source ([cmd/changeflow/diagnose.go], [mysql.go])

    The report of a server's settings, the gate before its changes are printed,
    the position printing starts from, and the [tail] command as the whole of
    them. *)

From Stdlib Require Import Ascii.
From S2P Require Import Prelude GoStd GoEncoding GoJson Sql Preflight Cdc Config Binlog CheckpointTable DeadLetters Generate Tail Address Commands.

(** ** The report *)

Definition check_mark (ok : bool) : string :=
  String (ascii_of_nat 226) (String (ascii_of_nat 156) (str1 (ascii_of_nat (if ok then 147 else 151)))).

Definition report_line (c : Check_) : string :=
  check_mark (ck_OK c) +:+ " " +:+ padRight 28 (ck_Name c) +:+ " want=" +:+ padRight 10 (ck_Want c) +:+ " got=" +:+ ck_Got c +:+ nl.
Definition warning_text (c : Check_) : string :=
  nl +:+ "warning: " +:+ ck_Name c +:+ " (" +:+ Severity_String (ck_Severity c) +:+ ")" +:+ nl +:+ "  " +:+ ck_Why c +:+ nl.
Definition failure_text (c : Check_) : string :=
  nl +:+ "FAIL: " +:+ ck_Name c +:+ " want=" +:+ ck_Want c +:+ " got=" +:+ ck_Got c +:+ nl +:+ "  " +:+ ck_Why c +:+ nl.

(** What [printReport] prints. *)
Definition report_text (r : Report) : string :=
  String.concat "" (map report_line r) +:+ String.concat "" (map warning_text (Warnings r))
  +:+ String.concat "" (map failure_text (Failures r)) +:+ nl.

Section Diagnose.
Context `{GoLib} `{!TailLib} `{GtidLib} `{!DsnLib} {W : Type}.
Context `{!SqlOps W, !OsOps W, !ProcessOps W, !FixtureOps W}.
Abbreviation command := (eff (string * W) command_error).

Definition printReport (r : Report) : command () := print (report_text r).

(** [sourceFlags]; a [uint32]. *)
Record sourceFlags := mkSourceFlags { sf_dsn : string; sf_serverID : Z }.
Definition require_dsn (s : sourceFlags) : res command_error () :=
  if bool_decide (sf_dsn s = "") then Err ECmdNoDsn else Ok ().

Definition checkServer (dsn : string) : command () :=
  with_db dsn (
    report ← outside ECmdPreflight preflight_Run;
    _ ← printReport report;
    eff_lift (if report_OK report then Ok () else Err (ECmdChecks (zlen (Failures report))))).

(** The command: its flags, then the check. *)
Definition preflight_command (s : sourceFlags) : command () :=
  _ ← eff_lift (require_dsn s); checkServer (sf_dsn s).

Definition gate_decision (serverID : Z) (skipCheck : bool) (report : Report) : res command_error () :=
  if negb (report_OK report) && negb skipCheck then Err (ECmdChecks (zlen (Failures report)))
  else if bool_decide (Get "server_id" report = Some (FormatUint serverID)) then Err (ECmdServerID serverID)
  else Ok ().
Definition gateOnPreflight (serverID : Z) (skipCheck : bool) : command () :=
  report ← outside ECmdPreflight preflight_Run;
  _ ← printReport report;
  eff_lift (gate_decision serverID skipCheck report).

(** The position, on what the query answered. *)
Definition position_text (row : option (list sql_value)) : res command_error string :=
  match row with
  | Some [v] =>
    match scan_string v with
    | Some gtid =>
      let gtid := ReplaceByte newline "" gtid in
      if bool_decide (TrimSpace gtid = "") then Err ECmdNoTransactions else Ok gtid
    | None => Err ECmdGtidRow
    end
  | _ => Err ECmdGtidRow
  end.
Definition currentPosition : command string :=
  row ← outside ECmdGtid (sql_QueryRow "SELECT @@GLOBAL.gtid_executed" []);
  eff_lift (position_text row).

(** [tailRequest]. *)
Record tailRequest := mkTailRequest {
  tr_source : sourceFlags;
  tr_tables : list string;
  tr_captureDir : string;
  tr_duration : Z;
  tr_skipCheck : bool
}.

Definition tail_config_of (req : tailRequest) (cfg : DsnConfig) (host : string) (port : Z) (gtid : string) : tail_config :=
  mkTailConfig host port (dsn_User cfg) (dsn_Passwd cfg) (sf_serverID (tr_source req)) (tr_tables req)
    (tr_captureDir req) (tr_duration req) gtid.

(** [tail.Tail] writes to the command's output. *)
Definition tail_out (cfg : tail_config) (f : feed) : command () := eff_map_err ECmdTail (Tail cfg f).

(** [f] is what the replication client does, on the configuration it is given. *)
Definition tailChanges (req : tailRequest) (f : tail_config -> feed) : command () :=
  cfg ← pure ECmdDsn (driver_ParseDSN (sf_dsn (tr_source req)));
  _ ← eff_lift (if bool_decide (dsn_Net cfg = "tcp") then Ok () else Err (ECmdNet (dsn_Net cfg)));
  '(host, port) ← pure ECmdAddress (splitHostPort (dsn_Addr cfg));
  with_db (sf_dsn (tr_source req)) (
    _ ← gateOnPreflight (sf_serverID (tr_source req)) (tr_skipCheck req);
    gtid ← currentPosition;
    tail_out (tail_config_of req cfg host port gtid) (f (tail_config_of req cfg host port gtid))).

Definition tail_command (req : tailRequest) (f : tail_config -> feed) : command () :=
  _ ← eff_lift (require_dsn (tr_source req)); tailChanges req f.

(** ** What is decided *)

Lemma preflight_evaluates w w1 report :
  preflight_Run w = (w1, Ok report) -> exists vars grants, report = Evaluate vars grants.
Proof.
  intros (vars & w2 & _ & Hrun)%eff_bind_inv. apply eff_bind_inv in Hrun as (grants & w3 & _ & [= _ <-]).
  by exists vars, grants.
Qed.

(** The gate before [tail] decides as the supervisor does before a run: without
    the flag to skip, it lets through exactly what the supervisor would. *)
Theorem gate_is_checkSource serverID out w :
  is_ok (gateOnPreflight serverID false (out, w)).2 = is_ok (checkSource serverID w).2.
Proof.
  unfold gateOnPreflight, checkSource, gate_decision, outside, mbind, eff_bind.
  destruct (preflight_Run w) as [w1 [report|e]]; [|done]. cbn. rewrite andb_true_r.
  destruct (report_OK report); cbn; [by case_bool_decide|done].
Qed.

Lemma gate_accepts serverID skip out w out' w' :
  gateOnPreflight serverID skip (out, w) = ((out', w'), Ok ()) ->
  exists vars grants, preflight_Run w = (w', Ok (Evaluate vars grants)) /\ out' = out +:+ report_text (Evaluate vars grants) /\
    (skip = true \/ suitable vars grants) /\ vars !! "server_id" <> Some (FormatUint serverID).
Proof.
  unfold gateOnPreflight, outside, mbind, eff_bind. destruct (preflight_Run w) as [w1 [report|e]] eqn:Hrun; [|discriminate].
  destruct (preflight_evaluates _ _ _ Hrun) as (vars & grants & Hrep). intros Hgate.
  pose proof (Evaluate_suitable vars grants) as Hfit. pose proof (Get_server_id vars grants) as Hown.
  exists vars, grants. rewrite <- Hrep in *. clear Hrep. cbn in Hgate. unfold gate_decision in Hgate.
  destruct (report_OK report); [|destruct skip; [|discriminate]]; cbn in Hgate.
  all: case_bool_decide as Hid; [discriminate|]; injection Hgate as <- <-.
  all: split; [done|]; split; [done|]; split; [tauto|by intros Hv; apply Hid; rewrite Hown, Hv].
Qed.

Lemma free_ReplaceByte c s : free_of c (ReplaceByte c "" s) = true.
Proof.
  unfold ReplaceByte, free_of. apply str_forall_concat_map. intros d. destruct (ascii_dec d c); [done|].
  cbn. by rewrite bool_decide_eq_false_2.
Qed.

(** Whether printing began: it ended well, or with an error of its own. *)
Definition began (r : res command_error ()) : bool :=
  match r with Ok _ | Err (ECmdTail _) => true | Err _ => false end.

(** A step before that fails with another error. *)
Definition before {A} (m : command A) : Prop := forall s s' e, m s = (s', Err e) -> began (Err e) = false.

Lemma before_step {A} (m : command A) (k : A -> command ()) s s' r :
  (m ≫= k) s = (s', r) -> began r = true -> before m -> exists a s1, m s = (s1, Ok a) /\ k a s1 = (s', r).
Proof.
  intros Hmk Hr Hm. apply eff_bind_cases in Hmk as (s1 & [a|e] & Hs1 & Hk); [by exists a, s1|].
  destruct Hk as [-> ->]. by rewrite (Hm _ _ _ Hs1) in Hr.
Qed.

Lemma before_lift {A} (x : res command_error A) : (forall e, x = Err e -> began (Err e) = false) -> before (eff_lift x).
Proof. intros Hx s s' e [= _ He]. by apply Hx. Qed.
Lemma before_pure {E A} (g : E -> command_error) (x : res E A) : (forall e, began (Err (g e)) = false) -> before (pure g x).
Proof. intros Hg. apply before_lift. destruct x as [|x]; [done|]. intros e [= <-]. apply Hg. Qed.
Lemma before_outside {E A} (g : E -> command_error) (m : eff W E A) : (forall e, began (Err (g e)) = false) -> before (outside g m).
Proof. intros Hg [o v] s' e. unfold outside. destruct (m v) as [v' [a|x]]; intros [= _ <-]. apply Hg. Qed.
Lemma before_bind {A B} (m : command A) (k : A -> command B) : before m -> (forall a, before (k a)) -> before (m ≫= k).
Proof.
  intros Hm Hk s s' e Hs. apply eff_bind_cases in Hs as (s1 & [a|x] & Hs1 & Hs); [by eapply Hk|].
  destruct Hs as [_ [= ->]]. by eapply Hm.
Qed.
Lemma before_gate serverID skip : before (gateOnPreflight serverID skip).
Proof.
  apply before_bind; [by apply before_outside|]. intros report. apply before_bind; [by intros [o v] s' e|]. intros [].
  apply before_lift. unfold gate_decision. intros e. destruct (_ && _); [by intros [= <-]|]. case_bool_decide; by intros [= <-].
Qed.
Lemma before_position : before currentPosition.
Proof.
  apply before_bind; [by apply before_outside|]. intros row. apply before_lift. intros e. unfold position_text.
  repeat case_match; by intros [= <-].
Qed.

Lemma with_db_began dsn (body : command ()) out w s' r :
  with_db dsn body (out, w) = (s', r) -> began r = true ->
  exists w1 s1, body (out, w1) = (s1, r) /\ s' = (s1.1, sql_Close s1.2).
Proof.
  intros Hdb Hr. apply before_step in Hdb as ([] & [o1 w1] & Hopen & Hdb); [|done|by apply before_outside].
  assert (o1 = out) as ->. { unfold outside in Hopen. destruct (sql_Open dsn w) as [w2 y]. by injection Hopen. }
  unfold connected, outside in Hdb. destruct (sql_Ping w1) as [w2 [[]|e]]; cbn in Hdb; [|by injection Hdb as _ <-].
  unfold deferring in Hdb. destruct (body (out, w2)) as [[o3 w3] y] eqn:Hb. injection Hdb as <- <-.
  by exists w2, (o3, w3).
Qed.

Lemma position_ok s s' gtid :
  currentPosition s = (s', Ok gtid) -> free_of newline gtid = true /\ TrimSpace gtid <> "".
Proof.
  intros (row & s1 & _ & Hp)%eff_bind_inv. injection Hp as _ Hp. unfold position_text in Hp.
  destruct row as [[|v [|]]|]; [done| |done..]. destruct (scan_string v) as [g|]; [|done]. cbv zeta in Hp.
  case_bool_decide as Ht; [done|]. injection Hp as <-. split; [apply free_ReplaceByte|done].
Qed.

(** C12: The changes of a source are printed only after it was found fit, or the check
    was waived, from a server whose id is another than the one presented, and
    from a position that names transactions on one line: whenever printing
    begins, all of it holds of the connection it begins on. *)
Theorem tail_begins_checked req f out w ow' r :
  tailChanges req f (out, w) = (ow', r) -> began r = true ->
  exists cfg host port vars grants gtid w1 w2 ow2 ow3,
    driver_ParseDSN (sf_dsn (tr_source req)) = Ok cfg /\ dsn_Net cfg = "tcp" /\ splitHostPort (dsn_Addr cfg) = Ok (host, port) /\
    preflight_Run w1 = (w2, Ok (Evaluate vars grants)) /\ (tr_skipCheck req = true \/ suitable vars grants) /\
    vars !! "server_id" <> Some (FormatUint (sf_serverID (tr_source req))) /\
    currentPosition (out +:+ report_text (Evaluate vars grants), w2) = (ow2, Ok gtid) /\
    free_of newline gtid = true /\ TrimSpace gtid <> "" /\
    let config := tail_config_of req cfg host port gtid in
    tail_out config (f config) ow2 = (ow3, r) /\ ow' = (ow3.1, sql_Close ow3.2).
Proof.
  intros Ht Hr. apply before_step in Ht as (cfg & s1 & Hdsn & Ht); [|done|by apply before_pure].
  unfold pure, eff_lift in Hdsn. destruct (driver_ParseDSN _) as [cfg'|] eqn:Hp; [|done]. injection Hdsn as <- <-.
  apply before_step in Ht as ([] & s2 & Hnet & Ht); [|done|apply before_lift; intros e; case_bool_decide; by intros [= <-]].
  unfold eff_lift in Hnet. case_bool_decide as Htcp; [|done]. injection Hnet as <-.
  apply before_step in Ht as ([host port] & s3 & Haddr & Ht); [|done|by apply before_pure].
  unfold pure, eff_lift in Haddr. destruct (splitHostPort _) as [[h p]|] eqn:Hs; [|done]. injection Haddr as <- <- <-.
  apply with_db_began in Ht as (w1 & ow3 & Hbody & ->); [|done].
  apply before_step in Hbody as ([] & [out2 w2] & Hgate & Hbody); [|done|apply before_gate].
  apply gate_accepts in Hgate as (vars & grants & Hrun & -> & Hfit & Hid).
  apply before_step in Hbody as (gtid & ow2 & Hpos & Hbody); [|done|apply before_position].
  destruct (position_ok _ _ _ Hpos) as [Hline Hne].
  exists cfg', h, p, vars, grants, gtid, w1, w2, ow2, ow3. by split_and!.
Qed.

(** [preflight] changes nothing that reading and connecting leave alone, and
    succeeds exactly when the source is fit. *)
Theorem checkServer_decides {X} (obs : W -> X) `{!QuietProcess obs} dsn out w out' w' r :
  (forall w, obs (sql_Close w) = obs w) -> (forall stmt args w, obs (sql_Query stmt args w).1 = obs w) ->
  checkServer dsn (out, w) = ((out', w'), r) ->
  obs w' = obs w /\
  (r = Ok () -> exists w1 w2 vars grants, preflight_Run w1 = (w2, Ok (Evaluate vars grants)) /\ suitable vars grants /\
    out' = out +:+ report_text (Evaluate vars grants)).
Proof.
  intros Hclose Hquery Hc. split.
  - assert (keeps obs (checkServer dsn)) as Hk; [|specialize (Hk out w); by rewrite Hc in Hk].
    apply keeps_with_db; [done..|]. apply keeps_then; [apply keeps_outside|by intros report].
    intros v. unfold preflight_Run, GlobalVars, Grants, mbind, eff_bind.
    pose proof (Hquery "SHOW GLOBAL VARIABLES" [] v) as Hq1. destruct (sql_Query "SHOW GLOBAL VARIABLES" [] v) as [v1 [rows|e]]; cbn in Hq1; [|done].
    destruct (mapM scan_pair rows); [|done].
    pose proof (Hquery "SHOW GRANTS FOR CURRENT_USER()" [] v1) as Hq2.
    destruct (sql_Query "SHOW GRANTS FOR CURRENT_USER()" [] v1) as [v2 [rows2|e]]; cbn in Hq2; rewrite Hq1 in Hq2; [|done].
    destruct (mapM scan_line rows2); exact Hq2.
  - intros ->. apply with_db_began in Hc as (w1 & [o2 w2] & Hbody & [= -> ->]); [|done].
    apply eff_bind_inv in Hbody as (report & [o3 w3] & Hrun & Hbody). unfold outside in Hrun.
    destruct (preflight_Run w1) as [w4 [report'|]] eqn:Hpre; [|done]. injection Hrun as <- <- ->.
    destruct (preflight_evaluates _ _ _ Hpre) as (vars & grants & Hrep).
    apply eff_bind_inv in Hbody as ([] & s5 & [= <-] & Hbody). injection Hbody as <- _ Hok.
    pose proof (Evaluate_suitable vars grants) as Hfit. rewrite <- Hrep in *.
    destruct (report_OK report); [|done]. exists w1, w4, vars, grants. rewrite <- Hrep. split; [done|]. split; [tauto|done].
Qed.

End Diagnose.
