(* ===== verification/Replicate.v ===== *)
(** * A whole run ([internal/supervisor/supervisor.go], [stream.go], [cmd/changeflow/run.go])

    The connections a run works on, the reader every stream shares, what is
    recorded of the streams' states while the tasks run, and the run from the
    command to its end. The goroutines between their start and their end are an
    argument, which [Tasks] and [Pipelines] describe; log lines and metrics are left out. *)

From Stdlib Require Import Ascii.
From S2P Require Import Prelude GoStd Address Sql SqlTable Schema TableLoader Preflight Cdc Config Transform Sink Checkpoint Runner Snapshot Binlog Http Elasticsearch Supervisor Tasks ClickHouse Wiring Startup CheckpointTable DeadLetters Commands.

(** ** Connections *)

(** [sql.Open], [Ping] and [Close] of the pools of connections. *)
Class PoolOps (W : Type) := {
  pool_Open : string -> eff W string Z;
  pool_Ping : Z -> eff W string ();
  pool_Close : Z -> W -> W
}.

Section Session.
Context {W : Type} `{!SqlOps W, !PoolOps W}.

(** [openMySQL]: a pool that does not answer is closed. *)
Definition openMySQL (dsn : string) : eff W string Z := fun w =>
  match pool_Open dsn w with
  | (w, Err e) => (w, Err e)
  | (w, Ok h) =>
    match pool_Ping h w with
    | (w, Err e) => (pool_Close h w, Err e)
    | (w, Ok _) => (w, Ok h)
    end
  end.

(** [session]: what is open so far. *)
Record session := mkSession { ses_sourceDB : option Z; ses_metaDB : option Z; ses_store : option MySQLStore }.

Definition close_pool (h : option Z) (w : W) : W := match h with Some h => pool_Close h w | None => w end.
Definition session_close (s : session) (w : W) : W := close_pool (ses_metaDB s) (close_pool (ses_sourceDB s) w).

(** [connect]: whatever fails, what was opened is closed. *)
Definition connect (cfg : Config) : eff W startup_error session := fun w =>
  match openMySQL (src_DSN (c_Source cfg)) w with
  | (w, Err e) => (w, Err (EStartOpen "source" e))
  | (w, Ok source) =>
    match openMySQL (cs_DSN (c_Checkpoint cfg)) w with
    | (w, Err e) => (session_close (mkSession (Some source) None None) w, Err (EStartOpen "checkpoint store" e))
    | (w, Ok meta) =>
      match NewMySQLStore true (cs_Table (c_Checkpoint cfg)) with
      | Err e => (session_close (mkSession (Some source) (Some meta) None) w, Err (EStartStore e))
      | Ok store =>
        match EnsureSchema store w with
        | (w, Err e) => (session_close (mkSession (Some source) (Some meta) (Some store)) w, Err (EStartStore e))
        | (w, Ok _) => (w, Ok (mkSession (Some source) (Some meta) (Some store)))
        end
      end
    end
  end.

End Session.

(** ** The shared reader *)

Section Stream.
Context `{ScanLib} `{!MapOrder} `{GtidLib} `{!DsnLib}.

Definition newStreamer (cfg : Config) (schemas : gmap string TableMeta) (tables : list string) (startGTID : string)
  : res startup_error Streamer :=
  '(host, port) ← map_err EStartAddress (addressOf (src_DSN (c_Source cfg)));
  map_err EStartReader (NewStreamer (mkBOptions host port (src_ServerID (c_Source cfg)) startGTID tables true true
    (src_HeartbeatPeriod (c_Source cfg)) (src_ReadTimeout (c_Source cfg)) (rt_BufferSize (c_Runtime cfg))) schemas).

(** The router: every stream's channel, by its place, under its table. *)
Definition stream_tables (runtimes : list StreamRuntime) : list (string * nat) :=
  imap (fun i rt => (st_Table (sr_cfg rt), i)) runtimes.

(** [stream] before its tasks: the position, the router, the reader and the
    allocator it takes versions from. *)
Definition reader_plan (cfg : Config) (schemas : gmap string TableMeta) (runtimes : list StreamRuntime)
    (positions : gmap string string) : res startup_error (Router * Streamer * Allocator) :=
  startGTID ← map_err EStartPosition (sharedStartPosition positions);
  let router := build_router (stream_tables runtimes) in
  match shared_sequencer runtimes with
  | None => Err EStartPanic
  | Some alloc => streamer ← newStreamer cfg schemas (Tables router) startGTID; Ok (router, streamer, alloc)
  end.

(** [Events] and [Err]: the end of a context is no error of the reader. *)
Definition reader_error (e : binlog_error) : option binlog_error :=
  match e with
  | ERead' (ReadFailed Canceled) | ESend Canceled => None
  | _ => Some e
  end.

Context {W : Type} `{!SqlOps W, !SqlTime}.
Variable store : MySQLStore.

(** [recordError]: a failure to record is only logged. *)
Definition recordError (stream : string) (cause : option string) (w : W) : W :=
  (RecordError store stream (default "" cause) w).1.

(** [startPipeline] for each stream, before its task runs. *)
Definition start_pipelines (runtimes : list StreamRuntime) (w : W) : W :=
  foldl (fun w rt => recordError (stream_name rt) None w) w runtimes.

Definition cause_text (e : outside_error) : string := match e with Canceled => "context canceled" | Failed text => text end.

(** The end of a stream's task, [err] being what its runner returned: its state, what
    is recorded of it, and what the task returns. *)
Definition pipeline_task (rt : StreamRuntime) (err : option outside_error) (st : streamState) (w : W)
  : W * (streamState * option outside_error) :=
  ((if pipeline_failed err then recordError (stream_name rt) (cause_text <$> err) w else w), pipeline_ended err st).

(** The end of the reader's task. *)
Definition reader_task (runtimes : list StreamRuntime) (routed : res outside_error ()) (reader : option outside_error) (w : W)
  : W * option outside_error :=
  let w := match routed, reader with
           | Ok _, Some e => foldl (fun w rt => recordError (stream_name rt) (Some (cause_text e)) w) w runtimes
           | _, _ => w
           end in
  (w, reader_ended routed reader).

(** The tasks from their start until all have returned: what [wait] returns. *)
Class TaskOps := { run_tasks : list StreamRuntime -> Router -> Streamer -> Allocator -> W -> W * option outside_error }.
Context `{!TaskOps}.

Definition stream_run (cfg : Config) (schemas : gmap string TableMeta) (runtimes : list StreamRuntime)
    (positions : gmap string string) : eff W startup_error () := fun w =>
  match reader_plan cfg schemas runtimes positions with
  | Err e => (w, Err e)
  | Ok (router, streamer, alloc) =>
    let '(w, first) := run_tasks runtimes router streamer alloc (start_pipelines runtimes w) in
    (w, match stream_result first with Some e => Err (EStartTasks e) | None => Ok () end)
  end.

Context `{!ClockOps W, !BackfillOps W} `{!UrlOps}.

(** What the scans and the streaming use of what was prepared. *)
Definition runtime_of (r : StreamRun) : option StreamRuntime :=
  meta ← rn_meta r; alloc ← rn_alloc r; Some (mkStreamRuntime (rn_cfg r) meta alloc).

#[local] Instance run_store : StoreOps W := MySQL_ops store.

(** The work of a run: [backfill], then [stream]. *)
Definition run_work (cfg : Config) (runs : list StreamRun) (schemas : gmap string TableMeta) : eff W startup_error () := fun w =>
  match backfill (src_SnapshotDSN (c_Source cfg)) (omap runtime_of runs) ∅ w with
  | (_, w, Err e) => (w, Err (EStartScan e))
  | (runtimes, w, Ok positions) => stream_run cfg schemas runtimes positions w
  end.

End Stream.

(** ** The run and its command *)

Section Whole.
Context `{ScanLib} `{!ErrorText} `{!MapOrder} `{!UrlOps} `{!ZoneOps} `{GtidLib} `{!DsnLib} `{!SqlTime} `{ConfigLib} {W : Type}.
Context `{!SqlOps W, !ConnOps W, !HttpOps W, !OsOps W, !PoolOps W, !ClockOps W, !BackfillOps W, !TaskOps (W := W)}.

(** [(s *Supervisor) Run]: with the session, and closing it; the second part are the
    locks that could not be released. *)
Definition supervise (s : SupervisorT) (w : W) : W * res startup_error () * list mysql_error :=
  match connect (sv_cfg s) w with
  | (w, Err e) => (w, Err e, [])
  | (w, Ok sess) =>
    match ses_store sess with
    | None => (session_close sess w, Err EStartPanic, [])
    | Some store =>
      let '(w, outcome, warnings) := Startup.Run store s (run_work store (sv_cfg s)) w in
      (session_close sess w, outcome, warnings)
    end
  end.

Context `{!ProcessOps W}.

Definition run_supervisor (s : SupervisorT) : eff (string * W) command_error () := fun '(out, w) =>
  let '(w, outcome, _) := supervise s w in ((out, w), map_err ECmdStart outcome).

(** [replicate]. *)
Definition replicate_ (path stream dlqDir : string) : eff (string * W) command_error () :=
  cfg ← Config_Load path;
  if negb (CheckMemoryLimit cfg memory_limit) then eff_fail ECmdMemory
  else sup ← pure ECmdStart (NewSupervisor cfg stream dlqDir); run_supervisor sup.

End Whole.

(** ** Connections are given back *)

Section Pools.
Context {W : Type} `{!SqlOps W, !PoolOps W}.

(** The pools that are open; statements open and close none. *)
Class PoolLaws := {
  opened : W -> gset Z;
  open_pool : forall dsn w w' r, pool_Open dsn w = (w', r) ->
    match r with Ok h => h ∉ opened w /\ opened w' = {[h]} ∪ opened w | Err _ => opened w' = opened w end;
  ping_pool : forall h w, opened (pool_Ping h w).1 = opened w;
  close_pools : forall h w, opened (pool_Close h w) = opened w ∖ {[h]};
  row_pools : forall stmt args w, opened (sql_QueryRow stmt args w).1 = opened w;
  exec_pools : forall stmt args w, opened (sql_Exec stmt args w).1 = opened w
}.
Context `{!PoolLaws}.

Lemma openMySQL_spec dsn w w' r :
  openMySQL dsn w = (w', r) ->
  match r with Ok h => h ∉ opened w /\ opened w' = {[h]} ∪ opened w | Err _ => opened w' = opened w end.
Proof.
  unfold openMySQL. destruct (pool_Open dsn w) as [w1 [h|e]] eqn:Ho; apply open_pool in Ho; [|by intros [= <- <-]].
  destruct Ho as [Hh Hw1]. pose proof (ping_pool h w1) as Hp. destruct (pool_Ping h w1) as [w2 [[]|e]]; cbn in Hp.
  - intros [= <- <-]. by rewrite Hp.
  - intros [= <- <-]. rewrite close_pools, Hp, Hw1. set_solver.
Qed.

Lemma EnsureSchema_pools store w : opened (EnsureSchema store w).1 = opened w.
Proof.
  unfold EnsureSchema, schemaExists. pose proof (row_pools (probe_statement (my_table store)) [] w) as Hr.
  destruct (sql_QueryRow _ _ w) as [w1 r]. cbn in Hr.
  assert (forall b : bool, opened (if b then (w1, Ok ()) else eff_map_err ESql (sql_Exec (create_statement (my_table store)) []) w1).1 = opened w) as Hb.
  { intros []; [done|]. unfold eff_map_err. pose proof (exec_pools (create_statement (my_table store)) [] w1) as He.
    destruct (sql_Exec _ _ w1). cbn in *. congruence. }
  destruct r as [[|]|]; [apply (Hb false)|apply (Hb true)|apply (Hb false)].
Qed.

(** Connecting either gives both pools and a store, to be closed together, or
    leaves no pool open that was not before. *)
Theorem connect_closes cfg w w' r :
  connect cfg w = (w', r) ->
  match r with
  | Err _ => opened w' = opened w
  | Ok sess => is_Some (ses_store sess) /\ opened w ⊆ opened w' /\
      forall w2, opened w2 = opened w' -> opened (session_close sess w2) = opened w
  end.
Proof.
  unfold connect. destruct (openMySQL _ w) as [w1 [source|e]] eqn:Hs; apply openMySQL_spec in Hs; [|by intros [= <- <-]].
  destruct Hs as [Hsource Hw1].
  destruct (openMySQL _ w1) as [w2 [meta|e]] eqn:Hm; apply openMySQL_spec in Hm.
  2:{ intros [= <- <-]. unfold session_close, close_pool. cbn. rewrite close_pools, Hm, Hw1. set_solver. }
  destruct Hm as [Hmeta Hw2].
  assert (forall w3 store, opened w3 = opened w2 -> opened (session_close (mkSession (Some source) (Some meta) store) w3) = opened w) as Hclose.
  { intros w3 store H3. unfold session_close, close_pool. cbn. rewrite !close_pools, H3, Hw2, Hw1. set_solver. }
  destruct (NewMySQLStore _ _) as [store|e]; [|by intros [= <- <-]; apply Hclose].
  pose proof (EnsureSchema_pools store w2) as He. destruct (EnsureSchema store w2) as [w3 [[]|e]]; cbn in He.
  - intros [= <- <-]. split; [done|]. split; [set_solver|]. intros w4 H4. apply Hclose. congruence.
  - intros [= <- <-]. by apply Hclose.
Qed.

End Pools.

(** ** What the reader covers *)

Section Coverage.
Context `{ScanLib} `{!MapOrder} `{GtidLaws} `{!DsnLib} {W : Type} `{!StoreOps W, !ClockOps W, !BackfillOps W}.

Lemma watch_spec tables watched out :
  watch tables watched = Ok out -> forall t, t ∈ tables -> is_Some (out !! ToLower t).
Proof.
  assert (forall tables watched out k, watch tables watched = Ok out -> is_Some (watched !! k) -> is_Some (out !! k)) as Hkept.
  { intros ts. induction ts as [|t ts IH]; intros m o k; cbn; [by intros [= <-]|]. destruct (Contains t "."); [|done].
    intros Hw Hk. eapply IH; [done|]. destruct (decide (ToLower t = k)) as [->|Hne]; [by rewrite lookup_insert_eq; eexists|].
    by rewrite lookup_insert_ne. }
  revert watched. induction tables as [|t0 ts IH]; intros watched; cbn; [intros _ t Hin; by apply elem_of_nil in Hin|].
  destruct (Contains t0 "."); [|done]. intros Hw t [->|Hin]%elem_of_cons; [|by eapply IH].
  eapply (Hkept ts); [exact Hw|]. rewrite lookup_insert_eq. by eexists.
Qed.

Lemma newStreamer_fields cfg schemas tables startGTID s :
  newStreamer cfg schemas tables startGTID = Ok s ->
  bo_StartGTID (sm_opts s) = startGTID /\ forall t, t ∈ tables -> is_Some (sm_watched s !! ToLower t).
Proof.
  unfold newStreamer. intros ([host port] & _ & Hn)%res_bind_ok.
  destruct (NewStreamer _ _) as [s'|e] eqn:HN; [|done]. injection Hn as <-. unfold NewStreamer in HN. cbn in HN.
  repeat (case_match; [done|]). apply res_bind_ok in HN as (watched & Hw & [= <-]). split; [done|].
  cbn. by eapply watch_spec.
Qed.

Lemma byTable_cover streams table c :
  (table, c) ∈ streams -> exists targets, ro_byTable (build_router streams) !! ToLower table = Some targets /\ c ∈ targets.
Proof.
  intros Hin. pose proof (byTable_build streams (ToLower table)) as Hb.
  assert (c ∈ default [] (ro_byTable (build_router streams) !! ToLower table)) as Hc.
  { rewrite Hb. apply list_elem_of_fmap. exists (table, c). split; [done|]. apply list_elem_of_In, List.filter_In.
    split; [by apply list_elem_of_In|]. by apply bool_decide_eq_true_2. }
  destruct (ro_byTable _ !! _) as [targets|]; [by exists targets|by apply elem_of_nil in Hc].
Qed.

Lemma Tables_lookup (r : Router) key targets : ro_byTable r !! key = Some targets -> key ∈ Tables r.
Proof. intros Hk. apply list_elem_of_fmap. exists (key, targets). split; [done|]. by apply map_range_in. Qed.

(** Every stream that was prepared for streaming has a position. *)
Lemma backfill_positions dsn runtimes positions w rts w' out :
  backfill dsn runtimes positions w = (rts, w', Ok out) ->
  map sr_cfg rts = map sr_cfg runtimes /\ (forall s, is_Some (positions !! s) -> is_Some (out !! s)) /\
  forall rt, rt ∈ rts -> is_Some (out !! stream_name rt).
Proof.
  revert positions w rts w' out. induction runtimes as [|rt runtimes IH]; intros positions w rts w' out; cbn [backfill].
  { intros [= <- _ <-]. split; [done|]. split; [done|]. by intros rt ?%elem_of_nil. }
  destruct (snapshotIfNeeded dsn (rt, w)) as [[rt1 w1] [position|e]] eqn:Hs; [|done].
  assert (sr_cfg rt1 = sr_cfg rt) as Hcfg by by eapply snapshotIfNeeded_cfg.
  destruct (backfill dsn runtimes _ w1) as [[rts2 w2] outcome] eqn:Hb. intros [= <- <- ->].
  apply IH in Hb as (Hmap & Hkept & Hall). split; [cbn; by rewrite Hcfg, Hmap|].
  assert (forall s, is_Some (<[stream_name rt1:=position]> positions !! s) -> is_Some (out !! s)) as Hin by done.
  split.
  - intros s Hp. apply Hin. destruct (decide (stream_name rt1 = s)) as [->|Hne];
      [rewrite lookup_insert_eq; by eexists|by rewrite lookup_insert_ne].
  - intros rt' [->|Hrt]%elem_of_cons; [|by apply Hall]. apply Hin. rewrite lookup_insert_eq. by eexists.
Qed.

(** C32: Nothing a stream still needs is missed by the reader the streams share: once
    the scans are over, every stream has a position, the reader starts at a set of
    transactions that the position contains, it watches the stream's table, and
    what it reads of it is routed to the stream's channel. *)
Theorem reader_covers_streams dsn runtimes w rts w' positions cfg schemas router streamer alloc i rt :
  backfill dsn runtimes ∅ w = (rts, w', Ok positions) ->
  reader_plan cfg schemas rts positions = Ok (router, streamer, alloc) ->
  rts !! i = Some rt ->
  (exists text position start, positions !! stream_name rt = Some text /\ ParseMysqlGTIDSet text = Some position /\
    ParseMysqlGTIDSet (bo_StartGTID (sm_opts streamer)) = Some start /\ denote start ⊆ denote position) /\
  is_Some (sm_watched streamer !! ToLower (st_Table (sr_cfg rt))) /\
  (exists targets, ro_byTable router !! ToLower (st_Table (sr_cfg rt)) = Some targets /\ i ∈ targets).
Proof.
  intros (_ & _ & Hpos)%backfill_positions Hplan Hi. unfold reader_plan in Hplan.
  apply res_bind_ok in Hplan as (startGTID & Hstart & Hplan).
  destruct (shared_sequencer rts) as [a|]; [|done]. apply res_bind_ok in Hplan as (s & Hs & [= <- <- <-]).
  destruct (sharedStartPosition positions) as [p|] eqn:Hp; [|done]. injection Hstart as <-.
  apply newStreamer_fields in Hs as [Hgtid Hwatched].
  assert ((st_Table (sr_cfg rt), i) ∈ stream_tables rts) as Hin.
  { apply list_elem_of_lookup. exists i. unfold stream_tables. by rewrite list_lookup_imap, Hi. }
  destruct (byTable_cover _ _ _ Hin) as (targets & Ht & Hc). split; [|split; [|by exists targets]].
  - destruct (sharedStart_ok _ _ Hp) as (b & Hb & set & Hset & Hall).
    destruct (Hpos rt) as [text Htext]; [by eapply list_elem_of_lookup_2|].
    unfold position_of in Hset. rewrite Hb in Hset. cbn in Hset. rewrite Hgtid.
    destruct (decide (stream_name rt = b)) as [Heq|Hne].
    + rewrite Heq in *. exists text, set, set. assert (text = p) as -> by congruence. by split_and!.
    + destruct (sharedStart_readable _ _ _ _ Hp Htext) as [other Hother].
      exists text, other, set. split_and!; [done..|]. apply contain_spec. eapply Hall; [done|].
      unfold position_of. by rewrite Htext.
  - specialize (Hwatched _ (Tables_lookup _ _ _ Ht)). by rewrite ToLower_idem in Hwatched.
Qed.

End Coverage.

(** ** What is recorded of the tasks *)

Section Recorded.
Context `{ScanLib} {W : Type} `{!SqlOps W, !SqlTime} (store : MySQLStore) (ckey : string -> string).
Context `{!TableLaws W (my_table store) ckey}.

Lemma recordError_table stream cause w :
  rows (recordError store stream cause w) = rows w \/
  exists t, rows (recordError store stream cause w) =
    alter (with_error t (recorded_reason (default "" cause))) (ckey stream) (rows w).
Proof.
  unfold recordError. destruct (RecordError store stream _ w) as [w1 r] eqn:HR. by apply (RecordError_table store ckey) in HR.
Qed.

(** When a stream's pipeline fails, its task returns the failure, the stream is not
    streaming any more and is not ready for it, and the reason is in its row,
    where [status] finds it, unless it could not be written; no other column of
    any row is touched. *)
Theorem pipeline_failure_recorded rt text st w w' st' r :
  pipeline_task store rt (Some (Failed text)) st w = (w', (st', r)) ->
  r = Some (Failed text) /\ ss_streaming st' = false /\ ss_lastError st' = Some (Failed text) /\
  (forall k, but_error <$> rows w' !! k = but_error <$> rows w !! k) /\
  (rows w' = rows w \/ forall old, rows w !! ckey (stream_name rt) = Some old ->
    exists t, rows w' !! ckey (stream_name rt) = Some (with_error t (recorded_reason text) old)).
Proof.
  unfold pipeline_task. cbn [pipeline_failed fmap option_fmap option_map cause_text]. intros [= <- <- <-].
  split_and!; [done..| |].
  - intros k. unfold recordError. destruct (RecordError store _ _ w) as [w1 x] eqn:HR.
    by eapply (RecordError_keeps_positions store ckey).
  - destruct (recordError_table (stream_name rt) (Some text) w) as [Hr|[t Hr]]; [by left|right].
    intros old Hold. exists t. by rewrite Hr, lookup_alter_eq, Hold.
Qed.

(** Starting the pipelines clears the reasons and touches nothing else. *)
Theorem start_pipelines_keeps runtimes w k :
  but_error <$> rows (start_pipelines store runtimes w) !! k = but_error <$> rows w !! k.
Proof.
  unfold start_pipelines. revert w. induction runtimes as [|rt runtimes IH]; intros w; [done|]. cbn. rewrite IH.
  unfold recordError. destruct (RecordError store _ _ w) as [w1 x] eqn:HR. by eapply (RecordError_keeps_positions store ckey).
Qed.

End Recorded.
