(* ===== verification/Pipelines.v ===== *)
(** * The goroutines of a run ([internal/supervisor/stream.go], [snapshot.go])

    A run that streams is a reader of the source, a router and one pipeline per
    stream, joined by channels and a group of tasks; a run that scans is a reader
    of the table and one pipeline. This file has both as machines: which steps
    the goroutines can take, in any order, is [sys_step] and [scan_step], and a
    run is a list of them. Each world belongs to one pipeline; what the others do
    meanwhile is in its oracle. What is recorded of the tasks is in [Replicate]. *)

From S2P Require Import Prelude GoStd Schema Cdc Config Transform Batcher Sink Checkpoint Snapshot Tasks Supervisor Runner Delivery.

(** ** Channels *)

Section Machine.
Context `{GoLib}.

Record channel := mkChannel {
  ch_cap : nat;
  ch_items : list ChangeEvent;
  ch_closed : bool
}.

Definition make_channel (cap : nat) : channel := mkChannel cap [] false.
Definition room (c : channel) : bool := length (ch_items c) <? ch_cap c.
Definition put (ev : ChangeEvent) (c : channel) : channel := mkChannel (ch_cap c) (ch_items c ++ [ev]) (ch_closed c).
Definition with_items (items : list ChangeEvent) (c : channel) : channel := mkChannel (ch_cap c) items (ch_closed c).
Definition close_channel (c : channel) : channel := mkChannel (ch_cap c) (ch_items c) true.

(** The queues of the streams, as the router uses them: a send that finds no room
    ends when its context does. *)
#[export] Instance channels : QueueOps (list channel) := {
  queue_Send out ev qs :=
    match qs !! out with
    | Some q => if room q then (<[out := put ev q]> qs, Ok ()) else (qs, Err Canceled)
    | None => (qs, Err Canceled)
    end;
  queue_Close out qs := alter close_channel out qs
}.

(** ** The goroutine of a source

    [Events] of the binlog reader and of the scan: [fd_rest] is what it would
    still send if nothing stopped it, and [fd_ending] why it would then end. *)

Inductive feed_state := Feeding | Fed (err : option string) (done : bool).

Record feed := mkFeed {
  fd_rest : list ChangeEvent;
  fd_ending : option string;
  fd_queue : channel;
  fd_state : feed_state
}.

Definition start_feed (evs : list ChangeEvent) (ending : option string) (buffer : nat) : feed :=
  mkFeed evs ending (make_channel buffer) Feeding.

Definition feed_sends (f : feed) : option feed :=
  match fd_state f, fd_rest f with
  | Feeding, ev :: rest => if room (fd_queue f) then Some (mkFeed rest (fd_ending f) (put ev (fd_queue f)) Feeding) else None
  | _, _ => None
  end.

(** [defer close(out)], after the error or the completion has been noted. *)
Definition feed_stops (err : option string) (done : bool) (f : feed) : feed :=
  mkFeed (fd_rest f) (fd_ending f) (close_channel (fd_queue f)) (Fed err done).

Definition feed_ends (f : feed) : option feed :=
  match fd_state f, fd_rest f with
  | Feeding, [] => Some (feed_stops (fd_ending f) (bool_decide (fd_ending f = None)) f)
  | _, _ => None
  end.

(** The end of its context is no error of a source. *)
Definition feed_cancels (cancelled : bool) (f : feed) : option feed :=
  match fd_state f with
  | Feeding => if cancelled then Some (feed_stops None false f) else None
  | _ => None
  end.

Definition feed_takes (items : list ChangeEvent) (f : feed) : feed :=
  mkFeed (fd_rest f) (fd_ending f) (with_items items (fd_queue f)) (fd_state f).

(** [Err] and [Done]. *)
Definition feed_error (f : feed) : option string := match fd_state f with Fed err _ => err | Feeding => None end.
Definition feed_done (f : feed) : bool := match fd_state f with Fed _ done => done | Feeding => false end.

(** ** A pipeline *)

Context `{!ErrorText} {W : Type} `{!SinkOps W, !DlqOps W, !StoreOps W, !ObserverOps W, !ClockOps W, !WaitOps W}.

(** The runner, what it works on, the signals it has received, and what its [Run]
    has returned. *)
Record pipe := mkPipe {
  pp_runner : Runner;
  pp_world : W;
  pp_signals : list signal;
  pp_result : option (res runner_error ())
}.

Definition start_pipe (rw : Runner * W) : pipe := mkPipe rw.1 rw.2 [] None.

(** The case of the runner's [select] that is taken. *)
Inductive wake := Takes | Ticks | Cancels.

Definition wake_signal (cancelled : bool) (k : wake) (q : channel) (p : pipe) : option (signal * channel) :=
  match k with
  | Takes =>
      match ch_items q with
      | ev :: items => Some (Received ev, with_items items q)
      | [] => if ch_closed q then Some (Closed, q) else None
      end
  | Ticks => match NextDeadline (r_batcher (pp_runner p)) with Some _ => Some (Ticked, q) | None => None end
  | Cancels => if cancelled then Some (Cancelled, q) else None
  end.

Definition pipe_select (cancelled : bool) (k : wake) (q : channel) (p : pipe) : option (channel * pipe) :=
  match pp_result p with
  | Some _ => None
  | None =>
    match wake_signal cancelled k q p with
    | None => None
    | Some (s, q) =>
      let '((r, w), out) := Run [s] (pp_runner p, pp_world p) in
      Some (q, mkPipe r w (pp_signals p ++ [s]) out)
    end
  end.

(** ** Streaming *)

(** The wording of the runner's errors, and whether the cause of one is the end of
    its context. *)
Class RunnerErrors := { runner_text : runner_error -> string; from_context : runner_error -> bool }.
Context `{!RunnerErrors}.

(** A call reports the end of its context only once that has ended. *)
Definition runner_outcome (cancelled : bool) (r : res runner_error ()) : option outside_error :=
  match r with
  | Ok _ => None
  | Err ECancelled => Some Canceled
  | Err e => Some (if cancelled && from_context e then Canceled else Failed (runner_text e))
  end.

(** The loop of [startReader]: waiting for an event, in the middle of [Route], or
    over. *)
Inductive reader := Ranging | Routing (ev : ChangeEvent) (targets : list nat) | Finished (outcome : option outside_error).

Definition route_targets (r : Router) (ev : ChangeEvent) : list nat :=
  match ev_Meta ev with
  | None => []
  | Some meta => default [] (ro_byTable r !! ToLower (TableMeta_Name meta))
  end.
Definition route_to (ev : ChangeEvent) (targets : list nat) : reader :=
  match targets with [] => Ranging | _ => Routing ev targets end.

Record sys := mkSys {
  sy_feed : feed;
  sy_router : Router;
  sy_reader : reader;
  sy_queues : list channel;
  sy_pipes : list pipe;
  sy_group : group;
  sy_panicked : bool
}.

Definition set_feed (f : feed) (s : sys) : sys :=
  mkSys f (sy_router s) (sy_reader s) (sy_queues s) (sy_pipes s) (sy_group s) (sy_panicked s).
Definition set_reader (rd : reader) (s : sys) : sys :=
  mkSys (sy_feed s) (sy_router s) rd (sy_queues s) (sy_pipes s) (sy_group s) (sy_panicked s).
Definition set_queues (qs : list channel) (s : sys) : sys :=
  mkSys (sy_feed s) (sy_router s) (sy_reader s) qs (sy_pipes s) (sy_group s) (sy_panicked s).
Definition set_group (g : group) (s : sys) : sys :=
  mkSys (sy_feed s) (sy_router s) (sy_reader s) (sy_queues s) (sy_pipes s) g (sy_panicked s).
Definition set_panicked (s : sys) : sys :=
  mkSys (sy_feed s) (sy_router s) (sy_reader s) (sy_queues s) (sy_pipes s) (sy_group s) true.
Definition cancelled (s : sys) : bool := gr_cancelled (sy_group s).

(** The reader's task is the last; [defer router.Close()]. *)
Definition reader_finishes (outcome : option outside_error) (s : sys) : sys :=
  let '(router, queues) := Router_Close (sy_router s, sy_queues s) in
  mkSys (sy_feed s) router (Finished outcome) queues (sy_pipes s)
    (task_returns (length (sy_pipes s)) outcome (sy_group s)) (sy_panicked s).

Definition pipe_moves (i : nat) (q : channel) (p : pipe) (s : sys) : sys :=
  mkSys (sy_feed s) (sy_router s) (sy_reader s) (<[i := q]> (sy_queues s)) (<[i := p]> (sy_pipes s))
    (match pp_result p with
     | None => sy_group s
     | Some r => task_returns i (pipeline_ended (runner_outcome (cancelled s) r) fresh_state).2 (sy_group s)
     end) (sy_panicked s).

Inductive label :=
  | FeedSends | FeedEnds | FeedCancels
  | ReaderTakes | ReaderSends | ReaderCancels
  | PipeWakes (i : nat) (k : wake)
  | RunStopped.

Definition reader_takes (s : sys) : option sys :=
  match sy_reader s with
  | Ranging =>
    match ch_items (fd_queue (sy_feed s)) with
    | ev :: items =>
        Some (set_reader (route_to ev (route_targets (sy_router s) ev)) (set_feed (feed_takes items (sy_feed s)) s))
    | [] =>
        if ch_closed (fd_queue (sy_feed s)) then Some (reader_finishes (reader_ended (Ok ()) (Failed <$> feed_error (sy_feed s))) s)
        else None
    end
  | _ => None
  end.

(** A send on a closed channel panics. *)
Definition reader_sends (s : sys) : option sys :=
  match sy_reader s with
  | Routing ev (out :: targets) =>
    if existsb ch_closed (option_list (sy_queues s !! out)) then Some (set_panicked s)
    else match queue_Send out ev (sy_queues s) with
    | (qs, Ok _) => Some (set_reader (route_to ev targets) (set_queues qs s))
    | (_, Err _) => None
    end
  | _ => None
  end.

Definition reader_cancels (s : sys) : option sys :=
  match sy_reader s with
  | Routing _ _ => if cancelled s then Some (reader_finishes (reader_ended (Err Canceled) None) s) else None
  | _ => None
  end.

Definition pipe_wakes (i : nat) (k : wake) (s : sys) : option sys :=
  q ← sy_queues s !! i;
  p ← sy_pipes s !! i;
  '(q, p) ← pipe_select (cancelled s) k q p;
  Some (pipe_moves i q p s).

Definition sys_step (l : label) (s : sys) : option sys :=
  if sy_panicked s then None else
  match l with
  | FeedSends => f ← feed_sends (sy_feed s); Some (set_feed f s)
  | FeedEnds => f ← feed_ends (sy_feed s); Some (set_feed f s)
  | FeedCancels => f ← feed_cancels (cancelled s) (sy_feed s); Some (set_feed f s)
  | ReaderTakes => reader_takes s
  | ReaderSends => reader_sends s
  | ReaderCancels => reader_cancels s
  | PipeWakes i k => pipe_wakes i k s
  | RunStopped => if cancelled s then None else Some (set_group (group_cancel (sy_group s)) s)
  end.

Fixpoint sys_run (ls : list label) (s : sys) : option sys :=
  match ls with
  | [] => Some s
  | l :: ls => s ← sys_step l s; sys_run ls s
  end.

(** What [reportQueueDepth] reports of a stream. *)
Definition reported_depth (i : nat) (s : sys) : option Z := (fun q => zlen (ch_items q)) <$> sy_queues s !! i.

(** [stream]: the router, then the pipelines' tasks and the reader's. A stream is
    its table and what its pipeline starts with. *)
Definition table_places {A} (streams : list (string * A)) : list (string * nat) := imap (fun i st => (st.1, i)) streams.

Definition start_tasks (n : nat) : group := Nat.iter n group_run (newGroup false).

Definition sys_start (streams : list (string * (Runner * W))) (evs : list ChangeEvent) (ending : option string)
    (reader_buffer buffer : nat) : sys :=
  mkSys (start_feed evs ending reader_buffer) (build_router (table_places streams)) Ranging
    (map (fun _ => make_channel buffer) streams) (map (fun st => start_pipe st.2) streams)
    (start_tasks (S (length streams))) false.

(** ** Scanning *)

(** [rt.runner.Run(ctx, scanner.Events(ctx))]: the scan and the pipeline share one
    channel and the context of the run. *)
Record scan_sys := mkScanSys { sc_feed : feed; sc_pipe : pipe; sc_stopped : bool }.

Inductive scan_label := ScanSends | ScanEnds | ScanCancels | ScanWakes (k : wake) | ScanStopped.

Definition scan_step (l : scan_label) (s : scan_sys) : option scan_sys :=
  let scan_feed f := Some (mkScanSys f (sc_pipe s) (sc_stopped s)) in
  match l with
  | ScanSends => feed_sends (sc_feed s) ≫= scan_feed
  | ScanEnds => feed_ends (sc_feed s) ≫= scan_feed
  | ScanCancels => feed_cancels (sc_stopped s) (sc_feed s) ≫= scan_feed
  | ScanWakes k =>
      '(q, p) ← pipe_select (sc_stopped s) k (fd_queue (sc_feed s)) (sc_pipe s);
      let f := sc_feed s in Some (mkScanSys (mkFeed (fd_rest f) (fd_ending f) q (fd_state f)) p (sc_stopped s))
  | ScanStopped => if sc_stopped s then None else Some (mkScanSys (sc_feed s) (sc_pipe s) true)
  end.

Fixpoint scan_steps (ls : list scan_label) (s : scan_sys) : option scan_sys :=
  match ls with
  | [] => Some s
  | l :: ls => s ← scan_step l s; scan_steps ls s
  end.

Definition scan_start (rw : Runner * W) (evs : list ChangeEvent) (ending : option string) (chunk : nat) : scan_sys :=
  mkScanSys (start_feed evs ending chunk) (start_pipe rw) false.

(** What [scan] of the supervisor looks at once [Run] has returned: its error, the
    scan's, and whether the scan is done. *)
Definition scan_outcome (s : scan_sys) : option (res runner_error () * option string * bool) :=
  r ← pp_result (sc_pipe s); Some (r, feed_error (sc_feed s), feed_done (sc_feed s)).

(** ** What a pipeline receives *)

Lemma Run_snoc signals sig rw :
  Run (signals ++ [sig]) rw =
    match Run signals rw with (rw', None) => Run [sig] rw' | ended => ended end.
Proof.
  revert rw. induction signals as [|x signals IH]; intros [r w]; [done|].
  cbn [app]. simpl (Run (x :: _)). destruct x as [| |ev|].
  - done.
  - destruct (NextDeadline _); [|apply IH]. destruct (flush _) as [rw [[]|e]]; [apply IH|done].
  - destruct (handle _ _) as [rw [[]|e]]; [apply IH|done].
  - by destruct (flush _).
Qed.

(** Only the end of the channel ends a pipeline without an error. *)
Lemma Run_one sig (rw rw' : Runner * W) out :
  Run [sig] rw = (rw', out) ->
  match sig with
  | Cancelled => out = Some (Err ECancelled)
  | Closed => is_Some out
  | _ => out <> Some (Ok ())
  end.
Proof.
  destruct rw as [r w]. destruct sig as [| |ev|]; simpl.
  - by intros [= _ <-].
  - destruct (NextDeadline _); [|by intros [= _ <-]]. by destruct (flush _) as [? [[]|e]]; intros [= _ <-].
  - by destruct (handle _ _) as [? [[]|e]]; intros [= _ <-].
  - destruct (flush _) as [? o]. intros [= _ <-]. by eexists.
Qed.

(** What a signal takes from the channel. *)
Definition taken_by (sig : signal) : list ChangeEvent := match sig with Received ev => [ev] | _ => [] end.

Lemma received_snoc signals sig (rw rw' : Runner * W) :
  Run signals rw = (rw', None) -> received (signals ++ [sig]) = received signals ++ taken_by sig.
Proof.
  revert rw. induction signals as [|x signals IH]; intros [r w]; [by destruct sig|].
  cbn [app]. simpl. destruct x as [| |ev|]; [done| | |by destruct (flush _)].
  - destruct (NextDeadline _); [|by apply IH]. destruct (flush _) as [rw [[]|e]]; [by apply IH|done].
  - destruct (handle _ _) as [rw [[]|e]]; [|done]. intros HR. by rewrite (IH _ HR).
Qed.

(** A pipeline's state is that of its runner after the signals it got. *)
Definition pipe_ran (rw : Runner * W) (p : pipe) : Prop :=
  Run (pp_signals p) rw = ((pp_runner p, pp_world p), pp_result p).

Lemma pipe_select_inv cancelled k q p q' p' :
  pipe_select cancelled k q p = Some (q', p') ->
  pp_result p = None /\ exists sig, wake_signal cancelled k q p = Some (sig, q') /\
    pp_signals p' = pp_signals p ++ [sig] /\
    Run [sig] (pp_runner p, pp_world p) = ((pp_runner p', pp_world p'), pp_result p').
Proof.
  unfold pipe_select. destruct (pp_result p); [done|]. destruct (wake_signal _ _ _ _) as [[sig q1]|]; [|done].
  destruct (Run [sig] _) as [[r w] out] eqn:HR. intros [= <- <-]. split; [done|]. by exists sig.
Qed.

Lemma wake_signal_items cancelled k q p sig q' :
  wake_signal cancelled k q p = Some (sig, q') ->
  ch_items q = taken_by sig ++ ch_items q' /\ ch_cap q' = ch_cap q /\ ch_closed q' = ch_closed q.
Proof.
  unfold wake_signal. destruct k.
  - destruct (ch_items q) as [|ev items] eqn:Hq; [destruct (ch_closed q) eqn:Hc; [|done]|]; intros [= <- <-]; by rewrite ?Hq, ?Hc.
  - destruct (NextDeadline _); [|done]. by intros [= <- <-].
  - destruct cancelled; [|done]. by intros [= <- <-].
Qed.

Lemma pipe_select_ran rw cancelled k q p q' p' :
  pipe_ran rw p -> pipe_select cancelled k q p = Some (q', p') ->
  pipe_ran rw p' /\ received (pp_signals p') ++ ch_items q' = received (pp_signals p) ++ ch_items q /\
  ch_cap q' = ch_cap q /\ ch_closed q' = ch_closed q /\ length (ch_items q') <= length (ch_items q).
Proof.
  unfold pipe_ran. intros Hp (Hn & sig & Hk & Hs & HR)%pipe_select_inv. rewrite Hn in Hp.
  apply wake_signal_items in Hk as (Hi & Hc & Hcl). rewrite Hs, Run_snoc, Hp, (received_snoc _ _ _ _ Hp), Hi.
  rewrite <- app_assoc, length_app. split_and!; [done..|lia].
Qed.

(** No call of the runner takes its own failure for the end of its context. *)
Lemma deadLetter_not_cancelled (r : Runner) rej w : (deadLetter r rej w).2 <> Err ECancelled.
Proof. unfold deadLetter. case_match; [done|]. by destruct (dlq_Record rej w) as [w1 [[]|e]]. Qed.

Lemma advance_not_cancelled (r : Runner) w : (advance r w).2 <> Err ECancelled.
Proof.
  unfold advance. case_match; [done|]. destruct (store_Load _ w) as [w1 loaded].
  destruct (match loaded with Ok cp => Ok cp | _ => _ end) as [cp|e] eqn:Hl.
  - unfold eff_map_err. by destruct (store_Save _ w1) as [w2 [[]|e]].
  - destruct loaded as [|[]]; try done. by injection Hl as <-.
Qed.

Lemma write_not_cancelled (r : Runner) batch w : (write r batch w).2 <> Err ECancelled.
Proof.
  unfold write. destruct (sink_Write _ _) as [w1 [result [e|]]]; [done|]. case_match; [done|].
  unfold mbind, eff_bind. destruct (Rejected result) as [|rej l]; [apply advance_not_cancelled|].
  pose proof (deadLetter_not_cancelled r (rej :: l)) as Hn.
  match goal with |- context [deadLetter ?a ?b ?w0] => specialize (Hn w0); destruct (deadLetter a b w0) as [w2 [[]|e]] end; [|done].
  apply advance_not_cancelled.
Qed.

Lemma flush_not_cancelled (rw : Runner * W) : (flush rw).2 <> Err ECancelled.
Proof.
  destruct rw as [r w]. unfold flush. destruct (Flush _) as [[|d batch] b]; [done|].
  pose proof (write_not_cancelled (set_batcher b r) (d :: batch) w) as Hn. by destruct (write _ _ w).
Qed.

Lemma handle_not_cancelled ev (rw : Runner * W) : (handle ev rw).2 <> Err ECancelled.
Proof.
  assert (forall docs rw, (add_docs docs rw).2 <> Err ECancelled) as Hadd.
  { induction docs as [|d docs IH]; intros [r w]; [done|]. simpl. destruct (Add _ _ _) as [[batch|] b]; [|apply IH].
    pose proof (write_not_cancelled (set_batcher b r) batch w) as Hn.
    destruct (write _ _ w) as [w1 [[]|e]]; [apply IH|done]. }
  destruct rw as [r w]. unfold handle. destruct (Apply _ _) as [docs|e]; [apply Hadd|].
  pose proof (deadLetter_not_cancelled r [transform_rejection ev e] w) as Hn. by destruct (deadLetter _ _ w).
Qed.

Lemma Run_one_cancelled sig (rw rw' : Runner * W) : Run [sig] rw = (rw', Some (Err ECancelled)) -> sig = Cancelled.
Proof.
  destruct rw as [r w]. destruct sig as [| |ev|]; simpl; [done|..].
  - destruct (NextDeadline _); [|done]. pose proof (flush_not_cancelled (r, waited w)) as Hn.
    destruct (flush _) as [? [[]|e]]; [done|]. by intros [= _ ->].
  - pose proof (handle_not_cancelled ev (r, waited w)) as Hn. destruct (handle _ _) as [? [[]|e]]; [done|]. by intros [= _ ->].
  - pose proof (flush_not_cancelled (r, waited w)) as Hn. destruct (flush _) as [? o]. by intros [= _ ->].
Qed.

(** How a pipeline can have ended. *)
Lemma pipe_select_ended stopped k q p q' p' r :
  pipe_select stopped k q p = Some (q', p') -> pp_result p' = Some r ->
  match r with
  | Ok _ => ch_closed q = true /\ ch_items q = []
  | Err ECancelled => stopped = true
  | Err _ => True
  end.
Proof.
  intros (_ & sig & Hk & _ & HR)%pipe_select_inv Hr. rewrite Hr in HR.
  assert (r = Err ECancelled -> stopped = true) as Hstop.
  { intros ->. apply Run_one_cancelled in HR as ->. destruct k, stopped; try done; simpl in Hk.
    - destruct (ch_items q); [by destruct (ch_closed q)|done].
    - by destruct (NextDeadline _). }
  destruct r as [[]|e]; [|destruct e; auto]. apply Run_one in HR. unfold wake_signal in Hk. destruct k.
  - destruct (ch_items q) as [|ev items]; [by destruct (ch_closed q)|]. by injection Hk as <- <-.
  - destruct (NextDeadline _); [|done]. by injection Hk as <- <-.
  - destruct stopped; [|done]. by injection Hk as <- <-.
Qed.

(** A pipeline that has not ended can go on, unless its channel has nothing for it
    and is open. *)
Lemma pipe_takes stopped q p :
  pp_result p = None -> ch_items q <> [] \/ ch_closed q = true -> is_Some (pipe_select stopped Takes q p).
Proof.
  intros Hn Hq. unfold pipe_select, wake_signal. rewrite Hn.
  assert (exists sig q', match ch_items q with ev :: items => Some (Received ev, with_items items q)
    | [] => if ch_closed q then Some (Closed, q) else None end = Some (sig, q')) as (sig & q' & ->).
  { destruct (ch_items q) as [|ev items]; [|by eexists _, _]. destruct Hq as [?|Hq]; [done|]. rewrite Hq. by eexists _, _. }
  destruct (Run [sig] _) as [[r w] out]. by eexists.
Qed.

(** ** Every step is progress *)

Definition armed (p : pipe) : nat := match NextDeadline (r_batcher (pp_runner p)) with Some _ => 1 | None => 0 end.
Definition pipe_work (p : pipe) : nat := match pp_result p with Some _ => 0 | None => S (armed p) end.
Definition queue_work (q : channel) : nat := 2 * length (ch_items q).

Lemma flush_disarms (r : Runner) w : NextDeadline (r_batcher (flush (r, w)).1.1) = None.
Proof.
  unfold flush, Flush. destruct (b_pending (r_batcher r)) as [|d l] eqn:Hp; [by unfold NextDeadline; simpl; rewrite Hp|].
  by destruct (write _ _ w).
Qed.

Lemma pipe_select_works stopped k q p q' p' :
  pipe_select stopped k q p = Some (q', p') -> queue_work q' + pipe_work p' < queue_work q + pipe_work p.
Proof.
  intros (Hn & sig & Hk & _ & HR)%pipe_select_inv. apply wake_signal_items in Hk as Hi. destruct Hi as (Hi & _ & _).
  unfold queue_work, pipe_work. rewrite Hi, Hn, length_app.
  destruct (pp_result p') as [r|] eqn:Hr; [lia|]. pose proof HR as Hone. apply Run_one in Hone.
  assert (armed p' <= 1) as Ha by (unfold armed; destruct (NextDeadline _); lia).
  destruct sig as [| |ev|]; [done| |simpl; lia|by destruct Hone].
  assert (is_Some (NextDeadline (r_batcher (pp_runner p)))) as [d Hd].
  { unfold wake_signal in Hk. destruct k, stopped; try done.
    all: try (by destruct (ch_items q); [destruct (ch_closed q)|]). all: by destruct (NextDeadline _). }
  simpl in HR. rewrite Hd in HR. pose proof (flush_disarms (pp_runner p) (Runner.waited (pp_world p))) as Hf.
  destruct (flush _) as [[r1 w1] [[]|e]]; [|done]. injection HR as Hr1 _. simpl in Hf. unfold armed.
  rewrite <- Hr1, Hf, Hd. simpl. lia.
Qed.

(** The goroutine of a source: its channel never holds more than its buffer and is
    closed when it ends, which it does with its own ending once everything is sent,
    or with no error and undone when its context has ended. *)
Record feed_ok (stopped : bool) (ending : option string) (cap : nat) (f : feed) : Prop := {
  fo_ending : fd_ending f = ending;
  fo_cap : ch_cap (fd_queue f) = cap;
  fo_room : length (ch_items (fd_queue f)) <= cap;
  fo_state : match fd_state f with
    | Feeding => ch_closed (fd_queue f) = false
    | Fed err done => ch_closed (fd_queue f) = true /\
        (fd_rest f = [] /\ err = ending /\ done = bool_decide (ending = None) \/
         stopped = true /\ err = None /\ done = false)
    end
}.

(** What a source has not handed on yet. *)
Definition feed_left (f : feed) : list ChangeEvent := ch_items (fd_queue f) ++ fd_rest f.

Lemma room_true c : room c = true -> length (ch_items c) < ch_cap c.
Proof. apply Nat.ltb_lt. Qed.

Lemma feed_ok_start ending cap evs : feed_ok false ending cap (start_feed evs ending cap).
Proof. split; simpl; auto; lia. Qed.

Lemma feed_ok_stops ending cap f stopped : feed_ok stopped ending cap f -> feed_ok true ending cap f.
Proof. intros [He Hc Hr Hs]. split; auto. destruct (fd_state f); [done|]. destruct Hs as [? [?|(? & ? & ?)]]; auto. Qed.

Lemma feed_takes_ok stopped ending cap f ev items :
  feed_ok stopped ending cap f -> ch_items (fd_queue f) = ev :: items -> feed_ok stopped ending cap (feed_takes items f).
Proof. intros [He Hc Hr Hs] Hi. rewrite Hi in Hr. simpl in Hr. split; simpl; auto. lia. Qed.

(** The steps of a source. *)
Inductive feed_step (stopped : bool) (f : feed) : feed -> Prop :=
  | feed_step_sends f' : feed_sends f = Some f' -> feed_step stopped f f'
  | feed_step_ends f' : feed_ends f = Some f' -> feed_step stopped f f'
  | feed_step_cancels f' : feed_cancels stopped f = Some f' -> feed_step stopped f f'.

Lemma feed_step_ok stopped ending cap f f' :
  feed_ok stopped ending cap f -> feed_step stopped f f' ->
  feed_ok stopped ending cap f' /\ feed_left f' = feed_left f.
Proof.
  intros [He Hc Hr Hs] Hstep. unfold feed_left.
  destruct Hstep as [f' Hf|f' Hf|f' Hf]; [unfold feed_sends in Hf|unfold feed_ends in Hf|unfold feed_cancels in Hf];
    destruct (fd_state f) eqn:Hst; try done.
  - destruct (fd_rest f) as [|ev rest]; [done|]. destruct (room (fd_queue f)) eqn:Hroom; [|done]. injection Hf as <-.
    apply room_true in Hroom. split; [split; simpl; auto; rewrite length_app; simpl; lia|]. simpl. by rewrite <- app_assoc.
  - destruct (fd_rest f) as [|] eqn:Hrest; [|done]. injection Hf as <-. split; [|simpl; by rewrite Hrest].
    split; simpl; auto. rewrite He. auto.
  - destruct stopped; [|done]. injection Hf as <-. split; [|done]. split; simpl; auto.
Qed.

(** Each event is sent once, and costs [weight] after that. *)
Definition feed_work (weight : ChangeEvent -> nat) (f : feed) : nat :=
  list_sum (map weight (ch_items (fd_queue f))) +
  match fd_state f with Feeding => S (list_sum (map (fun ev => S (weight ev)) (fd_rest f))) | Fed _ _ => 0 end.

Lemma feed_step_works weight stopped f f' : feed_step stopped f f' -> feed_work weight f' < feed_work weight f.
Proof.
  unfold feed_work. intros [? Hf|? Hf|? Hf]; [unfold feed_sends in Hf|unfold feed_ends in Hf|unfold feed_cancels in Hf];
    destruct (fd_state f); try done.
  - destruct (fd_rest f) as [|ev rest]; [done|]. destruct (room _); [|done]. injection Hf as <-. simpl.
    rewrite map_app, list_sum_app. simpl. lia.
  - destruct (fd_rest f); [|done]. injection Hf as <-. simpl. lia.
  - destruct stopped; [|done]. injection Hf as <-. simpl. lia.
Qed.

(** A source that goes on has something for its reader, or can make it so. *)
Lemma feed_moves stopped ending cap f :
  feed_ok stopped ending cap f -> 0 < cap -> ch_items (fd_queue f) = [] -> fd_state f = Feeding ->
  is_Some (feed_sends f) \/ is_Some (feed_ends f).
Proof.
  intros [_ Hc _ _] Hcap Hi Hs. unfold feed_sends, feed_ends. rewrite Hs. destruct (fd_rest f) as [|ev rest]; [right; by eexists|].
  left. unfold room. rewrite Hi, Hc. simpl. destruct cap; [lia|]. by eexists.
Qed.

(** ** A scan and its pipeline *)

Record scan_inv (rw : Runner * W) (evs : list ChangeEvent) (ending : option string) (chunk : nat) (s : scan_sys) : Prop := {
  si_feed : feed_ok (sc_stopped s) ending chunk (sc_feed s);
  si_ran : pipe_ran rw (sc_pipe s);
  si_split : evs = received (pp_signals (sc_pipe s)) ++ feed_left (sc_feed s);
  si_ended : match pp_result (sc_pipe s) with
    | Some (Ok _) => ch_closed (fd_queue (sc_feed s)) = true /\ ch_items (fd_queue (sc_feed s)) = []
    | Some (Err ECancelled) => sc_stopped s = true
    | _ => True
    end
}.

(** The steps that are the scan's own. *)
Lemma scan_step_feed l s s' :
  scan_step l s = Some s' ->
  (exists f, feed_step (sc_stopped s) (sc_feed s) f /\ s' = mkScanSys f (sc_pipe s) (sc_stopped s)) \/
  (exists k q p, pipe_select (sc_stopped s) k (fd_queue (sc_feed s)) (sc_pipe s) = Some (q, p) /\
     s' = mkScanSys (mkFeed (fd_rest (sc_feed s)) (fd_ending (sc_feed s)) q (fd_state (sc_feed s))) p (sc_stopped s)) \/
  (sc_stopped s = false /\ s' = mkScanSys (sc_feed s) (sc_pipe s) true).
Proof.
  destruct l as [| | |k|]; cbn [scan_step].
  - intros (f & Hf & [= <-])%bind_Some. left. exists f. split; [by apply feed_step_sends|done].
  - intros (f & Hf & [= <-])%bind_Some. left. exists f. split; [by apply feed_step_ends|done].
  - intros (f & Hf & [= <-])%bind_Some. left. exists f. split; [by apply feed_step_cancels|done].
  - intros ([q p] & Hp & [= <-])%bind_Some. right. left. by exists k, q, p.
  - destruct (sc_stopped s); [done|]. intros [= <-]. auto.
Qed.

Lemma scan_inv_start rw evs ending chunk : scan_inv rw evs ending chunk (scan_start rw evs ending chunk).
Proof. destruct rw as [r w]. split; [apply feed_ok_start|done|done|done]. Qed.

Lemma feed_step_closed stopped f f' :
  feed_step stopped f f' -> fd_state f = Feeding.
Proof. intros [? Hf|? Hf|? Hf]; [unfold feed_sends in Hf|unfold feed_ends in Hf|unfold feed_cancels in Hf]; by destruct (fd_state f). Qed.

Lemma scan_inv_step rw evs ending chunk l s s' :
  scan_inv rw evs ending chunk s -> scan_step l s = Some s' -> scan_inv rw evs ending chunk s'.
Proof.
  intros [Hf Hr He Hd] [(f & Hstep & ->)|[(k & q & p & Hp & ->)|[_ ->]]]%scan_step_feed.
  - destruct (feed_step_ok _ _ _ _ _ Hf Hstep) as [Hf' Hl]. split; simpl; auto; [by rewrite Hl|].
    apply feed_step_closed in Hstep. pose proof (fo_state _ _ _ _ Hf) as Hs. rewrite Hstep in Hs.
    destruct (pp_result (sc_pipe s)) as [[[]|e]|]; try done. by destruct Hd; congruence.
  - destruct (pipe_select_ran _ _ _ _ _ _ _ Hr Hp) as (Hr' & Hrec & Hc & Hcl & Hlen).
    destruct Hf as [Hfe Hfc Hfr Hfs]. split; simpl; auto.
    + split; simpl; auto; [congruence|lia|]. destruct (fd_state (sc_feed s)); congruence || by rewrite Hcl.
    + rewrite He. unfold feed_left. simpl. by rewrite !app_assoc, Hrec.
    + destruct (pp_result p) as [res|] eqn:Hres; [|done]. apply (pipe_select_ended _ _ _ _ _ _ _ Hp) in Hres as Hend.
      destruct res as [[]|e]; [|by destruct e]. destruct Hend as [Hcq Hiq]. split; [congruence|].
      apply length_zero_iff_nil. rewrite Hiq in Hlen. simpl in Hlen. lia.
  - split; simpl; auto; [by eapply feed_ok_stops|]. destruct (pp_result (sc_pipe s)) as [[[]|[]]|]; auto.
Qed.

Lemma scan_steps_inv rw evs ending chunk ls s s' :
  scan_inv rw evs ending chunk s -> scan_steps ls s = Some s' -> scan_inv rw evs ending chunk s'.
Proof.
  revert s. induction ls as [|l ls IH]; intros s Hs; cbn [scan_steps]; [by intros [= <-]|].
  intros (s1 & Hone & Hls)%bind_Some. eapply IH; [|done]. by eapply scan_inv_step.
Qed.

(** The scan and its pipeline stop each other within a number of steps. *)
Definition scan_work (s : scan_sys) : nat :=
  feed_work (fun _ => 2) (sc_feed s) + pipe_work (sc_pipe s) + (if sc_stopped s then 0 else 1).

Lemma feed_work_queue f : feed_work (fun _ => 2) f = queue_work (fd_queue f) +
  match fd_state f with Feeding => S (list_sum (map (fun _ => 3) (fd_rest f))) | Fed _ _ => 0 end.
Proof.
  unfold feed_work, queue_work. f_equal. induction (ch_items (fd_queue f)) as [|ev l IH]; [done|]. simpl in *. lia.
Qed.

Lemma scan_step_works l s s' : scan_step l s = Some s' -> scan_work s' < scan_work s.
Proof.
  unfold scan_work. intros [(f & Hstep & ->)|[(k & q & p & Hp & ->)|[Hn ->]]]%scan_step_feed; simpl.
  - apply (feed_step_works (fun _ => 2)) in Hstep. lia.
  - apply pipe_select_works in Hp. rewrite !feed_work_queue. simpl. lia.
  - rewrite Hn. lia.
Qed.

Lemma scan_steps_work ls s s' : scan_steps ls s = Some s' -> length ls + scan_work s' <= scan_work s.
Proof.
  revert s. induction ls as [|l ls IH]; intros s; cbn [scan_steps]; [by intros [= <-]|].
  intros (s1 & Hone & Hls)%bind_Some. apply scan_step_works in Hone. apply IH in Hls. simpl. lia.
Qed.

Lemma scan_moves rw evs ending chunk s :
  scan_inv rw evs ending chunk s -> 0 < chunk -> pp_result (sc_pipe s) = None -> exists l s', scan_step l s = Some s' /\ l <> ScanStopped.
Proof.
  intros [Hf _ _ _] Hchunk Hn.
  destruct (decide (ch_items (fd_queue (sc_feed s)) = [])) as [Hi|Hi];
    [destruct (fd_state (sc_feed s)) as [|err fin] eqn:Hs|].
  - destruct (feed_moves _ _ _ _ Hf Hchunk Hi Hs) as [[f Hx]|[f Hx]];
      [exists ScanSends|exists ScanEnds]; eexists; (split; [|done]); cbn [scan_step]; by rewrite Hx.
  - destruct (pipe_takes (sc_stopped s) (fd_queue (sc_feed s)) (sc_pipe s) Hn) as [[q p] Hx].
    { right. pose proof (fo_state _ _ _ _ Hf) as Hx. rewrite Hs in Hx. by destruct Hx. }
    exists (ScanWakes Takes). eexists. split; [|done]. cbn [scan_step]. by rewrite Hx.
  - destruct (pipe_takes (sc_stopped s) (fd_queue (sc_feed s)) (sc_pipe s) Hn) as [[q p] Hx]; [by left|].
    exists (ScanWakes Takes). eexists. split; [|done]. cbn [scan_step]. by rewrite Hx.
Qed.

(** A scan comes to an end with its pipeline: as long as the pipeline has not
    returned, one of the two can go on unasked, and they go on only so often, however
    their steps interleave and whatever the sink and the store answer. *)
Theorem scan_ends rw evs ending chunk ls s :
  0 < chunk -> scan_steps ls (scan_start rw evs ending chunk) = Some s ->
  length ls <= 3 * length evs + 4 /\ (scan_outcome s = None -> exists l s', scan_step l s = Some s' /\ l <> ScanStopped).
Proof.
  intros Hchunk Hls. pose proof (scan_steps_inv _ _ _ _ _ _ _ (scan_inv_start rw evs ending chunk) Hls) as Hinv.
  apply scan_steps_work in Hls. split.
  - assert (scan_work (scan_start rw evs ending chunk) <= 3 * length evs + 4) as Hw.
    { unfold scan_work. rewrite feed_work_queue. unfold pipe_work, armed. simpl.
      assert (list_sum (map (fun _ : ChangeEvent => 3) evs) = 3 * length evs) as ->
        by (clear; induction evs as [|ev l IH]; simpl; lia).
      destruct (NextDeadline _); lia. }
    lia.
  - intros Ho. eapply scan_moves; [done..|]. unfold scan_outcome in Ho. by destruct (pp_result (sc_pipe s)).
Qed.

End Machine.

(** ** What a scan delivers *)

Section ScanDelivery.
Context `{GoLib} `{!ErrorText}.

Lemma cursor_covered_more p evs rest acked turned cp :
  cursor_covered p evs acked turned cp -> cursor_covered p (evs ++ rest) acked turned cp.
Proof.
  intros (before & ev & after & -> & Hc & Hr & Hd). exists before, ev, (after ++ rest). by rewrite <- app_assoc.
Qed.


End ScanDelivery.

(** ** A streaming run *)

Section Streaming.
Context `{GoLib} `{!ErrorText} {W : Type} `{!SinkOps W, !DlqOps W, !StoreOps W, !ObserverOps W, !ClockOps W, !WaitOps W}.
Context `{!RunnerErrors}.

(** A step, by what it does. *)
Inductive moved (l : label) (s : sys) : sys -> Prop :=
  | moved_feed f : feed_step (cancelled s) (sy_feed s) f -> moved l s (set_feed f s)
  | moved_take ev items :
      sy_reader s = Ranging -> ch_items (fd_queue (sy_feed s)) = ev :: items ->
      moved l s (set_reader (route_to ev (route_targets (sy_router s) ev)) (set_feed (feed_takes items (sy_feed s)) s))
  | moved_over : sy_reader s = Ranging -> ch_items (fd_queue (sy_feed s)) = [] -> ch_closed (fd_queue (sy_feed s)) = true ->
      moved l s (reader_finishes (Failed <$> feed_error (sy_feed s)) s)
  | moved_cut ev targets : sy_reader s = Routing ev targets -> cancelled s = true ->
      moved l s (reader_finishes (Some Canceled) s)
  | moved_panic ev out targets q : sy_reader s = Routing ev (out :: targets) -> sy_queues s !! out = Some q ->
      ch_closed q = true -> moved l s (set_panicked s)
  | moved_send ev out targets q : sy_reader s = Routing ev (out :: targets) -> sy_queues s !! out = Some q ->
      ch_closed q = false -> room q = true ->
      moved l s (set_reader (route_to ev targets) (set_queues (<[out := put ev q]> (sy_queues s)) s))
  | moved_pipe i k q p q' p' : sy_queues s !! i = Some q -> sy_pipes s !! i = Some p ->
      pipe_select (cancelled s) k q p = Some (q', p') -> moved l s (pipe_moves i q' p' s)
  | moved_stop : l = RunStopped -> cancelled s = false -> moved l s (set_group (group_cancel (sy_group s)) s).

Lemma sys_step_moved l s s' : sys_step l s = Some s' -> sy_panicked s = false /\ moved l s s'.
Proof.
  unfold sys_step. destruct (sy_panicked s); [done|]. intros Hl. split; [done|].
  destruct l as [| | | | | |i k|].
  - apply bind_Some in Hl as (f & Hf & [= <-]). by apply moved_feed, feed_step_sends.
  - apply bind_Some in Hl as (f & Hf & [= <-]). by apply moved_feed, feed_step_ends.
  - apply bind_Some in Hl as (f & Hf & [= <-]). by apply moved_feed, feed_step_cancels.
  - unfold reader_takes in Hl. destruct (sy_reader s) eqn:Hr; try done.
    destruct (ch_items _) eqn:Hi; [|injection Hl as <-; by apply moved_take].
    destruct (ch_closed _) eqn:Hc; [|done]. injection Hl as <-. by apply moved_over.
  - unfold reader_sends in Hl. destruct (sy_reader s) as [|ev [|out targets]|] eqn:Hr; try done. simpl in Hl.
    destruct (sy_queues s !! out) as [q|] eqn:Hq; simpl in Hl; [|done]. rewrite orb_false_r in Hl.
    destruct (ch_closed q) eqn:Hc; [injection Hl as <-; by eapply moved_panic|].
    destruct (room q) eqn:Hroom; [|done]. injection Hl as <-. by eapply moved_send.
  - unfold reader_cancels in Hl. destruct (sy_reader s) eqn:Hr; try done.
    destruct (cancelled s) eqn:Hc; [|done]. injection Hl as <-. by eapply moved_cut.
  - unfold pipe_wakes in Hl. apply bind_Some in Hl as (q & Hq & Hl). apply bind_Some in Hl as (p & Hp & Hl).
    apply bind_Some in Hl as ([q' p'] & Hs & [= <-]). by eapply moved_pipe.
  - destruct (cancelled s) eqn:Hc; [done|]. injection Hl as <-. by apply moved_stop.
Qed.

(** *** Where the router sends *)

Lemma table_places_lookup {A} (streams : list (string * A)) t i :
  (t, i) ∈ table_places streams <-> exists x, streams !! i = Some (t, x).
Proof.
  unfold table_places. rewrite list_elem_of_lookup. split.
  - intros [j Hj]. rewrite list_lookup_imap in Hj. destruct (streams !! j) as [[t' x]|] eqn:Hx; [|done].
    injection Hj as <- <-. by exists x.
  - intros [x Hx]. exists i. by rewrite list_lookup_imap, Hx.
Qed.

Lemma table_places_seq {A} (streams : list (string * A)) : map snd (table_places streams) = seq 0 (length streams).
Proof.
  apply list_eq. intros i. change (map snd ?l) with (snd <$> l). unfold table_places. rewrite list_lookup_fmap, list_lookup_imap.
  destruct (streams !! i) as [x|] eqn:Hx; simpl.
  - symmetry. apply lookup_seq. apply lookup_lt_Some in Hx. lia.
  - symmetry. apply lookup_seq_ge. by apply lookup_ge_None in Hx.
Qed.

Lemma route_targets_spec {A} (streams : list (string * A)) router ev :
  ro_byTable router = ro_byTable (build_router (table_places streams)) ->
  NoDup (route_targets router ev) /\ length (route_targets router ev) <= length streams /\
  forall i, i ∈ route_targets router ev <-> exists t x, streams !! i = Some (t, x) /\ of_table t ev = true.
Proof.
  intros Hb. unfold route_targets, of_table. destruct (ev_Meta ev) as [meta|].
  2:{ split; [constructor|]. split; [simpl; lia|]. intros i. rewrite elem_of_nil. naive_solver. }
  rewrite Hb, byTable_build. split; [|split].
  - apply NoDup_map_filter. rewrite table_places_seq. apply NoDup_seq.
  - rewrite length_map. etransitivity; [apply filter_length_le|]. unfold table_places. by rewrite length_imap.
  - intros i. rewrite list_elem_of_fmap. split.
    + intros ([t i'] & -> & Hin). apply list_elem_of_In, filter_In in Hin as [Hin HP]. simpl.
      apply list_elem_of_In, table_places_lookup in Hin as [x Hx]. exists t, x. split; [done|].
      apply bool_decide_eq_true in HP. unfold EqualFold. by apply bool_decide_eq_true_2.
    + intros (t & x & Hx & HP). exists (t, i). split; [done|]. apply list_elem_of_In, filter_In. split.
      * apply list_elem_of_In, table_places_lookup. by exists x.
      * unfold EqualFold in HP. apply bool_decide_eq_true in HP. by apply bool_decide_eq_true_2.
Qed.

Lemma close_all (l : list nat) (qs : list channel) i :
  foldl (fun qs out => queue_Close out qs) qs l !! i =
    (if decide (i ∈ l) then close_channel <$> qs !! i else qs !! i).
Proof.
  revert qs. induction l as [|c l IH]; intros qs; [done|]. simpl foldl. rewrite IH. simpl.
  assert (close_channel <$> (close_channel <$> qs !! i) = close_channel <$> qs !! i) as Htwice by by destruct (qs !! i) as [[]|].
  destruct (decide (i = c)) as [<-|Hne].
  - rewrite list_lookup_alter_eq, Htwice. rewrite (decide_True (P := i ∈ i :: l)) by by left. by destruct (decide (i ∈ l)).
  - rewrite list_lookup_alter_ne by congruence.
    destruct (decide (i ∈ l)); [by rewrite decide_True by by right|]. rewrite decide_False; [done|].
    intros [?|?]%elem_of_cons; congruence.
Qed.

(** *** What every state of a run satisfies *)

Definition finished (s : sys (W := W)) : bool := match sy_reader s with Finished _ => true | _ => false end.

Lemma build_router_plain streams :
  ro_channels (build_router streams) = map snd streams /\ ro_closed (build_router streams) = false.
Proof.
  unfold build_router. induction streams as [|st streams [Hc Ho]] using rev_ind; [done|].
  rewrite foldl_app, map_app, <- Hc. simpl. by rewrite Ho.
Qed.

Lemma task_returns_cancelled i outcome g :
  gr_cancelled (task_returns i outcome g) = gr_cancelled g || bool_decide (is_Some outcome).
Proof. destruct outcome; simpl; [by rewrite orb_true_r|]. by rewrite orb_false_r. Qed.

Lemma task_returns_tasks i outcome g : gr_tasks (task_returns i outcome g) = <[i := Returned outcome]> (gr_tasks g).
Proof. by destruct outcome. Qed.

Lemma feed_ok_later stopped stopped' ending cap f :
  feed_ok stopped ending cap f -> (stopped = true -> stopped' = true) -> feed_ok stopped' ending cap f.
Proof.
  intros Hf Hs. destruct stopped; [rewrite Hs by done; done|]. destruct stopped'; [by eapply feed_ok_stops|done].
Qed.

Context (streams : list (string * (Runner * W))) (ending : option string) (rbuf buf : nat).
#[local] Abbreviation n := (length streams).

(** Each pipeline has its task, and the reader the last. A channel is closed with
    the reader, never before, and no pipeline ends while the run goes on. *)
Record shape (s : sys (W := W)) : Prop := {
  sh_feed : feed_ok (cancelled s) ending rbuf (sy_feed s);
  sh_router : ro_byTable (sy_router s) = ro_byTable (build_router (table_places streams));
  sh_channels : ro_channels (sy_router s) = seq 0 n;
  sh_closed : ro_closed (sy_router s) = finished s;
  sh_queues : length (sy_queues s) = n;
  sh_pipes : length (sy_pipes s) = n;
  sh_queue : forall i q, sy_queues s !! i = Some q ->
    ch_cap q = buf /\ length (ch_items q) <= buf /\ ch_closed q = finished s;
  sh_targets : match sy_reader s with Routing _ ts => ts <> [] /\ Forall (fun i => i < n) ts | _ => True end;
  sh_tasks : length (gr_tasks (sy_group s)) = S n;
  sh_reader : gr_tasks (sy_group s) !! n = Some (match sy_reader s with Finished o => Returned o | _ => Running end);
  sh_task : forall i p, sy_pipes s !! i = Some p -> exists t, gr_tasks (sy_group s) !! i = Some t /\
    returned t = bool_decide (is_Some (pp_result p));
  sh_ended : forall i p, sy_pipes s !! i = Some p -> is_Some (pp_result p) -> finished s = true \/ cancelled s = true;
  sh_over : match sy_reader s with
    | Finished o => o = Some Canceled /\ cancelled s = true \/
        exists err fin, fd_state (sy_feed s) = Fed err fin /\ o = Failed <$> err
    | _ => True
    end;
  sh_sound : sy_panicked s = false
}.

Lemma shape_start evs : shape (sys_start streams evs ending rbuf buf).
Proof.
  destruct (build_router_plain (table_places streams)) as [Hc Ho].
  assert (forall k, gr_tasks (start_tasks k) = replicate k Running /\ gr_cancelled (start_tasks k) = false) as Hg.
  { unfold start_tasks. induction k as [|k [IHt IHc]]; [done|]. cbn [Nat.iter nat_rect]. unfold group_run at 1 3.
    cbn [gr_tasks gr_cancelled]. unfold Nat.iter in IHt, IHc. rewrite IHt, IHc. by rewrite <- replicate_S_end. }
  destruct (Hg (S n)) as [Ht Hcan]. split; cbn -[start_tasks]; auto.
  - unfold cancelled. cbn -[start_tasks]. rewrite Hcan. apply feed_ok_start.
  - by rewrite Hc, table_places_seq.
  - by rewrite length_map.
  - by rewrite length_map.
  - intros i q Hq. change (map ?f ?l) with (f <$> l) in Hq. rewrite list_lookup_fmap in Hq.
    destruct (streams !! i); [|done]. injection Hq as <-. simpl. split_and!; [done|lia|done].
  - by rewrite Ht, length_replicate.
  - rewrite Ht. apply lookup_replicate_2. lia.
  - intros i p Hp. exists Running. change (map ?f ?l) with (f <$> l) in Hp. rewrite list_lookup_fmap in Hp.
    destruct (streams !! i) as [st|] eqn:Hi; [|done]. injection Hp as <-. split; [|done].
    rewrite Ht. apply lookup_replicate_2. apply lookup_lt_Some in Hi. lia.
  - intros i p Hp. change (map ?f ?l) with (f <$> l) in Hp. rewrite list_lookup_fmap in Hp.
    destruct (streams !! i); [|done]. injection Hp as <-. by intros [].
Qed.

Lemma close_queues s :
  shape s -> finished s = false -> exists qs,
    Router_Close (sy_router s, sy_queues s) =
      (mkRouter (ro_byTable (sy_router s)) true (ro_channels (sy_router s)), qs) /\
    forall i, qs !! i = close_channel <$> sy_queues s !! i.
Proof.
  intros Hs Hf. unfold Router_Close. rewrite (sh_closed _ Hs), Hf. eexists. split; [done|]. intros i.
  rewrite close_all, (sh_channels _ Hs). case_decide as Hi; [done|].
  destruct (sy_queues s !! i) as [q|] eqn:Hq; [|done]. destruct Hi. apply elem_of_seq.
  apply lookup_lt_Some in Hq. rewrite (sh_queues _ Hs) in Hq. lia.
Qed.

Lemma shape_finishes o s :
  shape s -> finished s = false ->
  (o = Some Canceled /\ cancelled s = true \/ exists err fin, fd_state (sy_feed s) = Fed err fin /\ o = Failed <$> err) ->
  shape (reader_finishes o s).
Proof.
  intros Hs Hf Ho. destruct (close_queues s Hs Hf) as (qs & Hqs & Hl). unfold reader_finishes. rewrite Hqs, (sh_pipes _ Hs).
  pose proof (task_returns_cancelled n o (sy_group s)) as Hc. fold (cancelled s) in Hc.
  assert (cancelled s = true -> gr_cancelled (task_returns n o (sy_group s)) = true) as Hlater by (intros Ht; by rewrite Hc, Ht).
  split; simpl; rewrite ?task_returns_tasks.
  - eapply feed_ok_later; [apply Hs|done].
  - apply Hs.
  - apply Hs.
  - done.
  - rewrite <- (sh_queues _ Hs). apply Nat.le_antisymm; apply Nat.le_ngt; intros Hlt.
    + apply lookup_lt_is_Some in Hlt as [x Hx]. rewrite Hl in Hx. destruct (sy_queues s !! _) eqn:Hq; [|done].
      apply lookup_lt_Some in Hq. lia.
    + apply lookup_lt_is_Some in Hlt as [x Hx]. specialize (Hl (length qs)). rewrite Hx in Hl.
      apply lookup_lt_Some in Hl. lia.
  - apply Hs.
  - intros i q Hq. rewrite Hl in Hq. destruct (sy_queues s !! i) as [q0|] eqn:Hq0; [|done]. injection Hq as <-.
    destruct (sh_queue _ Hs _ _ Hq0) as (? & ? & _). done.
  - done.
  - by rewrite length_insert, (sh_tasks _ Hs).
  - rewrite list_lookup_insert_eq; [done|]. rewrite (sh_tasks _ Hs). lia.
  - intros i p Hp. rewrite list_lookup_insert_ne; [by apply Hs|]. apply lookup_lt_Some in Hp. rewrite (sh_pipes _ Hs) in Hp. lia.
  - intros i p _ _. by left.
  - destruct Ho as [[-> Ht]|Ho]; [|by right]. left. split; [done|]. by apply Hlater.
  - apply Hs.
Qed.

(** What the end of a pipeline means to the run. *)
Lemma ended_cancels c r i g :
  match r with Ok _ => False | Err ECancelled => c = true | Err _ => True end -> gr_cancelled g = c ->
  gr_cancelled (task_returns i (pipeline_ended (runner_outcome c r) fresh_state).2 g) = true.
Proof.
  intros Hr Hg. rewrite task_returns_cancelled, Hg. destruct r as [|e]; [done|].
  destruct e; simpl in *; try (by rewrite Hr); by destruct c.
Qed.

Lemma shape_pipe s i k q p q' p' :
  shape s -> sy_queues s !! i = Some q -> sy_pipes s !! i = Some p ->
  pipe_select (cancelled s) k q p = Some (q', p') -> shape (pipe_moves i q' p' s).
Proof.
  intros Hs Hq Hp Hsel. pose proof Hsel as (Hrun & sig & Hk & _)%pipe_select_inv. apply wake_signal_items in Hk as (Hi & Hcap & Hcl).
  assert (i < n) as Hlt by (apply lookup_lt_Some in Hp; by rewrite (sh_pipes _ Hs) in Hp).
  set (g := match pp_result p' with
    | None => sy_group s
    | Some r => task_returns i (pipeline_ended (runner_outcome (cancelled s) r) fresh_state).2 (sy_group s)
    end).
  assert (cancelled s = true -> gr_cancelled g = true) as Hlater.
  { intros Ht. subst g. destruct (pp_result p'); [|done]. rewrite task_returns_cancelled. unfold cancelled in Ht. by rewrite Ht. }
  assert (length (gr_tasks g) = S n /\ (forall j, j <> i -> gr_tasks g !! j = gr_tasks (sy_group s) !! j) /\
    exists t, gr_tasks g !! i = Some t /\ returned t = bool_decide (is_Some (pp_result p'))) as (Hgl & Hgne & Hgi).
  { subst g. destruct (sh_task _ Hs _ _ Hp) as (t & Ht & Hret). rewrite Hrun in Hret.
    destruct (pp_result p'); rewrite ?task_returns_tasks, ?length_insert, ?(sh_tasks _ Hs); split_and!; try done.
    - intros j Hj. by apply list_lookup_insert_ne.
    - eexists. rewrite list_lookup_insert_eq by (rewrite (sh_tasks _ Hs); lia). done.
    - by exists t. }
  assert (is_Some (pp_result p') -> finished s = true \/ gr_cancelled g = true) as Hend.
  { intros [r Hr]. apply (pipe_select_ended _ _ _ _ _ _ _ Hsel) in Hr as He. subst g. rewrite Hr.
    destruct r as [[]|e]; [left; destruct He; by rewrite <- (proj2 (proj2 (sh_queue _ Hs _ _ Hq)))|right].
    apply ended_cancels; [|done]. by destruct e. }
  split; simpl; fold g; try apply Hs.
  - eapply feed_ok_later; [apply Hs|done].
  - by rewrite length_insert, (sh_queues _ Hs).
  - by rewrite length_insert, (sh_pipes _ Hs).
  - intros j q0 Hj. destruct (decide (i = j)) as [<-|Hne].
    + rewrite list_lookup_insert_eq in Hj by (by eapply lookup_lt_Some). injection Hj as <-.
      destruct (sh_queue _ Hs _ _ Hq) as (? & Hlen & ?). rewrite Hi, length_app in Hlen.
      split_and!; [congruence|lia|]. by rewrite Hcl.
    + rewrite list_lookup_insert_ne in Hj by done. by apply (sh_queue _ Hs) in Hj.
  - done.
  - rewrite Hgne by lia. apply Hs.
  - intros j p0 Hj. destruct (decide (i = j)) as [<-|Hne].
    + rewrite list_lookup_insert_eq in Hj by (by eapply lookup_lt_Some). by injection Hj as <-.
    + rewrite list_lookup_insert_ne in Hj by done. rewrite Hgne by done. by apply Hs.
  - intros j p0 Hj Hres. destruct (decide (i = j)) as [<-|Hne].
    + rewrite list_lookup_insert_eq in Hj by (by eapply lookup_lt_Some). injection Hj as <-. by apply Hend.
    + rewrite list_lookup_insert_ne in Hj by done. destruct (sh_ended _ Hs _ _ Hj Hres); auto.
  - pose proof (sh_over _ Hs) as Ho. destruct (sy_reader s); try done. destruct Ho as [[-> Ht]|Ho]; [|by right]. left. auto.
Qed.

Lemma shape_reader rd s :
  shape s -> finished s = false -> match rd with Routing _ ts => ts <> [] /\ Forall (fun i => i < n) ts | Finished _ => False | _ => True end ->
  shape (set_reader rd s).
Proof.
  intros Hs Hf Hrd. assert (finished (set_reader rd s) = finished s) as Hfin by (rewrite Hf; by destruct rd).
  destruct Hs as [? ? ? Hcl ? ? Hq _ ? Hr ? He Ho ?]. unfold finished in Hf.
  split; try done.
  - by rewrite Hfin.
  - by rewrite Hfin.
  - by destruct rd.
  - simpl. rewrite Hr. by destruct (sy_reader s), rd.
  - by rewrite Hfin.
  - by destruct rd.
Qed.

Lemma route_to_targets ev ts :
  Forall (fun i => i < n) ts ->
  match route_to ev ts with Routing _ ts => ts <> [] /\ Forall (fun i => i < n) ts | Finished _ => False | _ => True end.
Proof. by destruct ts. Qed.

Lemma shape_step l s s' : shape s -> moved l s s' -> shape s'.
Proof.
  intros Hs [f Hf|ev items Hr Hi|Hr Hi Hc|ev ts Hr Hc|ev out ts q Hr Hq Hc|ev out ts q Hr Hq Hc Hroom|i k q p q' p' Hq Hp Hsel|Hl Hc].
  - destruct (feed_step_ok _ _ _ _ _ (sh_feed _ Hs) Hf) as [Hok _]. apply feed_step_closed in Hf.
    destruct Hs as [? ? ? ? ? ? ? ? ? ? ? ? Ho ?]. split; try done.
    simpl. destruct (sy_reader s); try done. destruct Ho as [?|(err & fin & Hst & _)]; [by left|congruence].
  - apply shape_reader.
    + pose proof (feed_takes_ok _ _ _ _ _ _ (sh_feed _ Hs) Hi) as Hok.
      destruct Hs as [? ? ? ? ? ? ? ? ? ? ? ? Ho ?]. split; try done.
    + unfold finished. simpl. by rewrite Hr.
    + apply route_to_targets, Forall_forall. intros i Hin.
      apply (route_targets_spec streams) in Hin as (t & x & Hx & _); [by eapply lookup_lt_Some|apply Hs].
  - apply shape_finishes; [done|unfold finished; by rewrite Hr|]. right. unfold feed_error.
    pose proof (fo_state _ _ _ _ (sh_feed _ Hs)) as Hst. destruct (fd_state (sy_feed s)) as [|err fin]; [congruence|].
    by exists err, fin.
  - apply shape_finishes; [done|unfold finished; by rewrite Hr|]. by left.
  - destruct (sh_queue _ Hs _ _ Hq) as (_ & _ & Hcl). unfold finished in Hcl. rewrite Hr in Hcl. congruence.
  - pose proof (sh_targets _ Hs) as Ht. rewrite Hr in Ht. destruct Ht as [_ [_ Ht]%Forall_cons].
    apply shape_reader; [|unfold finished; simpl; by rewrite Hr|by apply route_to_targets].
    destruct Hs as [? ? ? ? Hlen ? Hqs ? ? ? ? ? ? ?]. split; try done.
    + simpl. by rewrite length_insert.
    + intros i q0. simpl. destruct (decide (out = i)) as [<-|Hne]; [|rewrite list_lookup_insert_ne by done; apply Hqs].
      rewrite list_lookup_insert_eq by (by eapply lookup_lt_Some). intros [= <-].
      destruct (Hqs _ _ Hq) as (Hcap & _ & Hcl). apply room_true in Hroom.
      simpl. rewrite length_app. simpl. split_and!; [done|lia|done].
  - by eapply shape_pipe.
  - destruct Hs as [? ? ? ? ? ? ? ? ? ? ? He Ho ?]. split; try done.
    + by eapply feed_ok_stops.
    + intros i p Hp Hres. by right.
    + simpl. destruct (sy_reader s); try done. destruct Ho as [[? _]|?]; [by left|by right].
Qed.

(** *** What each pipeline has been handed *)

Definition handed_to (rd : reader) (i : nat) (taken handed : list ChangeEvent) : Prop :=
  match rd with
  | Ranging => taken = handed
  | Routing ev ts => taken = handed ++ (if decide (i ∈ ts) then [ev] else [])
  | Finished _ => handed `prefix_of` taken
  end.

Definition delivery (evs : list ChangeEvent) (s : sys (W := W)) : Prop := exists taken,
  evs = taken ++ feed_left (sy_feed s) /\
  match sy_reader s with
  | Routing ev ts => NoDup ts /\ forall i, i ∈ ts -> i ∈ route_targets (sy_router s) ev
  | _ => True
  end /\
  forall i t rw q p, streams !! i = Some (t, rw) -> sy_queues s !! i = Some q -> sy_pipes s !! i = Some p ->
    pipe_ran rw p /\ exists handed, handed_to (sy_reader s) i taken handed /\
      received (pp_signals p) ++ ch_items q = List.filter (of_table t) handed.

Lemma delivery_start evs : delivery evs (sys_start streams evs ending rbuf buf).
Proof.
  exists []. split; [done|]. split; [done|]. intros i t rw q p Hi Hq Hp. simpl in Hq, Hp.
  change (map ?f ?l) with (f <$> l) in Hq. change (map ?f ?l) with (f <$> l) in Hp. rewrite list_lookup_fmap, Hi in Hq. rewrite list_lookup_fmap, Hi in Hp.
  injection Hq as <-. injection Hp as <-. split; [by destruct rw|]. by exists [].
Qed.

Lemma delivery_finishes evs o s : shape s -> finished s = false -> delivery evs s -> delivery evs (reader_finishes o s).
Proof.
  intros Hs Hf (taken & He & _ & Hd). destruct (close_queues s Hs Hf) as (qs & Hqs & Hl). unfold reader_finishes. rewrite Hqs.
  exists taken. split; [done|]. split; [done|]. intros i t rw q p Hi Hq Hp. simpl in Hq, Hp. rewrite Hl in Hq.
  destruct (sy_queues s !! i) as [q0|] eqn:Hq0; [|done]. injection Hq as <-.
  destruct (Hd _ _ _ _ _ Hi Hq0 Hp) as (Hran & handed & Hh & Hr). split; [done|]. exists handed. split; [|done].
  simpl. unfold handed_to in Hh. unfold finished in Hf. destruct (sy_reader s) as [|ev ts|]; [by rewrite Hh| |done].
  rewrite Hh. by apply prefix_app_r.
Qed.

Lemma handed_to_route ev ts i taken handed :
  handed_to (route_to ev ts) i taken handed <-> taken = handed ++ (if decide (i ∈ ts) then [ev] else []).
Proof.
  destruct ts as [|c ts]; [|done]. cbn [route_to handed_to]. rewrite decide_False by apply not_elem_of_nil. by rewrite app_nil_r.
Qed.

Lemma delivery_step evs l s s' : shape s -> delivery evs s -> moved l s s' -> delivery evs s'.
Proof.
  intros Hs Hd Hm. assert (shape s') as Hs' by (by eapply shape_step). revert Hd.
  destruct Hm as [f Hf|ev items Hr Hi|Hr Hi Hc|ev ts Hr Hc|ev out ts q Hr Hq Hc|ev out ts q Hr Hq Hc Hroom|i k q p q' p' Hq Hp Hsel|Hl Hc];
    intros (taken & He & Hts & Hd).
  - destruct (feed_step_ok _ _ _ _ _ (sh_feed _ Hs) Hf) as [_ Hl]. exists taken. simpl. by rewrite Hl.
  - exists (taken ++ [ev]). split; [|split].
    + rewrite He. unfold feed_left. simpl. by rewrite Hi, <- app_assoc.
    + simpl. destruct (route_targets_spec streams _ ev (sh_router _ Hs)) as (Hnd & _ & _).
      destruct (route_targets _ ev) eqn:Ht; [done|]. simpl. split; [done|]. by rewrite Ht.
    + intros i t rw q p Hst Hq Hp. simpl in Hq, Hp. destruct (Hd _ _ _ _ _ Hst Hq Hp) as (Hran & handed & Hh & Heq).
      split; [done|]. rewrite Hr in Hh. simpl in Hh. subst handed. simpl.
      destruct (route_targets_spec streams _ ev (sh_router _ Hs)) as (_ & _ & Hspec).
      destruct (decide (i ∈ route_targets (sy_router s) ev)) as [Hin|Hin].
      * exists taken. split; [|done]. apply handed_to_route. by rewrite decide_True.
      * exists (taken ++ [ev]). split; [apply handed_to_route; by rewrite decide_False, app_nil_r|].
        rewrite List.filter_app, Heq. simpl. destruct (of_table t ev) eqn:Ht; [|by rewrite app_nil_r].
        destruct Hin. apply Hspec. by exists t, rw.
  - apply delivery_finishes; [done|unfold finished; by rewrite Hr|]. by exists taken.
  - apply delivery_finishes; [done|unfold finished; by rewrite Hr|]. by exists taken.
  - by apply sh_sound in Hs'.
  - rewrite Hr in Hts, Hd. destruct Hts as [[Hout Hnd]%NoDup_cons Hin]. exists taken. split; [done|]. split.
    + simpl. destruct ts; [done|]. simpl. split; [done|]. intros i Hi. apply Hin. by right.
    + intros i t rw q0 p Hst Hq0 Hp. simpl in Hq0, Hp |- *.
      destruct (decide (out = i)) as [<-|Hne].
      * rewrite list_lookup_insert_eq in Hq0 by (by eapply lookup_lt_Some). injection Hq0 as <-.
        destruct (Hd _ _ _ _ _ Hst Hq Hp) as (Hran & handed & Hh & Heq). split; [done|]. exists (handed ++ [ev]). split.
        -- apply handed_to_route. rewrite decide_False by done. simpl in Hh. rewrite decide_True in Hh by by left.
           by rewrite app_nil_r.
        -- simpl. rewrite app_assoc, Heq, List.filter_app. simpl.
           destruct (route_targets_spec streams _ ev (sh_router _ Hs)) as (_ & _ & Hspec).
           destruct (proj1 (Hspec out)) as (t' & x & Hx & Ht); [apply Hin; by left|]. rewrite Hst in Hx. injection Hx as <- _.
           by rewrite Ht.
      * rewrite list_lookup_insert_ne in Hq0 by done.
        destruct (Hd _ _ _ _ _ Hst Hq0 Hp) as (Hran & handed & Hh & Heq). split; [done|]. exists handed. split; [|done].
        apply handed_to_route. simpl in Hh. rewrite Hh. f_equal.
        destruct (decide (i ∈ ts)); [by rewrite decide_True by by right|]. rewrite decide_False; [done|].
        intros [?|?]%elem_of_cons; congruence.
  - exists taken. split; [done|]. split; [done|]. intros j t rw q0 p0 Hst Hq0 Hp0. simpl in Hq0, Hp0 |- *.
    destruct (decide (i = j)) as [<-|Hne].
    + rewrite list_lookup_insert_eq in Hq0 by (by eapply lookup_lt_Some).
      rewrite list_lookup_insert_eq in Hp0 by (by eapply lookup_lt_Some). injection Hq0 as <-. injection Hp0 as <-.
      destruct (Hd _ _ _ _ _ Hst Hq Hp) as (Hran & handed & Hh & Heq).
      destruct (pipe_select_ran _ _ _ _ _ _ _ Hran Hsel) as (Hran' & Hrec & _). split; [done|]. exists handed.
      split; [done|]. by rewrite Hrec.
    + rewrite list_lookup_insert_ne in Hq0 by done. rewrite list_lookup_insert_ne in Hp0 by done. by eapply Hd.
  - by exists taken.
Qed.

Lemma sys_run_inv evs ls s s' :
  shape s -> delivery evs s -> sys_run ls s = Some s' -> shape s' /\ delivery evs s'.
Proof.
  revert s. induction ls as [|l ls IH]; intros s Hs Hd; cbn [sys_run]; [by intros [= <-]|].
  intros (s1 & [_ Hm]%sys_step_moved & Hls)%bind_Some. eapply IH; [| |done]; [by eapply shape_step|by eapply delivery_step].
Qed.

(** *** A run comes to an end *)

Definition routed_cost (r : Router) (ev : ChangeEvent) : nat := S (3 * length (route_targets r ev)).
Definition reader_work (rd : reader) : nat := match rd with Ranging => 1 | Routing _ ts => S (3 * length ts) | Finished _ => 0 end.
Definition sys_work (s : sys (W := W)) : nat :=
  feed_work (routed_cost (sy_router s)) (sy_feed s) + reader_work (sy_reader s) +
  list_sum (map queue_work (sy_queues s)) + list_sum (map pipe_work (sy_pipes s)) + (if cancelled s then 0 else 1).

Lemma list_sum_insert {A} (f : A -> nat) l i x y :
  l !! i = Some x -> list_sum (map f (<[i := y]> l)) + f x = list_sum (map f l) + f y.
Proof.
  revert i. induction l as [|z l IH]; intros [|i] Hi; simpl in *; try done.
  - injection Hi as ->. lia.
  - specialize (IH _ Hi). lia.
Qed.

Lemma list_sum_bound {A} (f : A -> nat) b l : (forall x, f x <= b) -> list_sum (map f l) <= b * length l.
Proof. intros Hf. induction l as [|x l IH]; simpl; [lia|]. specialize (Hf x). lia. Qed.

Lemma feed_takes_work weight f ev items :
  ch_items (fd_queue f) = ev :: items -> feed_work weight (feed_takes items f) + weight ev = feed_work weight f.
Proof. intros Hi. unfold feed_work. simpl. rewrite Hi. simpl. lia. Qed.

#[local] Arguments list_sum : simpl never.
#[local] Arguments queue_work : simpl never.
#[local] Arguments pipe_work : simpl never.

Lemma cancelled_ends i o (g : group) (P : nat) :
  (if gr_cancelled (task_returns i o g) then 0 else P) <= (if gr_cancelled g then 0 else P).
Proof. rewrite task_returns_cancelled. destruct (gr_cancelled g); [done|]. simpl. case_match; lia. Qed.

Lemma route_to_work ev ts : reader_work (route_to ev ts) = S (3 * length ts).
Proof. by destruct ts. Qed.

Lemma moved_works l s s' : shape s -> moved l s s' -> sys_work s' < sys_work s.
Proof.
  intros Hs Hm.
  assert (finished s = false -> forall o, reader_work (sy_reader s) > 0 -> sys_work (reader_finishes o s) < sys_work s) as Hfin.
  { intros Hf o Hpos. destruct (close_queues s Hs Hf) as (qs & Hqs & Hl). unfold reader_finishes. rewrite Hqs.
    assert (map queue_work qs = map queue_work (sy_queues s)) as Heq.
    { apply list_eq. intros i. change (map queue_work ?l) with (queue_work <$> l). rewrite !list_lookup_fmap, Hl.
      by destruct (sy_queues s !! i). }
    pose proof (cancelled_ends (length (sy_pipes s)) o (sy_group s) 1) as Hc.
    unfold sys_work, cancelled. cbn -[feed_work routed_cost task_returns]. rewrite Heq.
    change (routed_cost (mkRouter (ro_byTable (sy_router s)) true (ro_channels (sy_router s)))) with (routed_cost (sy_router s)). lia. }
  destruct Hm as [f Hf|ev items Hr Hi|Hr Hi Hc|ev ts Hr Hc|ev out ts q Hr Hq Hc|ev out ts q Hr Hq Hc Hroom|i k q p q' p' Hq Hp Hsel|Hl Hc].
  - apply (feed_step_works (routed_cost (sy_router s))) in Hf. unfold sys_work. simpl. unfold cancelled. simpl. lia.
  - apply (feed_takes_work (routed_cost (sy_router s))) in Hi. unfold sys_work. cbn -[feed_work routed_cost reader_work].
    rewrite route_to_work, Hr. unfold cancelled. simpl (reader_work Ranging). unfold routed_cost in Hi at 2. simpl in *. lia.
  - apply Hfin; [unfold finished; by rewrite Hr|rewrite Hr; simpl; lia].
  - apply Hfin; [unfold finished; by rewrite Hr|rewrite Hr; simpl; lia].
  - destruct (sh_queue _ Hs _ _ Hq) as (_ & _ & Hcl). unfold finished in Hcl. rewrite Hr in Hcl. congruence.
  - pose proof (list_sum_insert queue_work _ _ _ (put ev q) Hq) as Hw. unfold sys_work.
    cbn -[feed_work routed_cost reader_work queue_work]. rewrite route_to_work, Hr. unfold cancelled. cbn -[feed_work routed_cost queue_work].
    unfold queue_work in Hw at 2 4. simpl in Hw. rewrite length_app in Hw. simpl in Hw. lia.
  - pose proof (list_sum_insert queue_work _ _ _ q' Hq) as Hw. pose proof (list_sum_insert pipe_work _ _ _ p' Hp) as Hw'.
    apply pipe_select_works in Hsel. unfold sys_work. cbn -[feed_work routed_cost queue_work pipe_work].
    assert ((if cancelled (pipe_moves i q' p' s) then 0 else 1) <= (if cancelled s then 0 else 1)) as Hc.
    { unfold cancelled at 1. simpl. destruct (pp_result p'); [|done]. apply cancelled_ends. }
    lia.
  - unfold sys_work. cbn -[feed_work routed_cost queue_work pipe_work]. rewrite Hc. unfold cancelled. simpl. lia.
Qed.

Lemma sys_run_work ls s s' : shape s -> sys_run ls s = Some s' -> length ls + sys_work s' <= sys_work s.
Proof.
  revert s. induction ls as [|l ls IH]; intros s Hs; cbn [sys_run]; [by intros [= <-]|].
  intros (s1 & [_ Hm]%sys_step_moved & Hls)%bind_Some. apply IH in Hls; [|by eapply shape_step].
  apply moved_works in Hm; [|done]. simpl. lia.
Qed.

Lemma sys_start_work evs : sys_work (sys_start streams evs ending rbuf buf) <= (3 * n + 2) * length evs + 2 * n + 3.
Proof.
  unfold sys_work, feed_work. cbn -[routed_cost start_tasks].
  assert (forall ev, routed_cost (build_router (table_places streams)) ev <= S (3 * n)) as Hr.
  { intros ev. unfold routed_cost. destruct (route_targets_spec streams (build_router (table_places streams)) ev eq_refl) as (_ & Hl & _). lia. }
  assert (list_sum (map (fun ev => S (routed_cost (build_router (table_places streams)) ev)) evs) <= S (S (3 * n)) * length evs) as Hf.
  { apply list_sum_bound. intros ev. apply le_n_S, Hr. }
  assert (list_sum (map (fun st : string * (Runner * W) => queue_work (make_channel buf)) streams) <= 0 * n) as Hq
    by by apply list_sum_bound.
  assert (list_sum (map (fun st : string * (Runner * W) => pipe_work (start_pipe st.2)) streams) <= 2 * n) as Hp.
  { apply list_sum_bound. intros st. unfold pipe_work, armed. simpl. destruct (NextDeadline _); lia. }
  rewrite !map_map.
  unfold cancelled. simpl. destruct (gr_cancelled _); nia.
Qed.

Lemma not_waited g : Tasks.waited g = false -> exists i, gr_tasks g !! i = Some Running.
Proof.
  unfold Tasks.waited. induction (gr_tasks g) as [|t ts IH]; [done|]. simpl. destruct t as [|o]; [by exists 0|].
  intros [i Hi]%IH. by exists (S i).
Qed.

Lemma pipe_can_take s i q p :
  sy_panicked s = false -> sy_queues s !! i = Some q -> sy_pipes s !! i = Some p -> pp_result p = None ->
  ch_items q <> [] \/ ch_closed q = true -> exists l s', sys_step l s = Some s' /\ l <> RunStopped.
Proof.
  intros Hp Hq Hpi Hn Hi. destruct (pipe_takes (cancelled s) q p Hn Hi) as [[q' p'] Hx].
  exists (PipeWakes i Takes). eexists. split; [|done]. unfold sys_step. rewrite Hp. unfold pipe_wakes.
  rewrite Hq. cbn [mbind option_bind]. rewrite Hpi. cbn [mbind option_bind]. by rewrite Hx.
Qed.

(** Back pressure never stops the run for good: a queue that is full has a pipeline
    that empties it, or a run that is over. *)
Lemma sys_moves s :
  shape s -> 0 < rbuf -> 0 < buf -> Tasks.waited (sy_group s) = false ->
  exists l s', sys_step l s = Some s' /\ l <> RunStopped.
Proof.
  intros Hs Hrbuf Hbuf Hw. pose proof (sh_sound _ Hs) as Hp.
  destruct (sy_reader s) as [|ev ts|o] eqn:Hr.
  - destruct (ch_items (fd_queue (sy_feed s))) as [|ev items] eqn:Hi.
    + destruct (fd_state (sy_feed s)) as [|err fin] eqn:Hst.
      * destruct (feed_moves _ _ _ _ (sh_feed _ Hs) Hrbuf Hi Hst) as [[f Hx]|[f Hx]];
          [exists FeedSends|exists FeedEnds]; eexists; (split; [|done]); unfold sys_step; rewrite Hp; by rewrite Hx.
      * pose proof (fo_state _ _ _ _ (sh_feed _ Hs)) as Hc. rewrite Hst in Hc. destruct Hc as [Hc _].
        exists ReaderTakes. eexists. split; [|done]. unfold sys_step, reader_takes. by rewrite Hp, Hr, Hi, Hc.
    + exists ReaderTakes. eexists. split; [|done]. unfold sys_step, reader_takes. by rewrite Hp, Hr, Hi.
  - pose proof (sh_targets _ Hs) as Ht. rewrite Hr in Ht. destruct Ht as [Hne Hall]. destruct ts as [|out ts]; [done|].
    apply Forall_cons in Hall as [Hout _]. destruct (lookup_lt_is_Some_2 (sy_queues s) out) as [q Hq]; [by rewrite (sh_queues _ Hs)|].
    destruct (lookup_lt_is_Some_2 (sy_pipes s) out) as [p Hpi]; [by rewrite (sh_pipes _ Hs)|].
    destruct (sh_queue _ Hs _ _ Hq) as (Hcap & Hlen & Hcl). unfold finished in Hcl. rewrite Hr in Hcl.
    destruct (room q) eqn:Hroom.
    + exists ReaderSends. eexists. split; [|done]. unfold sys_step, reader_sends. rewrite Hp, Hr, Hq. simpl. by rewrite Hcl, Hq, Hroom.
    + destruct (pp_result p) as [r|] eqn:Hres.
      * destruct (sh_ended _ Hs _ _ Hpi) as [Hf|Hc]; [by rewrite Hres; eexists|unfold finished in Hf; by rewrite Hr in Hf|].
        exists ReaderCancels. eexists. split; [|done]. unfold sys_step, reader_cancels. by rewrite Hp, Hr, Hc.
      * eapply pipe_can_take; [done..|]. left. intros Hi. unfold room in Hroom. rewrite Hi, Hcap in Hroom. simpl in Hroom.
        by destruct buf; [lia|].
  - apply not_waited in Hw as [i Hi]. assert (i < n) as Hlt.
    { apply lookup_lt_Some in Hi as Hl. rewrite (sh_tasks _ Hs) in Hl. destruct (decide (i = n)) as [->|]; [|lia].
      rewrite (sh_reader _ Hs), Hr in Hi. done. }
    destruct (lookup_lt_is_Some_2 (sy_queues s) i) as [q Hq]; [by rewrite (sh_queues _ Hs)|].
    destruct (lookup_lt_is_Some_2 (sy_pipes s) i) as [p Hpi]; [by rewrite (sh_pipes _ Hs)|].
    destruct (sh_task _ Hs _ _ Hpi) as (t & Ht & Hret). rewrite Hi in Ht. injection Ht as <-.
    eapply pipe_can_take; [done..| |].
    + by destruct (pp_result p).
    + right. destruct (sh_queue _ Hs _ _ Hq) as (_ & _ & Hcl). unfold finished in Hcl. by rewrite Hr in Hcl.
Qed.

(** C8: A streaming run comes to an end: as long as one of its tasks has not
    returned, some goroutine can go on unasked, however full the queues are, and
    all of them go on only so often, whatever the sinks and the stores answer. *)
Theorem streaming_ends evs ls s :
  0 < rbuf -> 0 < buf -> sys_run ls (sys_start streams evs ending rbuf buf) = Some s ->
  length ls <= (3 * n + 2) * length evs + 2 * n + 3 /\
  (Tasks.waited (sy_group s) = false -> exists l s', sys_step l s = Some s' /\ l <> RunStopped).
Proof.
  intros Hrbuf Hbuf Hls. destruct (sys_run_inv _ _ _ _ (shape_start evs) (delivery_start evs) Hls) as [Hs _].
  apply sys_run_work in Hls; [|apply shape_start]. split; [pose proof (sys_start_work evs); lia|by apply sys_moves].
Qed.

(** No queue ever holds more than its buffer, so that the depth reported stays
    within it, and nothing is sent on a channel after it was closed. *)
Theorem queues_bounded evs ls s :
  sys_run ls (sys_start streams evs ending rbuf buf) = Some s ->
  sy_panicked s = false /\ length (ch_items (fd_queue (sy_feed s))) <= rbuf /\
  forall i d, reported_depth i s = Some d -> (0 <= d <= Z.of_nat buf)%Z.
Proof.
  intros Hls. destruct (sys_run_inv _ _ _ _ (shape_start evs) (delivery_start evs) Hls) as [Hs _].
  split; [apply Hs|]. split; [apply (sh_feed _ Hs)|]. intros i d. unfold reported_depth.
  destruct (sy_queues s !! i) as [q|] eqn:Hq; [|done]. intros [= <-].
  destruct (sh_queue _ Hs _ _ Hq) as (_ & Hlen & _). unfold zlen. lia.
Qed.

(** *** The run as a group of tasks *)

(** Every step is none, or one of what [Tasks] allows a group of tasks. *)
Lemma moved_group l s s' :
  shape s -> moved l s s' ->
  sy_group s' = sy_group s \/
  exists ev, group_step ev (sy_group s) (sy_group s') /\ (ev = ParentDone -> l = RunStopped).
Proof.
  intros Hs [f Hf|ev items Hr Hi|Hr Hi Hc|ev ts Hr Hc|ev out ts q Hr Hq Hc|ev out ts q Hr Hq Hc Hroom|i k q p q' p' Hq Hp Hsel|Hl Hc]; auto.
  - right. destruct (close_queues s Hs) as (qs & Hqs & _); [unfold finished; by rewrite Hr|]. unfold reader_finishes. rewrite Hqs.
    eexists. split; [apply step_return|done].
    + rewrite (sh_pipes _ Hs), (sh_reader _ Hs). by rewrite Hr.
    + by destruct (feed_error _).
  - right. destruct (close_queues s Hs) as (qs & Hqs & _); [unfold finished; by rewrite Hr|]. unfold reader_finishes. rewrite Hqs.
    eexists. split; [apply step_return|done].
    + rewrite (sh_pipes _ Hs), (sh_reader _ Hs). by rewrite Hr.
    + done.
  - unfold pipe_moves. simpl. destruct (pp_result p') as [r|]; [right|by left].
    destruct (sh_task _ Hs _ _ Hp) as (t & Ht & Hret). apply pipe_select_inv in Hsel as [Hn _]. rewrite Hn in Hret.
    destruct t; [|done]. eexists. split; [apply step_return; [done|]|done].
    simpl. by destruct (runner_outcome _ r) as [[|]|].
  - right. exists ParentDone. split; [apply step_parent|done].
Qed.

Lemma sys_run_group ls s s' past :
  shape s -> group_steps past (sy_group s) -> sys_run ls s = Some s' ->
  exists evs, group_steps (past ++ evs) (sy_group s') /\ (ParentDone ∈ evs -> RunStopped ∈ ls).
Proof.
  revert s past. induction ls as [|l ls IH]; intros s past Hs Hg; cbn [sys_run].
  { intros [= <-]. exists []. rewrite app_nil_r. split; [done|]. by intros ?%elem_of_nil. }
  intros (s1 & [_ Hm]%sys_step_moved & Hls)%bind_Some. assert (shape s1) as Hs1 by by eapply shape_step.
  destruct (moved_group _ _ _ Hs Hm) as [Heq|(ev & Hstep & Hev)].
  - destruct (IH s1 past Hs1) as (evs & Hgs & Hp); [by rewrite Heq|done|]. exists evs. split; [done|]. intros Hin. right. auto.
  - destruct (IH s1 (past ++ [ev]) Hs1) as (evs & Hgs & Hp); [by eapply steps_snoc|done|]. exists (ev :: evs).
    rewrite <- app_assoc in Hgs. split; [done|]. intros [Heq|Hin]%elem_of_cons; apply elem_of_cons; [left; symmetry; by apply Hev|right; auto].
Qed.

Lemma start_tasks_group k : group_steps (replicate k Started) (start_tasks k).
Proof.
  induction k as [|k IH]; [constructor|]. rewrite replicate_S_end. eapply steps_snoc; [exact IH|]. apply step_run.
Qed.

(** The run is a run of its group of tasks, in which nobody has asked it to stop
    unless somebody has. *)
Lemma sys_start_group evs ls s :
  sys_run ls (sys_start streams evs ending rbuf buf) = Some s ->
  exists E, group_steps E (sy_group s) /\ (ParentDone ∈ E -> RunStopped ∈ ls).
Proof.
  intros Hls. destruct (sys_run_group _ _ _ _ (shape_start evs) (start_tasks_group (S n)) Hls) as (E & Hg & Hp).
  eexists. split; [exact Hg|]. intros [Hin|Hin]%elem_of_app; [|auto]. by apply elem_of_replicate in Hin as [[=] _].
Qed.

(** C9: A streaming run that nobody stops does not end without saying why: once all
    its tasks have returned it reports a failure, which is that of a task and never
    a cancellation. *)
Theorem streaming_never_ends_quietly evs text ls s :
  ending = Some text -> sys_run ls (sys_start streams evs ending rbuf buf) = Some s ->
  RunStopped ∉ ls -> Tasks.waited (sy_group s) = true ->
  exists cause i, stream_result (group_wait (sy_group s)).2 = Some (Failed cause) /\
    gr_tasks (sy_group s) !! i = Some (Returned (Some (Failed cause))).
Proof.
  intros Hend Hls Hrs Hw. destruct (sys_run_inv _ _ _ _ (shape_start evs) (delivery_start evs) Hls) as [Hs _].
  destruct (sys_start_group _ _ _ Hls) as (E & Hg & Hp). assert (ParentDone ∉ E) as Hno by auto.
  destruct (group_no_parent _ _ Hg Hno) as [Hfirst Hcan]. destruct (group_first _ _ Hg) as (Hf & _ & Ht).
  assert (is_Some (gr_first (sy_group s))) as [e He].
  { pose proof (sh_reader _ Hs) as Hr. pose proof (sh_over _ Hs) as Ho. destruct (sy_reader s) as [|ev ts|o].
    1,2: exfalso; unfold Tasks.waited in Hw; rewrite forallb_forall in Hw;
      by apply list_elem_of_lookup_2, list_elem_of_In, Hw in Hr.
    destruct Ho as [[_ Hc]|(err & fin & Hst & Ho)]; [by apply Hcan|].
    pose proof (fo_state _ _ _ _ (sh_feed _ Hs)) as Hfd. rewrite Hst in Hfd.
    destruct Hfd as [_ [(_ & Herr & _)|(Hc & _)]]; [|by apply Hcan]. rewrite Ho, Herr, Hend in Hr. simpl in Hr.
    assert (Failed text ∈ omap failure E) as Hin by (apply Ht; by eexists). rewrite Hf. destruct (omap failure E); [by apply elem_of_nil in Hin|by eexists]. }
  destruct e as [|cause]; [done|]. assert (Failed cause ∈ omap failure E) as Hin.
  { rewrite Hf in He. destruct (omap failure E); [done|]. injection He as <-. by left. }
  apply Ht in Hin as [i Hi]. exists cause, i. split; [|done]. simpl. by rewrite He.
Qed.

End Streaming.

(** ** What a run delivers *)

Section StreamDelivery.
Context `{GoLib} `{!ErrorText} `{!RunnerErrors}.

Lemma filter_prefix {A} (P : A -> bool) (l k : list A) : l `prefix_of` k -> List.filter P l `prefix_of` List.filter P k.
Proof. intros [x ->]. rewrite List.filter_app. by apply prefix_app_r. Qed.

Lemma handed_prefix rd i (taken handed : list ChangeEvent) : handed_to rd i taken handed -> handed `prefix_of` taken.
Proof. destruct rd as [|ev ts|o]; simpl; [by intros ->|intros ->; by apply prefix_app_r|done]. Qed.

(** What a pipeline has received is the first of its table's events. *)
Lemma received_prefix streams evs ending rbuf buf ls s i t rw p :
  sys_run ls (sys_start streams evs ending rbuf buf) = Some s ->
  streams !! i = Some (t, rw) -> sy_pipes s !! i = Some p ->
  pipe_ran (W := World) rw p /\ exists rest, List.filter (of_table t) evs = received (pp_signals p) ++ rest.
Proof.
  intros Hls Hst Hp.
  destruct (sys_run_inv _ _ _ _ evs _ _ _ (shape_start _ _ _ _ evs) (delivery_start _ _ _ _ evs) Hls) as [Hs (taken & He & _ & Hd)].
  destruct (lookup_lt_is_Some_2 (sy_queues s) i) as [q Hq]; [rewrite (sh_queues _ _ _ _ _ Hs); by eapply lookup_lt_Some|].
  destruct (Hd _ _ _ _ _ Hst Hq Hp) as (Hran & handed & Hh & Heq). split; [done|].
  apply handed_prefix, (filter_prefix (of_table t)) in Hh as [k Hk]. rewrite <- Heq in Hk.
  exists (ch_items q ++ k ++ List.filter (of_table t) (feed_left (sy_feed s))). by rewrite He, List.filter_app, Hk, !app_assoc.
Qed.

Lemma covered_more p evs rest acked turned cp :
  covered p evs acked turned cp -> covered p (evs ++ rest) acked turned cp.
Proof.
  intros (before & ev & after & -> & Hg & Hb & Ha & Hr & Ht). exists before, ev, (after ++ rest).
  split; [by rewrite <- app_assoc|]. rewrite docs_all_app, refusals_app.
  split_and!; [done|done|by apply prefix_app_r|done|by apply prefix_app_r].
Qed.

(** C2: However the reader, the router and the pipelines of a run interleave, however
    full the queues are, whatever fails and whenever the run is stopped: a stream
    records a position only with the documents of every event of its table before it
    delivered, and the refusal of every one that cannot be transformed recorded, so that reading on from the position skips none. *)
Theorem streaming_positions_safe streams evs ending rbuf buf ls s i t r o p pre cp res post :
  sys_run ls (sys_start streams evs ending rbuf buf) = Some s ->
  streams !! i = Some (t, (r, mkWorld o [])) -> sy_pipes s !! i = Some p ->
  fresh_runner (r_plan r) r -> Forall (stream_event (r_plan r)) evs ->
  trace (pp_world p) = pre ++ Saved cp res :: post ->
  exists acked turned, audit pre = Quiet acked turned /\
    covered (r_plan r) (List.filter (of_table t) evs) acked turned cp.
Proof.
  intros Hls Hst Hp Hfresh Hev Htr. destruct (received_prefix _ _ _ _ _ _ _ _ _ _ _ Hls Hst Hp) as [Hran [rest Hrest]].
  assert (Forall (stream_event (r_plan r)) (received (pp_signals p))) as Hrec.
  { assert (Forall (stream_event (r_plan r)) (List.filter (of_table t) evs)) as Hall.
    { apply Forall_forall. intros ev Hin%list_elem_of_In%filter_In. rewrite Forall_forall in Hev. apply Hev.
      apply list_elem_of_In. by destruct Hin. }
    rewrite Hrest in Hall. by apply Forall_app in Hall as [? _]. }
  destruct (stream_run_audit (r_plan r) r o _ _ _ Hfresh Hrec Hran) as [Hs _]. destruct (Hs _ _ _ _ Htr) as (acked & turned & Hq' & Hc).
  exists acked, turned. split; [done|]. rewrite Hrest. by apply covered_more.
Qed.

End StreamDelivery.
