(* ===== verification/Main.v ===== *)
(** * The program ([cmd/changeflow])

    The flags every subcommand declares with their defaults, the subcommand a
    command line runs, and the status the process exits with. What Cobra makes of
    a command line is an argument; so is what the replication client does, and the
    tasks of a run. *)

From S2P Require Import Prelude GoStd Address Sql Schema TableLoader Preflight Cdc Config Transform Sink Checkpoint Runner Snapshot Binlog Http Elasticsearch Supervisor Tasks ClickHouse Wiring Startup CheckpointTable DeadLetters Generate Tail Replicate Commands Diagnose.

(** ** Flags *)

Inductive flag :=
  | FlagString (v : string)
  | FlagBool (v : bool)
  | FlagInt (v : Z)
  | FlagUint32 (v : Z)
  | FlagStrings (v : list string)
  | FlagDuration (v : Z).

Definition same_kind (a b : flag) : bool :=
  match a, b with
  | FlagString _, FlagString _ | FlagBool _, FlagBool _ | FlagInt _, FlagInt _
  | FlagUint32 _, FlagUint32 _ | FlagStrings _, FlagStrings _ | FlagDuration _, FlagDuration _ => true
  | _, _ => false
  end.

(** A subcommand: its name, its flags with their defaults, the flags it requires. *)
Record command_spec := mkSpec { cs_use : string; cs_flags : list (string * flag); cs_required : list string }.

Definition configFlag : string * flag := ("config", FlagString "changeflow.yaml").
Definition bind_source (env_dsn : string) : list (string * flag) :=
  [("dsn", FlagString env_dsn); ("server-id", FlagUint32 1001)].

Definition newRunCmd : command_spec := mkSpec "run" [configFlag; ("stream", FlagString ""); ("dlq-dir", FlagString "dlq")] [].
Definition newStatusCmd : command_spec := mkSpec "status" [configFlag; ("dlq-dir", FlagString "")] [].
Definition newValidateCmd : command_spec := mkSpec "validate" [configFlag] [].
Definition newGenerateSchemaCmd : command_spec :=
  mkSpec "generate-schema" [configFlag; ("stream", FlagString ""); ("shards", FlagInt 1); ("replicas", FlagInt 1)] ["stream"].
Definition newResnapshotCmd : command_spec :=
  mkSpec "resnapshot" [configFlag; ("stream", FlagString ""); ("confirm", FlagBool false)] ["stream"].
Definition newPreflightCmd (env_dsn : string) : command_spec := mkSpec "preflight" (bind_source env_dsn) [].
Definition newTailCmd (env_dsn : string) : command_spec :=
  mkSpec "tail" (bind_source env_dsn ++
    [("table", FlagStrings []); ("capture", FlagString ""); ("for", FlagDuration 0); ("skip-preflight", FlagBool false)]) [].

Definition newRootCmd (env_dsn : string) : list command_spec :=
  [newRunCmd; newStatusCmd; newValidateCmd; newGenerateSchemaCmd; newResnapshotCmd; newPreflightCmd env_dsn; newTailCmd env_dsn].

(** ** Cobra *)

(** What executing a command line comes to: it is refused before any hook runs, or
    after [PersistentPreRun] for a required flag that is missing; help is shown; or
    a subcommand runs with the values of its flags. *)
Inductive execution :=
  | Rejected (cause : string)
  | Missing (cause : string)
  | Helped (text : string)
  | Invoked (name : string) (values : gmap string flag).

Class CobraOps := { cobra_Execute : list command_spec -> list string -> execution; cobra_Help : list command_spec -> string }.

(** A subcommand that runs is a declared one, every flag of which has a value of its
    kind. *)
Class CobraLaws `{CobraOps} : Prop := {
  invoked_declared : forall specs args name values, cobra_Execute specs args = Invoked name values ->
    exists spec, spec ∈ specs /\ cs_use spec = name /\
      forall f def, (f, def) ∈ cs_flags spec -> exists v, values !! f = Some v /\ same_kind def v = true
}.

(** ** The subcommands *)

Section Main.
Context `{ScanLib} `{!ErrorText} `{!MapOrder} `{!UrlOps} `{!ZoneOps} `{!TailLib} `{GtidLib} `{!DsnLib} `{!SqlTime} `{ConfigLib} `{!QuoteOps} {W : Type}.
Context `{!SqlOps W, !ConnOps W, !HttpOps W, !OsOps W, !PoolOps W, !ClockOps W, !BackfillOps W, !TaskOps (W := W), !ProcessOps W, !FixtureOps W}.
Variable replication : tail_config -> feed.

Definition string_flag (values : gmap string flag) (name : string) : option string :=
  match values !! name with Some (FlagString v) => Some v | _ => None end.
Definition bool_flag (values : gmap string flag) (name : string) : option bool :=
  match values !! name with Some (FlagBool v) => Some v | _ => None end.
Definition int_flag (values : gmap string flag) (name : string) : option Z :=
  match values !! name with Some (FlagInt v) => Some v | _ => None end.

Definition source_flags (values : gmap string flag) : option sourceFlags :=
  dsn ← string_flag values "dsn";
  match values !! "server-id" with Some (FlagUint32 id) => Some (mkSourceFlags dsn id) | _ => None end.
Definition tail_flags (values : gmap string flag) : option tailRequest :=
  source ← source_flags values;
  capture ← string_flag values "capture";
  skip ← bool_flag values "skip-preflight";
  match values !! "table", values !! "for" with
  | Some (FlagStrings tables), Some (FlagDuration d) => Some (mkTailRequest source tables capture d skip)
  | _, _ => None
  end.

(** The [RunE] of a subcommand. *)
Definition run_command (name : string) (values : gmap string flag) : option (eff (string * W) command_error ()) :=
  if bool_decide (name = "run") then
    path ← string_flag values "config"; stream ← string_flag values "stream"; dlq ← string_flag values "dlq-dir";
    Some (replicate_ path stream dlq)
  else if bool_decide (name = "status") then
    path ← string_flag values "config"; dlq ← string_flag values "dlq-dir"; Some (showStatus path dlq)
  else if bool_decide (name = "validate") then
    path ← string_flag values "config"; Some (validateConfig path)
  else if bool_decide (name = "generate-schema") then
    path ← string_flag values "config"; stream ← string_flag values "stream";
    shards ← int_flag values "shards"; replicas ← int_flag values "replicas";
    Some (generateSchema path stream shards replicas)
  else if bool_decide (name = "resnapshot") then
    path ← string_flag values "config"; stream ← string_flag values "stream"; confirm ← bool_flag values "confirm";
    Some (resnapshot path stream confirm)
  else if bool_decide (name = "preflight") then
    source ← source_flags values; Some (preflight_command source)
  else if bool_decide (name = "tail") then
    req ← tail_flags values; Some (tail_command req replication)
  else None.

(** A panic ends the process with Go's own status. *)
Definition panicked (e : command_error) : bool :=
  match e with ECmdPanic | ECmdStart EStartPanic => true | _ => false end.

Definition exit_status (began : bool) (r : res command_error ()) : Z :=
  match r with Ok _ => 0 | Err e => if panicked e then 2 else if began then 1 else 2 end.

(** [main], with the program's name as the first argument: the exit status, what was
    printed, and the world. *)
Definition main `{!CobraOps} (env_dsn : string) (args : list string) (w : W) : (string * W) * Z :=
  let specs := newRootCmd env_dsn in
  match args with
  | [] | [_] => ((cobra_Help specs, w), 2%Z)
  | _ :: args =>
    match cobra_Execute specs args with
    | Helped text => ((text, w), 0%Z)
    | Rejected _ => (("", w), 2%Z)
    | Missing _ => (("", w), 1%Z)
    | Invoked name values =>
      match run_command name values with
      | None => (("", w), 2%Z)
      | Some run => let '(ow, r) := run ("", w) in (ow, exit_status true r)
      end
    end
  end.

(** ** What a command line runs *)

Lemma string_given values name def :
  (exists v, values !! name = Some v /\ same_kind (FlagString def) v = true) -> exists v, string_flag values name = Some v.
Proof. unfold string_flag. intros (v & -> & Hk). destruct v; try done. by eexists. Qed.
Lemma bool_given values name def :
  (exists v, values !! name = Some v /\ same_kind (FlagBool def) v = true) -> exists v, bool_flag values name = Some v.
Proof. unfold bool_flag. intros (v & -> & Hk). destruct v; try done. by eexists. Qed.
Lemma int_given values name def :
  (exists v, values !! name = Some v /\ same_kind (FlagInt def) v = true) -> exists v, int_flag values name = Some v.
Proof. unfold int_flag. intros (v & -> & Hk). destruct v; try done. by eexists. Qed.

(** Flags of the kinds a subcommand declares are what its [RunE] takes. *)
Definition flags_given (spec : command_spec) (values : gmap string flag) : Prop :=
  forall f def, (f, def) ∈ cs_flags spec -> exists v, values !! f = Some v /\ same_kind def v = true.

(** A flag read is the one declared. *)
#[local] Ltac declared Hg := eapply Hg; unfold bind_source; cbn; repeat constructor.
#[local] Ltac give :=
  match goal with
  | Hg : flags_given _ ?values |- context [string_flag ?values ?f ≫= _] =>
      edestruct (string_given values f) as [? ->]; [declared Hg|]
  | Hg : flags_given _ ?values |- context [bool_flag ?values ?f ≫= _] =>
      edestruct (bool_given values f) as [? ->]; [declared Hg|]
  | Hg : flags_given _ ?values |- context [int_flag ?values ?f ≫= _] =>
      edestruct (int_given values f) as [? ->]; [declared Hg|]
  end; cbn [mbind option_bind].

Lemma source_flags_given values spec env_dsn :
  flags_given spec values -> (forall x, x ∈ bind_source env_dsn -> x ∈ cs_flags spec) -> is_Some (source_flags values).
Proof.
  intros Hg Hin. unfold source_flags.
  destruct (string_given values "dsn" env_dsn) as [v ->]; [apply Hg, Hin; set_solver|]. cbn [mbind option_bind].
  destruct (Hg "server-id" (FlagUint32 1001)) as (u & -> & Hu); [apply Hin; set_solver|]. destruct u; done || by eexists.
Qed.

(** Every subcommand that is invoked runs: its code finds the flags it reads among
    those it declared, with values of their kinds. *)
Theorem invoked_runs `{!CobraOps, !CobraLaws} env_dsn args name values :
  cobra_Execute (newRootCmd env_dsn) args = Invoked name values -> is_Some (run_command name values).
Proof.
  intros (spec & Hin & <- & Hg)%invoked_declared. change (flags_given spec values) in Hg. unfold newRootCmd in Hin.
  rewrite !elem_of_cons, elem_of_nil in Hin. unfold run_command.
  destruct Hin as [->|[->|[->|[->|[->|[->|[->|[]]]]]]]]; cbn [cs_use newRunCmd newStatusCmd newValidateCmd
    newGenerateSchemaCmd newResnapshotCmd newPreflightCmd newTailCmd]; simpl.
  1-5: repeat give; by eexists.
  - destruct (source_flags_given _ _ env_dsn Hg) as [source ->]; [done|]. by eexists.
  - unfold tail_flags. destruct (source_flags_given _ _ env_dsn Hg) as [source ->]; [set_solver|]. cbn [mbind option_bind].
    repeat give. destruct (Hg "table" (FlagStrings [])) as (t & -> & Ht); [cbn; repeat constructor|]. destruct t; try done.
    destruct (Hg "for" (FlagDuration 0)) as (d & -> & Hd); [cbn; repeat constructor|]. destruct d; done || by eexists.
Qed.

(** The status tells a command line that was not run from a subcommand that failed,
    and both from success. *)
Theorem main_status `{!CobraOps, !CobraLaws} env_dsn program arg args w :
  (main env_dsn (program :: arg :: args) w).2 =
    match cobra_Execute (newRootCmd env_dsn) (arg :: args) with
    | Helped _ => 0%Z
    | Rejected _ => 2%Z
    | Missing _ => 1%Z
    | Invoked name values =>
      match run_command name values with
      | Some run => match (run ("", w)).2 with Ok _ => 0%Z | Err e => if panicked e then 2%Z else 1%Z end
      | None => 2%Z
      end
    end.
Proof.
  unfold main. destruct (cobra_Execute _ _) as [| | |name values]; try done. destruct (run_command name values) as [run|]; [|done].
  by destruct (run ("", w)) as [ow [[]|e]].
Qed.

End Main.
