(* ===== verification/Endpoints.v ===== *)
(** * Plans against the sinks

    What the documents of [internal/pipeline/transform.go] are to the encoders
    of [internal/sink/elasticsearch] and [internal/sink/clickhouse]: which
    events a destination can be sent, and the two kinds it cannot. *)

From Stdlib Require Import Ascii.
From S2P Require Import Prelude GoStd GoEncoding GoJson Schema Cdc Transform Sink Http Elasticsearch ClickHouse.

Section Endpoints.
Context `{GoLib}.

Lemma encodeFields_object p fields r body :
  encodeFields p fields r = Ok body -> exists inner, body = object_body inner.
Proof. unfold encodeFields. intros (ms & _ & [= <-])%res_bind_ok. by eexists. Qed.

(** The shapes of what [Apply] returns. *)
Inductive applied (p : Plan) (ev : ChangeEvent) : list Doc -> Prop :=
  | AppliedDelete k body :
      (p_dialect p = DialectClickHouse -> exists inner, body = object_body inner) ->
      key p (ev_Before ev) = Ok k ->
      applied p ev [mkDoc k body (ev_Seq ev) true]
  | AppliedWrite k inner :
      key p (ev_After ev) = Ok k ->
      applied p ev [mkDoc k (object_body inner) (ev_Seq ev) false]
  | AppliedMove k0 k inner :
      ev_Operation ev = OperationUpdate ->
      key p (ev_Before ev) = Ok k0 -> key p (ev_After ev) = Ok k -> k0 <> k ->
      applied p ev [mkDoc k0 "" (ev_Seq ev) true; mkDoc k (object_body inner) (ev_Seq ev) false].

Lemma Apply_applied p ev docs : Apply p (Some ev) = Ok docs -> applied p ev docs.
Proof.
  unfold Apply, Values. intros (_ & _ & Heq)%res_bind_ok.
  destruct (ev_Operation ev) eqn:Hop.
  3: { apply res_bind_ok in Heq as (k & Hk & Heq). destruct (p_dialect p) eqn:Hd.
       - injection Heq as <-. apply AppliedDelete; [by rewrite Hd|done].
       - apply res_bind_ok in Heq as (body & Hb & [= <-]). apply AppliedDelete; [|done]. intros _.
         by eapply encodeFields_object. }
  all: apply res_bind_ok in Heq as (k & Hk & Heq); apply res_bind_ok in Heq as (body & Hb & Heq);
    apply encodeFields_object in Hb as [inner ->]; try (injection Heq as <-; by apply AppliedWrite).
  destruct (ev_Before ev) as [before|] eqn:Hbef; [|injection Heq as <-; by apply AppliedWrite].
  apply res_bind_ok in Heq as ([] & _ & Heq). apply res_bind_ok in Heq as (old & Hold & Heq).
  case_bool_decide; injection Heq as <-; [by apply AppliedWrite|].
  apply AppliedMove; try done. by rewrite Hbef.
Qed.

(** *** ClickHouse *)

(** An event can be encoded as rows exactly when it does not take a row to
    another key: the deletion of the old key carries no row. *)
Theorem clickhouse_encodes_iff p ev docs :
  p_dialect p = DialectClickHouse -> Apply p (Some ev) = Ok docs ->
  is_ok (encodeRows docs) = true <-> length docs = 1.
Proof.
  intros Hd Ha. destruct (Apply_applied p ev docs Ha) as [k body Hb Hk|k inner Hk|k0 k inner Hop Hk0 Hk Hne].
  - destruct (Hb Hd) as [inner ->]. cbn [encodeRows]. rewrite (encode_row_object inner) by done. done.
  - cbn [encodeRows]. rewrite (encode_row_object inner) by done. done.
  - split; [|done]. cbn [encodeRows]. done.
Qed.

Context `{!UrlOps} {W : Type} `{!HttpOps W, !TimerOps W}.

(** An update that changes a row's key stops a ClickHouse stream: the batch it
    is part of is never sent, and since the position does not move it is read
    and refused again after every restart. *)
Theorem key_change_stops_clickhouse (s : CSink) p ev docs before after w :
  Apply p (Some ev) = Ok docs -> length docs = 2 ->
  exists e, ch_Write s (before ++ docs ++ after) w = (w, (zero_result, Some e)).
Proof.
  intros Ha Hlen. destruct (Apply_applied p ev docs Ha) as [| |k0 k inner Hop Hk0 Hk Hne]; try done.
  set (bad := mkDoc k0 "" (ev_Seq ev) true).
  assert (forall l, exists e, encodeRows (l ++ bad :: mkDoc k (object_body inner) (ev_Seq ev) false :: after) = Err e) as Hbad.
  { induction l as [|d l [e IH]]; [by eexists|]. cbn [encodeRows app].
    destruct (encode_row d); [|by eexists]. cbn [mbind res_bind]. rewrite IH. by eexists. }
  destruct (Hbad before) as [e He]. exists e. unfold ch_Write.
  change (before ++ [bad; mkDoc k (object_body inner) (ev_Seq ev) false] ++ after)
    with (before ++ bad :: mkDoc k (object_body inner) (ev_Seq ev) false :: after).
  destruct (before ++ bad :: _) as [|d ds] eqn:E; [by destruct before|]. rewrite <- E in *.
  change (Z.to_nat (maxIsolationDepth - 1)) with 11. cbn [ch_write]. by rewrite He.
Qed.

(** *** Elasticsearch *)

(** An event can be encoded as a bulk request exactly when none of its keys is
    empty. *)
Theorem elasticsearch_encodes_iff (s : ESink) p ev docs :
  Apply p (Some ev) = Ok docs ->
  is_ok (encodeBulk s docs) = true <-> Forall (fun d => doc_Key d <> "") docs.
Proof.
  intros Ha.
  destruct (Apply_applied p ev docs Ha) as [k body Hb Hk|k inner Hk|k0 k inner Hop Hk0 Hk Hne];
    rewrite ?Forall_cons, ?Forall_nil; cbn [encodeBulk doc_Key doc_Deleted doc_Body].
  - case_bool_decide; cbn; naive_solver.
  - rewrite (bool_decide_eq_false_2 (object_body inner = "")) by done.
    case_bool_decide; cbn; naive_solver.
  - rewrite (bool_decide_eq_false_2 (object_body inner = "")) by done.
    repeat case_bool_decide; cbn; naive_solver.
Qed.

Lemma empty_string_key p r i :
  p_keyPositions p = [i] -> row_values r !! i = Some (VString "") -> key p r = Ok "".
Proof. intros Hp Hi. unfold key, raw_key. rewrite Hp. cbn [key_parts]. by rewrite Hi. Qed.

Lemma encodeBulk_bad s d before after :
  doc_Key d = "" -> exists e, encodeBulk s (before ++ d :: after) = Err e.
Proof.
  intros Hk. induction before as [|d0 before [e IH]]; cbn [encodeBulk app].
  - rewrite bool_decide_eq_true_2 by done. by eexists.
  - case_bool_decide; [by eexists|].
    destruct (if doc_Deleted d0 then _ else _) as [b|]; [|by eexists].
    cbn [mbind res_bind]. rewrite IH. by eexists.
Qed.

(** A row whose only key column holds the empty string, which is a legal
    primary key, stops an Elasticsearch stream: its document's key is empty, no
    batch with it is ever sent, and it is read and refused again after every
    restart. *)
Theorem empty_key_stops_elasticsearch `{!MapOrder} (s : ESink) p ev docs i before after w :
  (1 <= o_MaxAttempts (s_opts s))%Z ->
  p_keyPositions p = [i] -> row_values (Values ev) !! i = Some (VString "") ->
  Apply p (Some ev) = Ok docs ->
  exists e, Write s (before ++ docs ++ after) w = (w, (zero_result, Some e)).
Proof.
  intros Hmax Hp Hi Ha. pose proof (empty_string_key p _ i Hp Hi) as Hkey.
  assert (exists l d l', docs = l ++ d :: l' /\ doc_Key d = "") as (l & d & l' & -> & Hd).
  { unfold Values in *. unfold Apply, Values in Ha. apply res_bind_ok in Ha as (_ & _ & Ha).
    destruct (ev_Operation ev).
    3: { rewrite Hkey in Ha. cbn [mbind res_bind] in Ha. destruct (p_dialect p).
         - injection Ha as <-. by exists [], (mkDoc "" "" (ev_Seq ev) true), [].
         - apply res_bind_ok in Ha as (body & _ & [= <-]). by eexists [], _, []. }
    all: rewrite Hkey in Ha; cbn [mbind res_bind] in Ha; apply res_bind_ok in Ha as (body & _ & Ha);
      try (injection Ha as <-; by eexists [], _, []).
    destruct (ev_Before ev); [|injection Ha as <-; by eexists [], _, []].
    apply res_bind_ok in Ha as ([] & _ & Ha). apply res_bind_ok in Ha as (old & _ & Ha).
    case_bool_decide; injection Ha as <-; [by eexists [], _, []|by eexists [_], _, []]. }
  destruct (encodeBulk_bad s d (before ++ l) (l' ++ after) Hd) as [e He]. exists e.
  assert (before ++ (l ++ d :: l') ++ after = (before ++ l) ++ d :: (l' ++ after)) as -> by (by rewrite <- !app_assoc).
  unfold Write. destruct ((before ++ l) ++ d :: (l' ++ after)) as [|x xs] eqn:E; [by destruct (before ++ l)|].
  cbn [Write_fuel length]. destruct (Z.to_nat (o_MaxAttempts (s_opts s))) as [|n] eqn:Hn; [lia|].
  cbn [attempts]. unfold attempt. rewrite He. destruct e; done.
Qed.

End Endpoints.
