(* ===== verification/Sample.v ===== *)
(** * A sample deployment

    Concrete arguments for what the development leaves abstract, and a small
    table with its plans: what the closed instances of the theorems are
    evaluated on. *)

From Stdlib Require Import Ascii.
From S2P Require Import Prelude GoStd GoEncoding GoJson Schema Cdc Config Transform Batcher Sink Checkpoint Runner Delivery Http Elasticsearch ClickHouse.

(** Whole-number decimals, texts of floats and instants by their numbers. *)
#[export] Instance sample_lib : GoLib := {
  decimal := Z;
  decimal_eq_dec := Z.eq_dec;
  decimal_String := FormatInt;
  decimal_Exponent := fun _ => 0%Z;
  decimal_StringFixed := fun d _ => FormatInt d;
  AppendFloat_g := fun _ b => FormatInt b;
  FormatFloat_f := FormatInt;
  Sprint_float := fun _ b => FormatInt b;
  Sprint_time := FormatInt;
  Location := ();
  UTC := ();
  ParseInLocation := fun _ _ _ => None;
  FormatUTC := fun _ t => FormatInt t
}.

#[export] Instance sample_text : ErrorText := { error_text := fun _ => "error" }.

(** ** A table *)

Definition column (name : string) (position : nat) (datatype : string) (unsigned nullable : bool) : Column :=
  mkColumn name position datatype datatype unsigned nullable false "utf8mb4" "" 0 0 0 [] [].

Definition users : TableMeta :=
  mkTableMeta "shop" "users"
    [column "id" 0 "bigint" true false; column "name" 1 "varchar" false true] ["id"].

Definition no_mapping : Mapping := mkMapping [] [] [] ∅ "".

Definition field_id : field := mkField 0 "id" KindUint (dq +:+ "id" +:+ dq +:+ ":") [] [] false 0.
Definition field_name : field := mkField 1 "name" KindString (dq +:+ "name" +:+ dq +:+ ":") [] [] false 0.

Definition users_plan (d : Dialect) : Plan :=
  mkPlan users d () "null" [field_id; field_name] [0] ["id"] [field_id].

Lemma users_plan_compiled d : Compile (Some users) no_mapping d None "" = Ok (users_plan d).
Proof. destruct d; vm_compute; reflexivity. Qed.

Lemma users_wf : meta_wf users.
Proof. repeat constructor; simpl; lia. Qed.

Definition row (id : Z) (name : string) : Row := Some [VInt Uint64 id; VString name].

Definition event (op : Operation) (before after : Row) (gtid : string) (seq : Z) : ChangeEvent :=
  mkChangeEvent (Some users) op before after 0 gtid 1 seq "" 0.
Definition inserted (id : Z) (name gtid : string) (seq : Z) : ChangeEvent :=
  event OperationInsert None (row id name) gtid seq.
Definition scanned (id : Z) (name cursor : string) (rows : Z) : ChangeEvent :=
  mkChangeEvent (Some users) OperationSnapshot None (row id name) 0 "" 0 7 cursor rows.

(** ** A runner and an outside that works *)

Definition sample_limits (rows bytes : Z) : Limits := mkLimits rows bytes 1000.

Definition sample_runner (rows bytes : Z) : Runner :=
  mkRunner "users" (users_plan DialectElasticsearch) true
    (mkBatcher (sample_limits rows bytes) [] 0 zero_time) 1000 "" 0 "" 0.

Lemma sample_runner_fresh rows bytes :
  (1 <= rows)%Z -> (0 < bytes < 2 ^ 62)%Z ->
  fresh_runner (users_plan DialectElasticsearch) (sample_runner rows bytes).
Proof.
  intros. split; [done|]. split; [|done].
  split; simpl; unfold limits_ok, total_size, zlen; simpl; lia.
Defined.

Definition all_applied : Oracle := mkOracle
  (fun _ docs => (mkResult (zlen docs) 0 [], None)) (fun _ _ => Ok ()) (fun _ _ => Err ErrNotFound)
  (fun _ _ => Ok ()) (fun tr => Z.of_nat (length tr)).

Lemma all_applied_healthy : healthy all_applied.
Proof. split; intros; try done. split; [done|]. unfold Total. simpl. unfold zlen. simpl. lia. Defined.

(** ** Sinks over a world that answers every request alike *)

#[export] Instance sample_order : MapOrder := { map_range := fun A m => map_to_list m; map_range_perm := fun A m => Permutation_refl _ }.
