(* ===== verification/Witnesses.v ===== *)
(** * The theorems at work

    Each theorem that has hypotheses, applied to the sample deployment: the
    hypotheses hold there, and what the theorem then says is computed or
    stated. *)

From Stdlib Require Import Ascii Sorted.
From S2P Require Import Prelude GoStd GoEncoding GoJson Schema Cdc Config Transform Batcher Sink Checkpoint Runner Delivery Destination Convergence Http Elasticsearch ClickHouse Endpoints Sample.

Definition es_plan : Plan := users_plan DialectElasticsearch.
Definition ch_plan : Plan := users_plan DialectClickHouse.

Definition ev1 : ChangeEvent := inserted 1 "ada" "uuid:1-4" 10.
Definition ev2 : ChangeEvent := inserted 2 "grace" "uuid:1-5" 11.
(** An event whose row is a column short: it cannot be transformed. *)
Definition ev_short : ChangeEvent := event OperationInsert None (Some [VInt Uint64 3]) "uuid:1-4" 10.
Definition ev2' : ChangeEvent := inserted 2 "grace" "uuid:1-5" 20.
Definition renamed : ChangeEvent := event OperationUpdate (row 2 "grace") (row 2 "hopper") "uuid:1-6" 12.
Definition moved : ChangeEvent := event OperationUpdate (row 2 "grace") (row 3 "grace") "uuid:1-6" 12.
Definition removed : ChangeEvent := event OperationDelete (row 2 "grace") None "uuid:1-7" 13.

(** ** Transform *)

Lemma key_injective_witness :
  key es_plan (row 1 "ada") = key es_plan (row 2 "ada") <->
  key_texts es_plan (row 1 "ada") = key_texts es_plan (row 2 "ada").
Proof. apply (key_injective es_plan (row 1 "ada") (row 2 "ada") "1" "2"); vm_compute; congruence. Defined.

Lemma key_bounded_witness : (slen "1" <= maxKeyBytes)%Z /\ str_forall id_byte "1" = true.
Proof. apply (key_bounded es_plan (row 1 "ada")). reflexivity. Defined.

Lemma encodeValue_integer_exact_witness : "18446744073709551615" = FormatInt (2 ^ 64 - 1).
Proof.
  apply (encodeValue_integer_exact es_plan field_id Uint64 (2 ^ 64 - 1)); done.
Defined.

Lemma Apply_never_panics_witness : panics (Apply ch_plan (Some removed)) = false.
Proof.
  apply (Apply_never_panics users no_mapping DialectClickHouse None "").
  - exact users_wf.
  - apply users_plan_compiled.
Defined.

Lemma Apply_effect_witness :
  exists k body, key es_plan (ev_After moved) = Ok k /\ encode es_plan (ev_After moved) = Ok body /\
    foldl apply_doc {["2" := "old"]} (docs_of es_plan moved) =
    <[k := body]> (remove_replaced es_plan moved {["2" := "old"]}).
Proof. apply (Apply_effect es_plan moved (docs_of es_plan moved) {["2" := "old"]}). reflexivity. Defined.

Definition users_fields : list destinationField :=
  match resolveFields users [] [] ["id"] ∅ with Ok fs => fs | Err _ => [] end.

Lemma Compile_matches_resolveFields_witness :
  map df_name users_fields = Fields es_plan /\
  map (fun f => mapped_Kind (df_mapped f)) users_fields = map f_kind (p_fields es_plan).
Proof.
  apply (Compile_matches_resolveFields users no_mapping DialectElasticsearch None "").
  - apply users_plan_compiled.
  - vm_compute. reflexivity.
Defined.

(** ** Schema *)

Definition count_column : Column := column "count" 0 "mediumint" true false.

Lemma Map_integer_ranges_witness :
  in_range (es_range "long") 16777215 = true /\ in_range (ch_range (ch_base "UInt32")) 16777215 = true.
Proof. apply (Map_integer_ranges count_column (mkMapped KindUint "long" "UInt32") 16777215); done. Defined.

Lemma parseMemberList_render_witness :
  parseMemberList (render_members "enum" ["a,b"; "it's"; ")"]) "enum" = ["a,b"; "it's"; ")"].
Proof. apply parseMemberList_render. reflexivity. Defined.

(** ** Batcher *)

Definition doc (k body : string) (v : Z) : Doc := mkDoc k body v false.
Definition empty_batcher : Batcher := mkBatcher (sample_limits 2 100) [] 0 zero_time.

Lemma empty_batcher_inv : batcher_inv empty_batcher.
Proof. split; simpl; unfold limits_ok, total_size, zlen; simpl; lia. Defined.

Lemma small_doc_ok k : (slen k < 100)%Z -> doc_ok (doc k "{}" 1).
Proof. unfold doc_ok, Size. simpl. change (slen "{}") with 2%Z. lia. Defined.

Lemma Add_conserves_witness :
  concat [[doc "a" "{}" 1; doc "b" "{}" 1]] ++ [doc "c" "{}" 1] =
  [] ++ [doc "a" "{}" 1; doc "b" "{}" 1; doc "c" "{}" 1].
Proof.
  apply (Add_conserves 5 [doc "a" "{}" 1; doc "b" "{}" 1; doc "c" "{}" 1] empty_batcher
           [[doc "a" "{}" 1; doc "b" "{}" 1]]
           (mkBatcher (sample_limits 2 100) [doc "c" "{}" 1] 3 5)).
  - exact empty_batcher_inv.
  - repeat constructor; by apply small_doc_ok.
  - vm_compute. reflexivity.
Defined.

Definition one_pending : Batcher := mkBatcher (sample_limits 2 100) [doc "a" "{}" 1] 3 5.

Lemma Add_batch_bounds_witness :
  (1 <= zlen [doc "a" "{}" 1; doc "b" "{}" 1] <= 2)%Z.
Proof.
  apply (Add_batch_bounds 6 (doc "b" "{}" 1) one_pending [doc "a" "{}" 1; doc "b" "{}" 1]
           (mkBatcher (sample_limits 2 100) [] 0 zero_time)).
  - split; simpl; unfold limits_ok, total_size, zlen; simpl; try lia. reflexivity.
  - by apply small_doc_ok.
  - vm_compute. reflexivity.
Defined.

(** ** Checkpoints *)

Definition held : Checkpoint := set_SeqWatermark 5 (set_Stream "users" zero_checkpoint).
(** A store that works and holds the given checkpoint of a stream. *)
Definition store_holding (cp : Checkpoint) (now : Z) : MemoryStore :=
  mkMemoryStore {[cp_Stream cp := cp]} 1 now.
Definition store5 : MemoryStore := store_holding held 0.
Definition alloc : Allocator := mkAllocator "users" 10 1 0.

Definition issued_once : (Allocator * MemoryStore) * res alloc_error Z := Next (alloc, store5).

(** The row is saved as it was before the reservation, a second version is
    issued, and a second later the process starts again. *)
Definition taken_back : MemoryStore := (MemoryStore_Save held issued_once.1.2).1.
Definition issued_twice := Next (issued_once.1.1, taken_back).
Definition much_later : MemoryStore := mkMemoryStore (ms_data taken_back) 3 (10 ^ 9).
Definition issued_after := Next (alloc, much_later).


Lemma stale_save_reissues_witness :
  exists aw, Next (alloc, (MemoryStore_Save held issued_once.1.2).1) = (aw, Ok 6%Z).
Proof.
  apply (stale_save_reissues "users" 10 held store5 issued_once.1.1 issued_once.1.2 6);
    vm_compute; congruence.
Defined.

Definition spent : MemoryStore := store_holding (set_SeqWatermark (2 ^ 64 - 1) held) (10 ^ 9).

Lemma reserve_wraps_at_limit_witness :
  exists aw, Next (mkAllocator "users" 10 1 0, spent) = (aw, Ok (seqFloor (10 ^ 9))).
Proof.
  apply (reserve_wraps_at_limit "users" 10 (set_SeqWatermark (2 ^ 64 - 1) held) spent);
    vm_compute; congruence.
Defined.

(** ** Delivery *)

Definition start (r : Runner) : Runner * World := (r, mkWorld all_applied []).
Definition two_events : list signal := [Received ev1; Received ev_short; Received ev2; Closed].
Definition run2 := Run two_events (start (sample_runner 1 1000)).

Lemma stream_events : Forall (stream_event es_plan) [ev1; ev_short; ev2].
Proof. repeat constructor; done. Defined.

(** The trace of the two events, cut where the second position is saved. *)
Definition saved2 : Checkpoint := advanced (note_event ev2 (note_event ev1 (sample_runner 1 1000))) zero_checkpoint.
Definition before_saved2 : list effect := take (length (trace run2.1.2) - 2) (trace run2.1.2).

Lemma position_follows_writes_witness :
  exists acked turned, audit before_saved2 = Quiet acked turned /\
    covered es_plan [ev1; ev_short; ev2] acked turned saved2.
Proof.
  apply (position_follows_writes es_plan (sample_runner 1 1000) all_applied two_events run2.1 run2.2
           before_saved2 saved2 (Ok ()) [Waited]).
  - apply sample_runner_fresh; done.
  - exact stream_events.
  - vm_compute. reflexivity.
  - vm_compute. reflexivity.
Defined.

Lemma Run_delivers_witness :
  audit (trace run2.1.2) = Quiet (docs_all es_plan [ev1; ev_short; ev2]) (refusals es_plan [ev1; ev_short; ev2]).
Proof.
  apply (Run_delivers es_plan (sample_runner 1 1000) all_applied two_events run2.1).
  - apply sample_runner_fresh; done.
  - exact stream_events.
  - vm_compute. reflexivity.
Defined.

Lemma Run_completes_witness :
  exists rw', Run (map Received [ev1; ev_short; ev2] ++ [Closed]) (start (sample_runner 2 1000)) = (rw', Some (Ok ())) /\
    audit (trace rw'.2) = Quiet (docs_all es_plan [ev1; ev_short; ev2]) (refusals es_plan [ev1; ev_short; ev2]).
Proof.
  apply (Run_completes es_plan (sample_runner 2 1000) all_applied [ev1; ev_short; ev2]).
  - apply sample_runner_fresh; done.
  - done.
  - exact all_applied_healthy.
  - exact stream_events.
Defined.

Definition scan1 : ChangeEvent := scanned 1 "ada" "" 0.
Definition scan_short : ChangeEvent :=
  mkChangeEvent (Some users) OperationSnapshot None (Some [VInt Uint64 3]) 0 "" 0 7 "" 0.
Definition scan2 : ChangeEvent := scanned 2 "grace" "c2" 2.
Definition scan_signals : list signal := [Received scan1; Received scan_short; Received scan2; Closed].
Definition scanned_run := Run scan_signals (start (sample_runner 2 1000)).
Definition scan_saved : Checkpoint := advanced (note_event scan2 (sample_runner 2 1000)) zero_checkpoint.
Definition before_scan_saved : list effect := take (length (trace scanned_run.1.2) - 2) (trace scanned_run.1.2).

Lemma cursor_follows_writes_witness :
  exists acked turned, audit before_scan_saved = Quiet acked turned /\
    cursor_covered es_plan [scan1; scan_short; scan2] acked turned scan_saved.
Proof.
  apply (cursor_follows_writes es_plan (sample_limits 2 1000) (sample_runner 2 1000) all_applied
           scan_signals scanned_run.1 scanned_run.2 before_scan_saved scan_saved (Ok ()) [Waited]).
  - apply sample_runner_fresh; done.
  - done.
  - repeat constructor; done.
  - vm_compute. reflexivity.
  - vm_compute. reflexivity.
Defined.

(** A batch of at most 40 bytes: the second row overflows it. *)
Definition scan_doc (id : Z) (name : string) : Doc :=
  match docs_of es_plan (scanned id name "" 0) with d :: _ => d | [] => mkDoc "" "" 0 false end.
Definition nearly_full : Runner :=
  set_batcher (mkBatcher (sample_limits 100 40) [scan_doc 1 "ada"] (Size (scan_doc 1 "ada")) 0)
    (sample_runner 100 40).
Definition overflowed := handle scan2 (start nearly_full).

Lemma cursor_recorded_before_its_row_witness :
  b_pending (r_batcher overflowed.1.1) = [scan_doc 2 "grace"] /\
  exists pre cp, trace overflowed.1.2 = pre ++ [Saved cp (Ok ())] /\ cp_SnapshotCursor cp = "c2".
Proof.
  apply (cursor_recorded_before_its_row scan2 (scan_doc 2 "grace") nearly_full (mkWorld all_applied []) overflowed.1).
  - vm_compute. reflexivity.
  - done.
  - split; vm_compute; repeat split; congruence.
  - done.
  - vm_compute. repeat split.
  - vm_compute. reflexivity.
Defined.

(** ** Convergence *)

Lemma stream_replicates_witness :
  visible (puts ∅ (docs_all es_plan [ev1; ev2; renamed; removed])) =
  foldl (replicate_event es_plan) (visible ∅) [ev1; ev2; renamed; removed].
Proof.
  apply stream_replicates.
  - split; [repeat constructor; simpl; lia|]. repeat constructor; intros k v c; by rewrite lookup_empty.
  - repeat constructor; done.
Defined.

Lemma recovery_converges_witness :
  visible (puts (puts ∅ (docs_all es_plan [ev1])) (docs_all es_plan [ev2'])) =
  foldl (replicate_event es_plan) (visible ∅) ([ev1] ++ [ev2]).
Proof.
  apply (recovery_converges es_plan ∅ [ev1] [ev2] [ev2'] (docs_all es_plan [ev1])).
  - repeat constructor; done.
  - done.
  - exists (docs_all es_plan [ev2]). reflexivity.
  - repeat constructor; done.
  - split; [repeat constructor; simpl; lia|]. repeat constructor; intros k v c; by rewrite lookup_empty.
Defined.

(** ** Elasticsearch *)

(** A cluster that applies the first document of every request and asks for the
    others again; waiting costs nothing. *)
Definition item (status : string) : string :=
  "{" +:+ dq +:+ "index" +:+ dq +:+ ":{" +:+ dq +:+ "status" +:+ dq +:+ ":" +:+ status +:+ "}}".
Definition bulk_answer (items : list string) : string :=
  "{" +:+ dq +:+ "items" +:+ dq +:+ ":[" +:+ Join items "," +:+ "]}".

(** The world counts the requests made: the second document is applied by the
    second one. *)
#[local] Instance counting_http : HttpOps Z := {
  http_Do rq w :=
    ((w + 1)%Z, Ok (200%Z, if (w =? 0)%Z then bulk_answer [item "201"; item "429"] else bulk_answer [item "201"])) }.
#[local] Instance counting_timer : TimerOps Z := {
  rand_Int63n n w := (w, 0%Z); sleep d w := (w, Ok ()) }.

Definition es_options : Options := mkOptions ["http://es:9200/"] "users" "" "" "" 1 3 1000 8000 false 1000.
Definition es_sink : ESink :=
  match NewESink es_options with Ok s => s | Err _ => mkESink es_options "" "" end.
Definition batch2 : list Doc := docs_all es_plan [ev1; ev2].
Definition written2 := Write es_sink batch2 (0%Z, 0%Z).


Lemma Write_terminates_witness : written2.2.2 <> Some EOutOfFuel.
Proof. apply Write_terminates. vm_compute. congruence. Defined.

Definition bulk2 : string := match encodeBulk es_sink batch2 with Ok t => t | Err _ => "" end.

Lemma encodeBulk_roundtrip_witness :
  read_bulk "users" (SplitByte newline bulk2) = Some (map sent batch2).
Proof.
  apply (encodeBulk_roundtrip es_options es_sink batch2 bulk2).
  - vm_compute. reflexivity.
  - vm_compute. reflexivity.
  - repeat constructor; vm_compute; done.
  - vm_compute. reflexivity.
Defined.

Lemma elasticsearch_encodes_iff_witness :
  is_ok (encodeBulk es_sink (docs_of es_plan moved)) = true <->
  Forall (fun d => doc_Key d <> "") (docs_of es_plan moved).
Proof. apply (elasticsearch_encodes_iff es_sink es_plan moved). vm_compute. reflexivity. Defined.

(** A table keyed by its name. *)
Definition named_plan : Plan := mkPlan users DialectElasticsearch () "null" [field_id; field_name] [1] ["name"] [field_name].
Definition unnamed : ChangeEvent := inserted 1 "" "uuid:1-8" 14.

Lemma empty_key_stops_elasticsearch_witness :
  exists e, Write es_sink ([] ++ docs_of named_plan unnamed ++ batch2) (0%Z, 0%Z) = ((0%Z, 0%Z), (zero_result, Some e)).
Proof.
  apply (empty_key_stops_elasticsearch es_sink named_plan unnamed _ 1 [] batch2 (0%Z, 0%Z));
    vm_compute; congruence.
Defined.

(** ** ClickHouse *)

#[local] Instance sample_url : UrlOps := {
  url := string; url_Parse := Some; url_Scheme _ := "http"; url_User _ := None;
  url_Database _ := "shop"; url_WithoutUser u := u; url_WithQuery u _ := u }.

(** A server that refuses a batch with a row of the name "bad". *)
#[local] Instance picky_http : HttpOps () := {
  http_Do rq w :=
    (w, Ok (match rq_Body rq with Some b => if Contains b "bad" then 400 else 200 | None => 200 end, "")%Z) }.
#[local] Instance idle_timer : TimerOps () := {
  rand_Int63n n w := (w, 0%Z); sleep d w := (w, Ok ()) }.

Definition ch_options : ch_Options := mkChOptions "http://ch:8123" "users" 1 3 1000 8000 false 1000.
Definition ch_sink : CSink :=
  match NewCSink ch_options with Ok s => s | Err _ => mkCSink ch_options "" "" "" "" end.

Definition rows3 : list Doc :=
  docs_all ch_plan [inserted 1 "ada" "" 10; inserted 2 "bad" "" 11; inserted 3 "grace" "" 12].
Definition is_bad (d : Doc) : bool := Contains (doc_Body d) "bad".
Definition written3 := ch_Write ch_sink rows3 ().

Lemma picky_judges : judges ch_sink is_bad rows3.
Proof.
  intros pre ds post [] Hds Hne.
  assert (exists i n, i <= 3 /\ n <= 3 /\ ds = take n (drop i rows3)) as (i & n & Hi & Hn & ->).
  { exists (length pre), (length ds). pose proof (f_equal length Hds) as Hlen.
    rewrite !length_app in Hlen. change (length rows3) with 3 in Hlen.
    split_and!; [lia|lia|]. rewrite Hds, drop_app_length. by rewrite take_app_length. }
  do 4 (destruct i as [|i]; [do 4 (destruct n as [|n];
    [first [by destruct Hne | eexists _, _, _; split; vm_compute; reflexivity]|]); lia|]). lia.
Defined.

Lemma ch_Write_isolates_witness :
  exists w' r, ch_Write ch_sink rows3 () = (w', (r, None)) /\ isolated is_bad rows3 r.
Proof.
  apply (ch_Write_isolates ch_sink is_bad rows3 ()).
  - vm_compute. congruence.
  - exact picky_judges.
Defined.

Definition result3 : Result := written3.2.1.

Lemma ch_Write_accounts_witness : accounts_for rows3 result3.
Proof. apply (ch_Write_accounts ch_sink rows3 () written3.1). vm_compute. reflexivity. Defined.

Lemma ch_Write_narrows_witness : ~ gave_up written3.2.2.
Proof. apply (ch_Write_narrows ch_sink rows3 ()). vm_compute. congruence. Defined.

Definition inner_of (d : Doc) : string :=
  match split_last (drop_str 1 (doc_Body d)) with Some (t, _) => t | None => "" end.

Lemma encodeRows_lines_witness :
  exists text, encodeRows rows3 = Ok text /\
    SplitByte newline text = zip_with row_line (map inner_of rows3) rows3 ++ [""].
Proof. apply encodeRows_lines. repeat constructor. Defined.

Lemma clickhouse_encodes_iff_witness :
  is_ok (encodeRows (docs_of ch_plan moved)) = true <-> length (docs_of ch_plan moved) = 1.
Proof. apply (clickhouse_encodes_iff ch_plan moved); reflexivity. Defined.

Lemma key_change_stops_clickhouse_witness :
  exists e, ch_Write ch_sink (rows3 ++ docs_of ch_plan moved ++ []) () = ((), (zero_result, Some e)).
Proof. apply (key_change_stops_clickhouse ch_sink ch_plan moved); reflexivity. Defined.
