(* ===== verification/BinlogWitnesses.v ===== *)
(** * The binlog reader on concrete inputs

    A GTID library whose sets are the first so many transactions of one server,
    and each theorem on the reader applied at a short log. *)

From Stdlib Require Import Ascii.
From S2P Require Import Prelude GoStd GoEncoding GoJson Schema Cdc Snapshot Binlog Sample.

(** ** Sets of the first [n] transactions *)

Definition number_text (n : nat) : string := FormatUint (Z.of_nat n).
Definition text_number (s : string) : option nat :=
  match s with
  | "" => None
  | _ => (fun d => N.to_nat (N.of_uint d)) <$> DecimalString.NilEmpty.uint_of_string s
  end.

Lemma text_number_text n : text_number (number_text n) = Some n.
Proof.
  unfold text_number, number_text. pose proof (FormatUint_ne (Z.of_nat n)).
  destruct (FormatUint (Z.of_nat n)) eqn:E; [done|]. rewrite <- E. unfold FormatUint.
  rewrite DecimalString.NilEmpty.usu. simpl. rewrite DecimalN.Unsigned.of_to. f_equal. lia.
Qed.

Definition first_ids (n : nat) : gset string := list_to_set (map number_text (seq 1 n)).

Lemma elem_of_first_ids n s : s ∈ first_ids n <-> exists i, 1 <= i <= n /\ s = number_text i.
Proof.
  unfold first_ids. rewrite elem_of_list_to_set, list_elem_of_fmap. split.
  - intros (i & -> & Hi%elem_of_seq). exists i. split; [lia|done].
  - intros (i & Hi & ->). exists i. split; [done|]. apply elem_of_seq. lia.
Qed.

#[export] Instance counted_gtid : GtidLib := {
  GTIDSet := nat;
  ParseMysqlGTIDSet := text_number;
  Contain := fun a b => bool_decide (b <= a);
  Update := fun n t => if bool_decide (t = number_text (S n)) then Some (S n) else None;
  GTID_String := number_text }.

#[export] Program Instance counted_laws : GtidLaws := { denote := first_ids }.
Next Obligation.
  intros a b. simpl. rewrite bool_decide_eq_true. split.
  - intros Hle s. rewrite !elem_of_first_ids. intros (i & Hi & ->). exists i. split; [lia|done].
  - intros Hsub. destruct b as [|b]; [lia|]. assert (number_text (S b) ∈ first_ids a) as Hin.
    { apply Hsub, elem_of_first_ids. exists (S b). split; [lia|done]. }
    apply elem_of_first_ids in Hin as (i & Hi & Heq). apply FormatUint_inj in Heq; lia.
Qed.
Next Obligation.
  intros n t n'. simpl. case_bool_decide as Ht; [|done]. intros [= <-]. apply set_eq. intros s.
  rewrite elem_of_union, elem_of_singleton, !elem_of_first_ids. subst t. split.
  - intros (i & Hi & ->). destruct (decide (i = S n)) as [->|]; [by right|left; exists i; split; [lia|done]].
  - intros [(i & Hi & ->)| ->]; [exists i|exists (S n)]; (split; [lia|done]).
Qed.
Next Obligation. intros n. exists n. split; [apply text_number_text|done]. Qed.

(** No transaction. *)
Definition none : @GTIDSet counted_gtid := 0.

(** ** A reader whose world is what was sent *)

#[export] Instance sample_reader : ReaderOps (list ChangeEvent) := {
  schema_Load := fun _ _ w => (w, Ok users);
  seq_Next := fun w => (w, Ok (Z.of_nat (length w)));
  event_Send := fun ev w => (w ++ [ev], Ok ()) }.

#[export] Program Instance sample_reader_laws : ReaderLaws (W := list ChangeEvent) := { sent := id }.
Next Obligation. done. Qed.
Next Obligation. done. Qed.
Next Obligation. by intros ev w w' [= <-]. Qed.

Definition inserts (rows : list (list value)) : binlog_event :=
  RowsEvent (mkRowsEvent WRITE_ROWS_EVENTv2 5 "shop" "users" ["id"; "name"] rows).

Definition before_log : list transaction :=
  [Committed "1" [inserts [[VInt Uint64 1; VString "a"]; [VInt Uint64 2; VString "b"]]];
   Statement "ddl" "shop" "ALTER TABLE users ADD note text"].
Definition second_tx : transaction := Committed "2" [inserts [[VInt Uint64 3; VString "c"]]].
Definition after_log : list transaction := [Committed "3" [OtherEvent]].
Definition whole_log : list transaction := before_log ++ second_tx :: after_log.

Definition reader : Streamer :=
  mkStreamer (mkBOptions "db" 3306 7 "0" ["shop.users"] true true 1 1 1) {["shop.users" := ()]} ∅ (Some none) "".

Lemma whole_log_wf : Forall well_formed whole_log.
Proof. repeat constructor; discriminate. Defined.

Lemma whole_log_ids : NoDup (map tx_id whole_log).
Proof. apply (bool_decide_unpack _). vm_compute. exact I. Defined.

Lemma whole_log_fresh u : u ∈ whole_log -> tx_id u ∉ denote none.
Proof. intros _. change (denote none) with (∅ : gset string). apply not_elem_of_empty. Qed.

Definition run_before := handle_all (concat (map tx_log before_log)) (reader, []).
Definition run_second := handle_all (opening second_tx) run_before.1.


Definition run_whole := handle_all (concat (map tx_log whole_log)) (reader, []).

Lemma statement_never_in_position_witness :
  exists n, sm_executed run_whole.1.1 = Some n /\ "ddl" ∉ denote n.
Proof.
  destruct (statement_never_in_position none reader [] whole_log run_whole.1.1 run_whole.1.2
    (Statement "ddl" "shop" "ALTER TABLE users ADD note text") {["ddl"]}) as (n & Hn & Hsub).
  - reflexivity.
  - apply whole_log_wf.
  - apply whole_log_ids.
  - apply whole_log_fresh.
  - vm_compute. reflexivity.
  - apply list_elem_of_In. right. left. reflexivity.
  - reflexivity.
  - by apply elem_of_singleton.
  - exists n. split; [exact Hn|]. intros Hin. apply Hsub. intros x ->%elem_of_singleton. exact Hin.
Defined.

(** ** Two tables in one statement, and a row from before a column was added *)

Definition two_tables : Streamer :=
  mkStreamer (sm_opts reader) {["shop.users" := (); "shop.orders" := ()]}
    {["shop.users" := users; "shop.orders" := users]} (Some none) "".

Lemma ddl_reloads_one_table_witness :
  is_Some (sm_schemas (invalidate "shop" "DROP TABLE users, orders" two_tables) !! "shop.users") \/
  is_Some (sm_schemas (invalidate "shop" "DROP TABLE users, orders" two_tables) !! "shop.orders").
Proof.
  apply (ddl_reloads_one_table "shop" "DROP TABLE users, orders" two_tables "shop.users" "shop.orders");
    try (vm_compute; reflexivity); try (vm_compute; eauto; fail). vm_compute. discriminate.
Defined.

Definition old_rows : rows_event := mkRowsEvent WRITE_ROWS_EVENTv2 5 "shop" "users" ["NAME"] [[VString "a"]].

