(* ===== verification/ScanWitnesses.v ===== *)
(** * The scan, the configuration and the supervisor on concrete inputs

    Each lemma applies one theorem at an input where its hypotheses hold,
    evaluated. *)

From Stdlib Require Import Ascii.
From S2P Require Import Prelude GoStd GoEncoding GoJson SqlText Schema Cdc Config Transform Batcher Sink Checkpoint Runner Destination Snapshot Binlog ElasticsearchAdmin Supervisor Sample BinlogWitnesses.

#[export] Instance sample_scan : ScanLib := {
  NewFromString := ParseInt; ParseFloat := ParseInt; FormatLocal := fun _ t => FormatInt t }.

(** ** A table of five rows, scanned two at a time *)

Definition table_row (id : Z) (name : string) : trow (V := value) :=
  fun c => if bool_decide (c = "id") then VInt Uint64 id else VBytes name.
Definition five_table : list trow := map (fun n => table_row n "x") [3; 1; 10; 2; 4]%Z.
Definition sorted_table : list trow := map (fun n => table_row n "x") [1; 2; 3; 4; 10]%Z.

Definition scan_options (cursor : string) : SOptions := mkSOptions true (Some users) ["id"] 2 0 cursor 7 true.

Definition scanner (cursor : string) : Snapshotter :=
  mkSnapshotter users (scan_options cursor) [column "id" 0 "bigint" true false]
    (tm_Columns users) 0 None false.

Definition five_rows : list (list value) := map (project (scanner "")) sorted_table.

(** A server that compares every column by the number it holds or spells. *)
Definition number_of (_ : string) (v : value) : Z :=
  match v with
  | VInt _ n => n
  | VString t | VBytes t => default 0%Z (ParseUint t 64)
  | _ => 0%Z
  end.
Definition by_number (c : string) (v w : value) : comparison := Z.compare (number_of c v) (number_of c w).

(** The arguments of a query with a limit, and without. *)
Definition split_args (q : select) (args : list value) : option (list value * option Z) :=
  if sel_limit q then
    match last args with Some (VInt Int n) => Some (removelast args, Some n) | _ => None end
  else Some (args, None).

Lemma split_args_spec meta q bound limit : asks meta q bound limit -> split_args q (bound ++ limit_args limit) = Some (bound, limit).
Proof.
  intros (_ & _ & _ & Hl & _). unfold split_args. destruct limit as [n|]; cbn [limit_args].
  - rewrite bool_decide_eq_true_2 in Hl by done. rewrite Hl, last_snoc. by rewrite removelast_last.
  - rewrite bool_decide_eq_false_2 in Hl by (by intros []). by rewrite Hl, app_nil_r.
Qed.

(** What a server with these rows answers to a text. *)
Definition server_answer (rows : list trow) (text : string) (args : list value) : res outside_error Rows :=
  match spelled text with
  | Some (Select q) =>
      match split_args q args with
      | Some (bound, limit) => Ok (mkRows (map Ok (answer by_number coalesced_value q bound (Z.to_nat <$> limit) rows)) None)
      | None => Err (Failed "arguments")
      end
  | _ => Err (Failed "syntax")
  end.

Lemma server_answers meta rows text q bound limit :
  spelled text = Some (Select q) -> asks meta q bound limit ->
  exists out, server_answer rows text (bound ++ limit_args limit) = Ok (mkRows (map Ok out) None) /\
    answers by_number coalesced_value q bound (Z.to_nat <$> limit) rows out.
Proof.
  intros Ht Ha. unfold server_answer. rewrite Ht, (split_args_spec _ _ _ _ Ha). eexists. split; [done|].
  by apply (answer_answers _ _ number_of).
Qed.

Lemma by_number_raw c v w :
  by_number c (rawKeyValue v) w = by_number c v w /\ by_number c v (rawKeyValue w) = by_number c v w.
Proof. split; [by destruct v|by destruct w]. Qed.

(** The world is what was sent. *)
#[local] Instance five_server : ScanOps (list ChangeEvent) := {
  db_Conn := fun w => (w, Ok ());
  db_Exec := fun _ w => (w, Ok ());
  db_Query := fun text args w => (w, server_answer five_table text args);
  conn_Close := fun w => w;
  out_Send := fun ev w => (w ++ [ev], Ok ());
  scan_Observe := fun _ w => w;
  scan_Now := fun _ => 0%Z;
  pause := fun _ w => (w, Ok ()) }.

Lemma answers_perm q bound limit rows rows' out :
  rows ≡ₚ rows' -> answers by_number coalesced_value q bound limit rows out ->
  answers by_number coalesced_value q bound limit rows' out.
Proof.
  intros Hp (l & Hl & Hrest). exists l. split; [|done]. rewrite Hl. clear -Hp.
  induction Hp; cbn; repeat case_match; try done; [by apply Permutation_cons|apply Permutation_swap|by etransitivity].
Qed.

Lemma five_serves cursor : serves (scanner cursor) by_number sorted_table id.
Proof.
  split; [by eauto..|exact by_number_raw|].
  intros text q bound limit w Ht Ha. destruct (server_answers _ five_table _ _ _ _ Ht Ha) as (out & Ho & Hans).
  exists w, out. split; [|split; [|done]].
  - change (db_Query text (bound ++ limit_args limit) w) with (w, server_answer five_table text (bound ++ limit_args limit)).
    by rewrite Ho.
  - eapply answers_perm; [|exact Hans]. unfold five_table, sorted_table. apply fmap_Permutation. apply (bool_decide_unpack _). vm_compute. exact I.
Qed.

Lemma five_ordered cursor : key_ordered (scanner cursor) (beyond (scanner cursor) by_number) five_rows.
Proof.
  intros i j ri rj Hi Hj.
  do 5 (destruct i as [|i]; [injection Hi as <-; do 5 (destruct j as [|j]; [injection Hj as <-; reflexivity|]); done|]).
  done.
Defined.

Lemma users_names : distinct_names (tm_Columns users).
Proof.
  intros c c' Hc Hc'. apply list_elem_of_In in Hc, Hc'. simpl in Hc, Hc'.
  destruct Hc as [<-|[<-|[]]], Hc' as [<-|[<-|[]]]; vm_compute; congruence.
Defined.

Lemma five_textual cursor : textual_keys (scanner cursor) (beyond (scanner cursor) by_number) five_rows.
Proof.
  split; [|repeat constructor].
  intros k r Hr. apply list_elem_of_In in Hr. simpl in Hr. unfold beyond.
  repeat (destruct Hr as [<-|Hr]; [reflexivity|]). done.
Defined.

Definition after_two : string := start_cursor (scanner "") five_rows (Some 1).

Lemma scan_sends_the_rest_witness :
  exists w', Events 6 (scanner after_two, []) = Some (set_done (with_rows 3 (scanner after_two)), w') /\
    map ev_After w' = map (fun r => Some (row_of (scanner "") r)) (drop 2 five_rows).
Proof.
  destruct (scan_sends_the_rest (scanner after_two) (scan_options after_two) by_number sorted_table id (Some 1) 6 [])
    as (w' & He & Hw).
  - vm_compute. reflexivity.
  - reflexivity.
  - exact users_names.
  - repeat constructor.
  - apply five_serves.
  - repeat constructor.
  - apply five_ordered.
  - apply five_textual.
  - simpl. lia.
  - simpl. lia.
  - exists w'. split; [exact He|]. change w' with (id w'). rewrite Hw. vm_compute. reflexivity.
Defined.

(** ** Members, cursors and keys *)

Definition set_column : Column :=
  mkColumn "tags" 0 "SET" "" false true false "" "" 0 0 0 [] ["red"; "green"; "blue"].
Definition set_field : field := mkField 0 "tags" KindSet "" [] ["red"; "green"; "blue"] false 0.

Lemma set_roundtrip_witness :
  exists v, toEventValue set_column (VString "red,blue") = Ok v /\
    appendSet set_field v = Ok ("[" +:+ Join (map appendJSONString ["red"; "blue"]) "," +:+ "]").
Proof.
  apply (set_roundtrip set_column set_field ["red"; "blue"]); try reflexivity.
  - apply (bool_decide_unpack _). vm_compute. exact I.
  - vm_compute. discriminate.
  - repeat constructor; discriminate.
  - repeat constructor.
Defined.

Lemma bit_column_misread_witness :
  toEventValue (column "flags" 0 "bit" false true) (VBytes (str1 (byte_of_Z 49))) = Ok (VInt Int64 1).
Proof. apply (bit_column_misread (column "flags" 0 "bit" false true) (byte_of_Z 49)). reflexivity. Defined.

Definition binary_table : TableMeta := mkTableMeta "shop" "blobs" [column "id" 0 "binary" false false] ["id"].
Definition binary_scanner : Snapshotter :=
  mkSnapshotter binary_table (mkSOptions true (Some binary_table) ["id"] 2 0 "" 7 true)
    (tm_Columns binary_table) (tm_Columns binary_table) 0 None false.

Lemma binary_cursor_skips_rows_witness :
  exists cursor, decodeCursor (encodeCursor (row_key binary_scanner [VBytes (str1 (byte_of_Z 128))])) 1 = Ok (Some cursor) /\
    rows_after binary_scanner bytes_beyond (Some cursor)
      [[VBytes (str1 (byte_of_Z 128))]; [VBytes (str1 (byte_of_Z 129))]] = [].
Proof.
  apply (binary_cursor_skips_rows binary_scanner [VBytes (str1 (byte_of_Z 128))] [VBytes (str1 (byte_of_Z 129))]
    (byte_of_Z 128) (byte_of_Z 129)); try reflexivity; vm_compute; split; congruence.
Defined.

(** A key that MySQL stores and computes, which a plan for Elasticsearch
    accepts. *)
Definition generated_table : TableMeta :=
  mkTableMeta "shop" "g"
    [mkColumn "id" 0 "bigint" "bigint" false false true "" "" 0 0 0 [] []; column "n" 1 "bigint" false false] ["id"].
Definition generated_scanner : Snapshotter :=
  mkSnapshotter generated_table (mkSOptions true (Some generated_table) ["id"] 2 0 "" 7 true)
    (take 1 (tm_Columns generated_table)) (drop 1 (tm_Columns generated_table)) 0 None false.

Example generated_key_compiles :
  is_ok (Compile (Some generated_table) no_mapping DialectElasticsearch None "") = true.
Proof. vm_compute. reflexivity. Qed.

Lemma scan_needs_stored_key_witness :
  scanRow generated_scanner (Ok [VInt Int64 5]) = Err (ESnapPanic (-1)).
Proof.
  apply (scan_needs_stored_key generated_scanner (sn_opts generated_scanner) [VInt Int64 5] [VNil; VInt Int64 5]).
  - vm_compute. reflexivity.
  - intros c c' Hc Hc'. apply list_elem_of_In in Hc, Hc'. simpl in Hc, Hc'.
    destruct Hc as [<-|[<-|[]]], Hc' as [<-|[<-|[]]]; vm_compute; congruence.
  - reflexivity.
  - vm_compute. reflexivity.
Defined.

(** ** Configuration *)

Lemma ByteSize_roundtrip_witness : ParseByteSize (ByteSize_String 5242880) = Ok 5242880%Z.
Proof. apply (ByteSize_roundtrip 5242880). vm_compute. split; congruence. Defined.

Example size_text_5MiB : ByteSize_String 5242880 = "5MiB". Proof. reflexivity. Qed.

Example expands_references :
  expandEnv "dsn: ${DSN}, zone: ${TZ:-UTC}, ${MISSING}"
    (fun n => if bool_decide (n = "DSN") then Some "db" else None)
  = ("dsn: db, zone: UTC, ", ["MISSING"]).
Proof. vm_compute. reflexivity. Qed.

Definition users_stream : Stream :=
  mkStream "" "shop.users" (mkSnapshotConfig None None None false 0 0) (mkBatch None None 0 0 0)
    (mkSinkConfig "elasticsearch" None 0 ["http://es:9200"] "users-v1" "" "" "") no_mapping.

Definition users_file : Decoded :=
  mkDecoded (mkSource "db" 7 "" "" 0 0 "") (mkCheckpointStore "db" "") (mkRuntime None 0 "" 0 0)
    {["users" := Some users_stream]}.

#[local] Instance sample_config : ConfigLib := {
  yaml_Decode := fun _ => Some users_file;
  known_location := fun _ => true;
  time_ParseDuration := fun _ => None;
  is_float := fun _ => false }.

Definition no_lookup (_ : string) : option string := None.
Definition users_config : Stream := default_stream (named "users" users_stream).
Definition users_cfg : Config :=
  applyDefaults (mkConfig (d_Source users_file) (d_Checkpoint users_file) (d_Runtime users_file)
    {["users" := named "users" users_stream]}).

Definition users_runtime (stream : string) : StreamRuntime :=
  mkStreamRuntime (named stream users_config) users (mkAllocator stream seqBlockSize 1 0).

Definition started : Checkpoint := start_snapshot "users" "uuid:1-5" 1 0 zero_checkpoint.

Lemma accepted_stream_builds_witness :
  (exists r, buildRunner users_config (users_plan DialectElasticsearch) 0 = Ok r /\
     b_pending (r_batcher r) = [] /\ r_stream r = "users") /\
  is_ok (newScanner (users_runtime "users") started) = true.
Proof.
  destruct (accepted_stream_builds "text" no_lookup users_cfg "users" users_config
    (users_plan DialectElasticsearch) 0 (users_runtime "users") started) as (_ & Hr & _).
  - vm_compute. reflexivity.
  - reflexivity.
  - intros d [= <-] name s Hs. change (d_Streams users_file) with ({["users" := Some users_stream]} : gmap string (option Stream)) in Hs.
    apply lookup_singleton_Some in Hs as [_ [= <-]]. simpl. lia.
  - reflexivity.
  - discriminate.
  - split; [exact Hr|]. vm_compute. reflexivity.
Defined.

(** ** Routing *)

#[local] Instance sample_queues : QueueOps (list (nat * ChangeEvent)) := {
  queue_Send := fun out ev w => (w ++ [(out, ev)], Ok ());
  queue_Close := fun _ w => w }.

#[local] Program Instance sample_queue_laws : QueueLaws (W := list (nat * ChangeEvent)) := {
  queued := fun w c => map snd (List.filter (fun x => bool_decide (x.1 = c)) w) }.
Next Obligation.
  intros out ev w w' [= <-] c. rewrite List.filter_app, map_app. f_equal. simpl.
  rewrite (bool_decide_ext (out = c) (c = out)) by done. by case_bool_decide.
Qed.

Definition two_streams : list (string * nat) := [("shop.users", 0); ("shop.Users", 1); ("shop.orders", 2)].
Definition three_events : list ChangeEvent :=
  [inserted 1 "a" "g1" 1; inserted 2 "b" "g2" 2; scanned 3 "c" "" 0].

Lemma route_delivers_witness :
  let w' := (route_events (build_router two_streams) three_events []).1 in
  queued w' 1 = three_events /\ queued w' 2 = [].
Proof.
  split.
  - rewrite (route_delivers two_streams three_events [] _ "shop.Users" 1); [reflexivity| | |reflexivity].
    + repeat (apply NoDup_cons_2; [by vm_compute; intros H; apply list_elem_of_In in H; simpl in H; lia|]). constructor.
    + right. left.
  - rewrite (route_delivers two_streams three_events [] _ "shop.orders" 2); [reflexivity| | |reflexivity].
    + repeat (apply NoDup_cons_2; [by vm_compute; intros H; apply list_elem_of_In in H; simpl in H; lia|]). constructor.
    + right. right. left.
Defined.

(** ** Positions *)

Lemma sharedStart_behind_all_witness :
  exists s, ({["a" := "7"; "b" := "5"; "c" := "9"]} : gmap string string) !! s = Some "5" /\
    behind_all {["a" := "7"; "b" := "5"; "c" := "9"]} s.
Proof.
  pose proof (sharedStart_behind_all {["a" := "7"; "b" := "5"; "c" := "9"]}) as H.
  change (sharedStartPosition {["a" := "7"; "b" := "5"; "c" := "9"]}) with (Ok "5" : res position_error string) in H.
  apply H.
  - discriminate.
  - intros s t Ht. repeat (apply lookup_insert_Some in Ht as [[_ <-]|[_ Ht]]; [vm_compute; eauto|]).
    apply lookup_singleton_Some in Ht as [_ <-]. vm_compute. eauto.
Defined.

(** ** The initial scan *)

#[local] Instance sample_backfill : BackfillOps MemoryStore := {
  source_gtid := fun w => (w, Ok "uuid:1-5");
  source_rows := fun _ w => (w, Some 5%Z);
  replica_Open := fun _ w => (w, Ok ());
  replica_Close := fun w => w;
  pipe_Scan := fun _ _ w => (w, (Ok (), None, true));
  sink_AliasTargets := fun _ w => (w, Ok []);
  sink_BeginBulkLoad := fun _ w => (w, Ok (mkLoadSettings "" true));
  sink_EndBulkLoad := fun _ _ w => (w, Ok ());
  sink_ForceMerge := fun _ w => (w, Ok ());
  sink_PromoteAlias := fun _ w => (w, Err "no alias");
  context_Err := fun w => (w, Ok ()) }.

#[local] Instance sample_backfill_laws : BackfillLaws (W := MemoryStore).
Proof. by split. Qed.

Lemma streaming_starts_recorded_witness :
  exists w' c, (snapshotIfNeeded "" (users_runtime "users", NewMemoryStore 0)).1.2 = w' /\
    ms_data w' !! "users" = Some c /\ cp_SnapshotDone c = true /\ cp_SnapshotStartGTID c = "uuid:1-5".
Proof.
  destruct (streaming_starts_recorded "" (users_runtime "users") (NewMemoryStore 0)
    (snapshotIfNeeded "" (users_runtime "users", NewMemoryStore 0)).1.1
    (snapshotIfNeeded "" (users_runtime "users", NewMemoryStore 0)).1.2 "uuid:1-5") as (c & Hc & [[Hn _]|[Hd Hp]] & He).
  - vm_compute. reflexivity.
  - exfalso. vm_compute in Hc. injection Hc as <-. by vm_compute in Hn.
  - by exists (snapshotIfNeeded "" (users_runtime "users", NewMemoryStore 0)).1.2, c.
Defined.

(** A rescan that ended with the alias not moved: the row has the position from
    before. *)
Definition rescanned : Checkpoint := set_GTIDSet "uuid:1-3" started.
Definition rescan_store : MemoryStore := mkMemoryStore {["users" := rescanned]} 1 0.
Definition aliased_runtime : StreamRuntime :=
  mkStreamRuntime
    (mkStream "users" "shop.users" (st_Snapshot users_config) (st_Batch users_config)
      (mkSinkConfig "elasticsearch" None 4 ["http://es:9200"] "users-v2" "users" "" "") no_mapping)
    users (mkAllocator "users" seqBlockSize 1 0).

Lemma rescan_position_forgotten_witness :
  (finishScan aliased_runtime rescan_store).2 = Err (EAlias "no alias") /\
  let w' := (finishScan aliased_runtime rescan_store).1 in
  snapshotIfNeeded "" (aliased_runtime, w') = ((aliased_runtime, w'), Ok "uuid:1-3").
Proof.
  split; [vm_compute; reflexivity|].
  apply (rescan_position_forgotten "" aliased_runtime rescan_store _ (Err (EAlias "no alias")) rescanned).
  - reflexivity.
  - discriminate.
  - vm_compute. reflexivity.
  - done.
  - reflexivity.
  - vm_compute. reflexivity.
  - vm_compute. reflexivity.
Defined.

(** Two new streams, the second one's scan starting 20 ms after the first's. *)
Definition first_started := markScanStarted zero_checkpoint (users_runtime "a", NewMemoryStore 0).
Definition later_store : MemoryStore := NewMemoryStore (20 * 10 ^ 6).
Definition second_started := markScanStarted zero_checkpoint (users_runtime "b", later_store).

Lemma second_stream_changes_stale_witness :
  let base := match second_started.2 with Ok c => cp_SnapshotBaseSeq c | Err _ => 0%Z end in
  let v := match (Next (sr_alloc first_started.1.1, later_store)).2 with Ok v => v | Err _ => 0%Z end in
  base = 20480%Z /\ v = 2%Z /\
  put {["1" := (base, Some "scanned")]} (mkDoc "1" "changed" v false) = {["1" := (base, Some "scanned")]}.
Proof.
  intros base v. split; [vm_compute; reflexivity|]. split; [vm_compute; reflexivity|].
  destruct first_started as [[rtA' wA'] [cA|]] eqn:HA; [|vm_compute in HA; discriminate].
  destruct second_started as [[rtB' wB'] [cB|]] eqn:HB; [|vm_compute in HB; discriminate].
  apply (second_stream_changes_stale zero_checkpoint (users_runtime "a") (NewMemoryStore 0) rtA' wA' cA
    zero_checkpoint (users_runtime "b") later_store rtB' wB' cB (sr_alloc rtA') (sr_alloc rtA') later_store
    (Next (sr_alloc rtA', later_store)).1 v _ _ (Some "scanned")); try done.
  - vm_compute in HA. injection HA as <- _ _. vm_compute. reflexivity.
  - vm_compute in HA. injection HA as <- _ _. vm_compute. congruence.
  - vm_compute in HA. injection HA as <- _ _. vm_compute. reflexivity.
Defined.
