(* ===== verification/LiveWitnesses.v ===== *)
(** * A scan beside a changing table, on concrete inputs

    A table of three rows that loses one and gains one while it is scanned two
    rows at a time, by a scan that is stopped after its first chunk and by another
    that goes on from its cursor, and has one row changed after that. *)

From Stdlib Require Import Ascii Sorted.
From S2P Require Import Prelude GoStd GoEncoding GoJson SqlText Schema Cdc Config Transform Batcher Sink Checkpoint Runner Delivery Destination Convergence Snapshot LiveScan Sample ScanWitnesses.

(** The table after no change, and after each of the changes below. *)
Definition tables : list (list trow) :=
  [[table_row 1 "x"; table_row 2 "x"; table_row 3 "x"]; [table_row 1 "x"; table_row 2 "x"];
   [table_row 1 "x"; table_row 2 "x"; table_row 4 "y"]; [table_row 1 "z"; table_row 2 "x"; table_row 4 "y"]].
Definition rows_at (i : nat) : list trow := default [] (tables !! Nat.min i 3).

Definition changes : list ChangeEvent :=
  [event OperationDelete (row 3 "x") None "" 8; inserted 4 "y" "" 9; event OperationUpdate (row 1 "x") (row 1 "z") "" 10].

(** The world counts the queries, before each of which one change commits. *)
Definition World : Type := nat * list ChangeEvent.
Definition moment (w : World) : nat := Nat.min w.1 3.

Definition id_rank (k : list value) : nat := match k with [v] => Z.to_nat (number_of "id" v) | _ => 0 end.

#[local] Instance live_server : ScanOps World := {
  db_Conn := fun w => (w, Ok ());
  db_Exec := fun _ w => (w, Ok ());
  db_Query := fun text args w => let w' := (S w.1, w.2) in (w', server_answer (rows_at (moment w')) text args);
  conn_Close := fun w => w;
  out_Send := fun ev w => ((w.1, w.2 ++ [ev]), Ok ());
  scan_Observe := fun _ w => w;
  scan_Now := fun _ => 0%Z;
  pause := fun _ w => (w, Ok ()) }.

(** The scanner that goes on after the second row. *)
Definition after_row_2 : string := encodeCursor [VInt Uint64 2].
#[local] Abbreviation resumed := (scanner after_row_2).

#[local] Instance live_laws : Live resumed by_number rows_at moment snd.
Proof.
  assert (forall w : World, quiet moment snd w w) as Hq by done.
  split; eauto; [exact by_number_raw|].
  intros text q bound limit w Ht Ha. destruct (server_answers _ (rows_at (moment (S w.1, w.2))) _ _ _ _ Ht Ha) as (out & Ho & Hans).
  exists (S w.1, w.2), out. split; [|split; [exact Hans|split; [done|unfold moment; simpl; lia]]].
  change (db_Query text (bound ++ limit_args limit) w)
    with ((S w.1, w.2), server_answer (rows_at (moment (S w.1, w.2))) text (bound ++ limit_args limit)).
  by rewrite Ho.
Qed.

(** What holds of the four tables holds at every moment. *)
Lemma at_every_moment (P : list (list value) -> Prop) :
  Forall P (map (map (project resumed)) tables) -> forall i, P (table_at resumed rows_at i).
Proof.
  intros HP i. unfold table_at, rows_at. destruct (lookup_lt_is_Some_2 tables (Nat.min i 3)) as [T HT]; [cbn; lia|].
  rewrite HT. rewrite Forall_map in HP. rewrite Forall_lookup in HP. exact (HP _ _ HT).
Qed.

#[local] Instance live_keyed : Keyed resumed by_number id_rank 5 rows_at.
Proof.
  split.
  - apply (NewSnapshotter_table (scan_options after_row_2)); [vm_compute; reflexivity|exact users_names|repeat constructor].
  - apply at_every_moment. repeat constructor.
  - apply at_every_moment. repeat constructor; vm_compute; lia.
  - intros i. apply Forall_forall. revert i.
    apply (at_every_moment (Forall (fun r => id_rank (row_key resumed r) < 5))). repeat constructor; vm_compute; lia.
  - intros i raw c Hr Hc. destruct c as [|v [|]]; try done.
    assert (exists n, (1 <= n)%Z /\ row_key resumed raw = [VInt Uint64 n]) as (n & Hn & ->).
    { revert raw Hr. apply Forall_forall. revert i.
      apply (at_every_moment (Forall (fun r => exists n, (1 <= n)%Z /\ row_key resumed r = [VInt Uint64 n]))).
      repeat constructor; (eexists; split; [|vm_compute; reflexivity]; lia). }
    unfold beyond, past. change (key_names resumed) with ["id"]. cbn [compare_values]. unfold by_number.
    change (number_of "id" (VInt Uint64 n)) with n. cbn [id_rank]. change (number_of "id" (VInt Uint64 n)) with n.
    destruct (Z.compare_spec n (number_of "id" v)) as [Heq|Hlt|Hgt]; symmetry.
    + apply Nat.ltb_ge. lia.
    + apply Nat.ltb_ge. lia.
    + apply Nat.ltb_lt. lia.
Qed.

Definition all_raws : list (list value) := concat (map (map (project resumed)) tables).

Lemma every_raw i r : r ∈ table_at resumed rows_at i -> r ∈ all_raws.
Proof.
  intros Hr. apply list_elem_of_In, in_concat. exists (table_at resumed rows_at i). split; [|by apply list_elem_of_In].
  unfold table_at, rows_at. destruct (lookup_lt_is_Some_2 tables (Nat.min i 3)) as [T HT]; [cbn; lia|].
  rewrite HT. apply in_map. by eapply list_elem_of_In, list_elem_of_lookup_2.
Qed.

#[local] Abbreviation es := (users_plan DialectElasticsearch).

#[local] Instance live_history : History resumed rows_at moment es changes.
Proof.
  assert (Forall (fun r => transforms es (row_ev resumed r) /\
    Forall (fun r' => key es (Some (row_of resumed r)) = key es (Some (row_of resumed r')) ->
                    row_key resumed r = row_key resumed r') all_raws) all_raws) as Hall.
  { repeat constructor; vm_compute; congruence. }
  rewrite Forall_forall in Hall. split.
  - intros i r Hr%every_raw. by apply Hall.
  - intros i j r r' Hr%every_raw Hr'%every_raw. destruct (Hall r Hr) as [_ Hk]. rewrite Forall_forall in Hk. by apply Hk.
  - intros i Hi. do 4 (destruct i as [|i]; [vm_compute; reflexivity|]). cbn in Hi. lia.
  - intros w. unfold moment. simpl. lia.
  - repeat constructor.
  - repeat constructor.
Qed.

(** The scan that was stopped: one chunk of it, of two rows, the second with the
    cursor. *)
Definition stopped : World :=
  (scan_loop 1 (newLimiter 0 ((0, []) : World)) None (scanner "", ((0, []) : World))).1.2.

Example stopped_sent : map (fun ev => (ev_After ev, ev_Cursor ev)) stopped.2 =
  [(Some [VInt Uint64 1; VString "x"], ""); (Some [VInt Uint64 2; VString "x"], after_row_2)].
Proof. vm_compute. reflexivity. Qed.

Lemma stopped_moment : moment stopped = 1.
Proof. vm_compute. reflexivity. Qed.

Lemma stopped_rows : Forall (fun ev => exists k, sent resumed rows_at moment (0, []) stopped k ev) stopped.2.
Proof.
  constructor; [|constructor; [|constructor]].
  - exists [VInt Uint64 1], (project resumed (table_row 1 "x")), 1, "", 0%Z. split; [rewrite stopped_moment; cbn; lia|].
    split; [by left|]. split; vm_compute; reflexivity.
  - exists [VInt Uint64 2], (project resumed (table_row 2 "x")), 1, after_row_2, 2%Z. split; [rewrite stopped_moment; cbn; lia|].
    split; [by right; left|]. split; vm_compute; reflexivity.
Qed.

(** A row that was there all the time was sent, or is ahead of the cursor. *)
Lemma stopped_missed_none k :
  lasting resumed rows_at moment (0, []) stopped k ->
  (exists ev, ev ∈ stopped.2 /\ sent resumed rows_at moment (0, []) stopped k ev) \/ ahead id_rank (Some [VString "2"]) k.
Proof.
  intros Hl. destruct (Hl 1) as (raw & Hr & <-); [rewrite stopped_moment; cbn; lia|]. left.
  pose proof stopped_rows as Hs. rewrite Forall_forall in Hs.
  apply elem_of_cons in Hr as [->|[->|[]%not_elem_of_nil]%elem_of_cons].
  - destruct (lookup_lt_is_Some_2 stopped.2 0) as [ev Hev]; [apply Nat.ltb_lt; vm_compute; reflexivity|]. exists ev.
    split; [by eapply list_elem_of_lookup_2|]. exists (project resumed (table_row 1 "x")), 1, "", 0%Z.
    split; [rewrite stopped_moment; cbn; lia|]. split; [by left|]. split; [done|]. vm_compute in Hev |- *. congruence.
  - destruct (lookup_lt_is_Some_2 stopped.2 1) as [ev Hev]; [apply Nat.ltb_lt; vm_compute; reflexivity|]. exists ev.
    split; [by eapply list_elem_of_lookup_2|]. exists (project resumed (table_row 2 "x")), 1, after_row_2, 2%Z.
    split; [rewrite stopped_moment; cbn; lia|]. split; [by right; left|]. split; [done|]. vm_compute in Hev |- *. congruence.
Qed.


(** What both sent: no row 3, which was deleted before the first chunk was read,
    and row 1 as it was before its change. *)
Example live_scan_sends :
  (fun r => map ev_After r.2.2) <$> Events 6 (resumed, stopped) =
  Some [Some [VInt Uint64 1; VString "x"]; Some [VInt Uint64 2; VString "x"]; Some [VInt Uint64 4; VString "y"]].
Proof. vm_compute. reflexivity. Qed.
