(* ===== verification/AdminWitnesses.v ===== *)
(** * The administration of an index on a concrete server

    A server that holds one alias and one refresh interval, and the theorems of
    [ElasticsearchAdmin] and [Wiring] applied to it. *)

From Stdlib Require Import Ascii.
From S2P Require Import Prelude GoStd GoEncoding GoJson Schema Cdc Config Transform Sink Checkpoint Runner Snapshot Binlog Http Elasticsearch ElasticsearchAdmin Supervisor ClickHouse Wiring Sample BinlogWitnesses ScanWitnesses.

(** ** Bodies tell actions apart

    As long as no name needs an escape. *)

Lemma unescaped_valid x : free_of backslash (json_MarshalString x) = true -> ValidString x = true.
Proof.
  unfold json_MarshalString, ValidString. intros [_ Hf]%andb_true_iff. change (free_of backslash
    (String.concat "" (map marshal_rune (runes x)) +:+ str1 quote_char) = true) in Hf.
  rewrite free_app in Hf. apply andb_true_iff in Hf as [Hf _].
  induction (runes x) as [|[[r|] raw] l IH]; [done| |].
  - cbn [map] in Hf. rewrite concat_cons, free_app in Hf. apply andb_true_iff in Hf as [_ Hf].
    simpl. by apply IH.
  - cbn [map] in Hf. rewrite concat_cons, free_app in Hf. by apply andb_true_iff in Hf as [Hf _].
Qed.

Lemma marshal_string_inj x y r r' :
  free_of backslash (json_MarshalString x +:+ r) = true ->
  json_MarshalString x +:+ r = json_MarshalString y +:+ r' -> x = y /\ r = r'.
Proof.
  intros Hf Heq. pose proof Hf as Hy. rewrite Heq in Hy. rewrite free_app in Hf, Hy.
  apply andb_true_iff in Hf as [Hx%unescaped_valid _], Hy as [Hy%unescaped_valid _].
  pose proof (read_string_value 0 x r Hx) as H1. rewrite Heq, read_string_value in H1 by done.
  by injection H1 as -> ->.
Qed.

Lemma app_str_inj p r r' : p +:+ r = p +:+ r' -> r = r'.
Proof. induction p as [|c p IH]; simpl; [done|]. intros [= ?]. by apply IH. Qed.

(** Two names in a fixed text, and what follows it. *)
Definition two_names (p n m i q r : string) : string :=
  p +:+ json_MarshalString n +:+ m +:+ json_MarshalString i +:+ q +:+ r.

Lemma two_names_inj p n m i q r n' i' r' :
  free_of backslash (two_names p n m i q r) = true ->
  two_names p n m i q r = two_names p n' m i' q r' -> n = n' /\ i = i' /\ r = r'.
Proof.
  unfold two_names. intros Hf Heq%app_str_inj. rewrite free_app in Hf. apply andb_true_iff in Hf as [_ Hf].
  pose proof Hf as Hf2. rewrite free_app in Hf2. apply andb_true_iff in Hf2 as [_ Hf2].
  rewrite free_app in Hf2. apply andb_true_iff in Hf2 as [_ Hf2].
  apply marshal_string_inj in Heq as [-> Heq%app_str_inj]; [|done].
  by apply marshal_string_inj in Heq as [-> Heq%app_str_inj].
Qed.

Definition action_head (kind : string) : string := "{" +:+ dq +:+ kind +:+ dq +:+ ":{" +:+ dq +:+ "alias" +:+ dq +:+ ":".
Definition action_middle : string := "," +:+ dq +:+ "index" +:+ dq +:+ ":".
Definition write_index : string := "," +:+ dq +:+ "is_write_index" +:+ dq +:+ ":true}}".

Lemma marshal_action_names a r :
  marshal_action a +:+ r = match a with
    | RemoveAlias i n => two_names (action_head "remove") n action_middle i "}}" r
    | AddAlias i n => two_names (action_head "add") n action_middle i write_index r
    end.
Proof. destruct a; unfold marshal_action, json_entry, two_names; by rewrite !app_assoc_str. Qed.

Lemma marshal_action_inj a b r r' :
  free_of backslash (marshal_action a +:+ r) = true ->
  marshal_action a +:+ r = marshal_action b +:+ r' -> a = b /\ r = r'.
Proof.
  rewrite !marshal_action_names. destruct a, b; intros Hf Heq; try done;
    by apply two_names_inj in Heq as (-> & -> & ->).
Qed.

Definition actions_tail (l : list alias_action) : string :=
  String.concat "" (map (fun a => "," +:+ marshal_action a) l) +:+ "]}".

Lemma marshal_actions_cons a l :
  marshal_actions (a :: l) = "{" +:+ dq +:+ "actions" +:+ dq +:+ ":[" +:+ marshal_action a +:+ actions_tail l.
Proof.
  unfold marshal_actions, json_entry, actions_tail. cbn [map].
  assert (forall x, Join (x :: map marshal_action l) "," =
    x +:+ String.concat "" (map (fun a => "," +:+ marshal_action a) l)) as ->.
  { induction l as [|b l IH]; intros x; [by rewrite app_nil_r_str|].
    cbn [map]. rewrite concat_cons. change (Join (x :: marshal_action b :: map marshal_action l) ",")
      with (x +:+ "," +:+ Join (marshal_action b :: map marshal_action l) ","). by rewrite IH, app_assoc_str. }
  by rewrite !app_assoc_str.
Qed.

Lemma actions_tail_inj l l' :
  free_of backslash (actions_tail l) = true -> actions_tail l = actions_tail l' -> l = l'.
Proof.
  unfold actions_tail. revert l'. induction l as [|a l IH]; intros [|b l'] Hf Heq; try done;
    cbn [map] in *; rewrite ?concat_cons, ?app_assoc_str in *; try done.
  injection Heq as Heq. apply andb_true_iff in Hf as [_ Hf]. 
  apply marshal_action_inj in Heq as [-> Heq]; [|done]. f_equal. apply IH; [|done].
  change (free_of backslash (marshal_action b +:+ actions_tail l) = true) in Hf.
  rewrite free_app in Hf. by apply andb_true_iff in Hf as [_ Hf].
Qed.

Lemma marshal_actions_inj l l' :
  free_of backslash (marshal_actions l) = true -> l <> [] ->
  marshal_actions l = marshal_actions l' -> l = l'.
Proof.
  intros Hf Hne Heq. destruct l as [|a l]; [done|]. destruct l' as [|b l'].
  { by rewrite marshal_actions_cons, marshal_action_names in Heq; destruct a. }
  rewrite marshal_actions_cons in Heq. rewrite marshal_actions_cons in Heq, Hf.
  injection Heq as Heq. change (free_of backslash (marshal_action a +:+ actions_tail l) = true) in Hf.
  apply marshal_action_inj in Heq as [-> Heq]; [|done]. f_equal. apply actions_tail_inj; [|done].
  rewrite free_app in Hf. by apply andb_true_iff in Hf as [_ Hf].
Qed.

(** ** The server

    It knows one way to move the alias, answers for one index, and refuses
    everything else. *)

Record Cluster := mkCluster { cl_targets : gset string; cl_interval : option string }.
Abbreviation Site := (MemoryStore * Cluster)%type.

Definition move_alias : list alias_action := [RemoveAlias "users-v1" "users"; AddAlias "users-v2" "users"].

Definition object (l : list (string * string)) : string :=
  "{" +:+ Join (map (fun kv => json_entry kv.1 kv.2) l) "," +:+ "}".
Definition settings_of (interval : list (string * string)) : string :=
  object [("users-v2", object [("settings", object [("index", object interval)])])].

Definition alias_url : string := "http://es:9200/_alias/users".
Definition settings_url : string := "http://es:9200/users-v2/_settings".
Definition mapping_url : string := "http://es:9200/users-v2/_mapping".

Definition mapping_payload : string :=
  object [("users-v2", object [("mappings", object [("properties", object
    [("id", object [("type", json_MarshalString "unsigned_long")]);
     ("name", object [("type", json_MarshalString "keyword")])])])])].

Definition get_answer (c : Cluster) (url : string) : Z * string :=
  if bool_decide (url = alias_url) then
    if bool_decide (cl_targets c = {["users-v1"]}) then (200, object [("users-v1", "{}")])%Z
    else if bool_decide (cl_targets c = {["users-v2"]}) then (200, object [("users-v2", "{}")])%Z
    else (500, "")%Z
  else if bool_decide (url = settings_url) then
    if bool_decide (cl_interval c = None) then (200, settings_of [])%Z
    else if bool_decide (cl_interval c = Some "30s") then
      (200, settings_of [("refresh_interval", json_MarshalString "30s")])%Z
    else if bool_decide (cl_interval c = Some "-1") then
      (200, settings_of [("refresh_interval", json_MarshalString "-1")])%Z
    else (500, "")%Z
  else if bool_decide (url = mapping_url) then (200, mapping_payload)%Z
  else (500, "")%Z.

Definition interval_head : string := "{" +:+ dq +:+ "index" +:+ dq +:+ ":{" +:+ dq +:+ "refresh_interval" +:+ dq +:+ ":".
Definition body_value (body : string) : string := TrimSuffix (TrimPrefix body interval_head) "}}".

Lemma body_value_set value : body_value (settings_body value) = value.
Proof.
  unfold body_value, settings_body, json_entry. rewrite !app_assoc_str.
  change (TrimSuffix (TrimPrefix (interval_head +:+ (value +:+ "}}")) interval_head) "}}" = value).
  by rewrite TrimPrefix_app, TrimSuffix_app.
Qed.

#[local] Instance site_http : HttpOps Site := {
  http_Do rq w :=
    let '(m, c) := w in
    if bool_decide (rq_Method rq = "GET") then (w, Ok (get_answer c (rq_URL rq)))
    else if bool_decide (rq_Method rq = "PUT") then
      match rq_Body rq with
      | Some b => ((m, mkCluster (cl_targets c) (declared (body_value b))), Ok (200%Z, "{}"))
      | None => (w, Ok (400%Z, ""))
      end
    else match rq_Body rq with
    | None => (w, Ok (200%Z, "{}"))
    | Some b =>
      if bool_decide (b = marshal_actions move_alias)
      then ((m, mkCluster (foldl (acted "users") (cl_targets c) move_alias) (cl_interval c)), Ok (200%Z, "{}"))
      else (w, Ok (400%Z, ""))
    end }.

Definition resolve (w : Site) (alias : string) : gset string :=
  if bool_decide (alias = "users") then cl_targets w.2 else ∅.

Ltac peel := repeat match goal with
  | H : String _ _ = ?addr +:+ _ |- _ => destruct addr as [|? addr]; simplify_eq/=
  | H : "" = ?addr +:+ _ |- _ => destruct addr as [|? addr]; simplify_eq/=
  end.

Lemma alias_url_alias addr alias : alias_url = addr +:+ "/_alias/" +:+ alias -> alias = "users".
Proof. unfold alias_url. intros H. peel; done. Qed.

Lemma alias_url_settings addr : alias_url <> addr +:+ "/" +:+ "users-v2" +:+ "/_settings".
Proof. unfold alias_url. intros H. peel; done. Qed.
Lemma mapping_url_settings addr : mapping_url <> addr +:+ "/" +:+ "users-v2" +:+ "/_settings".
Proof. unfold mapping_url. intros H. peel; done. Qed.
Lemma settings_url_alias addr alias : settings_url <> addr +:+ "/_alias/" +:+ alias.
Proof. unfold settings_url. intros H. peel; done. Qed.
Lemma mapping_url_alias addr alias : mapping_url <> addr +:+ "/_alias/" +:+ alias.
Proof. unfold mapping_url. intros H. peel; done. Qed.

Lemma get_answer_alias c addr alias status payload m :
  get_answer c (addr +:+ "/_alias/" +:+ alias) = (status, payload) ->
  status <> 404%Z /\
  ((status < 300)%Z -> parse_map Some payload = Some m -> dom m = if bool_decide (alias = "users") then cl_targets c else ∅).
Proof.
  unfold get_answer. intros Ha. case_bool_decide as Hu.
  - symmetry in Hu. apply alias_url_alias in Hu as ->. rewrite bool_decide_eq_true_2 by done.
    repeat case_bool_decide; injection Ha as <- <-; (split; [done|]); intros Hlt Hm; try lia;
      vm_compute in Hm; injection Hm as <-; simplify_eq;
      match goal with H : cl_targets c = _ |- _ => rewrite H end; vm_compute; reflexivity.
  - rewrite (bool_decide_eq_false_2 (_ = settings_url)) in Ha by (intros E; by eapply settings_url_alias).
    rewrite bool_decide_eq_false_2 in Ha by (intros E; by eapply mapping_url_alias).
    injection Ha as <- <-. split; [done|]. lia.
Qed.

#[local] Instance site_alias_laws : AliasLaws Site resolve.
Proof.
  split.
  - intros rq addr alias [m c] w' r Hm Hu. unfold http_Do, site_http. rewrite Hm, Hu, bool_decide_eq_true_2 by done.
    intros [= <- <-]. split; [done|]. intros status payload [= Ha].
    split; [|intros mm]; apply (get_answer_alias _ _ _ _ _ ∅) in Ha as Ha1.
    + intros E. by destruct (proj1 Ha1).
    + intros Hlt Hp. by apply (get_answer_alias c addr alias status payload mm).
  - intros rq addr actions [m c] w' r alias Hm Hu Hb. unfold http_Do, site_http. rewrite Hm, Hb.
    rewrite !bool_decide_eq_false_2 by done. case_bool_decide as Hl.
    + symmetry in Hl. apply marshal_actions_inj in Hl as <-; [|by vm_compute|done].
      intros [= <- <-]. unfold resolve. simpl. repeat case_bool_decide; simplify_eq; auto.
    + intros [= <- <-]. split; [by left|]. intros status payload [= <- <-]. lia.
Qed.

#[local] Instance site_settings_laws : SettingsLaws Site "users-v2" (fun w => cl_interval w.2).
Proof.
  split.
  - intros rq addr [m c] w' r Hm Hu. unfold http_Do, site_http. rewrite Hm, Hu, bool_decide_eq_true_2 by done.
    intros [= <- <-]. split; [done|]. intros status payload mm [= Ha] Hlt Hp. unfold get_answer in Ha.
    rewrite (bool_decide_eq_false_2 (_ = alias_url)) in Ha by (intros E; by eapply alias_url_settings).
    rewrite (bool_decide_eq_false_2 (_ = mapping_url)) in Ha by (intros E; by eapply mapping_url_settings).
    repeat case_bool_decide; injection Ha as <- <-; try lia; vm_compute in Hp; injection Hp as <-;
      match goal with H : cl_interval c = _ |- _ => simpl; rewrite H end;
      eexists "users-v2", _; (split; [reflexivity|]); vm_compute; reflexivity.
  - intros rq addr value [m c] w' status payload Hm _ Hb. unfold http_Do, site_http.
    rewrite Hm, Hb, bool_decide_eq_false_2, bool_decide_eq_true_2 by done. intros [= <- _ _] _. simpl.
    by rewrite body_value_set.
  - intros rq addr [m c] w' r Hm _. unfold http_Do, site_http. rewrite Hm, !bool_decide_eq_false_2 by done.
    destruct (rq_Body rq); [case_bool_decide|]; by intros [= <- <-].
Qed.

(** ** The theorems *)

Definition site_config : SinkConfig := mkSinkConfig "elasticsearch" None 4 ["http://es:9200"] "users-v2" "users" "" "".
Definition site_sink : ESink :=
  match NewESink (es_options site_config) with Ok s => s | Err _ => mkESink (es_options site_config) "" "" end.
Definition site_stream (k : SinkConfig) : Stream :=
  mkStream "users" "shop.users" (st_Snapshot users_config) (st_Batch users_config) k (st_Mapping users_config).
Definition site (interval : option string) : Site :=
  (mkMemoryStore {["users" := started]} 1 0, mkCluster {["users-v1"]} interval).

Lemma bulk_load_restores_witness :
  exists load w1 w3, BeginBulkLoad site_sink (0%Z, site (Some "30s")) = (w1, Ok load) /\
    EndBulkLoad site_sink load w1 = (w3, Ok ()) /\
    cl_interval w1.2.2 = Some "-1" /\ cl_interval w3.2.2 = Some "30s".
Proof.
  destruct (BeginBulkLoad site_sink (0%Z, site (Some "30s"))) as [[c1 w1] [load|]] eqn:HB; [|by vm_compute in HB].
  destruct (EndBulkLoad site_sink load (c1, w1)) as [[c3 w3] r] eqn:HE.
  assert (r = Ok ()) as ->.
  { vm_compute in HB. injection HB as <- <- <-. vm_compute in HE. by injection HE as _ _ <-. }
  destruct (bulk_load_restores site_sink (fun w => cl_interval w.2) _ _ _ _ _ _ _ _ _ HB HE) as [Hoff Hback].
  exists load, (c1, w1), (c3, w3). repeat split; done.
Defined.

(** The checkpoints beside the server. *)
#[local] Instance site_store : StoreOps Site := {
  store_Load s w := let '(m, r) := MemoryStore_Load s w.1 in ((m, w.2), r);
  store_Save cp w := let '(m, r) := MemoryStore_Save cp w.1 in ((m, w.2), r) }.
#[local] Instance site_clock : ClockOps Site := { clock w := ms_now w.1 }.
#[local] Program Instance site_store_laws : StoreLaws Site := { store_key s := s; view w := ms_data w.1 }.
Next Obligation. intros s [m c]. simpl. unfold MemoryStore_Load. by destruct (_ !! _). Qed.
Next Obligation.
  intros s [m c] w' cp. simpl. unfold MemoryStore_Load. destruct (ms_data m !! s) eqn:E; [|done]. by intros [= <- <-].
Qed.
Next Obligation. intros s [m c] w'. simpl. unfold MemoryStore_Load. by destruct (ms_data m !! s) eqn:E. Qed.
Next Obligation. intros cp [m c] w'. intros [= <-]. eexists. split; [|done].
  exists (ms_now m), (cp_Stream cp). split; [done|left]. by destruct cp.
Qed.
Next Obligation. intros cp [m c] w' e. done. Qed.

Definition admin_text (_ : admin_error) : string := "refused".
Definition administer {A} (f : eff (Z * Site) admin_error A) : eff Site string A := fun w =>
  let '(st, r) := f (0%Z, w) in (st.2, map_err admin_text r).

Section Sites.
Variable s : ESink.

#[local] Instance site_backfill : BackfillOps Site := {
  source_gtid w := (w, Ok "uuid:1-5");
  source_rows _ w := (w, Some 5%Z);
  replica_Open _ w := (w, Ok ());
  replica_Close w := w;
  pipe_Scan _ _ w := (w, (Ok (), None, true));
  sink_AliasTargets _ := administer (aliasTargets s);
  sink_BeginBulkLoad _ := administer (BeginBulkLoad s);
  sink_EndBulkLoad _ load := administer (EndBulkLoad s load);
  sink_ForceMerge _ := administer (ForceMerge s);
  sink_PromoteAlias _ := administer (PromoteAlias s);
  context_Err w := (w, Ok ()) }.

Lemma site_administers stream : Administers s stream.
Proof.
  split; intros w; exists 0%Z, admin_text; simpl; unfold administer.
  - by destruct (aliasTargets s _).
  - by destruct (PromoteAlias s _).
Qed.

(** Requests leave the checkpoints alone. *)
Definition keeps {A} (f : eff (Z * Site) admin_error A) : Prop := forall st, (f st).1.2.1 = st.2.1.

Lemma keeps_bind {A B} (f : eff (Z * Site) admin_error A) (k : A -> eff (Z * Site) admin_error B) :
  keeps f -> (forall a, keeps (k a)) -> keeps (f ≫= k).
Proof.
  intros Hf Hk st. unfold mbind, eff_bind. specialize (Hf st). destruct (f st) as [st1 [a|]]; [|done].
  by rewrite (Hk a).
Qed.
Lemma http_keeps rq (w : Site) : (http_Do rq w).1.1 = w.1.
Proof.
  destruct w as [m c], rq as [method url ct z auth [body|]]; cbv [http_Do site_http rq_Method rq_Body rq_URL];
    repeat (case_bool_decide; [done|]); done.
Qed.
Lemma keeps_do method path body : keeps (es_do s method path body).
Proof.
  intros [c w]. unfold es_do. destruct (nextAddress s c) as [c' addr].
  pose proof (http_keeps (mkRequest method (addr +:+ path)
    (match body with Some _ => Some "application/json" | None => None end) false (auth_of (s_opts s)) body) w) as Hk.
  destruct (http_Do _ w) as [w' r]. exact Hk.
Qed.
Lemma keeps_accepted answer : keeps (accepted answer).
Proof. intros st. unfold accepted. by case_match. Qed.

Lemma keeps_targets : keeps (aliasTargets s).
Proof.
  apply keeps_bind; [apply keeps_do|]. intros answer. case_match; [by intros st|].
  apply keeps_bind; [apply keeps_accepted|]. intros payload. by case_match.
Qed.
Lemma keeps_promote : keeps (PromoteAlias s).
Proof.
  unfold PromoteAlias. do 2 (case_match; [by intros st|]). apply keeps_bind; [apply keeps_targets|].
  intros current. case_match; [by intros st|]. apply keeps_bind; [apply keeps_do|]. intros answer.
  apply keeps_bind; [apply keeps_accepted|]. by intros payload st.
Qed.

Lemma administer_keeps {A} (f : eff (Z * Site) admin_error A) w : keeps f -> view (administer f w).1 = view w.
Proof.
  intros Hf. specialize (Hf (0%Z, w)). unfold administer. destruct (f (0%Z, w)) as [st r].
  simpl in *. by rewrite Hf.
Qed.

Lemma site_backfill_laws : BackfillLaws (W := Site).
Proof.
  split; try done; intros stream w; apply administer_keeps; [apply keeps_targets|apply keeps_promote].
Qed.

End Sites.

#[local] Instance site_url : UrlOps := {
  url := string; url_Parse := Some; url_Scheme _ := "http"; url_User _ := None;
  url_Database _ := "shop"; url_WithoutUser u := u; url_WithQuery u _ := u }.

Definition site_runtime (k : SinkConfig) : StreamRuntime :=
  mkStreamRuntime (site_stream k) users (mkAllocator "users" seqBlockSize 1 0).

Lemma finished_scan_moves_readers_witness :
  exists w' position, finishScan (BackfillOps0 := site_backfill site_sink) (site_runtime site_config) (site None) = (w', Ok position) /\
    resolve w' "users" = {["users-v2"]}.
Proof.
  destruct (finishScan (BackfillOps0 := site_backfill site_sink) (site_runtime site_config) (site None)) as [w' [position|]] eqn:HF;
    [|by vm_compute in HF].
  exists w', position. split; [done|].
  apply (finished_scan_moves_readers (BackfillLaws0 := site_backfill_laws site_sink) (site_runtime site_config) site_sink
    eq_refl eq_refl (Administers0 := site_administers site_sink "users") resolve (site None) w' position HF).
Defined.

(** A stream whose alias is its index: accepted, and stuck. *)
Definition same_alias : SinkConfig := mkSinkConfig "elasticsearch" None 4 ["http://es:9200"] "users" "users" "" "".
Definition same_sink : ESink :=
  match NewESink (es_options same_alias) with Ok s => s | Err _ => site_sink end.
Definition fresh_site : Site := (NewMemoryStore 0, mkCluster {["users-v1"]} None).

Lemma alias_is_index_never_streams_witness :
  validate_stream "users" (site_stream same_alias) = [] /\
  is_ok (snapshotIfNeeded (BackfillOps0 := site_backfill same_sink) "" (site_runtime same_alias, fresh_site)).2 = false.
Proof.
  split; [vm_compute; reflexivity|].
  destruct (snapshotIfNeeded (BackfillOps0 := site_backfill same_sink) "" (site_runtime same_alias, fresh_site))
    as [[rt' w'] [position|]] eqn:HS; [|done].
  destruct (alias_is_index_never_streams (BackfillLaws0 := site_backfill_laws same_sink) (site_runtime same_alias) same_sink
    eq_refl eq_refl (Administers0 := site_administers same_sink "users") "" fresh_site rt' w' position); try done.
Defined.

Definition site_fields : list destinationField :=
  match resolveFields users [] [] ["id"] ∅ with Ok fields => fields | Err _ => [] end.
Definition id_field : destinationField :=
  let c := column "id" 0 "bigint" true false in
  mkDestinationField c "id" (match Map c with Ok m => m | Err _ => mkMapped KindString "" "" end).
Definition checked : (Z * Site) * res wiring_error () :=
  validateDestination (site_stream site_config) (ElasticSink site_sink) users (0%Z, site None).

