(* ===== verification/StoreWitnesses.v ===== *)
(** * A checkpoint table and its locks on a concrete server

    A server that reads the statements it is sent and carries them out on a map,
    for any collation, and the theorems of [CheckpointTable] applied to it. *)

From Stdlib Require Import Ascii.
From S2P Require Import Prelude GoStd Sql SqlText SqlTable Checkpoint CheckpointTable.

Definition store : MySQLStore := mkMySQLStore "changeflow.checkpoints" (10 * 10 ^ 9).
Abbreviation schema := (checkpoint_table "changeflow.checkpoints").

Record Db := mkDb { db_rows : gmap string row; db_locks : gmap string Z; db_next : Z }.

Section Server.
Variable ckey : string -> string.

(** Texts are compared by their keys. *)
Definition rank (column : string) (v : sql_value) : Z :=
  match v with SText s => Zpos (encode (ckey s)) | SInt z | STime z => z | SNull => 0 end.
Definition by_rank (column : string) (a b : sql_value) : comparison := Z.compare (rank column a) (rank column b).

(** A row under its own key, each column of its type. *)
Definition row_ok (k : string) (r : row) : Prop :=
  match r !! "stream" with Some (SText name) => k = ckey name | _ => False end /\ typed schema r = true.
#[local] Instance row_ok_dec k r : Decision (row_ok k r).
Proof. unfold row_ok. repeat case_match; apply _. Defined.

(** The rows of such a kind, which is all a server keeps. *)
Definition kept (m : gmap string row) : gmap string row := filter (fun kr => row_ok kr.1 kr.2) m.

Lemma kept_ok m : map_Forall row_ok m -> kept m = m.
Proof. intros Hm. apply map_filter_id. exact Hm. Qed.

(** A statement is carried out unless it leaves a row of another kind. *)
Definition carried_out (m : gmap string row) (w : Db) : Db * res sql_error () :=
  if bool_decide (map_Forall row_ok m) then (mkDb m (db_locks w) (db_next w), Ok ())
  else (w, Err (SqlServer 3819 "constraint")).

#[local] Instance db_sql : SqlOps Db := {
  sql_Exec text args w :=
    match spelled text with
    | Some (Insert i) => carried_out (inserted schema ckey (STime 7) i args (kept (db_rows w))) w
    | Some (Update u) => carried_out (updated schema by_rank (fun _ => STime 7) u args (kept (db_rows w))) w
    | _ => (w, Err (SqlServer 1064 "syntax"))
    end;
  sql_QueryRow text args w :=
    match spelled text with
    | Some (Select q) => (w, Ok (head (answer by_rank coalesce_text q args None
        (map (fun kr => column_value kr.2) (map_to_list (kept (db_rows w)))))))
    | _ => (w, Err (SqlServer 1064 "syntax"))
    end;
  sql_Query _ _ w := (w, Ok []) }.
#[local] Instance db_time : SqlTime := { sql_ParseUTC _ _ := None }.

Lemma carried_out_kept m w w' r :
  carried_out m w = (w', r) -> r <> Ok () /\ kept (db_rows w') = kept (db_rows w) \/ kept (db_rows w') = m.
Proof. unfold carried_out. case_bool_decide as Hm; intros [= <- <-]; [right; by apply kept_ok|by left]. Qed.

#[local] Program Instance db_kept : KeptTable Db schema time_readable ckey :=
  { rows w := kept (db_rows w); column_order := by_rank }.
Next Obligation.
  intros a b. unfold by_rank, rank. rewrite Z.compare_eq_iff. split; [|by intros ->]. intros [= H]. by apply (inj encode) in H.
Qed.
Next Obligation.
  intros w k r [_ [Hk _]]%map_lookup_filter_Some. cbn in Hk |- *. destruct (r !! "stream") as [[]|]; try done. by eexists.
Qed.
Next Obligation. by intros w k r [_ [_ Ht]]%map_lookup_filter_Some. Qed.
Next Obligation. intros text q args w Ht. cbn. by rewrite Ht. Qed.
Next Obligation.
  intros text q args w w' x Ht _. cbn. rewrite Ht. intros [= <- <-]. eexists. split; [|done].
  by apply (answer_answers by_rank coalesce_text rank).
Qed.
Next Obligation.
  intros text i args w w' r Ht _. cbn -[inserted]. rewrite Ht.
  intros [?|Hr]%carried_out_kept; [by left|right]. exists (STime 7). split; [by exists 7%Z|done].
Qed.
Next Obligation.
  intros text u args w w' r Ht _. cbn -[updated]. rewrite Ht.
  intros [?|Hr]%carried_out_kept; [by left|right]. exists (fun _ => STime 7). split; [by exists 7%Z|done].
Qed.

#[local] Instance db_laws : TableLaws Db (my_table store) ckey := {| table_kept := db_kept; table_word := eq_refl |}.

(** Connections are numbered, and a lock belongs to a connection opened before. *)
Definition held (w : Db) : gmap string Z := filter (fun kc : string * Z => (kc.2 < db_next w)%Z) (db_locks w).
Definition set_locks (locks : gmap string Z) (w : Db) : Db := mkDb (db_rows w) locks (db_next w).

#[local] Instance db_conn : ConnOps Db := {
  conn_Open w := (mkDb (db_rows w) (held w) (db_next w + 1), Ok (db_next w));
  conn_QueryRow conn stmt args w :=
    match args with
    | [SText name; SInt _] =>
        match held w !! ckey name with
        | None => if bool_decide (conn < db_next w)%Z
            then (set_locks (<[ckey name := conn]> (held w)) w, Ok (Some [SInt 1])) else (w, Ok None)
        | Some c => (w, Ok (Some [SInt 0]))
        end
    | [SText name] => (w, Ok (Some [match held w !! ckey name with Some c => SInt c | None => SNull end]))
    | _ => (w, Err (SqlDriver "arguments"))
    end;
  conn_Exec conn stmt args w :=
    match args with
    | [SText name] =>
        if bool_decide (held w !! ckey name = Some conn)
        then (set_locks (delete (ckey name) (held w)) w, Ok ()) else (w, Ok ())
    | _ => (w, Err (SqlDriver "arguments"))
    end;
  conn_Close conn w := (w, Ok ()) }.

Lemma held_lt w k c : held w !! k = Some c -> (c < db_next w)%Z.
Proof. by intros [_ Hc]%map_lookup_filter_Some. Qed.

Lemma held_set m w : (forall k c, m !! k = Some c -> (c < db_next w)%Z) -> held (set_locks m w) = m.
Proof. intros Hm. unfold held, set_locks. cbn. apply map_filter_id. intros k c Hk. by eapply Hm. Qed.

#[local] Program Instance db_locks_laws : LockLaws Db ckey := { holder := held }.
Next Obligation.
  intros w w' conn [= <- <-]. split.
  - apply (held_set (held w) (mkDb (db_rows w) (held w) (db_next w + 1))). intros k c Hk%held_lt. cbn. lia.
  - intros k Hk%held_lt. lia.
Qed.
Next Obligation. done. Qed.
Next Obligation.
  intros conn name n w w' r. cbn. destruct (held w !! ckey name) as [c|] eqn:Hk.
  { intros [= <- <-]. by cbn. }
  case_bool_decide as Hlt; intros [= <- <-]; cbn; [|done]. split; [by left|].
  apply held_set. intros k c [[_ <-]|[_ Hc%held_lt]]%lookup_insert_Some; done.
Qed.
Next Obligation. done. Qed.
Next Obligation. done. Qed.
Next Obligation. done. Qed.
Next Obligation.
  intros conn name w w' r. cbn. case_bool_decide as Hh; intros [= <- <-]; [|by split].
  rewrite held_set by (intros k c [_ Hc%held_lt]%lookup_delete_Some; done). split.
  - intros k Hk. apply lookup_delete_ne. intros <-. by destruct Hk.
  - by rewrite lookup_delete_eq.
Qed.

End Server.

(** ** The theorems *)

Definition empty_db : Db := mkDb ∅ ∅ 1.
Definition users_row : Checkpoint := mkCheckpoint "users" "uuid:1-5" true "" "" 1 5 5 20 1700 "" 0 0.
Definition twins_row : Checkpoint := mkCheckpoint "Users" "uuid:1-9" true "" "" 1 5 5 30 1800 "" 0 0.

(** Under a collation that ignores case, the row of a stream is found by any
    spelling of its name. *)
Lemma MySQL_store_refines_witness :
  exists L : @StoreLaws Db (@MySQL_ops Db (db_sql ToLower) db_time store),
    @store_key Db _ L "Users" = "users" /\
    cp_SeqWatermark <$> (@view Db _ L (@MySQL_Save Db (db_sql ToLower) store users_row empty_db).1 !! "users") = Some 20%Z.
Proof.
  destruct (@MySQL_store_refines Db (db_sql ToLower) db_time store ToLower (db_laws ToLower)) as (L & Hkey & Hview).
  exists L. split; [rewrite Hkey; vm_compute; reflexivity|]. rewrite Hview. vm_compute. reflexivity.
Defined.

(** Under MySQL's default collation a second stream, whose name differs in case
    only, takes the first one's row, and cannot be locked beside it. *)
Definition saved_twice : Db :=
  (@MySQL_Save Db (db_sql ToLower) store twins_row (@MySQL_Save Db (db_sql ToLower) store users_row empty_db).1).1.

Lemma saved_is_loaded_witness :
  match (@MySQL_Load Db (db_sql ToLower) db_time store "users" saved_twice).2 with
  | Ok c => cp_GTIDSet c = "uuid:1-9" /\ cp_SeqWatermark c = 30%Z
  | Err _ => False
  end.
Proof.
  pose proof (@saved_is_loaded Db (db_sql ToLower) db_time store ToLower (db_laws ToLower) twins_row "users"
    (@MySQL_Save Db (db_sql ToLower) store users_row empty_db).1 saved_twice
    (@MySQL_Load Db (db_sql ToLower) db_time store "users" saved_twice).1
    (@MySQL_Load Db (db_sql ToLower) db_time store "users" saved_twice).2) as Hl.
  destruct (@MySQL_Load Db (db_sql ToLower) db_time store "users" saved_twice).2 as [c|e] eqn:E; [|by vm_compute in E].
  assert (set_UpdatedAt 0 (set_Stream "Users" c) = set_UpdatedAt 0 (default_version twins_row)) as Hc.
  { apply Hl; [vm_compute; reflexivity|vm_compute; reflexivity|vm_compute; reflexivity|]. rewrite <- E. by destruct (MySQL_Load _ _ _). }
  split; [exact (f_equal cp_GTIDSet Hc)|exact (f_equal cp_SeqWatermark Hc)].
Defined.

Lemma RecordError_keeps_positions_witness :
  let w := (@MySQL_Save Db (db_sql ToLower) store users_row empty_db).1 in
  let w' := (@RecordError Db (db_sql ToLower) store "users" "lost connection" w).1 in
  but_error <$> kept ToLower (db_rows w') !! "users" = but_error <$> kept ToLower (db_rows w) !! "users".
Proof.
  intros w w'. apply (@RecordError_keeps_positions Db (db_sql ToLower) db_time store ToLower (db_laws ToLower)
    "users" "lost connection" w w' (Ok ())). vm_compute. reflexivity.
Defined.

Definition first_lock := @Lock Db store (db_conn ToLower) "users" empty_db.

Lemma Lock_exclusive_witness :
  held first_lock.1 !! "changeflow:users" = Some 1%Z /\
  is_ok (@Lock Db store (db_conn ToLower) "Users" first_lock.1).2 = false.
Proof.
  assert (held first_lock.1 !! "changeflow:users" = Some 1%Z) as Hheld by (vm_compute; reflexivity).
  split; [exact Hheld|].
  pose proof (@Lock_exclusive Db (db_conn ToLower) store ToLower (db_locks_laws ToLower) "Users" first_lock.1
    (@Lock Db store (db_conn ToLower) "Users" first_lock.1).1 (@Lock Db store (db_conn ToLower) "Users" first_lock.1).2
    (surjective_pairing _)) as HL.
  destruct (@Lock Db store (db_conn ToLower) "Users" first_lock.1).2 as [l|]; [|reflexivity].
  destruct HL as [Hnone _]. change (ToLower (lock_name "Users")) with "changeflow:users" in Hnone.
  change (held first_lock.1 !! "changeflow:users" = None) in Hnone. congruence.
Defined.
