(* ===== verification/LetterWitnesses.v ===== *)
(** * Dead letters on a concrete file system

    A file system of names and contents, moments written as eighty binary
    digits, and the theorems of [DeadLetters] applied to them. *)

From Stdlib Require Import Ascii.
From S2P Require Import Prelude GoStd GoEncoding GoJson Cdc Sink DeadLetters.

(** ** Moments *)

Fixpoint digits_of (n : nat) (z : Z) : string :=
  match n with O => "" | S n => String (if Z.odd z then "1" else "0")%char (digits_of n (Z.div2 z)) end.
Fixpoint of_digits (s : string) : Z :=
  match s with "" => 0 | String c s => (if bool_decide (c = "1"%char) then 1 else 0) + 2 * of_digits s end.

Lemma of_digits_of n z : (0 <= z < 2 ^ Z.of_nat n)%Z -> of_digits (digits_of n z) = z.
Proof.
  revert z. induction n as [|n IH]; intros z Hz; [cbn in *; lia|]. cbn [digits_of of_digits].
  rewrite IH; [|rewrite Z.div2_div, Nat2Z.inj_succ, Z.pow_succ_r in *; [|lia]; split; [apply Z.div_pos|apply Z.div_lt_upper_bound]; lia].
  pose proof (Z.div2_odd z). destruct (Z.odd z); cbn [Z.b2z] in *.
  - rewrite bool_decide_eq_true_2 by done. lia.
  - rewrite bool_decide_eq_false_2 by done. lia.
Qed.

Definition epoch : Z := 10 ^ 21.
#[local] Instance time_digits : LetterTime := {
  time_MarshalText t := digits_of 80 (t + epoch);
  time_UnmarshalText s := Some (of_digits s - epoch)%Z }.

#[local] Instance time_digits_laws : LetterTimeLaws.
Proof.
  split.
  - intros t _. unfold time_MarshalText, time_digits. generalize (t + epoch)%Z 80. intros z n. revert z.
    induction n as [|n IH]; intros z; [done|]. cbn. rewrite IH. by destruct (Z.odd z).
  - intros t Hw. unfold writable_time in Hw. bool_to_prop. cbn [time_MarshalText time_UnmarshalText time_digits].
    rewrite of_digits_of; [f_equal; lia|]. unfold epoch. change (2 ^ Z.of_nat 80)%Z with (1208925819614629174706176)%Z. lia.
Qed.

(** ** Files *)

Record Fs := mkFs { fs_files : gmap string string; fs_handles : gmap Z string; fs_next : Z; fs_now : Z }.

Definition content (w : Fs) (path : string) : string := default "" (fs_files w !! path).
Definition with_files (m : gmap string string) (w : Fs) : Fs := mkFs m (fs_handles w) (fs_next w) (fs_now w).

#[local] Instance fs_ops : OsOps Fs := {
  os_MkdirAll _ w := (w, Ok ());
  os_OpenAppend path w :=
    (mkFs (fs_files w) (<[fs_next w := path]> (fs_handles w)) (fs_next w + 1) (fs_now w), Ok (fs_next w));
  os_Read path w := (w, match fs_files w !! path with Some c => Ok c | None => Err "no such file" end);
  os_Rename p q w := (with_files (<[q := content w p]> (delete p (fs_files w))) w, Ok ());
  file_Size h w := (w, match fs_handles w !! h with Some p => Ok (slen (content w p)) | None => Err "file already closed" end);
  file_Write h text w :=
    match fs_handles w !! h with
    | Some p => (with_files (<[p := content w p +:+ text]> (fs_files w)) w, Ok ())
    | None => (w, Err "file already closed")
    end;
  file_Sync _ w := (w, Ok ());
  file_Close h w := (mkFs (fs_files w) (delete h (fs_handles w)) (fs_next w) (fs_now w), Ok ());
  path_Glob _ w := (w, Ok (map fst (map_to_list (fs_files w))));
  path_Join d f := d +:+ "/" +:+ f;
  now_UTC := fs_now }.

Lemma content_same m w p c : content (with_files (<[p := c]> m) w) p = c.
Proof. unfold content. cbn. by rewrite lookup_insert_eq. Qed.
Lemma content_other w p c x : x <> p -> content (with_files (<[p := c]> (fs_files w)) w) x = content w x.
Proof. intros Hx. unfold content. cbn. by rewrite lookup_insert_ne. Qed.

#[local] Program Instance fs_laws : FileLaws Fs := { disk := content; handle w h := fs_handles w !! h }.
Next Obligation. by intros dir w w' r [= <- _]. Qed.
Next Obligation. intros path w w' r [= <- <-]. split; [done|]. intros h [= <-]. cbn. by rewrite lookup_insert_eq. Qed.
Next Obligation.
  intros h w w' r [= <- <-]. split; [done|]. split; [done|]. intros n path Hr Hh. rewrite Hh in Hr. by injection Hr.
Qed.
Next Obligation.
  intros h text w w' r path Hh Hw. cbn in Hw, Hh. destruct Hh as [Hh|Hh]; rewrite Hh in Hw; injection Hw as <- <-.
  - exists text, "". split; [by rewrite app_nil_r_str|]. split; [done|].
    split; [by rewrite content_same|]. split; [|done]. intros p Hp. by apply content_other.
  - exists "", text. split; [done|]. split; [done|]. by rewrite app_nil_r_str.
Qed.
Next Obligation. by intros h w w' r [= <- _]. Qed.
Next Obligation. intros h w w' r [= <- _]. split; [done|]. right. cbn. by rewrite lookup_delete_eq. Qed.
Next Obligation.
  intros p q w w' r Hpq [= <- <-]. split; [|split; [by rewrite content_same|]].
  - unfold content. cbn. by rewrite lookup_insert_ne, lookup_delete_eq.
  - intros x Hp Hq. unfold content. cbn. by rewrite !lookup_insert_ne, lookup_delete_ne.
Qed.

(** ** The writer *)

Definition wr : Writer :=
  mkWriter (mkDlqOptions "/var/dead" "orders" 4096 false) "/var/dead/orders.jsonl" None 0.

Definition rej (key : string) : Rejection := mkRejection (mkDoc key "{}" 7 false) 400 "mapper_parsing_exception".

Definition moment : Z := 1700000000000000000.
Definition empty_disk : Fs := mkFs ∅ ∅ 3 moment.

(** A disk after a call that recorded one document, and one whose last line was
    cut by a full disk. *)
Definition one_letter : Fs := (Record_ (fun _ => "stamp") [rej "1"] (wr, empty_disk)).1.2.
Definition cut_letter : Fs :=
  with_files {[ wr_path wr := content one_letter (wr_path wr) +:+ "{" ]} (mkFs ∅ ∅ 5 moment).

Example new_writer : NewWriter (mkDlqOptions "/var/dead" "orders" 4096 false) = Ok wr.
Proof. reflexivity. Qed.

Lemma plain_rej key : ValidString key = true -> plain_rejection (rej key).
Proof. intros Hv. unfold plain_rejection, u64_range. split; [exact Hv|]. repeat split; vm_compute; congruence. Qed.

Lemma fields_slen fields :
  fields <> [] -> slen (fields_text fields "") = zsum (map (fun kt => 4 + slen kt.1 + slen kt.2)%Z fields).
Proof.
  assert (forall k rest, slen (member_text k rest) = 3 + slen k + slen rest)%Z as Hm.
  { intros k rest. unfold member_text. pose proof (slen_app (String quote_char k) (String quote_char (String ":" rest))) as Hs.
    unfold slen in *. cbn [String.length String.append] in *. lia. }
  assert (forall t c rest, slen (t +:+ String c rest) = slen t + 1 + slen rest)%Z as Ha.
  { intros t c rest. rewrite slen_app. unfold slen. cbn [String.length]. lia. }
  induction fields as [|[k t] [|kt fields] IH]; intros Hne; [done| |].
  - change (fields_text [(k, t)] "") with (member_text k (t +:+ String "}" "")).
    rewrite Hm, Ha. cbn [map zsum fst snd]. change (slen "") with 0%Z. lia.
  - change (fields_text ((k, t) :: kt :: fields) "") with (member_text k (t +:+ String "," (fields_text (kt :: fields) ""))).
    rewrite Hm, Ha, IH by done. cbn [map zsum fst snd]. lia.
Qed.

Lemma digits_slen n z : slen (digits_of n z) = Z.of_nat n.
Proof.
  unfold slen. f_equal. revert z. induction n as [|n IH]; intros z; [done|]. cbn [digits_of String.length]. by rewrite IH.
Qed.

Lemma short_rej key text :
  ValidString key = true -> made_of wr (rej key) text -> (slen text <= 300 + slen (json_MarshalString key))%Z.
Proof.
  intros Hv [now Hm]. pose proof (plain_record wr now (rej key) eq_refl eq_refl (plain_rej key Hv)) as Hp.
  destruct (marshal_plain_letter _ _ Hp Hm) as [_ ->].
  assert (slen (dq +:+ time_MarshalText now +:+ dq) = 82)%Z as Ht.
  { rewrite !slen_app. cbn [time_MarshalText time_digits]. by rewrite digits_slen. }
  assert (forall c s, slen (String c s) = 1 + slen s)%Z as Hc by (intros; unfold slen; cbn [String.length]; lia).
  rewrite Hc, fields_slen by done.
  unfold letter_fields, toRecord. cbn -[dq slen json_MarshalString FormatUint FormatInt time_MarshalText].
  rewrite Ht, bool_decide_eq_true_2 by done. cbn [when negb map zsum]. clear. generalize (slen (json_MarshalString key)). intros K.
  repeat match goal with |- context [slen ?s] => let v := eval vm_compute in (slen s) in change (slen s) with v end. lia.
Qed.

Lemma short_letters keys :
  Forall (fun key => ValidString key = true /\ slen (json_MarshalString key) < 1000)%Z keys ->
  short_lines wr (map rej keys).
Proof.
  intros Hall r text Hin Hm. apply list_elem_of_fmap in Hin as (key & -> & Hin).
  rewrite Forall_forall in Hall. destruct (Hall key Hin) as [Hv Hlen]. pose proof (short_rej key text Hv Hm).
  change maxToken with 16777216%Z. lia.
Qed.

Lemma plain_rejs keys : Forall (fun key => ValidString key = true) keys -> Forall plain_rejection (map rej keys).
Proof. intros Hall. apply Forall_map. eapply Forall_impl; [exact Hall|]. intros key. apply plain_rej. Qed.

Lemma holds_none w : holds_file wr w.
Proof. by intros h. Qed.

Definition after (w : Fs) (keys : list string) : (Writer * Fs) * res dlq_error () :=
  Record_ (fun _ => "stamp") (map rej keys) (wr, w).

Lemma after_eq w keys :
  (after w keys).2 = Ok () ->
  Record_ (fun _ => "stamp") (map rej keys) (wr, w) = (((after w keys).1.1, (after w keys).1.2), Ok ()).
Proof. unfold after. destruct (Record_ _ _ _) as [[a b] r]. cbn. by intros ->. Qed.

#[local] Opaque after one_letter cut_letter.

(** ** The theorems there *)

Lemma Record_keeps_letters_witness :
  exists texts path out rest,
    (path = wr_path wr \/ exists now, path = rotated_path (fun _ => "stamp") wr now) /\
    disk (after one_letter ["2"; "3"]).1.2 path = disk one_letter (wr_path wr) +:+ out /\
    Forall2 (made_of wr) (take (length texts) (map rej ["2"; "3"])) texts /\ letters_text texts = out +:+ rest /\
    (Ok () = Ok () :> res dlq_error () -> length texts = length (map rej ["2"; "3"]) /\ rest = "") /\
    forall p, p <> wr_path wr -> p <> path -> disk (after one_letter ["2"; "3"]).1.2 p = disk one_letter p.
Proof.
  refine (proj2 (Record_keeps_letters (fun _ => "stamp") (map rej ["2"; "3"]) wr one_letter
    (after one_letter ["2"; "3"]).1.1 (after one_letter ["2"; "3"]).1.2 (Ok ()) _ _)).
  - apply holds_none.
  - apply after_eq. vm_compute. reflexivity.
Defined.

Lemma Record_bounds_file_witness :
  (slen (disk (after one_letter ["2"; "3"]).1.2 (wr_path wr)) < 4096)%Z.
Proof.
  refine (proj2 (proj2 (Record_bounds_file (fun _ => "stamp") (map rej ["2"; "3"]) wr one_letter
    (after one_letter ["2"; "3"]).1.1 (after one_letter ["2"; "3"]).1.2 _ _ _ _ _))).
  - done.
  - apply holds_none.
  - by intros h.
  - done.
  - apply after_eq. vm_compute. reflexivity.
Defined.


(** The joined line is counted once, and the file can no longer be read. *)
Lemma broken_line_hides_a_letter_witness :
  read_text (disk (after cut_letter ["2"; "3"]).1.2 (wr_path wr)) = Err (EDlqRecord 2) /\
  exists path, (path = wr_path wr \/ exists now, path = rotated_path (fun _ => "stamp") wr now) /\
    count_text (disk (after cut_letter ["2"; "3"]).1.2 path) = (3%Z, true).
Proof.
  split; [vm_compute; reflexivity|].
  refine (broken_line_hides_a_letter (fun _ => "stamp") (rej "2") [rej "3"] wr cut_letter
    (after cut_letter ["2"; "3"]).1.1 (after cut_letter ["2"; "3"]).1.2 (raw_lines (disk one_letter (wr_path wr))) "{" 2
    _ _ _ _ _ _ _ _ _ _ _).
  - done.
  - reflexivity.
  - by apply (plain_rejs ["2"; "3"]); repeat constructor.
  - apply (short_letters ["2"; "3"]). repeat constructor; vm_compute; reflexivity.
  - intros text Hm. pose proof (short_rej "2" text eq_refl Hm) as Hs.
    change (slen (json_MarshalString "2")) with 3%Z in Hs. rewrite slen_app. change (slen "{") with 1%Z. change maxToken with 16777216%Z. lia.
  - apply holds_none.
  - vm_compute. reflexivity.
  - reflexivity.
  - reflexivity.
  - vm_compute. reflexivity.
  - apply (after_eq cut_letter ["2"; "3"]). vm_compute. reflexivity.
Defined.
