(* ===== verification/StartupWitnesses.v ===== *)
(** * A run on a concrete host

    One server that is source, checkpoint store and index at once, with sound
    settings, a table [shop.users], and advisory locks; and the theorems of
    [TableLoader], [Preflight], [Tasks] and [Startup] applied to it. *)

From Stdlib Require Import Ascii.
From S2P Require Import Prelude GoStd GoEncoding GoJson Sql Schema TableLoader Preflight Cdc Config Transform Batcher Sink Checkpoint CheckpointTable Runner DeadLetters Snapshot Binlog Http Elasticsearch ElasticsearchAdmin Supervisor Tasks ClickHouse Wiring Startup Sample BinlogWitnesses ScanWitnesses AdminWitnesses StoreWitnesses.

(** ** Versions and tasks *)

Lemma atLeastVersion_lex_witness :
  atLeastVersion (version_of 10 0 0 +:+ "-log") (version_of 9 9 9) = true /\
  atLeastVersion (version_of 8 0 0 +:+ "") (version_of 8 0 1) = false.
Proof.
  split.
  - apply atLeastVersion_lex; [lia..|reflexivity|lia].
  - apply not_true_is_false. intros Hv. apply atLeastVersion_lex in Hv; [lia..|reflexivity].
Defined.

(** A pipeline fails, the reader's context ends with it. *)
Definition failing : list Tasks.event :=
  [] ++ [Started] ++ [Started] ++ [Ended 0 (Some (Failed "disk"))] ++ [Ended 1 (Some Canceled)].

Lemma stream_reports_first_witness :
  exists g, group_steps failing g /\ stream_result (group_wait g).2 = Some (Failed "disk").
Proof.
  pose proof steps_none as Hg.
  do 2 (eapply steps_snoc in Hg; [|apply step_run]).
  eapply steps_snoc in Hg; [|by apply (step_return 0 (Some (Failed "disk")))].
  eapply steps_snoc in Hg; [|by apply (step_return 1 (Some Canceled))].
  eexists. split; [exact Hg|].
  refine (eq_trans (proj1 (stream_reports_first _ _ Hg _ _)) _).
  - reflexivity.
  - cbn. rewrite !not_elem_of_cons. repeat split; try discriminate. apply not_elem_of_nil.
  - reflexivity.
Defined.

(** ** The host

    The locks are those of [StoreWitnesses]; nothing else changes. *)

#[local] Instance sql_value_eq_dec : EqDecision sql_value.
Proof. solve_decision. Defined.

Definition users_definition : definition :=
  mkDefinition
    [mkDeclared "id" (DInteger "bigint" true) false "" "" "" 20 0 0;
     mkDeclared "name" (DOther "varchar" "varchar(40)") true "" "utf8mb4" "" 0 0 0;
     mkDeclared "mood" (DEnum ["it's"; "a,b)"]) true "" "utf8mb4" "" 0 0 0]
    ["id"].

Definition the_users : list sql_value := [SText "shop"; SText "users"].

Definition variables : list (string * string) :=
  [("version", "8.0.36"); ("log_bin", "ON"); ("binlog_format", "ROW"); ("binlog_row_image", "full");
   ("binlog_row_metadata", "FULL"); ("gtid_mode", "ON"); ("server_id", "1"); ("port", "3306")].

Definition grant_line : string := "GRANT SELECT, REPLICATION SLAVE, REPLICATION CLIENT ON *.* TO `app`@`%`".

Definition answer (stmt : string) (args : list sql_value) : list (list sql_value) :=
  if bool_decide (stmt = columns_query) then
    if bool_decide (args = the_users) then imap column_row (dn_columns users_definition) else []
  else if bool_decide (stmt = key_query) then
    if bool_decide (args = the_users) then map (fun name => [SText name]) (dn_key users_definition) else []
  else if bool_decide (stmt = "SHOW GLOBAL VARIABLES") then map (fun kv => [SText kv.1; SText kv.2]) variables
  else if bool_decide (stmt = "SHOW GRANTS FOR CURRENT_USER()") then [[SText grant_line]]
  else [].

#[local] Instance host_sql : SqlOps Db := {
  sql_Exec _ _ w := (w, Ok ());
  sql_QueryRow _ _ w := (w, Ok None);
  sql_Query stmt args w := (w, Ok (answer stmt args)) }.

#[local] Program Instance host_catalog : Catalog Db := {
  declares _ schema table := if bool_decide ([SText schema; SText table] = the_users) then Some users_definition else None }.
Next Obligation. intros schema table w w' rows [= <- <-]. split; [done|]. unfold answer. rewrite bool_decide_eq_true_2 by done. by case_bool_decide. Qed.
Next Obligation.
  intros schema table w w' rows [= _ <-]. unfold answer. rewrite bool_decide_eq_false_2, bool_decide_eq_true_2 by done. by case_bool_decide.
Qed.
Next Obligation.
  intros w schema table d Hd. cbn in Hd. case_bool_decide; [|done]. injection Hd as <-. split; [done|]. split; [done|].
  repeat constructor; cbn; try lia; try done. all: match goal with |- ?P => exact (bool_decide_unpack P ltac:(vm_compute; exact I)) end.
Qed.

Definition no_locks : Db := mkDb ∅ ∅ 1.


Lemma checkSource_accepts_witness :
  exists vars grants, preflight_Run no_locks = (no_locks, Ok (Evaluate vars grants)) /\ suitable vars grants /\
    vars !! "server_id" <> Some "7".
Proof. refine (checkSource_accepts 7 no_locks no_locks _). vm_compute. reflexivity. Defined.

(** ** The run *)

#[local] Instance host_conn : ConnOps Db := db_conn (fun name => name).

Definition users_mapping : string :=
  object [("users-v2", object [("mappings", object [("properties", object
    [("id", object [("type", json_MarshalString "unsigned_long")]);
     ("name", object [("type", json_MarshalString "keyword")]);
     ("mood", object [("type", json_MarshalString "keyword")])])])])].

#[local] Instance host_http : HttpOps Db := { http_Do req w := (w, Ok (200%Z, users_mapping)) }.

#[local] Instance host_os : OsOps Db := {
  os_MkdirAll _ w := (w, Ok ()); os_OpenAppend _ w := (w, Ok 3%Z); os_Read _ w := (w, Ok "");
  os_Rename _ _ w := (w, Ok ()); file_Size _ w := (w, Ok 0%Z); file_Write _ _ w := (w, Ok ());
  file_Sync _ w := (w, Ok ()); file_Close _ w := (w, Ok ()); path_Glob _ w := (w, Ok []);
  path_Join d f := d +:+ "/" +:+ f; now_UTC _ := 0%Z }.

#[local] Instance host_zone : ZoneOps := { LoadLocation _ := Some () }.
#[local] Instance host_url : UrlOps := {
  url := string; url_Parse := Some; url_Scheme _ := "http"; url_User _ := None;
  url_Database _ := "shop"; url_WithoutUser u := u; url_WithQuery u _ := u }.

#[local] Instance host_locks : LockLaws Db (fun name => name) := db_locks_laws (fun name => name).
#[local] Instance host_frame : LockFrame (fun name => name).
Proof. by constructor. Qed.

Definition users_on (index : string) : Stream :=
  mkStream "users" "shop.users" (st_Snapshot users_config) (st_Batch users_config)
    (mkSinkConfig "elasticsearch" None 1 ["http://es:9200"] index "" "" "") (st_Mapping users_config).

Definition users_run (index : string) : SupervisorT := mkSupervisor users_cfg [users_on index] "/var/dead".

(** The work notes that it ran by opening a connection. *)
Definition working (runs : list StreamRun) (cache : gmap string TableMeta) : eff Db startup_error () := fun w =>
  (mkDb (db_rows w) (held w) (db_next w + 1), Err (EStartTasks (Failed "stopped"))).

Lemma working_keeps runs cache (w : Db) : holder (working runs cache w).1 = holder w.
Proof.
  change (held (mkDb (db_rows w) (held w) (db_next w + 1)) = held w).
  apply (held_set (held w) (mkDb (db_rows w) (held w) (db_next w + 1))). intros k c Hk%held_lt. cbn. lia.
Qed.

Example run_works : Run store (users_run "users-v2") working no_locks = (mkDb ∅ ∅ 3, Err (EStartTasks (Failed "stopped")), []).
Proof. vm_compute. reflexivity. Qed.

Lemma Run_prepares_witness :
  exists runs (w0 : Db), map rn_cfg runs = [users_on "users-v2"] /\
    forall r, r ∈ runs -> prepared r /\ exists l conn, rn_lock r = Some l /\ lk_conn l = Some conn /\
      held w0 !! lock_name (st_Name (rn_cfg r)) = Some conn.
Proof.
  destruct (Run_prepares store (fun name => name) (users_run "users-v2") working no_locks (mkDb ∅ ∅ 3)
    (Err (EStartTasks (Failed "stopped"))) []) as [(runs & cache & w0 & w1 & _ & _ & Hruns & Hall)|(e & _ & Hno)].
  - vm_compute. reflexivity.
  - by exists runs, w0.
  - specialize (Hno (fun _ _ w => (w, Ok ()))). vm_compute in Hno. discriminate.
Defined.

(** A run asked for one stream twice cannot claim it the second time, and gives
    back what it had claimed; somebody else's lock stays. *)
Definition twice : SupervisorT := mkSupervisor users_cfg [users_on "users-v2"; users_on "users-v2"] "/var/dead".
Definition others_lock : Db := mkDb ∅ {["changeflow:orders" := 1%Z]} 2.

Lemma Run_releases_witness :
  let '(w', outcome, warnings) := Run store twice working others_lock in
  outcome = Err (EStartLock (EStreamLocked "users")) /\ warnings = [] /\ held w' = held others_lock.
Proof.
  destruct (Run store twice working others_lock) as [[w' outcome] warnings] eqn:HR.
  pose proof HR as Hrun. vm_compute in Hrun. injection Hrun as Hw Ho Hws. split; [by rewrite <- Ho|]. split; [by rewrite <- Hws|].
  rewrite <- Hws in HR.
  exact (Run_releases store (fun name => name) twice working others_lock w' outcome working_keeps HR).
Defined.
