(* ===== verification/CommandWitnesses.v ===== *)
(** * The commands and the shared reader on concrete inputs

    The theorems of [Address], [Tail], [Commands], [Diagnose] and [Replicate]
    applied where their hypotheses hold, on the servers of [StoreWitnesses] and
    [StartupWitnesses] and on a map of files. *)

From Stdlib Require Import Ascii.
From S2P Require Import Prelude GoStd GoEncoding GoJson Address Sql SqlTable Schema TableLoader Preflight Cdc Config Checkpoint Snapshot Binlog ElasticsearchAdmin Supervisor Tasks Startup Tail CheckpointTable DeadLetters Generate Commands Diagnose Replicate Sample BinlogWitnesses ScanWitnesses StoreWitnesses StartupWitnesses.

(** ** Addresses *)

#[local] Instance one_dsn : DsnLib := { driver_ParseDSN _ := Ok (mkDsnConfig "app" "secret" "tcp" "[2001:db8::1]:3307") }.

Lemma address_of_join_witness :
  addressOf "dsn" = Ok ("2001:db8::1", 3307%Z) /\ splitHostPort "[2001:db8::1]:3307" = Ok ("2001:db8::1", 3307%Z).
Proof.
  apply (address_of_join "dsn" (mkDsnConfig "app" "secret" "tcp" "[2001:db8::1]:3307") "2001:db8::1" 3307);
    try reflexivity; lia.
Defined.

Lemma addresses_agree_witness : splitHostPort "[2001:db8::1]:3307" = Ok ("2001:db8::1", 3307%Z).
Proof.
  refine (addresses_agree "dsn" (mkDsnConfig "app" "secret" "tcp" "[2001:db8::1]:3307") "2001:db8::1" 3307 _ _ _);
    [reflexivity|vm_compute; by eexists|vm_compute; reflexivity].
Defined.

(** ** A checkpoint table asked about and asked to scan again *)

Definition stored_file : Decoded :=
  mkDecoded (d_Source users_file) (mkCheckpointStore "db" "changeflow.checkpoints") (d_Runtime users_file) (d_Streams users_file).
Definition stored_cfg : Config :=
  applyDefaults (mkConfig (d_Source stored_file) (d_Checkpoint stored_file) (d_Runtime stored_file)
    {["users" := named "users" users_stream]}).
#[local] Instance stored_config : ConfigLib := {
  yaml_Decode _ := Some stored_file; known_location _ := true; time_ParseDuration _ := None; is_float _ := false }.
#[local] Instance table_sql : SqlOps Db := db_sql (fun name => name).
#[local] Existing Instance db_time.
#[local] Instance table_conn : ConnOps Db := db_conn (fun name => name).
#[local] Instance table_laws : TableLaws Db (my_table store) (fun name => name) := db_laws (fun name => name).
#[local] Instance table_locks : LockLaws Db (fun name => name) := db_locks_laws (fun name => name).
#[local] Existing Instance host_os.
#[local] Instance table_clock : ClockOps Db := { clock _ := (3 * 10 ^ 9)%Z }.
#[local] Instance plain_quote : QuoteOps := { strconv_Quote s := dq +:+ s +:+ dq }.
#[local] Instance table_process : ProcessOps Db := {
  os_ReadFile _ w := (w, Ok "text"); os_LookupEnv := no_lookup; memory_limit := 2 ^ 63 - 1;
  sql_Open _ w := (w, Ok ()); sql_Ping w := (w, Ok ()); sql_Close w := w }.

#[local] Instance table_quiet {X} (obs : Db -> X) : QuietProcess obs.
Proof. by split. Qed.
#[local] Instance table_files {X} (obs : Db -> X) : QuietFiles obs.
Proof. by split. Qed.

Abbreviation table_rows := (rows : Db -> gmap string (gmap string sql_value)).

Lemma conn_rows (w : Db) conn stmt args : table_rows (conn_QueryRow conn stmt args w).1 = table_rows w.
Proof. cbn. repeat (case_match || case_bool_decide); done. Qed.
#[local] Instance table_conns : QuietConn table_rows.
Proof.
  split; try done.
  - intros c stmt args w. apply conn_rows.
  - intros c stmt args w. cbn. repeat (case_match || case_bool_decide); done.
Qed.

Definition ran : Db := (MySQL_Save store users_row empty_db).1.


Lemma close_keeps (w : Db) : table_rows (sql_Close w) = table_rows w.
Proof. reflexivity. Qed.

Lemma resnapshot_clears_witness :
  let w' := (resnapshot "changeflow.yml" "users" true ("", ran)).1.2 in
  exists old new, table_rows ran !! "users" = Some old /\ without_scan old new /\ table_rows w' !! "users" = Some new.
Proof.
  destruct (resnapshot_clears (my_table store) (10 * 10 ^ 9) (fun name => name) (fun name => name) close_keeps
    "changeflow.yml" "users" true "" ran
    (resnapshot "changeflow.yml" "users" true ("", ran)).1.1 (resnapshot "changeflow.yml" "users" true ("", ran)).1.2 (Ok ()))
    as (_ & _ & old & new & Hold & Hnew & Hrows).
  - intros ow cfg Hc. assert (Config_Load "changeflow.yml" ("", ran) = (("", ran), Ok stored_cfg)) as Hl by (vm_compute; reflexivity).
    rewrite Hl in Hc. injection Hc as _ <-. vm_compute. reflexivity.
  - vm_compute. reflexivity.
  - exists old, new. split; [exact Hold|]. split; [exact Hnew|]. exact (eq_trans (f_equal (fun m => m !! "users") Hrows) (lookup_insert_eq _ _ _)).
Defined.

(** A second request while the first still held the lock, or for a stream that
    never ran, is refused. *)
Example resnapshot_refused :
  (resnapshot "changeflow.yml" "users" false ("", ran)).2 = Err (ECmdUnconfirmed "users" "shop.users") /\
  (resnapshot "changeflow.yml" "users" true ("", empty_db)).2 = Err (ECmdNeverRun "users") /\
  (resnapshot "changeflow.yml" "users" true ("", (Lock store "users" ran).1)).2 = Err (ECmdRunning "users").
Proof. vm_compute. done. Qed.

(** ** Changes printed and captured *)

#[local] Instance sample_tail : TailLib := {
  time_Format _ t := FormatInt t;
  EventType_String type := match type with WRITE_ROWS_EVENTv2 => "WriteRowsEventV2" | UPDATE_ROWS_EVENTv2 => "UpdateRowsEventV2" | _ => "RowsEvent" end }.

(** Files by path. *)
Definition Disk : Type := gmap string string.

#[local] Instance disk_os : OsOps Disk := {
  os_MkdirAll _ w := (w, Ok ()); os_OpenAppend _ w := (w, Ok 3%Z); os_Read _ w := (w, Ok "");
  os_Rename _ _ w := (w, Ok ()); file_Size _ w := (w, Ok 0%Z); file_Write _ _ w := (w, Ok ());
  file_Sync _ w := (w, Ok ()); file_Close _ w := (w, Ok ()); path_Glob _ w := (w, Ok []);
  path_Join d f := d +:+ "/" +:+ f; now_UTC _ := 0%Z }.
#[local] Instance disk_write : FixtureOps Disk := { os_WriteFile path data w := (<[path := data]> w, Ok ()) }.

#[local] Program Instance disk_laws : FixtureLaws (W := Disk) := { files w p := w !! p }.
Next Obligation. intros path data w w' [= <-]. apply lookup_insert_eq. Qed.
Next Obligation. intros path data w p Hp. by apply lookup_insert_ne. Qed.
Next Obligation.
  intros dir a b _ _ Heq. cbn in Heq. apply (f_equal (fun s => drop_str (String.length dir) s)) in Heq.
  rewrite !drop_str_app in Heq. by injection Heq.
Qed.
Next Obligation. by intros []. Qed.

Definition users_map : table_map :=
  mkTableMap "shop" "users" ["id"; "mood"; "tags"] [0]
    (fun i => if bool_decide (i = 1) then Some ["calm"; "loud"] else None)
    (fun i => if bool_decide (i = 2) then Some ["web"; "ios"; "pos"] else None).

Definition shop_events : list raw_event :=
  [mkRawEvent TFormatDescription "fde";
   mkRawEvent (TGTID (Some "uuid:6")) "g6";
   mkRawEvent (TTableMap "shop" "users") "map";
   mkRawEvent (TRows WRITE_ROWS_EVENTv2 users_map [[VInt Int64 1; VInt Int64 2; VInt Int64 5]]) "rows1";
   mkRawEvent (TTableMap "shop" "orders") "other";
   mkRawEvent TXID "xid";
   mkRawEvent (TRows UPDATE_ROWS_EVENTv2 users_map
     [[VInt Int64 1; VInt Int64 2; VInt Int64 5]; [VInt Int64 1; VInt Int64 1; VInt Int64 5]]) "rows2";
   mkRawEvent (TQuery "  DROP   TABLE orders ") "ddl"].

Definition capturing : tail_config := mkTailConfig "db" 3307 "app" "secret" 7 ["Shop.Users"] "/tmp/fx" 0 "5".
Definition stopped_feed : feed := mkFeed None shop_events None.
Definition tailed := Tail (W := Disk) capturing stopped_feed ("", ∅).

Example tail_lines : tailed.1.1 =
  "streaming from 5 as server_id=7" +:+ nl +:+ nl
  +:+ "insert shop.users id=1 mood=loud tags={web,pos}  gtid=uuid:6" +:+ nl
  +:+ "update shop.users id=1 mood: loud -> calm" +:+ nl
  +:+ "query  DROP TABLE orders" +:+ nl
  +:+ nl +:+ "stopped: 2 row events seen, 4 fixtures captured" +:+ nl.
Proof. vm_compute. reflexivity. Qed.

Lemma Tail_captures_witness :
  tailed.1.2 !! "/tmp/fx/0002-writerowseventv2.bin" = Some "rows1" /\
  tailed.1.2 !! "/tmp/fx/0003-updaterowseventv2.bin" = Some "rows2".
Proof.
  destruct (Tail_captures (W := Disk) capturing stopped_feed "" ∅ tailed.1.1 tailed.1.2) as (shown & w1 & _ & Hfiles & _);
    [discriminate|reflexivity|vm_compute; reflexivity|].
  split.
  - apply (Hfiles 2 ("rows1", ("writerowseventv2", "shop.users"))). vm_compute. reflexivity.
  - apply (Hfiles 3 ("rows2", ("updaterowseventv2", "shop.users"))). vm_compute. reflexivity.
Defined.

(** ** The gate before printing *)

#[local] Instance disk_sql : SqlOps Disk := {
  sql_Exec _ _ w := (w, Ok ());
  sql_QueryRow stmt _ w :=
    if bool_decide (stmt = "SELECT @@GLOBAL.gtid_executed") then (w, Ok (Some [SText ("5," +:+ nl +:+ "9")])) else (w, Ok None);
  sql_Query stmt args w := (w, Ok (answer stmt args)) }.
#[local] Instance disk_process : ProcessOps Disk := {
  os_ReadFile _ w := (w, Ok "text"); os_LookupEnv := no_lookup; memory_limit := 2 ^ 63 - 1;
  sql_Open _ w := (w, Ok ()); sql_Ping w := (w, Ok ()); sql_Close w := w }.

Definition tail_request (serverID : Z) : tailRequest := mkTailRequest (mkSourceFlags "dsn" serverID) [] "" 0 false.
Definition nothing (_ : tail_config) : feed := mkFeed None [] None.

(** The position is not one this client reads, which ends printing as it begins. *)
Definition begun := tailChanges (W := Disk) (tail_request 7) nothing ("", ∅).

Example own_id_refused : (tailChanges (W := Disk) (tail_request 1) nothing ("", ∅)).2 = Err (ECmdServerID 1).
Proof. vm_compute. reflexivity. Qed.

Lemma tail_begins_checked_witness :
  begun.2 = Err (ECmdTail (ETailPosition "5,9")) /\
  exists vars grants, suitable vars grants /\ vars !! "server_id" <> Some (FormatUint 7).
Proof.
  assert (begun.2 = Err (ECmdTail (ETailPosition "5,9"))) as Hr by (vm_compute; reflexivity). split; [exact Hr|].
  destruct (tail_begins_checked (W := Disk) (tail_request 7) nothing "" ∅ begun.1 begun.2)
    as (cfg & host & port & vars & grants & gtid & w1 & w2 & ow2 & ow3 & _ & _ & _ & _ & [Hskip|Hfit] & Hid & _);
    [apply surjective_pairing|by rewrite Hr|discriminate|]. by exists vars, grants.
Defined.

(** ** The reader two streams share *)

#[local] Existing Instance sample_scan.
#[local] Instance two_backfill : BackfillOps MemoryStore := {
  source_gtid w := (w, Ok "5"); source_rows _ w := (w, Some 5%Z);
  replica_Open _ w := (w, Ok ()); replica_Close w := w; pipe_Scan _ _ w := (w, (Ok (), None, true));
  sink_AliasTargets _ w := (w, Ok []); sink_BeginBulkLoad _ w := (w, Ok no_settings);
  sink_EndBulkLoad _ _ w := (w, Ok ()); sink_ForceMerge _ w := (w, Ok ()); sink_PromoteAlias _ w := (w, Ok ());
  context_Err w := (w, Ok ()) }.

(** The first has streamed up to 9 before, the second is new. *)
Definition streamed_before : Checkpoint := mkCheckpoint "a" "9" true "" "" 1 5 5 20 1700 "" 1 0.
Definition half_store : MemoryStore := mkMemoryStore {["a" := streamed_before]} 1 0.
Definition two_runtimes : list StreamRuntime := [users_runtime "a"; users_runtime "b"].
Definition both := backfill (W := MemoryStore) "" two_runtimes ∅ half_store.
Definition both_plan : res startup_error (Router * Streamer * Allocator) :=
  match both.2 with Ok positions => reader_plan users_cfg ∅ both.1.1 positions | Err e => Err (EStartScan e) end.

Lemma reader_covers_streams_witness :
  exists router streamer alloc, both_plan = Ok (router, streamer, alloc) /\
    bo_StartGTID (sm_opts streamer) = "5" /\ is_Some (sm_watched streamer !! "shop.users") /\
    exists targets, ro_byTable router !! "shop.users" = Some targets /\ 1 ∈ targets.
Proof.
  destruct both as [[rts w'] [positions|]] eqn:Hb; [|vm_compute in Hb; discriminate].
  destruct both_plan as [[[router streamer] alloc]|] eqn:Hp; [|vm_compute in Hp; discriminate].
  exists router, streamer, alloc. split; [reflexivity|]. split; [vm_compute in Hp; injection Hp as _ <- _; reflexivity|].
  unfold both_plan in Hp. rewrite Hb in Hp. cbn [fst snd] in Hp.
  destruct (rts !! 1) as [rt|] eqn:Hrt; [|vm_compute in Hb; injection Hb as <- _ _; discriminate].
  destruct (reader_covers_streams "" two_runtimes half_store rts w' positions users_cfg ∅ router streamer alloc 1 rt
    Hb Hp Hrt) as (_ & Hw & Ht).
  assert (ToLower (st_Table (sr_cfg rt)) = "shop.users") as Hname
    by (vm_compute in Hb; injection Hb as <- _ _; injection Hrt as <-; reflexivity).
  rewrite Hname in Hw, Ht. by split.
Defined.
