(* ===== verification/PipelineWitnesses.v ===== *)
(** * The theorems about the goroutines of a run, applied

    Two streams of one table behind queues of one event, and a scan of three rows,
    each run by a schedule of its own; one event and one row cannot be transformed. *)

From S2P Require Import Prelude GoStd Schema Cdc Config Transform Batcher Sink Checkpoint Snapshot Tasks Supervisor Runner Delivery Pipelines Sample Witnesses.

#[local] Instance sample_errors : RunnerErrors := { runner_text := fun _ => "failed"; from_context := fun _ => false }.

Definition two_streams : list (string * (Runner * World)) :=
  [("shop.Users", start (sample_runner 1 1000)); ("shop.users", start (sample_runner 2 1000))].
Definition two_started : sys := sys_start two_streams [ev1; ev_short; ev2] (Some "connection lost") 1 1.

(** The second stream's queue is full when the second event comes; then the source
    fails, and the second pipeline is told to stop before it sees its channel
    closed. *)
Definition schedule : list label :=
  [FeedSends; ReaderTakes; ReaderSends; ReaderSends; PipeWakes 0 Takes; FeedSends; ReaderTakes; ReaderSends;
   PipeWakes 1 Takes; ReaderSends; PipeWakes 0 Takes; FeedSends; ReaderTakes; ReaderSends; PipeWakes 1 Takes; ReaderSends;
   PipeWakes 0 Takes; FeedEnds; ReaderTakes; PipeWakes 1 Takes; PipeWakes 1 Cancels;
   PipeWakes 0 Takes].
Definition two_ended : option sys := sys_run schedule two_started.
Definition ended_state : sys := default two_started two_ended.
Definition first_pipe : pipe := default (start_pipe (start (sample_runner 1 1000))) (sy_pipes ended_state !! 0).
Definition first_trace : list effect := trace (pp_world first_pipe).

Lemma streaming_positions_safe_witness :
  exists acked turned, audit (take (length first_trace - 2) first_trace) = Quiet acked turned /\
    covered es_plan [ev1; ev_short; ev2] acked turned saved2.
Proof.
  apply (streaming_positions_safe two_streams [ev1; ev_short; ev2] (Some "connection lost") 1 1 schedule ended_state 0 "shop.Users"
    (sample_runner 1 1000) all_applied first_pipe _ saved2 (Ok ()) [Waited]).
  - vm_compute. reflexivity.
  - reflexivity.
  - vm_compute. reflexivity.
  - apply sample_runner_fresh; done.
  - exact stream_events.
  - vm_compute. reflexivity.
Defined.

Lemma streaming_ends_witness :
  length schedule <= 31 /\
  (Tasks.waited (sy_group ended_state) = false -> exists l s', sys_step l ended_state = Some s' /\ l <> RunStopped).
Proof.
  apply (streaming_ends two_streams (Some "connection lost") 1 1 [ev1; ev_short; ev2] schedule ended_state); [lia|lia|].
  vm_compute. reflexivity.
Defined.

Lemma streaming_never_ends_quietly_witness :
  exists cause i, stream_result (group_wait (sy_group ended_state)).2 = Some (Failed cause) /\
    gr_tasks (sy_group ended_state) !! i = Some (Returned (Some (Failed cause))).
Proof.
  apply (streaming_never_ends_quietly two_streams (Some "connection lost") 1 1 [ev1; ev_short; ev2] "connection lost" schedule ended_state).
  - reflexivity.
  - vm_compute. reflexivity.
  - unfold schedule. rewrite !not_elem_of_cons. split_and!; try discriminate. apply not_elem_of_nil.
  - vm_compute. reflexivity.
Defined.

(** ** A scan *)

Definition scan_schedule : list scan_label :=
  [ScanSends; ScanWakes Takes; ScanSends; ScanWakes Takes; ScanSends; ScanWakes Takes; ScanEnds; ScanWakes Takes].
Definition scan_started : scan_sys := scan_start (start (sample_runner 2 1000)) [scan1; scan_short; scan2] None 1.
Definition scan_ended : scan_sys := default scan_started (scan_steps scan_schedule scan_started).


Lemma scan_ends_witness :
  length scan_schedule <= 13 /\ (scan_outcome scan_ended = None -> exists l s', scan_step l scan_ended = Some s' /\ l <> ScanStopped).
Proof.
  apply (scan_ends (start (sample_runner 2 1000)) [scan1; scan_short; scan2] None 1 scan_schedule scan_ended); [lia|].
  vm_compute. reflexivity.
Defined.
